(** * dttools/src/mq.c : a non-blocking, length-prefixed message transport

    A shallow embedding of the message queue of cctools' dttools
    ([mq.c]) and the properties of its endpoints, wire format and poll
    groups.

    Conventions.
    - Pointers are addresses ([positive]); a nullable pointer is an
      [option].  The three kinds of heap objects the file allocates
      ([struct mq], [struct mq_msg], [struct mq_poll]) live in three finite
      maps; [free] deletes the entry and leaves every copy of the pointer
      dangling, as in C.
    - Every C function is a computation in the monad [M]: it reads and
      updates the [world] and returns a value, fails an [assert], or
      touches memory outside an object.
    - The kernel is part of the world: each socket carries the scripted
      outcomes of the [send] and [recv] calls to come. *)

From Stdlib Require Import ZArith Lia.
From Stdlib Require Import Strings.Byte.
From stdpp Require Import base tactics option list gmap fin_maps fin_sets.

Local Open Scope Z_scope.

(** ** Bytes and machine integers *)

Module Bytes.

Definition byte_to_Z (b : byte) : Z := Z.of_N (Byte.to_N b).

(** Conversion to [uint8_t]: the value modulo 256. *)
Definition byte_of_Z (z : Z) : byte :=
  match Byte.of_N (Z.to_N (z mod 256)) with
  | Some b => b
  | None => x00
  end.

(** The [n] low-order bytes of [v], least significant first. *)
Fixpoint le_bytes (n : nat) (v : Z) : list byte :=
  match n with
  | O => []
  | S k => byte_of_Z v :: le_bytes k (v / 256)
  end.

Fixpoint le_val (bs : list byte) : Z :=
  match bs with
  | [] => 0
  | b :: r => byte_to_Z b + 256 * le_val r
  end.

(** [bswap_64]: the same eight bytes in the opposite order. *)
Definition bswap64 (v : Z) : Z := le_val (rev (le_bytes 8 v)).

(** [htobe64] and [be64toh] of <endian.h>: the identity on a big-endian
    host and a byte swap on a little-endian one. *)
Definition htobe64 (big_endian : bool) (v : Z) : Z :=
  if big_endian then v mod 2 ^ 64 else bswap64 v.
Definition be64toh (big_endian : bool) (v : Z) : Z :=
  if big_endian then v mod 2 ^ 64 else bswap64 v.

(** The memory image of a [uint64_t] and the value of eight bytes of
    memory read as a [uint64_t], in the byte order of the host. *)
Definition store_u64 (big_endian : bool) (v : Z) : list byte :=
  if big_endian then rev (le_bytes 8 v) else le_bytes 8 v.
Definition load_u64 (big_endian : bool) (bs : list byte) : Z :=
  if big_endian then le_val (rev bs) else le_val bs.

End Bytes.

Import Bytes.

Global Instance byte_eq_decision : EqDecision byte := Byte.byte_eq_dec.

(** ** Constants of the C environment

    Values of <errno.h>, <poll.h> and <stdint.h> on Linux/LP64, the
    platform the file is built for. *)

Definition EINTR : Z := 4.
Definition ENOENT : Z := 2.
Definition EBADF : Z := 9.
Definition EAGAIN : Z := 11.
Definition EWOULDBLOCK : Z := 11.
Definition EEXIST : Z := 17.
Definition EINVAL : Z := 22.
Definition EISCONN : Z := 106.
Definition EALREADY : Z := 114.
Definition EINPROGRESS : Z := 115.

Definition POLLIN : Z := 1.
Definition POLLOUT : Z := 4.
Definition POLLERR : Z := 8.
Definition POLLHUP : Z := 16.
Definition POLLNVAL : Z := 32.

Definition PTRDIFF_MAX : Z := 2 ^ 63 - 1.

(** [#define HDR_SIZE sizeof(struct mq_msg_header)]: five bytes of magic,
    two of padding, the type byte, and the 8-byte length at offset 8. *)
Definition HDR_SIZE : Z := 16.

(** [#define HDR_MAGIC "DSmsg"] *)
Definition HDR_MAGIC : list byte := [x44; x53; x6d; x73; x67].

(** Offsets of the fields of [struct mq_msg_header]. *)
Definition OFF_MAGIC : nat := 0.
Definition OFF_TYPE : nat := 7.
Definition OFF_LENGTH : nat := 8.

(** ** Data model *)

(** [enum mq_msg_type]; the only enumerator. *)
Definition MQ_MSG_BUFFER : Z := 0.

Inductive mq_socket : Set :=
| MQ_SOCKET_SERVER
| MQ_SOCKET_INPROGRESS
| MQ_SOCKET_CONNECTED
| MQ_SOCKET_ERROR.

Global Instance mq_socket_eq_dec : EqDecision mq_socket.
Proof. solve_decision. Defined.

(** [struct mq_msg].  [hdr] is the memory image of the
    [struct mq_msg_header] member (16 bytes); [buf] is the allocated
    region [buf] points to (empty for a null pointer). *)
Record mq_msg : Type := MqMsg {
  type : Z;
  len : Z;
  buf : list byte;
  hdr : list byte;
  parsed_header : bool;
  hdr_pos : Z;
  buf_pos : Z
}.

(** [struct mq].  [link] is the descriptor of the stream socket;
    [send] is the list of queued messages, head first. *)
Record mq : Type := Mq {
  link : Z;
  state : mq_socket;
  acc : option positive;
  send : list positive;
  err : Z;
  recv : option positive;
  send_buf : option positive;
  recv_buf : option positive;
  poll_group : option positive
}.

(** [struct mq_poll].

    Modelled from the spec: the containers of dttools ([itable], [set],
    [list]) are not part of the sources at hand.  [members] is the
    mapping from endpoint identity to user tag, the three readiness sets
    are finite sets of endpoints. *)
Record mq_poll : Type := MqPoll {
  members : gmap positive positive;
  acceptable : gset positive;
  readable : gset positive;
  error : gset positive
}.

(** *** The kernel side of a socket

    [rx] scripts what the coming [recv] calls find: a chunk of bytes
    that has arrived, the end of the stream, or a failure with an errno;
    an empty script is a socket with nothing to read.  [tx] scripts how
    many bytes the coming [send] calls take.  [sent] collects the bytes
    written so far, [so_error] is the pending error of a non-blocking
    connect, [backlog] the connections waiting to be accepted. *)
Inductive rx_event : Type :=
| RxData (b : byte) (bs : list byte)
| RxEof
| RxErr (e : Z).

Inductive tx_event : Type :=
| TxAccept (k : positive)
| TxZero
| TxErr (e : Z).

Record sock : Type := Sock {
  rx : list rx_event;
  tx : list tx_event;
  sent : list byte;
  so_error : Z;
  backlog : list Z
}.

Record world : Type := World {
  mqs : gmap positive mq;
  msgs : gmap positive mq_msg;
  polls : gmap positive mq_poll;
  brk : positive;
  errno : Z;
  socks : gmap Z sock;
  now : Z;
  big_endian : bool
}.

(** Field updates. *)
Definition set_hdr (v : list byte) (m : mq_msg) : mq_msg :=
  MqMsg (type m) (len m) (buf m) v (parsed_header m) (hdr_pos m) (buf_pos m).
Definition set_hdr_pos (v : Z) (m : mq_msg) : mq_msg :=
  MqMsg (type m) (len m) (buf m) (hdr m) (parsed_header m) v (buf_pos m).
Definition set_buf_pos (v : Z) (m : mq_msg) : mq_msg :=
  MqMsg (type m) (len m) (buf m) (hdr m) (parsed_header m) (hdr_pos m) v.
Definition set_buf (v : list byte) (m : mq_msg) : mq_msg :=
  MqMsg (type m) (len m) v (hdr m) (parsed_header m) (hdr_pos m) (buf_pos m).

Definition set_link (v : Z) (m : mq) : mq :=
  Mq v (state m) (acc m) (send m) (err m) (recv m) (send_buf m) (recv_buf m) (poll_group m).
Definition set_state (v : mq_socket) (m : mq) : mq :=
  Mq (link m) v (acc m) (send m) (err m) (recv m) (send_buf m) (recv_buf m) (poll_group m).
Definition set_acc (v : option positive) (m : mq) : mq :=
  Mq (link m) (state m) v (send m) (err m) (recv m) (send_buf m) (recv_buf m) (poll_group m).
Definition set_send (v : list positive) (m : mq) : mq :=
  Mq (link m) (state m) (acc m) v (err m) (recv m) (send_buf m) (recv_buf m) (poll_group m).
Definition set_err (v : Z) (m : mq) : mq :=
  Mq (link m) (state m) (acc m) (send m) v (recv m) (send_buf m) (recv_buf m) (poll_group m).
Definition set_recv (v : option positive) (m : mq) : mq :=
  Mq (link m) (state m) (acc m) (send m) (err m) v (send_buf m) (recv_buf m) (poll_group m).
Definition set_send_buf (v : option positive) (m : mq) : mq :=
  Mq (link m) (state m) (acc m) (send m) (err m) (recv m) v (recv_buf m) (poll_group m).
Definition set_recv_buf (v : option positive) (m : mq) : mq :=
  Mq (link m) (state m) (acc m) (send m) (err m) (recv m) (send_buf m) v (poll_group m).
Definition set_poll_group (v : option positive) (m : mq) : mq :=
  Mq (link m) (state m) (acc m) (send m) (err m) (recv m) (send_buf m) (recv_buf m) v.

Definition set_members (v : gmap positive positive) (g : mq_poll) : mq_poll :=
  MqPoll v (acceptable g) (readable g) (error g).
Definition set_acceptable (v : gset positive) (g : mq_poll) : mq_poll :=
  MqPoll (members g) v (readable g) (error g).
Definition set_readable (v : gset positive) (g : mq_poll) : mq_poll :=
  MqPoll (members g) (acceptable g) v (error g).
Definition set_error (v : gset positive) (g : mq_poll) : mq_poll :=
  MqPoll (members g) (acceptable g) (readable g) v.

Definition set_rx (v : list rx_event) (s : sock) : sock :=
  Sock v (tx s) (sent s) (so_error s) (backlog s).
Definition set_tx (v : list tx_event) (s : sock) : sock :=
  Sock (rx s) v (sent s) (so_error s) (backlog s).
Definition set_sent (v : list byte) (s : sock) : sock :=
  Sock (rx s) (tx s) v (so_error s) (backlog s).
Definition set_backlog (v : list Z) (s : sock) : sock :=
  Sock (rx s) (tx s) (sent s) (so_error s) v.

Definition set_mqs (v : gmap positive mq) (w : world) : world :=
  World v (msgs w) (polls w) (brk w) (errno w) (socks w) (now w) (big_endian w).
Definition set_msgs (v : gmap positive mq_msg) (w : world) : world :=
  World (mqs w) v (polls w) (brk w) (errno w) (socks w) (now w) (big_endian w).
Definition set_polls (v : gmap positive mq_poll) (w : world) : world :=
  World (mqs w) (msgs w) v (brk w) (errno w) (socks w) (now w) (big_endian w).
Definition set_brk (v : positive) (w : world) : world :=
  World (mqs w) (msgs w) (polls w) v (errno w) (socks w) (now w) (big_endian w).
Definition set_errno (v : Z) (w : world) : world :=
  World (mqs w) (msgs w) (polls w) (brk w) v (socks w) (now w) (big_endian w).
Definition set_socks (v : gmap Z sock) (w : world) : world :=
  World (mqs w) (msgs w) (polls w) (brk w) (errno w) v (now w) (big_endian w).
Definition set_now (v : Z) (w : world) : world :=
  World (mqs w) (msgs w) (polls w) (brk w) (errno w) (socks w) v (big_endian w).

(** ** The monad of C computations

    A call returns a value and a new world ([Ret]), fails an [assert]
    ([Abort]), has undefined behaviour because it reads, writes or frees
    memory that is not an allocated object ([Fault]), or does not return
    within the bound on its recursion ([Stuck]). *)

Inductive result (A : Type) : Type :=
| Ret (a : A) (w : world)
| Abort
| Fault
| Stuck.
Arguments Ret {A} a w.
Arguments Abort {A}.
Arguments Fault {A}.
Arguments Stuck {A}.

Definition M (A : Type) : Type := world -> result A.

Global Instance M_ret : MRet M := fun A a w => Ret a w.
Global Instance M_bind : MBind M := fun A B f c w =>
  match c w with
  | Ret a w' => f a w'
  | Abort => Abort
  | Fault => Fault
  | Stuck => Stuck
  end.

Definition gets {A : Type} (f : world -> A) : M A := fun w => Ret (f w) w.
Definition modify (f : world -> world) : M unit := fun w => Ret tt (f w).
Definition abort {A : Type} : M A := fun _ => Abort.
Definition fault {A : Type} : M A := fun _ => Fault.
Definition stuck {A : Type} : M A := fun _ => Stuck.

(** [assert(b)] *)
Definition assert (b : bool) : M unit := if b then mret tt else abort.

(** Dereferencing a pointer: the object must be allocated. *)
Definition deref {A : Type} (o : option A) : M A :=
  match o with
  | Some a => mret a
  | None => fault
  end.

Definition get_mq (p : positive) : M mq := fun w => deref (mqs w !! p) w.
Definition get_msg (p : positive) : M mq_msg := fun w => deref (msgs w !! p) w.
Definition get_poll (p : positive) : M mq_poll := fun w => deref (polls w !! p) w.

(** An assignment through a pointer, [p->field = ...]. *)
Definition upd_mq (p : positive) (f : mq -> mq) : M unit :=
  m ← get_mq p; modify (fun w => set_mqs (<[p := f m]> (mqs w)) w).
Definition upd_msg (p : positive) (f : mq_msg -> mq_msg) : M unit :=
  m ← get_msg p; modify (fun w => set_msgs (<[p := f m]> (msgs w)) w).
Definition upd_poll (p : positive) (f : mq_poll -> mq_poll) : M unit :=
  g ← get_poll p; modify (fun w => set_polls (<[p := f g]> (polls w)) w).

(** [malloc]: a fresh address. *)
Definition malloc : M positive :=
  fun w => Ret (brk w) (set_brk (Pos.succ (brk w)) w).

(** [free]: the object must be allocated (a second [free] is a fault). *)
Definition free_mq (p : positive) : M unit :=
  _ ← get_mq p; modify (fun w => set_mqs (delete p (mqs w)) w).
Definition free_msg (p : positive) : M unit :=
  _ ← get_msg p; modify (fun w => set_msgs (delete p (msgs w)) w).
Definition free_poll (p : positive) : M unit :=
  _ ← get_poll p; modify (fun w => set_polls (delete p (polls w)) w).

(** ** Memory accesses and system calls *)

(** The [n] bytes at byte offset [off] of an object; [None] when the
    range is not inside the object. *)
Definition mem_read (obj : list byte) (off n : Z) : option (list byte) :=
  if bool_decide (0 <= off /\ 0 <= n /\ off + n <= Z.of_nat (length obj))
  then Some (take (Z.to_nat n) (drop (Z.to_nat off) obj))
  else None.

(** The object after [data] is stored at byte offset [off]. *)
Definition mem_write (obj : list byte) (off : Z) (data : list byte)
  : option (list byte) :=
  if bool_decide (0 <= off /\ off + Z.of_nat (length data) <= Z.of_nat (length obj))
  then Some (take (Z.to_nat off) obj ++ data
             ++ drop (Z.to_nat off + length data) obj)
  else None.

(** A store to a member of a structure, at an offset inside it. *)
Definition splice (obj : list byte) (off : nat) (data : list byte) : list byte :=
  take off obj ++ data ++ drop (off + length data) obj.

(** [send(fd, obj + off, n, 0)].  The kernel takes the first
    [min(k, n)] bytes found at the address, or fails and sets [errno].
    A descriptor with nothing scripted is not ready ([EAGAIN]). *)
Definition sys_send (fd : Z) (obj : list byte) (off n : Z) : M Z := fun w =>
  match socks w !! fd with
  | None => Ret (-1) (set_errno EBADF w)
  | Some s =>
    match tx s with
    | [] => Ret (-1) (set_errno EAGAIN w)
    | TxErr e :: t =>
        Ret (-1) (set_errno e (set_socks (<[fd := set_tx t s]> (socks w)) w))
    | TxZero :: t =>
        Ret 0 (set_socks (<[fd := set_tx t s]> (socks w)) w)
    | TxAccept k :: t =>
        let c := Z.min (Z.pos k) n in
        match mem_read obj off c with
        | None => Fault
        | Some bytes =>
            Ret c (set_socks
                     (<[fd := set_sent (sent s ++ bytes) (set_tx t s)]> (socks w)) w)
        end
    end
  end.

(** The kernel half of [recv(fd, dst, n, 0)]: the return value and the
    bytes to be stored at [dst] (at most [n] of the chunk that has
    arrived; the rest of the chunk stays queued). *)
Definition sys_recv (fd : Z) (n : Z) : M (Z * list byte) := fun w =>
  match socks w !! fd with
  | None => Ret (-1, []) (set_errno EBADF w)
  | Some s =>
    match rx s with
    | [] => Ret (-1, []) (set_errno EAGAIN w)
    | RxErr e :: t =>
        Ret (-1, []) (set_errno e (set_socks (<[fd := set_rx t s]> (socks w)) w))
    | RxEof :: t => Ret (0, []) w
    | RxData b bs :: t =>
        let got := take (Z.to_nat n) (b :: bs) in
        let left := match drop (Z.to_nat n) (b :: bs) with
                    | [] => t
                    | b' :: bs' => RxData b' bs' :: t
                    end in
        Ret (Z.of_nat (length got), got)
            (set_socks (<[fd := set_rx left s]> (socks w)) w)
    end
  end.

(** [getsockopt(fd, SOL_SOCKET, SO_ERROR, &err, &size)]: the return code
    and the pending error. *)
Definition sys_getsockopt_error (fd : Z) : M (Z * Z) := fun w =>
  match socks w !! fd with
  | None => Ret (-1, 0) (set_errno EBADF w)
  | Some s => Ret (0, so_error s) w
  end.

(** [link_accept(link, LINK_NOWAIT)]: the next waiting connection, or a
    null link. *)
Definition link_accept (fd : Z) : M (option Z) := fun w =>
  match socks w !! fd with
  | None => Ret None (set_errno EBADF w)
  | Some s =>
    match backlog s with
    | [] => Ret None (set_errno EAGAIN w)
    | c :: t => Ret (Some c) (set_socks (<[fd := set_backlog t s]> (socks w)) w)
    end
  end.

(** [link_close]: the descriptor is gone. *)
Definition link_close (fd : Z) : M unit :=
  modify (fun w => set_socks (delete fd (socks w)) w).

(** ** Messages *)

(** [msg_create]: [xxcalloc(1, sizeof(struct mq_msg))]. *)
Definition zero_msg : mq_msg :=
  MqMsg 0 0 [] (replicate 16 x00) false 0 0.

Definition msg_create : M positive :=
  p ← malloc; modify (fun w => set_msgs (<[p := zero_msg]> (msgs w)) w);; mret p.

(** [delete_msg]: frees the buffer and the message. *)
Definition delete_msg (o : option positive) : M unit :=
  match o with
  | None => mret tt
  | Some p => free_msg p
  end.

(** [mq_msg_delete] *)
Definition mq_msg_delete (o : option positive) : M unit :=
  match o with
  | None => mret tt
  | Some p => delete_msg (Some p)
  end.

(** [write_header]: the three stores into [msg->hdr]. *)
Definition write_header (be : bool) (msg : mq_msg) : mq_msg :=
  let h1 := splice (hdr msg) OFF_MAGIC HDR_MAGIC in
  let h2 := splice h1 OFF_TYPE [byte_of_Z (type msg)] in
  let h3 := splice h2 OFF_LENGTH (store_u64 be (htobe64 be (len msg))) in
  set_hdr h3 msg.

(** The members of the received header. *)
Definition hdr_magic (h : list byte) : list byte := take 5 (drop OFF_MAGIC h).
Definition hdr_type (h : list byte) : Z :=
  match drop OFF_TYPE h with
  | b :: _ => byte_to_Z b
  | [] => 0
  end.
Definition hdr_length (be : bool) (h : list byte) : Z :=
  load_u64 be (take 8 (drop OFF_LENGTH h)).

(** The branch of [flush_recv] that runs once the header is complete:
    [None] when [memcmp] finds another magic; otherwise the type and the
    length are taken from the header and [len + 1] bytes are allocated
    (the size is a [size_t]; memory is assumed not to run out). *)
Definition parse_header (be : bool) (rcv : mq_msg) : option mq_msg :=
  if bool_decide (hdr_magic (hdr rcv) = HDR_MAGIC) then
    let l := be64toh be (hdr_length be (hdr rcv)) in
    Some (MqMsg (hdr_type (hdr rcv)) l
                (replicate (Z.to_nat ((l + 1) mod 2 ^ 64)) x00)
                (hdr rcv) true (hdr_pos rcv) (buf_pos rcv))
  else None.

(** [mq_wrap_buffer]: a fresh [BUFFER] message owning a copy of the
    bytes. *)
Definition mq_wrap_buffer (b : list byte) : M positive :=
  out ← msg_create;
  upd_msg out (fun m => MqMsg MQ_MSG_BUFFER (Z.of_nat (length b)) b (hdr m)
                              (parsed_header m) (hdr_pos m) (buf_pos m));;
  mret out.

(** [mq_unwrap_buffer]: the buffer of a [BUFFER] message, whose wrapper is
    freed; nothing for another type. *)
Definition mq_unwrap_buffer (msg : positive) : M (option (list byte)) :=
  m ← get_msg msg;
  if bool_decide (type m = MQ_MSG_BUFFER)
  then free_msg msg;; mret (Some (buf m))
  else mret None.

(** ** Endpoints *)

Definition errno_is_temporary (e : Z) : bool :=
  bool_decide (e = EINTR \/ e = EWOULDBLOCK \/ e = EAGAIN \/ e = EINPROGRESS
               \/ e = EALREADY \/ e = EISCONN).

(** [mq_create]: a zeroed [struct mq] with an empty send list. *)
Definition zero_mq : mq :=
  Mq 0 MQ_SOCKET_SERVER None [] 0 None None None None.

Definition mq_create : M positive :=
  p ← malloc; modify (fun w => set_mqs (<[p := zero_mq]> (mqs w)) w);; mret p.

(** The loop of [mq_die] over the send list: every message is deleted,
    the list keeps its cells. *)
Fixpoint delete_all (l : list positive) : M unit :=
  match l with
  | [] => mret tt
  | msg :: t => mq_msg_delete (Some msg);; delete_all t
  end.

(** [mq_close], with the [mq_die] it calls as a parameter ([mq_die] and
    [mq_close] call each other along the chain of [acc] pointers). *)
Definition mq_close_with (die : positive -> Z -> M unit) (o : option positive)
  : M unit :=
  match o with
  | None => mret tt
  | Some p =>
      die p 0;;
      m ← get_mq p;
      match poll_group m with
      | Some g => upd_poll g (fun ps => set_members (delete p (members ps)) ps)
      | None => mret tt
      end;;
      link_close (link m);;
      free_mq p
  end.

(** [mq_die].  The pointers to the deleted messages and to the closed
    child stay in the endpoint. *)
Fixpoint mq_die_rec (fuel : nat) (p : positive) (e : Z) : M unit :=
  match fuel with
  | O => stuck
  | S fuel' =>
      upd_mq p (fun m => set_err e (set_state MQ_SOCKET_ERROR m));;
      m ← get_mq p;
      mq_close_with (mq_die_rec fuel') (acc m);;
      m ← get_mq p;
      mq_msg_delete (send_buf m);;
      mq_msg_delete (recv_buf m);;
      mq_msg_delete (recv m);;
      delete_all (send m);;
      match poll_group m with
      | Some g =>
          upd_poll g (fun ps => set_acceptable (acceptable ps ∖ {[p]}) ps);;
          upd_poll g (fun ps => set_readable (readable ps ∖ {[p]}) ps);;
          if bool_decide (e = 0)
          then upd_poll g (fun ps => set_error (error ps ∖ {[p]}) ps)
          else upd_poll g (fun ps => set_error ({[p]} ∪ error ps) ps)
      | None => mret tt
      end
  end.

(** A chain of [acc] pointers without a cycle is shorter than the number
    of endpoints. *)
Definition mq_die (p : positive) (e : Z) : M unit :=
  fun w => mq_die_rec (S (size (mqs w))) p e w.

Definition mq_close (o : option positive) : M unit := mq_close_with mq_die o.

(** [mq_geterror] *)
Definition mq_geterror (p : positive) : M Z :=
  m ← get_mq p;
  if bool_decide (state m ≠ MQ_SOCKET_ERROR) then mret 0 else mret (err m).

(** *** The send path *)

(** [flush_send].  [&snd->hdr + snd->hdr_pos] is arithmetic on a
    [struct mq_msg_header *]: the address moves by [hdr_pos] whole
    headers, [HDR_SIZE * hdr_pos] bytes.  [snd->buf + snd->buf_pos] is
    arithmetic on a [void *], which moves by bytes. *)
Fixpoint flush_send_loop (fuel : nat) (p : positive) : M Z :=
  match fuel with
  | O => stuck
  | S fuel' =>
      m ← get_mq p;
      let socket := link m in
      cur ← match send_buf m with
            | Some sp => mret (Some sp)
            | None =>
                match send m with
                | [] => mret None
                | sp :: rest =>
                    upd_mq p (fun m => set_send_buf (Some sp) (set_send rest m));;
                    be ← gets big_endian;
                    upd_msg sp (write_header be);;
                    mret (Some sp)
                end
            end;
      match cur with
      | None => mret 0
      | Some sp =>
          snd ← get_msg sp;
          assert (bool_decide (len snd < PTRDIFF_MAX));;
          if bool_decide (hdr_pos snd < HDR_SIZE) then
            s ← sys_send socket (hdr snd) (HDR_SIZE * hdr_pos snd)
                         (HDR_SIZE - hdr_pos snd);
            e ← gets errno;
            if bool_decide (s = -1) && errno_is_temporary e then mret 0
            else if bool_decide (s <= 0) then mret (-1)
            else upd_msg sp (fun x => set_hdr_pos (hdr_pos x + s) x);;
                 flush_send_loop fuel' p
          else if bool_decide (buf_pos snd < len snd) then
            s ← sys_send socket (buf snd) (buf_pos snd) (len snd - buf_pos snd);
            e ← gets errno;
            if bool_decide (s = -1) && errno_is_temporary e then mret 0
            else if bool_decide (s <= 0) then mret (-1)
            else upd_msg sp (fun x => set_buf_pos (buf_pos x + s) x);;
                 flush_send_loop fuel' p
          else
            delete_msg (Some sp);;
            upd_mq p (set_send_buf None);;
            flush_send_loop fuel' p
      end
  end.

(** Every turn of the loop but the last ends a message or makes a
    [send] call that the kernel serves from the script. *)
Definition flush_send_fuel (p : positive) (w : world) : nat :=
  match mqs w !! p with
  | Some m =>
      3 + length (send m)
      + match socks w !! link m with Some s => length (tx s) | None => 0 end
  | None => 1
  end.

Definition flush_send (p : positive) : M Z :=
  fun w => flush_send_loop (flush_send_fuel p w) p w.

(** *** The receive path *)

(** [flush_recv]; the kernel's bytes are stored at the address the call
    was given, [&rcv->hdr + rcv->hdr_pos] for the header. *)
Fixpoint flush_recv_loop (fuel : nat) (p : positive) : M Z :=
  match fuel with
  | O => stuck
  | S fuel' =>
      m ← get_mq p;
      let socket := link m in
      if bool_decide (is_Some (recv m)) then mret 0 else
      rp ← match recv_buf m with
           | Some rp => mret rp
           | None =>
               rp ← msg_create;
               upd_mq p (set_recv_buf (Some rp));;
               mret rp
           end;
      rcv ← get_msg rp;
      assert (bool_decide (len rcv < PTRDIFF_MAX));;
      if bool_decide (hdr_pos rcv < HDR_SIZE) then
        '(r, data) ← sys_recv socket (HDR_SIZE - hdr_pos rcv);
        e ← gets errno;
        if bool_decide (r = -1) && errno_is_temporary e then mret 0
        else if bool_decide (r <= 0) then mret (-1)
        else
          h ← deref (mem_write (hdr rcv) (HDR_SIZE * hdr_pos rcv) data);
          upd_msg rp (fun x => set_hdr_pos (hdr_pos x + r) (set_hdr h x));;
          flush_recv_loop fuel' p
      else if negb (parsed_header rcv) then
        be ← gets big_endian;
        match parse_header be rcv with
        | None => mret (-1)
        | Some rcv' =>
            b ← deref (mem_write (buf rcv') (len rcv') [x00]);
            upd_msg rp (fun _ => set_buf b rcv');;
            flush_recv_loop fuel' p
        end
      else if bool_decide (buf_pos rcv < len rcv) then
        '(r, data) ← sys_recv socket (len rcv - buf_pos rcv);
        e ← gets errno;
        if bool_decide (r = -1) && errno_is_temporary e then mret 0
        else if bool_decide (r <= 0) then mret (-1)
        else
          b ← deref (mem_write (buf rcv) (buf_pos rcv) data);
          upd_msg rp (fun x => set_buf_pos (buf_pos x + r) (set_buf b x));;
          flush_recv_loop fuel' p
      else
        upd_mq p (fun m => set_recv_buf None (set_recv (recv_buf m) m));;
        flush_recv_loop fuel' p
  end.

(** The bytes the script of a socket still holds. *)
Fixpoint rx_weight (l : list rx_event) : nat :=
  match l with
  | [] => 0
  | RxData b bs :: t => S (length bs) + rx_weight t
  | _ :: t => rx_weight t
  end.

(** Every turn of the loop but four reads at least one byte. *)
Definition flush_recv_fuel (p : positive) (w : world) : nat :=
  match mqs w !! p with
  | Some m =>
      4 + match socks w !! link m with Some s => rx_weight (rx s) | None => 0 end
  | None => 1
  end.

Definition flush_recv (p : positive) : M Z :=
  fun w => flush_recv_loop (flush_recv_fuel p w) p w.

(** *** Readiness *)

(** [revents & bit] *)
Definition has_bit (bit v : Z) : bool := negb (Z.land v bit =? 0).

(** [poll_events] *)
Definition poll_events (m : mq) : Z :=
  let out := 0 in
  let want_in (out : Z) :=
    if negb (bool_decide (is_Some (acc m))) && negb (bool_decide (is_Some (recv m)))
    then Z.lor out POLLIN else out in
  match state m with
  | MQ_SOCKET_INPROGRESS => Z.lor out POLLOUT
  | MQ_SOCKET_CONNECTED =>
      let out :=
        if bool_decide (is_Some (send_buf m)) || negb (Nat.eqb (length (send m)) 0)
        then Z.lor out POLLOUT else out in
      want_in out
  | MQ_SOCKET_SERVER => want_in out
  | MQ_SOCKET_ERROR => out
  end.

(** [update_poll_group] *)
Definition update_poll_group (p : positive) : M unit :=
  m ← get_mq p;
  match poll_group m with
  | None => mret tt
  | Some g =>
      (if bool_decide (state m = MQ_SOCKET_ERROR)
       then upd_poll g (fun ps => set_error ({[p]} ∪ error ps) ps)
       else mret tt);;
      (if bool_decide (is_Some (recv m))
       then upd_poll g (fun ps => set_readable ({[p]} ∪ readable ps) ps)
       else mret tt);;
      (if bool_decide (is_Some (acc m))
       then upd_poll g (fun ps => set_acceptable ({[p]} ∪ acceptable ps) ps)
       else mret tt)
  end.

(** [handle_revents], for the [revents] of the endpoint's [pollfd]. *)
Definition handle_revents (revents : Z) (p : positive) : M Z :=
  m ← get_mq p;
  rc ← match state m with
       | MQ_SOCKET_ERROR => mret 0
       | MQ_SOCKET_INPROGRESS =>
           if has_bit POLLOUT revents then
             '(rc, e) ← sys_getsockopt_error (link m);
             assert (bool_decide (rc = 0));;
             (if bool_decide (e = 0)
              then upd_mq p (set_state MQ_SOCKET_CONNECTED)
              else mq_die p e);;
             mret rc
           else mret 0
       | MQ_SOCKET_CONNECTED =>
           rc ← (if has_bit POLLOUT revents then flush_send p else mret 0);
           if bool_decide (rc = -1) then
             e ← gets errno; mq_die p e;; mret rc
           else
             rc ← (if has_bit POLLIN revents then flush_recv p else mret rc);
             if bool_decide (rc = -1) then
               e ← gets errno; mq_die p e;; mret rc
             else mret rc
       | MQ_SOCKET_SERVER =>
           if has_bit POLLIN revents then
             l ← link_accept (link m);
             c ← match l with Some c => mret c | None => abort end;
             m' ← get_mq p;
             assert (negb (bool_decide (is_Some (acc m'))));;
             out ← mq_create;
             upd_mq out (set_link c);;
             upd_mq out (set_state MQ_SOCKET_CONNECTED);;
             upd_mq p (set_acc (Some out));;
             mret 0
           else mret 0
       end;
  update_poll_group p;;
  mret rc.

(** *** The calls of the interface *)

(** [mq_send] *)
Definition mq_send (p msg : positive) : M unit :=
  upd_mq p (fun m => set_send (send m ++ [msg]) m).

(** [mq_recv] *)
Definition mq_recv (p : positive) : M (option positive) :=
  m ← get_mq p;
  let out := recv m in
  upd_mq p (set_recv None);;
  match poll_group m with
  | Some g => upd_poll g (fun ps => set_readable (readable ps ∖ {[p]}) ps)
  | None => mret tt
  end;;
  mret out.

(** [mq_serve] and [mq_connect], given the link that
    [link_serve_address] or [link_connect] returns. *)
Definition mq_serve (l : option Z) : M (option positive) :=
  match l with
  | None => mret None
  | Some fd =>
      out ← mq_create;
      upd_mq out (set_link fd);;
      upd_mq out (set_state MQ_SOCKET_SERVER);;
      mret (Some out)
  end.

Definition mq_connect (l : option Z) : M (option positive) :=
  match l with
  | None => mret None
  | Some fd =>
      out ← mq_create;
      upd_mq out (set_link fd);;
      upd_mq out (set_state MQ_SOCKET_INPROGRESS);;
      mret (Some out)
  end.

(** [mq_accept] *)
Definition mq_accept (p : positive) : M (option positive) :=
  m ← get_mq p;
  let out := acc m in
  upd_mq p (set_acc None);;
  match poll_group m with
  | Some g => upd_poll g (fun ps => set_acceptable (acceptable ps ∖ {[p]}) ps)
  | None => mret tt
  end;;
  mret out.

(** *** Sleeping in [ppoll] *)

Record pollfd : Type := Pollfd {
  fd : Z;
  events : Z;
  revents : Z
}.

(** What wakes a [ppoll]: descriptors that became ready (at time [t],
    with the conditions [r fd] on descriptor [fd]), or a failure with an
    errno.  Without an event the call sleeps until its timeout. *)
Inductive pevent : Type :=
| PReady (t : Z) (r : Z -> Z)
| PFail (t : Z) (e : Z).

Definition report (r : Z -> Z) (f : pollfd) : pollfd :=
  Pollfd (fd f) (events f)
         (Z.land (r (fd f)) (Z.lor (events f) (Z.lor POLLERR (Z.lor POLLHUP POLLNVAL)))).

Definition sys_ppoll (ev : option pevent) (pfds : list pollfd) (timeout : Z)
  : M (Z * list pollfd) := fun w =>
  match ev with
  | None =>
      Ret (0, (fun f => Pollfd (fd f) (events f) 0) <$> pfds)
          (set_now (now w + timeout) w)
  | Some (PFail t e) => Ret (-1, pfds) (set_errno e (set_now t w))
  | Some (PReady t r) =>
      let pfds' := report r <$> pfds in
      Ret (Z.of_nat (length (filter (fun f => revents f ≠ 0) pfds')), pfds')
          (set_now t w)
  end.

(** One turn of the loop of [mq_wait]; [continue] is the next turn. *)
Definition mq_wait_turn (ev : option pevent) (continue : pollfd -> M Z)
    (p : positive) (stoptime : Z) (pfd : pollfd) : M Z :=
  m ← get_mq p;
  let pfd := Pollfd (fd pfd) (poll_events m) (revents pfd) in
  rc ← handle_revents (revents pfd) p;
  if bool_decide (rc = -1) then mret (-1) else
  m ← get_mq p;
  if bool_decide (is_Some (recv m)) || bool_decide (is_Some (acc m)) then mret 1 else
  t ← gets now;
  if bool_decide (stoptime - t < 0) then mret 0 else
  '(rc, pfds) ← sys_ppoll ev [pfd] (stoptime - t);
  if bool_decide (rc > 0) then
    match pfds with
    | f :: _ => continue f
    | [] => fault
    end
  else
    e ← gets errno;
    if bool_decide (rc = 0) || (bool_decide (rc = -1) && bool_decide (e = EINTR))
    then mret 0 else mret (-1).

Fixpoint mq_wait_loop (evs : list pevent) (p : positive) (stoptime : Z)
    (pfd : pollfd) : M Z :=
  match evs with
  | [] => mq_wait_turn None (fun _ => stuck) p stoptime pfd
  | ev :: rest => mq_wait_turn (Some ev) (mq_wait_loop rest p stoptime) p stoptime pfd
  end.

(** [mq_wait], woken by the events [evs]. *)
Definition mq_wait (evs : list pevent) (p : positive) (stoptime : Z) : M Z :=
  m ← get_mq p;
  mq_wait_loop evs p stoptime (Pollfd (link m) 0 0).

(** ** Poll groups *)

(** [mq_poll_create] *)
Definition mq_poll_create : M positive :=
  p ← malloc;
  modify (fun w => set_polls (<[p := MqPoll ∅ ∅ ∅ ∅]> (polls w)) w);;
  mret p.

(** [mq_poll_delete] *)
Fixpoint clear_back_pointers (keys : list positive) : M unit :=
  match keys with
  | [] => mret tt
  | k :: t => upd_mq k (set_poll_group None);; clear_back_pointers t
  end.

Definition mq_poll_delete (o : option positive) : M unit :=
  match o with
  | None => mret tt
  | Some p =>
      ps ← get_poll p;
      clear_back_pointers (fst <$> map_to_list (members ps));;
      free_poll p
  end.

(** [mq_poll_add]; a null [tag] is [None]. *)
Definition mq_poll_add (p q : positive) (tag : option positive) : M Z :=
  m ← get_mq q;
  if bool_decide (poll_group m = Some p) then
    modify (set_errno EEXIST);; mret (-1)
  else if bool_decide (is_Some (poll_group m)) then
    modify (set_errno EINVAL);; mret (-1)
  else
    let tag := match tag with Some t => t | None => q end in
    upd_mq q (set_poll_group (Some p));;
    upd_poll p (fun ps => set_members (<[q := tag]> (members ps)) ps);;
    mret 0.

(** [mq_poll_rm] *)
Definition mq_poll_rm (p q : positive) : M Z :=
  m ← get_mq q;
  if bool_decide (poll_group m ≠ Some p) then
    modify (set_errno ENOENT);; mret (-1)
  else
    upd_mq q (set_poll_group None);;
    upd_poll p (fun ps => set_members (delete q (members ps)) ps);;
    upd_poll p (fun ps => set_acceptable (acceptable ps ∖ {[q]}) ps);;
    upd_poll p (fun ps => set_readable (readable ps ∖ {[q]}) ps);;
    upd_poll p (fun ps => set_error (error ps ∖ {[q]}) ps);;
    mret 0.

(** [set_first_element] followed by [set_next_element]: an element of
    the set, or null for the empty set. *)
Definition set_first (s : gset positive) : option positive := head (elements s).

(** The body shared by [mq_poll_acceptable], [mq_poll_readable] and
    [mq_poll_error]: both pointers are asserted. *)
Definition poll_query (sel : mq_poll -> gset positive) (p : positive)
  : M positive :=
  ps ← get_poll p;
  match set_first (sel ps) with
  | None => abort
  | Some q =>
      match members ps !! q with
      | None => abort
      | Some tag => mret tag
      end
  end.

Definition mq_poll_acceptable : positive -> M positive := poll_query acceptable.
Definition mq_poll_readable : positive -> M positive := poll_query readable.
Definition mq_poll_error : positive -> M positive := poll_query error.

(** The [for] loop of [mq_poll_wait] over the members: the flag tells
    whether a [handle_revents] returned -1 and ended the loop. *)
Fixpoint poll_pass (keys : list positive) (pfds : list pollfd)
  : M (bool * list pollfd) :=
  match keys, pfds with
  | [], _ => mret (false, pfds)
  | _ :: _, [] => fault
  | k :: ks, f :: fs =>
      m ← get_mq k;
      let f' := Pollfd (link m) (poll_events m) (revents f) in
      rc ← handle_revents (revents f') k;
      if bool_decide (rc = -1) then mret (true, f' :: fs)
      else '(failed, fs') ← poll_pass ks fs; mret (failed, f' :: fs')
  end.

Definition ready_count (ps : mq_poll) : Z :=
  Z.of_nat (size (acceptable ps)) + Z.of_nat (size (readable ps))
  + Z.of_nat (size (error ps)).

(** One turn of the loop of [mq_poll_wait]: the value of [rc] at [DONE],
    or the next turn. *)
Definition mq_poll_wait_turn (ev : option pevent) (continue : list pollfd -> M Z)
    (p : positive) (stoptime : Z) (pfds : list pollfd) : M Z :=
  ps ← get_poll p;
  '(failed, pfds) ← poll_pass (fst <$> map_to_list (members ps)) pfds;
  if failed : bool then mret (-1) else
  ps ← get_poll p;
  let rc := ready_count ps in
  if bool_decide (rc > 0) then mret rc else
  t ← gets now;
  if bool_decide (stoptime - t < 0) then mret 0 else
  '(rc, pfds) ← sys_ppoll ev pfds (stoptime - t);
  if bool_decide (rc > 0) then continue pfds else mret rc.

Fixpoint mq_poll_wait_loop (evs : list pevent) (p : positive) (stoptime : Z)
    (pfds : list pollfd) : M Z :=
  match evs with
  | [] => mq_poll_wait_turn None (fun _ => stuck) p stoptime pfds
  | ev :: rest =>
      mq_poll_wait_turn (Some ev) (mq_poll_wait_loop rest p stoptime) p stoptime pfds
  end.

(** [mq_poll_wait], woken by the events [evs]. *)
Definition mq_poll_wait (evs : list pevent) (p : positive) (stoptime : Z) : M Z :=
  ps ← get_poll p;
  let count := size (members ps) in
  rc ← mq_poll_wait_loop evs p stoptime (replicate count (Pollfd 0 0 0));
  e ← gets errno;
  if bool_decide (rc >= 0) then mret rc
  else if bool_decide (rc = -1) && bool_decide (e = EINTR) then mret 0
  else mret (-1).

(** ** Notions used by the properties *)

(** [q] is a member of the poll group [g]. *)
Definition is_member (w : world) (g q : positive) : Prop :=
  exists ps, polls w !! g = Some ps /\ is_Some (members ps !! q).

(** The back pointer of every endpoint names the poll group that lists
    it, and no other group lists it. *)
Definition linked (w : world) : Prop :=
  forall q m g, mqs w !! q = Some m ->
    (poll_group m = Some g <-> is_member w g q).

(** Nothing but [errno] differs between two worlds. *)
Definition unaltered (w w' : world) : Prop :=
  mqs w' = mqs w /\ msgs w' = msgs w /\ polls w' = polls w
  /\ socks w' = socks w /\ brk w' = brk w /\ now w' = now w.

(** The messages an endpoint holds, in the order [mq_die] deletes
    them: the message being sent, the one being received, the received
    one, and the send queue. *)
Definition held (m : mq) : list positive :=
  option_list (send_buf m) ++ option_list (recv_buf m)
  ++ option_list (recv m) ++ send m.

(** The endpoint owns its messages: they are allocated, no two of its
    pointers name the same message, and the allocator does not hand out
    an address in use. *)
Definition owns (w : world) (m : mq) : Prop :=
  NoDup (held m)
  /\ (forall x, x ∈ held m -> is_Some (msgs w !! x))
  /\ msgs w !! brk w = None.

(** The back pointer of the endpoint, if any, points to a poll group. *)
Definition grouped (w : world) (m : mq) : Prop :=
  forall g, poll_group m = Some g -> is_Some (polls w !! g).

(** The heap of messages after the messages [l] are freed. *)
Definition release (l : list positive) (h : gmap positive mq_msg)
  : gmap positive mq_msg :=
  foldl (fun h x => delete x h) h l.

(** The poll group and the world that [mq_die] leaves. *)
Definition die_poll (p : positive) (e : Z) (ps : mq_poll) : mq_poll :=
  set_error (if bool_decide (e = 0) then error ps ∖ {[p]} else {[p]} ∪ error ps)
    (set_readable (readable ps ∖ {[p]})
       (set_acceptable (acceptable ps ∖ {[p]}) ps)).

Definition die_world (p : positive) (e : Z) (m : mq) (w : world) : world :=
  let w1 := set_msgs (release (held m) (msgs w))
              (set_mqs (<[p := set_err e (set_state MQ_SOCKET_ERROR m)]> (mqs w)) w) in
  match poll_group m with
  | None => w1
  | Some g =>
      match polls w !! g with
      | Some ps => set_polls (<[g := die_poll p e ps]> (polls w)) w1
      | None => w1
      end
  end.

(** The next thing the receive path of the endpoint does is a [recv]
    call: no received message waits, and the message under assembly
    lacks header or payload bytes. *)
Definition reads_next (w : world) (m : mq) : Prop :=
  recv m = None
  /\ match recv_buf m with
     | None => True
     | Some rp =>
         exists rcv, msgs w !! rp = Some rcv /\ len rcv < PTRDIFF_MAX
           /\ (hdr_pos rcv < HDR_SIZE
               \/ (parsed_header rcv = true /\ buf_pos rcv < len rcv))
     end.

(** The peer has closed the stream: the end of the stream is what the
    next [recv] on the endpoint's socket finds. *)
Definition peer_closed (w : world) (m : mq) : Prop :=
  exists s t, socks w !! link m = Some s /\ rx s = RxEof :: t.

(** The world once [flush_recv] has made sure that [recv_buf] exists. *)
Definition ensure_recv_buf (p : positive) (m : mq) (w : world) : world :=
  match recv_buf m with
  | Some _ => w
  | None =>
      set_mqs (<[p := set_recv_buf (Some (brk w)) m]> (mqs w))
        (set_msgs (<[brk w := zero_msg]> (msgs w))
           (set_brk (Pos.succ (brk w)) w))
  end.

(** The endpoint once [flush_recv] has made sure that [recv_buf]
    exists. *)
Definition with_recv_buf (m : mq) (w : world) : mq :=
  match recv_buf m with
  | Some _ => m
  | None => set_recv_buf (Some (brk w)) m
  end.

(** The endpoint driven through a series of wake-ups, [rs] being the
    [revents] of each. *)
Fixpoint drive (rs : list Z) (p : positive) : M unit :=
  match rs with
  | [] => mret tt
  | r :: t => handle_revents r p;; drive t p
  end.

(** The part of [handle_revents] that precedes the receive path of a
    connected endpoint. *)
Definition send_phase (revents : Z) (p : positive) : M Z :=
  if has_bit POLLOUT revents then flush_send p else mret 0.

(** A pass of [mq_poll_wait] over the members of the group (the [for]
    loop of a turn), on the array [pfds] as the turn finds it: whether
    a [handle_revents] failed, and the array as the pass leaves it. *)
Definition member_pass (g : positive) (pfds : list pollfd)
  : M (bool * list pollfd) :=
  ps ← get_poll g;
  poll_pass (fst <$> map_to_list (members ps)) pfds.

(** [mq_poll_wait] from a turn of its loop on, the array being [pfds]:
    the turns that are left, and the return at [DONE]. *)
Definition wait_from (evs : list pevent) (g : positive) (stoptime : Z)
    (pfds : list pollfd) : M Z :=
  rc ← mq_poll_wait_loop evs g stoptime pfds;
  e ← gets errno;
  if bool_decide (rc >= 0) then mret rc
  else if bool_decide (rc = -1) && bool_decide (e = EINTR) then mret 0
  else mret (-1).

(** The number of descriptors for which [ppoll] reports something. *)
Definition reported (pfds : list pollfd) : nat :=
  length (filter (fun f => revents f ≠ 0) pfds).

(** The endpoint [k], as long as it is allocated, points to the poll
    group [g], and the allocator has passed its address. *)
Definition stays (k g : positive) (w : world) : Prop :=
  (k < brk w)%positive
  /\ forall m, mqs w !! k = Some m -> poll_group m = Some g.

(** The endpoint [k], as long as it is allocated, is in state ERROR. *)
Definition dead (k : positive) (w : world) : Prop :=
  forall m, mqs w !! k = Some m -> state m = MQ_SOCKET_ERROR.

(** The values [rc] can have when [mq_poll_wait] reaches [DONE]: a
    positive count of the readiness sets, 0, or -1. *)
Definition wait_rc_ok (g : positive) (rc : Z) (w' : world) : Prop :=
  (0 < rc /\ exists ps, polls w' !! g = Some ps /\ rc = ready_count ps)
  \/ rc = 0
  \/ rc = -1.

(** *** The interface as a set of calls *)

(** At most one complete message is buffered: while a received message
    waits in [recv], no other is under assembly in [recv_buf]. *)
Definition one_buffered (m : mq) : Prop :=
  is_Some (recv m) -> recv_buf m = None.

Definition recv_inv (w : world) : Prop :=
  forall p m, mqs w !! p = Some m -> one_buffered m.

(** The calls of [mq.h], with their arguments. *)
Inductive call : Type :=
| CServe (l : option Z)
| CConnect (l : option Z)
| CAccept (p : positive)
| CSend (p msg : positive)
| CRecv (p : positive)
| CClose (o : option positive)
| CGeterror (p : positive)
| CWait (evs : list pevent) (p : positive) (stoptime : Z)
| CWrapBuffer (b : list byte)
| CUnwrapBuffer (msg : positive)
| CMsgDelete (o : option positive)
| CPollCreate
| CPollDelete (o : option positive)
| CPollAdd (p q : positive) (tag : option positive)
| CPollRm (p q : positive)
| CPollAcceptable (p : positive)
| CPollReadable (p : positive)
| CPollError (p : positive)
| CPollWait (evs : list pevent) (p : positive) (stoptime : Z).

Definition ignore {A : Type} (c : M A) : M unit := c ≫= fun _ => mret tt.

Definition run (c : call) : M unit :=
  match c with
  | CServe l => ignore (mq_serve l)
  | CConnect l => ignore (mq_connect l)
  | CAccept p => ignore (mq_accept p)
  | CSend p msg => mq_send p msg
  | CRecv p => ignore (mq_recv p)
  | CClose o => mq_close o
  | CGeterror p => ignore (mq_geterror p)
  | CWait evs p stoptime => ignore (mq_wait evs p stoptime)
  | CWrapBuffer b => ignore (mq_wrap_buffer b)
  | CUnwrapBuffer msg => ignore (mq_unwrap_buffer msg)
  | CMsgDelete o => mq_msg_delete o
  | CPollCreate => ignore mq_poll_create
  | CPollDelete o => mq_poll_delete o
  | CPollAdd p q tag => ignore (mq_poll_add p q tag)
  | CPollRm p q => ignore (mq_poll_rm p q)
  | CPollAcceptable p => ignore (mq_poll_acceptable p)
  | CPollReadable p => ignore (mq_poll_readable p)
  | CPollError p => ignore (mq_poll_error p)
  | CPollWait evs p stoptime => ignore (mq_poll_wait evs p stoptime)
  end.

(** What happens between two calls: the kernel and the rest of the
    program change sockets, [errno] and the clock, not the heap of the
    message queue. *)
Definition env_step (w w' : world) : Prop :=
  mqs w' = mqs w /\ msgs w' = msgs w /\ polls w' = polls w /\ brk w' = brk w.

(** The worlds a program can be in between two calls: it starts with no
    endpoint, message or poll group, and every call has returned. *)
Inductive reachable : world -> Prop :=
| reach_start (w : world) :
    mqs w = ∅ -> msgs w = ∅ -> polls w = ∅ -> reachable w
| reach_call (w w' : world) (c : call) :
    reachable w -> run c w = Ret tt w' -> reachable w'
| reach_env (w w' : world) :
    reachable w -> env_step w w' -> reachable w'.

(** No socket of [w'] has another script of bytes to read than it
    had in [w]: between the two worlds nothing was read. *)
Definition rx_kept (w w' : world) : Prop :=
  forall fd s', socks w' !! fd = Some s' ->
    exists s, socks w !! fd = Some s /\ rx s = rx s'.

(** A series of calls. *)
Fixpoint exec (cs : list call) : M unit :=
  match cs with
  | [] => mret tt
  | c :: t => run c;; exec t
  end.

(** The bookkeeping of poll groups is sound: back pointers and member
    tables agree, the members of a poll group are allocated endpoints,
    and the allocator hands out addresses above those in use. *)
Record wf (w : world) : Prop := {
  wf_linked : linked w;
  wf_members : forall g ps q,
    polls w !! g = Some ps -> is_Some (members ps !! q) -> is_Some (mqs w !! q);
  wf_brk_mqs : forall q, is_Some (mqs w !! q) -> (q < brk w)%positive;
  wf_brk_polls : forall g, is_Some (polls w !! g) -> (g < brk w)%positive
}.

(** A computation keeps an invariant of the world. *)
Definition preserves (I : world -> Prop) {A : Type} (c : M A) : Prop :=
  forall w a w', I w -> c w = Ret a w' -> I w'.

(** A computation leaves the endpoints, or the sockets, as they are;
    it reads no byte from a socket. *)
Definition keeps_mqs {A : Type} (c : M A) : Prop :=
  forall w a w', c w = Ret a w' -> mqs w' = mqs w.

Definition keeps_socks {A : Type} (c : M A) : Prop :=
  forall w a w', c w = Ret a w' -> socks w' = socks w.

Definition keeps_rx {A : Type} (c : M A) : Prop :=
  forall w a w', c w = Ret a w' -> rx_kept w w'.

(** A computation leaves endpoints, poll groups and the allocator as
    they are. *)
Definition keeps_heap {A : Type} (c : M A) : Prop :=
  forall w a w', c w = Ret a w' ->
    mqs w' = mqs w /\ polls w' = polls w /\ brk w' = brk w.

(** A received message waits in the endpoint [p]. *)
Definition waiting (p : positive) (w : world) : Prop :=
  exists m, mqs w !! p = Some m /\ is_Some (recv m).

(** A poll group after [update_poll_group] has noted the endpoint [p],
    whose structure is [m], in its readiness sets. *)
Definition noted (p : positive) (m : mq) (ps : mq_poll) : mq_poll :=
  let ps1 := if bool_decide (state m = MQ_SOCKET_ERROR)
             then set_error ({[p]} ∪ error ps) ps else ps in
  let ps2 := if bool_decide (is_Some (recv m))
             then set_readable ({[p]} ∪ readable ps1) ps1 else ps1 in
  if bool_decide (is_Some (acc m))
  then set_acceptable ({[p]} ∪ acceptable ps2) ps2 else ps2.

(** The bytes of a message on the wire: the header [write_header]
    leaves in it, then the [len] bytes of its buffer. *)
Definition wire (be : bool) (msg : mq_msg) : list byte :=
  hdr (write_header be msg) ++ take (Z.to_nat (len msg)) (buf msg).

(** The bytes a socket has for the coming [recv] calls, up to the end
    of the stream or the next failure. *)
Fixpoint rx_bytes (l : list rx_event) : list byte :=
  match l with
  | RxData b bs :: t => b :: bs ++ rx_bytes t
  | _ => []
  end.

(** The [ppoll] call itself succeeds. *)
Definition is_ready (ev : pevent) : Prop :=
  match ev with
  | PReady _ _ => True
  | PFail _ _ => False
  end.

(** What bounds the turns of the loop of [flush_send]: the messages
    still to send and the [send] calls the kernel still serves. *)
Definition send_measure (p : positive) (w : world) : nat :=
  match mqs w !! p with
  | Some m =>
      length (send m) + match send_buf m with Some _ => 1 | None => 0 end
      + match socks w !! link m with Some s => length (tx s) | None => 0 end
  | None => 0
  end.

(** What bounds the turns of the loop of [flush_recv]: the bytes the
    socket still holds, the parsing of the header, and the handing
    over of the message. *)
Definition recv_measure (p : positive) (w : world) : nat :=
  match mqs w !! p with
  | Some m =>
      match socks w !! link m with Some s => rx_weight (rx s) | None => 0 end
      + match recv m with
        | Some _ => 0
        | None =>
            1 + match recv_buf m with
                | None => 1
                | Some rp =>
                    match msgs w !! rp with
                    | Some rcv => if parsed_header rcv then 0 else 1
                    | None => 0
                    end
                end
        end
  | None => 0
  end.

(** A series of [mq_send] calls on one endpoint. *)
Fixpoint send_all (p : positive) (l : list positive) : M unit :=
  match l with
  | [] => mret tt
  | msg :: t => mq_send p msg;; send_all p t
  end.

(** A message of which nothing is sent yet, as [mq_wrap_buffer] makes
    it: both cursors at 0, [len] bytes in the buffer. *)
Definition unsent (msg : mq_msg) : Prop :=
  hdr_pos msg = 0 /\ buf_pos msg = 0 /\ length (hdr msg) = 16%nat
  /\ 0 <= len msg < PTRDIFF_MAX /\ len msg <= Z.of_nat (length (buf msg)).

(** The kernel takes [n] bytes or more from a [send] call. *)
Definition roomy (n : Z) (e : tx_event) : Prop :=
  exists k, e = TxAccept k /\ n <= Z.pos k.

(** ** Sample worlds *)

Module Samples.

Definition empty_world : world := World ∅ ∅ ∅ 1%positive 0 ∅ 0 false.

Definition idle_sock : sock := Sock [] [] [] 0 [].

(** A connected endpoint on descriptor 3, with nothing queued, at
    address [1]. *)
Definition connected_ep (g : option positive) : mq :=
  Mq 3 MQ_SOCKET_CONNECTED None [] 0 None None None g.

(** An empty poll group at address [1]. *)
Definition lone_group : world :=
  World ∅ ∅ {[ 1%positive := MqPoll ∅ ∅ ∅ ∅ ]} 2%positive 0 ∅ 0 false.

(** A program that connects two endpoints, on the descriptors 3 and 4,
    creates two poll groups and adds the first endpoint to the first
    group with tag [7].  The endpoints get the addresses [1] and [2],
    the groups [3] and [4]. *)
Definition groups_start : world :=
  World ∅ ∅ ∅ 1%positive 0 {[ 3 := idle_sock; 4 := idle_sock ]} 0 false.

Definition groups_calls : list call :=
  [ CConnect (Some 3); CConnect (Some 4); CPollCreate; CPollCreate;
    CPollAdd 3 1 (Some 7%positive) ].

Definition two_groups : world :=
  match exec groups_calls groups_start with
  | Ret _ w => w
  | _ => groups_start
  end.

(** The endpoint [1], connected on descriptor 3 and a member of the
    poll group [10], when its peer has closed the stream; [e] is the
    value an earlier call has left in [errno]. *)
Definition closed_by_peer (e : Z) : world :=
  World {[ 1%positive := connected_ep (Some 10%positive) ]}
        ∅
        {[ 10%positive := MqPoll {[ 1%positive := 1%positive ]} ∅ ∅ ∅ ]}
        11%positive e
        {[ 3 := Sock [RxEof] [] [] 0 [] ]} 0 false.

(** The endpoint [1] in the middle of its work: message [2] is being
    sent, message [3] is being received, messages [4] and [5] are
    queued. *)
Definition busy_endpoint : world :=
  World {[ 1%positive := Mq 3 MQ_SOCKET_CONNECTED None [4; 5]%positive 0 None
                            (Some 2%positive) (Some 3%positive) None ]}
        {[ 2%positive := zero_msg; 3%positive := zero_msg;
           4%positive := zero_msg; 5%positive := zero_msg ]}
        ∅ 6%positive 0 {[ 3 := idle_sock ]} 0 false.

(** The endpoint [1], connected on descriptor 3 and a member of the
    poll group [10], with the chunks [chunks] waiting to be read. *)
Definition receiving (chunks : list rx_event) : world :=
  World {[ 1%positive := connected_ep (Some 10%positive) ]}
        ∅
        {[ 10%positive := MqPoll {[ 1%positive := 1%positive ]} ∅ ∅ ∅ ]}
        11%positive 0
        {[ 3 := Sock chunks [] [] 0 [] ]} 0 false.

(** Sixteen bytes that are no header: the magic starts with "XX". *)
Definition bad_header : list byte :=
  [x58; x58; x6d; x73; x67; x00; x00; x00; x00; x00; x00; x00; x00; x00; x00; x00].

(** A message of type 0 announcing five bytes, and the message a
    receiver holds once the sixteen bytes of its header have arrived. *)
Definition hello_msg : mq_msg :=
  MqMsg MQ_MSG_BUFFER 5 [x68; x65; x6c; x6c; x6f] (replicate 16 x00) false 0 0.

Definition hello_received : mq_msg :=
  MqMsg 0 0 [] (hdr (write_header false hello_msg)) false 16 0.

(** The first five bytes of [bad_header], and all sixteen, as one
    chunk each. *)
Definition bad_magic_only : rx_event := RxData x58 [x58; x6d; x73; x67].
Definition bad_header_chunk : rx_event :=
  RxData x58 [x58; x6d; x73; x67; x00; x00; x00; x00; x00; x00; x00; x00; x00;
              x00; x00].

(** The endpoint [1], connected on descriptor 3, with [hello_msg]
    queued as message [2] and a socket that serves the coming [send]
    calls as [txs] says. *)
Definition sender (txs : list tx_event) : world :=
  World {[ 1%positive := Mq 3 MQ_SOCKET_CONNECTED None [2%positive] 0 None
                            None None None ]}
        {[ 2%positive := hello_msg ]}
        ∅ 3%positive 0 {[ 3 := Sock [] txs [] 0 [] ]} 0 false.

(** The 21 bytes of [hello_msg] on the wire. *)
Definition hello_wire : list byte :=
  hdr (write_header false hello_msg) ++ buf hello_msg.

(** A transport that delivers one byte per read. *)
Definition one_by_one (l : list byte) : list rx_event :=
  (fun b => RxData b []) <$> l.

(** A transport that delivers everything in one chunk. *)
Definition at_once (l : list byte) : list rx_event :=
  match l with
  | [] => []
  | b :: bs => [RxData b bs]
  end.

(** The same world with a new script for the [send] calls on
    descriptor 3, or for its [recv] calls. *)
Definition with_tx (txs : list tx_event) (w : world) : world :=
  set_socks (<[3 := Sock [] txs [] 0 []]> (socks w)) w.
Definition with_rx (rxs : list rx_event) (w : world) : world :=
  set_socks (<[3 := Sock rxs [] [] 0 []]> (socks w)) w.

(** The endpoint [1] holds the received message [2] and is listed as
    readable in its poll group [10]. *)
Definition message_waiting : world :=
  World {[ 1%positive := Mq 3 MQ_SOCKET_CONNECTED None [] 0 (Some 2%positive)
                            None None (Some 10%positive) ]}
        {[ 2%positive := hello_msg ]}
        {[ 10%positive := MqPoll {[ 1%positive := 1%positive ]} ∅ {[ 1%positive ]} ∅ ]}
        11%positive 0 {[ 3 := idle_sock ]} 0 false.

(** Every descriptor is readable. *)
Definition all_readable (t : Z) : pevent := PReady t (fun _ => POLLIN).

(** A program that connects on descriptor 3, on which the 21 bytes of
    [hello_wire] arrive, and waits twice: the first wait completes the
    connection, the second receives the message. *)
Definition client_start : world :=
  World ∅ ∅ ∅ 1%positive 0 {[ 3 := Sock (at_once hello_wire) [] [] 0 [] ]} 0 false.

Definition client_calls : list call :=
  [ CConnect (Some 3);
    CWait [PReady 1 (fun _ => POLLOUT)] 1 10;
    CWait [all_readable 2] 1 10 ].

Definition client_served : world :=
  match exec client_calls client_start with
  | Ret _ w => w
  | _ => client_start
  end.

Definition client_endpoint : mq :=
  Mq 3 MQ_SOCKET_CONNECTED None [] 0 (Some 2%positive) None None None.

(** The endpoint [1], connecting on descriptor 3 and a member of the
    poll group [10]; [e] is the pending error of the socket. *)
Definition connecting (e : Z) : world :=
  World {[ 1%positive := Mq 3 MQ_SOCKET_INPROGRESS None [] 0 None None None
                            (Some 10%positive) ]}
        ∅
        {[ 10%positive := MqPoll {[ 1%positive := 1%positive ]} ∅ ∅ ∅ ]}
        11%positive 0
        {[ 3 := Sock [] [] [] e [] ]} 0 false.

(** The endpoint [1], a server on descriptor 5 and a member of the poll
    group [10], with the connections [conns] waiting to be accepted. *)
Definition listening (conns : list Z) : world :=
  World {[ 1%positive := Mq 5 MQ_SOCKET_SERVER None [] 0 None None None
                            (Some 10%positive) ]}
        ∅
        {[ 10%positive := MqPoll {[ 1%positive := 1%positive ]} ∅ ∅ ∅ ]}
        11%positive 0
        {[ 5 := Sock [] [] [] 0 conns ]} 0 false.

(** The endpoint [1], connected on descriptor 3, with nothing queued;
    the messages [2], "hello", and [3], "hi", are wrapped and not yet
    sent; the socket takes up to 64 bytes in each of the next four
    [send] calls. *)
Definition hi_msg : mq_msg :=
  MqMsg MQ_MSG_BUFFER 2 [x68; x69] (replicate 16 x00) false 0 0.

Definition two_to_send : world :=
  World {[ 1%positive := connected_ep None ]}
        {[ 2%positive := hello_msg; 3%positive := hi_msg ]}
        ∅ 4%positive 0
        {[ 3 := Sock [] (replicate 4 (TxAccept 64)) [] 0 [] ]} 0 false.


(** The endpoint [1] on descriptor 3, dead with the error 104
    ([ECONNRESET]) and listed in the error set of its poll group
    [10]. *)
Definition dead_endpoint : world :=
  World {[ 1%positive := Mq 3 MQ_SOCKET_ERROR None [] 104 None None None
                            (Some 10%positive) ]}
        ∅
        {[ 10%positive := MqPoll {[ 1%positive := 1%positive ]} ∅ ∅ {[ 1%positive ]} ]}
        11%positive 104
        {[ 3 := idle_sock ]} 0 false.

(** The endpoint [1], connected on descriptor 3, with [hello_msg]
    queued at [2]; the kernel takes sixteen bytes, then two, then
    one, and then would block. *)
Definition slow_link : world :=
  World {[ 1%positive := Mq 3 MQ_SOCKET_CONNECTED None [2%positive] 0
                            None None None None ]}
        {[ 2%positive := hello_msg ]}
        ∅ 3%positive 0
        {[ 3 := Sock [] (TxAccept 16 :: (TxAccept <$> [2; 1]%positive)) [] 0 [] ]}
        0 false.

(** The server [1] on descriptor 3, a member of the poll group [10],
    with the accepted connection [2] on descriptor 5 waiting to be
    handed over. *)
Definition pending_server : world :=
  World {[ 1%positive := Mq 3 MQ_SOCKET_SERVER (Some 2%positive) [] 0 None None None
                            (Some 10%positive);
           2%positive := Mq 5 MQ_SOCKET_CONNECTED None [] 0 None None None None ]}
        ∅
        {[ 10%positive := MqPoll {[ 1%positive := 1%positive ]} {[ 1%positive ]} ∅ ∅ ]}
        11%positive 0
        {[ 3 := idle_sock; 5 := idle_sock ]} 0 false.

(** The world [closed_by_peer 0] after a wake-up at time 1 that reports
    input on descriptor 3, and the pass over the members of the group
    [10] that follows it. *)
Definition woken_by_close : world := set_now 1 (closed_by_peer 0).

Definition peer_gone : world :=
  match member_pass 10 [Pollfd 3 POLLIN POLLIN] woken_by_close with
  | Ret _ w => w
  | _ => woken_by_close
  end.

End Samples.

(** * Properties *)

(** ** Bytes and byte order *)

Module BytesFacts.

Lemma byte_to_Z_range b : 0 <= byte_to_Z b < 256.
Proof.
  unfold byte_to_Z. pose proof (Byte.to_N_bounded b). lia.
Qed.

Lemma byte_to_of_Z z : byte_to_Z (byte_of_Z z) = z mod 256.
Proof.
  unfold byte_to_Z, byte_of_Z.
  assert (Hr : 0 <= z mod 256 < 256) by (apply Z.mod_pos_bound; lia).
  destruct (Byte.of_N (Z.to_N (z mod 256))) as [b|] eqn:E.
  - apply Byte.to_of_N in E. rewrite E. lia.
  - apply Byte.of_N_None_iff in E. lia.
Qed.

Lemma byte_of_to_Z b : byte_of_Z (byte_to_Z b) = b.
Proof.
  unfold byte_of_Z. pose proof (byte_to_Z_range b) as Hr.
  rewrite Z.mod_small by lia. unfold byte_to_Z.
  rewrite N2Z.id, Byte.of_to_N. reflexivity.
Qed.

Lemma length_le_bytes n v : length (le_bytes n v) = n.
Proof. revert v. induction n as [|n IH]; intros v; simpl; [|rewrite IH]; reflexivity. Qed.

Lemma le_val_range bs : 0 <= le_val bs < 256 ^ Z.of_nat (length bs).
Proof.
  induction bs as [|b r IH]; [simpl; lia|].
  cbn [le_val length]. rewrite Nat2Z.inj_succ, Z.pow_succ_r by lia.
  pose proof (byte_to_Z_range b). lia.
Qed.

Lemma le_val_le_bytes n v : le_val (le_bytes n v) = v mod 256 ^ Z.of_nat n.
Proof.
  revert v. induction n as [|n IH]; intros v.
  - simpl. rewrite Z.mod_1_r. reflexivity.
  - cbn [le_bytes le_val]. rewrite byte_to_of_Z, IH.
    rewrite Nat2Z.inj_succ, Z.pow_succ_r by lia.
    rewrite Z.rem_mul_r by lia. reflexivity.
Qed.

Lemma le_bytes_le_val bs : le_bytes (length bs) (le_val bs) = bs.
Proof.
  induction bs as [|b r IH]; [reflexivity|].
  cbn [length le_bytes le_val]. pose proof (byte_to_Z_range b) as Hb.
  f_equal.
  - rewrite <- (byte_of_to_Z b) at 2. unfold byte_of_Z.
    replace ((byte_to_Z b + 256 * le_val r) mod 256) with (byte_to_Z b mod 256);
      [reflexivity|].
    rewrite (Z.mul_comm 256), Z.mod_add by lia. reflexivity.
  - replace ((byte_to_Z b + 256 * le_val r) / 256) with (le_val r); [exact IH|].
    rewrite (Z.mul_comm 256), Z.div_add by lia.
    rewrite (Z.div_small (byte_to_Z b)) by lia. lia.
Qed.

Lemma le_bytes_of_val n bs : length bs = n -> le_bytes n (le_val bs) = bs.
Proof. intros <-. apply le_bytes_le_val. Qed.

Lemma le_bytes_mod n v : le_bytes n (v mod 256 ^ Z.of_nat n) = le_bytes n v.
Proof.
  rewrite <- le_val_le_bytes. apply le_bytes_of_val, length_le_bytes.
Qed.

(** Whatever the host, the bytes that [hdr.length = htobe64(len)] leaves
    in memory are the big-endian digits of [len]. *)
Lemma store_htobe64 be v : store_u64 be (htobe64 be v) = rev (le_bytes 8 v).
Proof.
  destruct be; unfold store_u64, htobe64, bswap64.
  - f_equal. exact (le_bytes_mod 8 v).
  - apply le_bytes_of_val. rewrite length_rev. apply length_le_bytes.
Qed.

(** Reading eight big-endian bytes back with [be64toh] gives their
    value. *)
Lemma be64toh_load be bs :
  length bs = 8%nat -> be64toh be (load_u64 be bs) = le_val (rev bs).
Proof.
  intros Hl. destruct be; unfold be64toh, load_u64, bswap64.
  - apply Z.mod_small. pose proof (le_val_range (rev bs)) as Hr.
    rewrite length_rev, Hl in Hr. exact Hr.
  - rewrite (le_bytes_of_val 8 bs Hl). reflexivity.
Qed.

Lemma length_store_u64 be v : length (store_u64 be v) = 8%nat.
Proof. destruct be; reflexivity. Qed.

End BytesFacts.

Import BytesFacts.

(** ** Running the monad on a symbolic world *)

Ltac wsimpl :=
  cbn [mqs msgs polls brk errno socks now big_endian
       set_mqs set_msgs set_polls set_brk set_errno set_socks set_now
       fst snd] in *.

Ltac munfold :=
  unfold upd_mq, upd_msg, upd_poll, free_mq, free_msg, free_poll,
         get_mq, get_msg, get_poll, malloc, assert, deref,
         gets, modify, abort, fault, stuck,
         mbind, M_bind, mret, M_ret in *;
  wsimpl.

(** ** The wire header *)

Lemma list_of_length_16 (l : list byte) :
  length l = 16%nat ->
  exists b0 b1 b2 b3 b4 b5 b6 b7 b8 b9 b10 b11 b12 b13 b14 b15,
    l = [b0; b1; b2; b3; b4; b5; b6; b7; b8; b9; b10; b11; b12; b13; b14; b15].
Proof.
  intros H.
  do 16 (destruct l as [|? l]; [discriminate H|]).
  destruct l; [|discriminate H]. do 16 eexists. reflexivity.
Qed.

Lemma list_of_length_8 (l : list byte) :
  length l = 8%nat ->
  exists b0 b1 b2 b3 b4 b5 b6 b7, l = [b0; b1; b2; b3; b4; b5; b6; b7].
Proof.
  intros H.
  do 8 (destruct l as [|? l]; [discriminate H|]).
  destruct l; [|discriminate H]. do 8 eexists. reflexivity.
Qed.

(** What the receiver's parse makes of a header the sender wrote: the
    type as a [uint8_t], the length as a [uint64_t]. *)
Lemma parse_write_header be snd rcv :
  length (hdr snd) = 16%nat ->
  hdr rcv = hdr (write_header be snd) ->
  exists rcv', parse_header be rcv = Some rcv'
    /\ type rcv' = type snd mod 256 /\ len rcv' = len snd mod 2 ^ 64.
Proof.
  intros Hl Hh.
  destruct (list_of_length_16 _ Hl)
    as (b0&b1&b2&b3&b4&b5&b6&b7&b8&b9&b10&b11&b12&b13&b14&b15&E).
  pose proof (store_htobe64 be (len snd)) as HS.
  pose proof (length_store_u64 be (htobe64 be (len snd))) as HSl.
  unfold parse_header. rewrite Hh. unfold write_header. rewrite E.
  destruct (list_of_length_8 _ HSl) as (s0&s1&s2&s3&s4&s5&s6&s7&ES).
  rewrite ES.
  set (tb := byte_of_Z (type snd)).
  cbn [splice set_hdr hdr take drop app length OFF_MAGIC OFF_TYPE OFF_LENGTH
       HDR_MAGIC Nat.add hdr_magic].
  rewrite bool_decide_eq_true_2 by reflexivity.
  eexists. split; [reflexivity|]. cbn [type len]. split.
  - unfold hdr_type. cbn [drop OFF_TYPE]. apply byte_to_of_Z.
  - unfold hdr_length. cbn [drop take OFF_LENGTH]. rewrite <- ES.
    rewrite be64toh_load by exact HSl. rewrite HS, rev_involutive.
    apply (le_val_le_bytes 8).
Qed.

(** C9. Header round trip: for every type byte and every length up to
    2^32, on a host of either byte order, the 16-byte header that
    [write_header] leaves in the sender's message (magic, type byte,
    big-endian length) is accepted by the parse of [flush_recv], which
    recovers the same type and length. *)
Theorem header_round_trip (be : bool) (ty l : Z) (snd rcv : mq_msg) :
  0 <= ty < 256 -> 0 <= l <= 2 ^ 32 ->
  type snd = ty -> len snd = l -> length (hdr snd) = 16%nat ->
  hdr rcv = hdr (write_header be snd) ->
  exists rcv', parse_header be rcv = Some rcv' /\ type rcv' = ty /\ len rcv' = l.
Proof.
  intros Hty Hlen <- <- Hl Hh.
  destruct (parse_write_header be snd rcv Hl Hh) as (rcv' & Hp & Ht & Hn).
  exists rcv'. split; [exact Hp|]. split.
  - rewrite Ht. apply Z.mod_small. lia.
  - rewrite Hn. apply Z.mod_small. lia.
Qed.

Lemma header_round_trip_witness :
  exists rcv', parse_header false Samples.hello_received = Some rcv'
               /\ type rcv' = 0 /\ len rcv' = 5.
Proof.
  apply (header_round_trip false 0 5 Samples.hello_msg Samples.hello_received);
    [lia | lia | reflexivity | reflexivity | reflexivity | reflexivity].
Defined.

(** ** Poll groups: misuse and queries *)

(** Misuse of a poll group in a world whose back pointers agree with
    the member tables. *)
Lemma poll_misuse_linked (w : world) (p q : positive) (m : mq)
    (tag : option positive) :
  linked w -> mqs w !! q = Some m ->
  (is_member w p q ->
     exists w', mq_poll_add p q tag w = Ret (-1) w'
                /\ errno w' = EEXIST /\ unaltered w w')
  /\ (forall p', p' ≠ p -> is_member w p' q ->
     exists w', mq_poll_add p q tag w = Ret (-1) w'
                /\ errno w' = EINVAL /\ unaltered w w')
  /\ (~ is_member w p q ->
     exists w', mq_poll_rm p q w = Ret (-1) w'
                /\ errno w' = ENOENT /\ unaltered w w').
Proof.
  intros Hl Hm. split; [|split].
  - intros Hin. apply (Hl q m p Hm) in Hin.
    exists (set_errno EEXIST w). split; [|split; [reflexivity|]].
    + unfold mq_poll_add. munfold. rewrite Hm.
      rewrite bool_decide_eq_true_2 by exact Hin. reflexivity.
    + repeat split.
  - intros p' Hne Hin. apply (Hl q m p' Hm) in Hin.
    exists (set_errno EINVAL w). split; [|split; [reflexivity|]].
    + unfold mq_poll_add. munfold. rewrite Hm.
      rewrite bool_decide_eq_false_2 by (rewrite Hin; congruence).
      rewrite bool_decide_eq_true_2 by (rewrite Hin; eauto). reflexivity.
    + repeat split.
  - intros Hout.
    exists (set_errno ENOENT w). split; [|split; [reflexivity|]].
    + unfold mq_poll_rm. munfold. rewrite Hm.
      rewrite bool_decide_eq_true_2; [reflexivity|].
      intros Hg. apply Hout. apply (Hl q m p Hm). exact Hg.
    + repeat split.
Qed.

(** C10. The queries of a poll group need a non-empty readiness set:
    on an empty set [mq_poll_acceptable], [mq_poll_readable] and
    [mq_poll_error] fail their assertion instead of returning; and a
    query that returns changes nothing and yields the tag of a member
    that is in the set. *)
Theorem poll_query_needs_ready (w : world) (p : positive) (ps : mq_poll) :
  polls w !! p = Some ps ->
  (acceptable ps = ∅ -> mq_poll_acceptable p w = Abort)
  /\ (readable ps = ∅ -> mq_poll_readable p w = Abort)
  /\ (error ps = ∅ -> mq_poll_error p w = Abort)
  /\ (forall sel tag w', poll_query sel p w = Ret tag w' ->
        w' = w /\ exists q, q ∈ sel ps /\ members ps !! q = Some tag).
Proof.
  intros Hp.
  assert (Hempty : forall sel, sel ps = ∅ -> poll_query sel p w = Abort).
  { intros sel He. unfold poll_query. munfold. rewrite Hp.
    unfold set_first. rewrite He, elements_empty. reflexivity. }
  split; [|split; [|split]]; try (apply Hempty).
  intros sel tag w' Hq. unfold poll_query in Hq. munfold. rewrite Hp in Hq.
  unfold set_first in Hq.
  destruct (elements (sel ps)) as [|q l] eqn:He; [discriminate|].
  cbn [head] in Hq.
  destruct (members ps !! q) as [t|] eqn:Ht; [|discriminate].
  injection Hq as <- <-. split; [reflexivity|].
  exists q. split; [|exact Ht].
  apply elem_of_elements. rewrite He. apply list_elem_of_here.
Qed.

Lemma poll_query_needs_ready_witness :
  mq_poll_acceptable 1 Samples.lone_group = Abort
  /\ mq_poll_readable 1 Samples.lone_group = Abort
  /\ mq_poll_error 1 Samples.lone_group = Abort.
Proof.
  destruct (poll_query_needs_ready Samples.lone_group 1 (MqPoll ∅ ∅ ∅ ∅) eq_refl)
    as (Ha & Hr & He & _).
  split; [|split]; [apply Ha | apply Hr | apply He]; reflexivity.
Defined.

(** ** The monad, step by step *)

Lemma bind_Ret {A B : Type} (c : M A) (k : A -> M B) (w w' : world) (a : A) :
  c w = Ret a w' -> (c ≫= k) w = k a w'.
Proof. intros H. unfold mbind, M_bind. rewrite H. reflexivity. Qed.

Lemma release_cons x l h : release (x :: l) h = release l (delete x h).
Proof. reflexivity. Qed.

Lemma release_app l1 l2 h : release (l1 ++ l2) h = release l2 (release l1 h).
Proof. unfold release. apply foldl_app. Qed.

Lemma lookup_release_ne l h y : y ∉ l -> release l h !! y = h !! y.
Proof.
  revert h. induction l as [|x l IH]; intros h Hy; [reflexivity|].
  apply not_elem_of_cons in Hy as [Hne Hy].
  rewrite release_cons, IH by exact Hy.
  apply lookup_delete_ne. congruence.
Qed.

Lemma lookup_release_None l h y : h !! y = None -> release l h !! y = None.
Proof.
  revert h. induction l as [|x l IH]; intros h Hy; [exact Hy|].
  rewrite release_cons. apply IH. rewrite lookup_delete_None. auto.
Qed.

Lemma lookup_release_in l h y : y ∈ l -> release l h !! y = None.
Proof.
  revert h. induction l as [|x l IH]; intros h Hy; [set_solver|].
  rewrite release_cons.
  destruct (decide (y = x)) as [->|Hne].
  - apply lookup_release_None. apply lookup_delete_eq.
  - apply IH. apply elem_of_cons in Hy as [Hy|Hy]; [contradiction|exact Hy].
Qed.

Lemma delete_all_spec l w :
  NoDup l -> (forall x, x ∈ l -> is_Some (msgs w !! x)) ->
  delete_all l w = Ret tt (set_msgs (release l (msgs w)) w).
Proof.
  revert w. induction l as [|x l IH]; intros w Hnd Hlive.
  - destruct w; reflexivity.
  - apply NoDup_cons in Hnd as [Hx Hnd].
    destruct (Hlive x) as [mx Hmx]; [set_solver|].
    cbn [delete_all mq_msg_delete delete_msg]. munfold. rewrite Hmx.
    rewrite IH; [reflexivity|exact Hnd|].
    intros y Hy. wsimpl. rewrite lookup_delete_ne by set_solver.
    apply Hlive. set_solver.
Qed.

Lemma bind_assoc_pt {A B C : Type} (c : M A) (f : A -> M B) (g : B -> M C) w :
  ((c ≫= f) ≫= g) w = (c ≫= (fun a => f a ≫= g)) w.
Proof. unfold mbind, M_bind. destruct (c w); reflexivity. Qed.

Lemma bind_ext_pt {A B : Type} (c : M A) (f f' : A -> M B) w :
  (forall a w', f a w' = f' a w') -> (c ≫= f) w = (c ≫= f') w.
Proof. intros H. unfold mbind, M_bind. destruct (c w); auto. Qed.

Lemma bind_unit_pt {B : Type} (c : M unit) (g : unit -> M B) w :
  ((c ≫= fun _ => mret tt) ≫= g) w = (c ≫= g) w.
Proof.
  unfold mbind, M_bind, mret, M_ret. destruct (c w) as [[] w'| | |]; reflexivity.
Qed.

Lemma delete_all_app_bind {B : Type} l1 l2 (K : unit -> M B) w :
  (delete_all (l1 ++ l2) ≫= K) w
  = (delete_all l1 ≫= fun _ => delete_all l2 ≫= K) w.
Proof.
  revert w. induction l1 as [|x l1 IH]; intros w; [reflexivity|].
  cbn [app delete_all]. rewrite !bind_assoc_pt.
  apply bind_ext_pt. intros _ w'. apply IH.
Qed.

Lemma mq_msg_delete_bind {B : Type} o (K : unit -> M B) w :
  (mq_msg_delete o ≫= K) w = (delete_all (option_list o) ≫= K) w.
Proof.
  destruct o as [x|]; [|reflexivity].
  exact (eq_sym (bind_unit_pt (mq_msg_delete (Some x)) K w)).
Qed.

Lemma die_deletes {B : Type} (m : mq) (K : unit -> M B) w :
  (mq_msg_delete (send_buf m) ≫= fun _ =>
   mq_msg_delete (recv_buf m) ≫= fun _ =>
   mq_msg_delete (recv m) ≫= fun _ =>
   delete_all (send m) ≫= K) w
  = (delete_all (held m) ≫= K) w.
Proof.
  unfold held.
  rewrite delete_all_app_bind, mq_msg_delete_bind. apply bind_ext_pt. intros _ w1.
  rewrite delete_all_app_bind, mq_msg_delete_bind. apply bind_ext_pt. intros _ w2.
  rewrite delete_all_app_bind, mq_msg_delete_bind. reflexivity.
Qed.


Lemma get_mq_Ret w p m : mqs w !! p = Some m -> get_mq p w = Ret m w.
Proof. intros H. unfold get_mq. rewrite H. reflexivity. Qed.
Lemma get_msg_Ret w p m : msgs w !! p = Some m -> get_msg p w = Ret m w.
Proof. intros H. unfold get_msg. rewrite H. reflexivity. Qed.
Lemma get_poll_Ret w p g : polls w !! p = Some g -> get_poll p w = Ret g w.
Proof. intros H. unfold get_poll. rewrite H. reflexivity. Qed.

Lemma upd_mq_Ret w p m f :
  mqs w !! p = Some m -> upd_mq p f w = Ret tt (set_mqs (<[p := f m]> (mqs w)) w).
Proof. intros H. unfold upd_mq. rewrite (bind_Ret _ _ _ _ _ (get_mq_Ret _ _ _ H)). reflexivity. Qed.
Lemma upd_msg_Ret w p m f :
  msgs w !! p = Some m -> upd_msg p f w = Ret tt (set_msgs (<[p := f m]> (msgs w)) w).
Proof. intros H. unfold upd_msg. rewrite (bind_Ret _ _ _ _ _ (get_msg_Ret _ _ _ H)). reflexivity. Qed.
Lemma upd_poll_Ret w p g f :
  polls w !! p = Some g -> upd_poll p f w = Ret tt (set_polls (<[p := f g]> (polls w)) w).
Proof. intros H. unfold upd_poll. rewrite (bind_Ret _ _ _ _ _ (get_poll_Ret _ _ _ H)). reflexivity. Qed.
Lemma free_msg_Ret w p m :
  msgs w !! p = Some m -> free_msg p w = Ret tt (set_msgs (delete p (msgs w)) w).
Proof. intros H. unfold free_msg. rewrite (bind_Ret _ _ _ _ _ (get_msg_Ret _ _ _ H)). reflexivity. Qed.

Ltac mlookup :=
  wsimpl;
  repeat first [ rewrite lookup_insert_eq
               | rewrite lookup_insert_ne by congruence
               | rewrite lookup_delete_ne by congruence ];
  first [ eassumption | reflexivity ].

Ltac msolve :=
  first [ reflexivity | assumption
        | unfold HDR_SIZE, PTRDIFF_MAX in *; lia
        | intros [? ?]; discriminate
        | congruence ].

Ltac mdecide :=
  repeat match goal with
         | |- context [bool_decide ?P] =>
             first [ rewrite (bool_decide_eq_true_2 P) by msolve
                   | rewrite (bool_decide_eq_false_2 P) by msolve ]
         end.

Ltac mstep :=
  erewrite bind_Ret;
  [ | first [ apply get_mq_Ret; mlookup
            | apply get_msg_Ret; mlookup
            | apply get_poll_Ret; mlookup
            | apply upd_mq_Ret; mlookup
            | apply upd_msg_Ret; mlookup
            | apply upd_poll_Ret; mlookup
            | apply free_msg_Ret; mlookup
            | reflexivity ] ].

Ltac mfin :=
  first [ erewrite upd_poll_Ret by mlookup
        | erewrite upd_mq_Ret by mlookup
        | erewrite upd_msg_Ret by mlookup
        | erewrite get_mq_Ret by mlookup
        | erewrite free_msg_Ret by mlookup ].

Lemma mq_die_spec (w : world) (p : positive) (e : Z) (m : mq) :
  mqs w !! p = Some m -> acc m = None -> NoDup (held m) ->
  (forall x, x ∈ held m -> is_Some (msgs w !! x)) -> grouped w m ->
  mq_die p e w = Ret tt (die_world p e m w).
Proof.
  intros Hm Hacc Hnd Hlive Hg. unfold mq_die. cbn [mq_die_rec].
  do 2 mstep.
  replace (acc (set_err e (set_state MQ_SOCKET_ERROR m))) with (@None positive)
    by (symmetry; exact Hacc).
  cbn [mq_close_with]. do 2 mstep.
  cbn [send_buf recv_buf recv send poll_group set_err set_state].
  rewrite die_deletes.
  erewrite bind_Ret; [|apply delete_all_spec; [exact Hnd|exact Hlive]].
  unfold die_world.
  destruct (poll_group m) as [g|] eqn:Hpg; [|reflexivity].
  destruct (Hg g Hpg) as [ps Hps]. rewrite Hps.
  do 2 mstep. unfold die_poll.
  destruct (bool_decide (e = 0)).
  - erewrite upd_poll_Ret by mlookup. wsimpl. rewrite !insert_insert_eq. reflexivity.
  - erewrite upd_poll_Ret by mlookup. wsimpl. rewrite !insert_insert_eq. reflexivity.
Qed.

Lemma sys_recv_eof w fd n s t :
  socks w !! fd = Some s -> rx s = RxEof :: t -> sys_recv fd n w = Ret (0, []) w.
Proof. intros Hs Hr. unfold sys_recv. rewrite Hs, Hr. reflexivity. Qed.

Lemma flush_recv_unfold p w m :
  mqs w !! p = Some m ->
  exists f, flush_recv p w = flush_recv_loop (S f) p w.
Proof. intros Hm. unfold flush_recv, flush_recv_fuel. rewrite Hm. eexists. reflexivity. Qed.

(** The receive path at the end of the stream. *)
Lemma flush_recv_eof (w : world) (p : positive) (m : mq) :
  mqs w !! p = Some m -> reads_next w m -> peer_closed w m ->
  flush_recv p w = Ret (-1) (ensure_recv_buf p m w).
Proof.
  intros Hm [Hrecv Hbuf] (s & t & Hs & Hrx).
  destruct (flush_recv_unfold p w m Hm) as [f ->]. cbn [flush_recv_loop].
  mstep. rewrite Hrecv. rewrite bool_decide_eq_false_2 by (intros [? ?]; discriminate).
  unfold ensure_recv_buf.
  destruct (recv_buf m) as [rp|] eqn:Hrb.
  - destruct Hbuf as (rcv & Hrcv & Hlen & Hpos).
    erewrite bind_Ret by reflexivity. mstep.
    rewrite (bool_decide_eq_true_2 _ Hlen). erewrite bind_Ret by reflexivity.
    destruct (bool_decide (hdr_pos rcv < HDR_SIZE)) eqn:Hh.
    + erewrite bind_Ret by (eapply sys_recv_eof; eassumption).
      cbn beta iota. reflexivity.
    + destruct Hpos as [Hp|[Hp Hb]];
        [apply bool_decide_eq_false_1 in Hh; contradiction|].
      rewrite Hp. cbn [negb]. rewrite (bool_decide_eq_true_2 _ Hb).
      erewrite bind_Ret by (eapply sys_recv_eof; eassumption).
      cbn beta iota. reflexivity.
  - unfold msg_create. erewrite bind_Ret; cycle 1.
    { erewrite bind_Ret by reflexivity. mstep. reflexivity. }
    mstep. cbn [zero_msg len hdr_pos]. mdecide.
    erewrite bind_Ret by reflexivity.
    erewrite bind_Ret by (eapply sys_recv_eof; wsimpl; eassumption).
    cbn beta iota. reflexivity.
Qed.

Lemma update_poll_group_error (w : world) (p : positive) (m : mq) :
  mqs w !! p = Some m -> state m = MQ_SOCKET_ERROR -> grouped w m ->
  exists w', update_poll_group p w = Ret tt w'
    /\ mqs w' = mqs w /\ msgs w' = msgs w /\ errno w' = errno w
    /\ socks w' = socks w
    /\ (forall g, poll_group m = Some g ->
          exists ps, polls w' !! g = Some ps /\ p ∈ error ps).
Proof.
  intros Hm Hst Hg. unfold update_poll_group. mstep.
  destruct (poll_group m) as [g|] eqn:Hpg.
  - destruct (Hg g Hpg) as [ps Hps].
    rewrite (bool_decide_eq_true_2 _ Hst). mstep.
    destruct (bool_decide (is_Some (recv m))), (bool_decide (is_Some (acc m)));
      repeat mstep; try mfin; (eexists; split; [reflexivity|]); wsimpl;
      (repeat split; try reflexivity);
      intros g' [= <-]; rewrite ?lookup_insert_eq;
      (eexists; split; [reflexivity|]); cbn; set_solver.
  - exists w. repeat split; try reflexivity. intros g' [=].
Qed.

Lemma handle_revents_connected (w : world) (revents : Z) (p : positive) (m : mq) :
  mqs w !! p = Some m -> state m = MQ_SOCKET_CONNECTED ->
  handle_revents revents p w
  = (send_phase revents p ≫= fun rc =>
     (if bool_decide (rc = -1) then
        e ← gets errno; mq_die p e;; mret rc
      else
        rc ← (if has_bit POLLIN revents then flush_recv p else mret rc);
        if bool_decide (rc = -1) then
          e ← gets errno; mq_die p e;; mret rc
        else mret rc) ≫= fun rc => update_poll_group p;; mret rc) w.
Proof.
  intros Hm Hst. unfold handle_revents. mstep. rewrite Hst.
  rewrite bind_assoc_pt. reflexivity.
Qed.

Lemma die_world_mqs p e m w :
  mqs (die_world p e m w) = <[p := set_err e (set_state MQ_SOCKET_ERROR m)]> (mqs w).
Proof.
  unfold die_world. destruct (poll_group m); [destruct (polls w !! _)|]; reflexivity.
Qed.

Lemma die_world_msgs p e m w :
  msgs (die_world p e m w) = release (held m) (msgs w).
Proof.
  unfold die_world. destruct (poll_group m); [destruct (polls w !! _)|]; reflexivity.
Qed.

Lemma die_world_errno p e m w : errno (die_world p e m w) = errno w.
Proof.
  unfold die_world. destruct (poll_group m); [destruct (polls w !! _)|]; reflexivity.
Qed.

Lemma die_world_socks p e m w : socks (die_world p e m w) = socks w.
Proof.
  unfold die_world. destruct (poll_group m); [destruct (polls w !! _)|]; reflexivity.
Qed.

Lemma die_world_grouped p e m w :
  grouped w m -> grouped (die_world p e m w) (set_err e (set_state MQ_SOCKET_ERROR m)).
Proof.
  intros Hg g Hpg. cbn [poll_group set_err set_state] in Hpg.
  destruct (Hg g Hpg) as [ps Hps]. unfold die_world. rewrite Hpg, Hps. wsimpl.
  rewrite lookup_insert_eq. eauto.
Qed.

Lemma ensure_recv_buf_facts (w : world) (p : positive) (m : mq) :
  mqs w !! p = Some m -> owns w m -> grouped w m ->
  let w2 := ensure_recv_buf p m w in
  let m2 := with_recv_buf m w in
  mqs w2 !! p = Some m2 /\ NoDup (held m2)
  /\ (forall x, x ∈ held m2 -> is_Some (msgs w2 !! x))
  /\ grouped w2 m2 /\ errno w2 = errno w /\ socks w2 = socks w
  /\ acc m2 = acc m /\ poll_group m2 = poll_group m /\ recv m2 = recv m.
Proof.
  intros Hm (Hnd & Hlive & Hfresh) Hg. unfold ensure_recv_buf, with_recv_buf.
  destruct (recv_buf m) as [rp|] eqn:Hrb; cbn zeta.
  - repeat split; auto.
  - wsimpl. rewrite lookup_insert_eq.
    assert (Hnew : brk w ∉ held m).
    { intros Hin. apply Hlive in Hin as [x Hx]. congruence. }
    unfold held in *. rewrite Hrb in *.
    cbn [send_buf recv_buf recv send set_recv_buf option_list option_rect app] in *.
    repeat split; auto.
    + apply NoDup_app in Hnd as (H1 & H2 & H3).
      apply NoDup_app. split; [exact H1|]. split.
      * intros x Hx. rewrite elem_of_cons. intros [->|Hx'].
        -- apply Hnew. apply elem_of_app. left. exact Hx.
        -- exact (H2 x Hx Hx').
      * apply NoDup_cons. split; [|exact H3].
        intros Hin. apply Hnew. apply elem_of_app. right. exact Hin.
    + intros x Hx.
      destruct (decide (x = brk w)) as [->|Hne].
      * rewrite lookup_insert_eq. eauto.
      * rewrite lookup_insert_ne by congruence. apply Hlive.
        apply elem_of_app in Hx as [Hx|Hx]; apply elem_of_app; [left; exact Hx|].
        right. apply elem_of_cons in Hx as [Hx|Hx]; [contradiction|exact Hx].
Qed.

Lemma mq_geterror_error w p m :
  mqs w !! p = Some m -> state m = MQ_SOCKET_ERROR ->
  mq_geterror p w = Ret (err m) w.
Proof.
  intros Hm Hst. unfold mq_geterror. mstep.
  rewrite bool_decide_eq_false_2 by (intros H; apply H; exact Hst). reflexivity.
Qed.

(** What becomes of a connected endpoint whose receive path fails: it
    is killed with the value [errno] has when the path returns. *)
Lemma recv_failure_kills (w w1 w2 : world) (revents : Z) (p : positive) (m0 m2 : mq) :
  mqs w !! p = Some m0 -> state m0 = MQ_SOCKET_CONNECTED ->
  has_bit POLLIN revents = true ->
  send_phase revents p w = Ret 0 w1 ->
  flush_recv p w1 = Ret (-1) w2 ->
  mqs w2 !! p = Some m2 -> acc m2 = None -> NoDup (held m2) ->
  (forall x, x ∈ held m2 -> is_Some (msgs w2 !! x)) -> grouped w2 m2 ->
  exists w' m', handle_revents revents p w = Ret (-1) w'
    /\ mqs w' = <[p := m']> (mqs w2)
    /\ m' = set_err (errno w2) (set_state MQ_SOCKET_ERROR m2)
    /\ msgs w' = release (held m2) (msgs w2)
    /\ socks w' = socks w2
    /\ (forall g, poll_group m2 = Some g ->
          exists ps, polls w' !! g = Some ps /\ p ∈ error ps).
Proof.
  intros Hm0 Hst Hin Hsend Hrecv Hm2 Hacc Hnd Hlive Hg.
  rewrite (handle_revents_connected w revents p m0 Hm0 Hst).
  rewrite (bind_Ret _ _ _ _ _ Hsend).
  rewrite (bool_decide_eq_false_2 (0 = -1)) by discriminate.
  rewrite Hin. rewrite bind_assoc_pt. rewrite (bind_Ret _ _ _ _ _ Hrecv).
  rewrite (bool_decide_eq_true_2 (-1 = -1)) by reflexivity.
  rewrite !bind_assoc_pt. erewrite bind_Ret by reflexivity.
  rewrite bind_assoc_pt.
  rewrite (bind_Ret _ _ _ _ _ (mq_die_spec w2 p (errno w2) m2 Hm2 Hacc Hnd Hlive Hg)).
  erewrite bind_Ret by reflexivity.
  set (m' := set_err (errno w2) (set_state MQ_SOCKET_ERROR m2)).
  set (w3 := die_world p (errno w2) m2 w2).
  assert (Hm3 : mqs w3 !! p = Some m').
  { subst w3. rewrite die_world_mqs. apply lookup_insert_eq. }
  destruct (update_poll_group_error w3 p m' Hm3 eq_refl
              (die_world_grouped p (errno w2) m2 w2 Hg))
    as (w4 & Hup & Hmqs & Hmsgs & Herrno & Hsocks & Herr).
  exists w4, m'. rewrite (bind_Ret _ _ _ _ _ Hup). split; [reflexivity|].
  subst w3. rewrite Hmqs, Hmsgs, Hsocks, die_world_mqs, die_world_msgs, die_world_socks.
  repeat split. exact Herr.
Qed.

(** C3 (as amended). When the peer of a connected endpoint closes the
    stream, the zero-byte read kills the endpoint: it is in state ERROR,
    it is in the error set of its poll group if it has one, and the
    code it latches, which [mq_geterror] returns, is the value [errno]
    has at the time of the read: 0 only when no earlier call has left an
    error there. *)
Theorem peer_close_latches_errno (w w1 : world) (revents : Z) (p : positive)
    (m0 m : mq) :
  mqs w !! p = Some m0 -> state m0 = MQ_SOCKET_CONNECTED ->
  has_bit POLLIN revents = true ->
  send_phase revents p w = Ret 0 w1 ->
  mqs w1 !! p = Some m -> acc m = None ->
  reads_next w1 m -> peer_closed w1 m -> owns w1 m -> grouped w1 m ->
  exists w' m', handle_revents revents p w = Ret (-1) w'
    /\ mqs w' !! p = Some m' /\ state m' = MQ_SOCKET_ERROR
    /\ err m' = errno w1
    /\ mq_geterror p w' = Ret (errno w1) w'
    /\ (forall g, poll_group m = Some g ->
          exists ps, polls w' !! g = Some ps /\ p ∈ error ps).
Proof.
  intros Hm0 Hst Hin Hsend Hm Hacc Hrd Hclosed Hown Hg.
  pose proof (flush_recv_eof w1 p m Hm Hrd Hclosed) as Hrecv.
  destruct (ensure_recv_buf_facts w1 p m Hm Hown Hg)
    as (Hm2 & Hnd & Hlive & Hg2 & Herrno & _ & Hacc2 & Hpg2 & _).
  destruct (recv_failure_kills w w1 _ revents p m0 _ Hm0 Hst Hin Hsend Hrecv Hm2
              (eq_trans Hacc2 Hacc) Hnd Hlive Hg2)
    as (w' & m' & Hrun & Hmqs & -> & _ & _ & Herr).
  assert (Hm' : mqs w' !! p
                = Some (set_err (errno (ensure_recv_buf p m w1))
                          (set_state MQ_SOCKET_ERROR (with_recv_buf m w1)))).
  { rewrite Hmqs. apply lookup_insert_eq. }
  eexists w', _. split; [exact Hrun|]. split; [exact Hm'|].
  split; [reflexivity|]. split; [exact Herrno|]. split.
  - rewrite (mq_geterror_error w' p _ Hm' eq_refl). cbn [err set_err].
    rewrite Herrno. reflexivity.
  - intros g Hpg. apply Herr. rewrite Hpg2. exact Hpg.
Qed.

(** ** The receive path *)

Lemma sys_recv_data w fd n s b bs t :
  socks w !! fd = Some s -> rx s = RxData b bs :: t ->
  sys_recv fd n w
  = Ret (Z.of_nat (length (take (Z.to_nat n) (b :: bs))), take (Z.to_nat n) (b :: bs))
        (set_socks
           (<[fd := set_rx (match drop (Z.to_nat n) (b :: bs) with
                            | [] => t
                            | b' :: bs' => RxData b' bs' :: t
                            end) s]> (socks w)) w).
Proof. intros Hs Hr. unfold sys_recv. rewrite Hs, Hr. reflexivity. Qed.

Lemma flush_recv_unfold2 p w m :
  mqs w !! p = Some m ->
  exists f, flush_recv p w = flush_recv_loop (S (S f)) p w.
Proof. intros Hm. unfold flush_recv, flush_recv_fuel. rewrite Hm. eexists. reflexivity. Qed.

(** The receive path on a stream that opens with sixteen bytes whose
    magic is wrong. *)
Lemma flush_recv_bad_magic (w : world) (p : positive) (m : mq) s b bs t :
  mqs w !! p = Some m -> recv m = None -> recv_buf m = None ->
  socks w !! link m = Some s -> rx s = RxData b bs :: t ->
  (16 <= length (b :: bs))%nat -> take 5 (b :: bs) ≠ HDR_MAGIC ->
  exists w2 rcv, flush_recv p w = Ret (-1) w2
    /\ mqs w2 = mqs (ensure_recv_buf p m w)
    /\ msgs w2 = <[brk w := rcv]> (msgs w)
    /\ polls w2 = polls w /\ errno w2 = errno w.
Proof.
  intros Hm Hrecv Hrb Hs Hrx Hlen Hmagic.
  destruct (flush_recv_unfold2 p w m Hm) as [f ->].
  remember (S f) as f1 eqn:Ef1. cbn [flush_recv_loop].
  mstep. rewrite Hrecv. mdecide. cbn zeta. rewrite Hrb.
  unfold msg_create. erewrite bind_Ret; cycle 1.
  { erewrite bind_Ret by reflexivity. mstep. reflexivity. }
  mstep. cbn [zero_msg len hdr_pos hdr]. mdecide.
  erewrite bind_Ret by reflexivity.
  erewrite bind_Ret by (eapply sys_recv_data; wsimpl; eassumption).
  cbn beta iota. erewrite bind_Ret by reflexivity.
  assert (Hgot : length (take (Z.to_nat (HDR_SIZE - 0)) (b :: bs)) = 16%nat).
  { change (Z.to_nat (HDR_SIZE - 0)) with 16%nat. rewrite length_take.
    apply Nat.min_l. exact Hlen. }
  set (got := take (Z.to_nat (HDR_SIZE - 0)) (b :: bs)) in *.
  rewrite Hgot.
  change (bool_decide (Z.of_nat 16 = -1)) with false.
  change (bool_decide (Z.of_nat 16 <= 0)) with false. cbn [andb].
  assert (Hw : mem_write (replicate 16 x00) (HDR_SIZE * 0) got = Some got).
  { unfold mem_write. rewrite Hgot. rewrite bool_decide_eq_true_2 by (cbn; lia).
    change (Z.to_nat (HDR_SIZE * 0)) with 0%nat. cbn [take Nat.add app].
    change (drop 16 (replicate 16 x00)) with (@nil byte). rewrite app_nil_r.
    reflexivity. }
  rewrite Hw. erewrite bind_Ret by reflexivity. mstep.
  subst f1. cbn [flush_recv_loop]. mstep.
  cbn [recv set_recv_buf recv_buf]. rewrite Hrecv. mdecide. cbn zeta.
  erewrite bind_Ret by reflexivity. mstep.
  cbn [zero_msg len hdr_pos set_hdr_pos set_hdr parsed_header negb hdr].
  mdecide. erewrite bind_Ret by reflexivity.
  erewrite bind_Ret by reflexivity.
  replace (parse_header _ _) with (@None mq_msg); cycle 1.
  { unfold parse_header. cbn [hdr]. rewrite bool_decide_eq_false_2; [reflexivity|].
    unfold hdr_magic, got. cbn [drop OFF_MAGIC hdr set_hdr_pos set_hdr zero_msg].
    change (Z.to_nat (HDR_SIZE - 0)) with 16%nat.
    rewrite drop_0, take_take. exact Hmagic. }
  eexists _, _. split; [reflexivity|]. wsimpl.
  unfold ensure_recv_buf. rewrite Hrb. wsimpl.
  split; [reflexivity|]. split; [|split; reflexivity].
  rewrite insert_insert_eq. reflexivity.
Qed.

(** ERROR is a final state: a wake-up leaves the endpoint as it is. *)
Lemma handle_revents_error (w : world) (r : Z) (p : positive) (m : mq) :
  mqs w !! p = Some m -> state m = MQ_SOCKET_ERROR -> grouped w m ->
  exists w', handle_revents r p w = Ret 0 w' /\ mqs w' = mqs w /\ grouped w' m.
Proof.
  intros Hm Hst Hg. unfold handle_revents. mstep. rewrite Hst.
  erewrite bind_Ret by reflexivity.
  destruct (update_poll_group_error w p m Hm Hst Hg)
    as (w' & Hup & Hmqs & _ & _ & _ & Herr).
  exists w'. rewrite (bind_Ret _ _ _ _ _ Hup). split; [reflexivity|].
  split; [exact Hmqs|].
  intros g Hpg. destruct (Herr g Hpg) as (ps & Hps & _). eauto.
Qed.

Lemma drive_error (rs : list Z) (w : world) (p : positive) (m : mq) :
  mqs w !! p = Some m -> state m = MQ_SOCKET_ERROR -> grouped w m ->
  exists w', drive rs p w = Ret tt w' /\ mqs w' = mqs w /\ grouped w' m.
Proof.
  revert w. induction rs as [|r rs IH]; intros w Hm Hst Hg.
  - exists w. repeat split; auto.
  - destruct (handle_revents_error w r p m Hm Hst Hg) as (w1 & Hrun & Hmqs & Hg1).
    destruct (IH w1) as (w2 & Hrun2 & Hmqs2 & Hg2); [congruence|exact Hst|exact Hg1|].
    exists w2. cbn [drive]. rewrite (bind_Ret _ _ _ _ _ Hrun).
    split; [exact Hrun2|]. split; [congruence|exact Hg2].
Qed.

Lemma mq_recv_nothing (w : world) (p : positive) (m : mq) :
  mqs w !! p = Some m -> recv m = None -> grouped w m ->
  exists w', mq_recv p w = Ret None w'.
Proof.
  intros Hm Hr Hg. unfold mq_recv. do 2 mstep. rewrite Hr.
  destruct (poll_group m) as [g|] eqn:Hpg.
  - destruct (Hg g Hpg) as [ps Hps]. mstep. eexists. reflexivity.
  - erewrite bind_Ret by reflexivity. eexists. reflexivity.
Qed.

(** C7 (as amended). A stream whose first sixteen bytes arrive in one
    read and do not begin with the magic "DSmsg" poisons the endpoint:
    once the header is complete the receive path rejects it, the
    endpoint is moved to state ERROR, and no message is ever handed out
    by [mq_recv], however often the endpoint is woken afterwards. *)
Theorem bad_magic_poisons (w w1 : world) (revents : Z) (p : positive)
    (m0 m : mq) (s : sock) (b : byte) (bs : list byte) (t : list rx_event) :
  mqs w !! p = Some m0 -> state m0 = MQ_SOCKET_CONNECTED ->
  has_bit POLLIN revents = true ->
  send_phase revents p w = Ret 0 w1 ->
  mqs w1 !! p = Some m -> acc m = None -> recv m = None -> recv_buf m = None ->
  owns w1 m -> grouped w1 m ->
  socks w1 !! link m = Some s -> rx s = RxData b bs :: t ->
  (16 <= length (b :: bs))%nat -> take 5 (b :: bs) ≠ HDR_MAGIC ->
  exists w' m', handle_revents revents p w = Ret (-1) w'
    /\ mqs w' !! p = Some m' /\ state m' = MQ_SOCKET_ERROR
    /\ forall rs, exists w'' w3,
         drive rs p w' = Ret tt w''
         /\ mqs w'' !! p = Some m'
         /\ mq_recv p w'' = Ret None w3.
Proof.
  intros Hm0 Hst Hin Hsend Hm Hacc Hrecv Hrb Hown Hg Hs Hrx Hlen Hmagic.
  destruct (flush_recv_bad_magic w1 p m s b bs t Hm Hrecv Hrb Hs Hrx Hlen Hmagic)
    as (w2 & rcv & Hflush & Hmqs2 & Hmsgs2 & Hpolls2 & Herrno2).
  destruct (ensure_recv_buf_facts w1 p m Hm Hown Hg)
    as (Hm2 & Hnd & Hlive & Hg2 & _ & _ & Hacc2 & Hpg2 & Hrecv2).
  cbn zeta in *.
  assert (Hm2' : mqs w2 !! p = Some (with_recv_buf m w1)) by (rewrite Hmqs2; exact Hm2).
  assert (Hlive' : forall x, x ∈ held (with_recv_buf m w1) -> is_Some (msgs w2 !! x)).
  { intros x Hx. rewrite Hmsgs2. apply lookup_insert_is_Some'.
    destruct (decide (brk w1 = x)) as [->|Hne]; [left; reflexivity|right].
    specialize (Hlive x Hx). unfold ensure_recv_buf in Hlive. rewrite Hrb in Hlive.
    wsimpl. rewrite lookup_insert_ne in Hlive by exact Hne. exact Hlive. }
  assert (Hg2' : grouped w2 (with_recv_buf m w1)).
  { intros g Hpg. rewrite Hpolls2. apply Hg. rewrite <- Hpg2. exact Hpg. }
  destruct (recv_failure_kills w w1 w2 revents p m0 _ Hm0 Hst Hin Hsend Hflush Hm2'
              (eq_trans Hacc2 Hacc) Hnd Hlive' Hg2')
    as (w' & m' & Hrun & Hmqs & Hm' & _ & _ & Herr).
  assert (Hp' : mqs w' !! p = Some m') by (rewrite Hmqs; apply lookup_insert_eq).
  assert (Hst' : state m' = MQ_SOCKET_ERROR) by (rewrite Hm'; reflexivity).
  assert (Hr' : recv m' = None).
  { rewrite Hm'. cbn [recv set_err set_state]. congruence. }
  assert (Hg' : grouped w' m').
  { intros g Hpg. destruct (Herr g) as (ps & Hps & _); [|eauto].
    rewrite Hm' in Hpg. exact Hpg. }
  exists w', m'. split; [exact Hrun|]. split; [exact Hp'|]. split; [exact Hst'|].
  intros rs.
  destruct (drive_error rs w' p m' Hp' Hst' Hg') as (w'' & Hdrive & Hmqs'' & Hg'').
  assert (Hp'' : mqs w'' !! p = Some m') by congruence.
  destruct (mq_recv_nothing w'' p m' Hp'' Hr' Hg'') as (w3 & Hw3).
  exists w'', w3. auto.
Qed.

Lemma peer_close_latches_errno_witness :
  exists w' m',
    handle_revents POLLIN 1 (Samples.closed_by_peer 0) = Ret (-1) w'
    /\ mqs w' !! 1%positive = Some m' /\ state m' = MQ_SOCKET_ERROR
    /\ err m' = 0
    /\ mq_geterror 1 w' = Ret 0 w'
    /\ (forall g, Some 10%positive = Some g ->
          exists ps, polls w' !! g = Some ps /\ 1%positive ∈ error ps).
Proof.
  apply (peer_close_latches_errno
           (Samples.closed_by_peer 0) (Samples.closed_by_peer 0) POLLIN 1
           (Samples.connected_ep (Some 10%positive))
           (Samples.connected_ep (Some 10%positive))).
  - reflexivity.
  - reflexivity.
  - reflexivity.
  - reflexivity.
  - reflexivity.
  - reflexivity.
  - split; [reflexivity|exact I].
  - exists (Sock [RxEof] [] [] 0 []), []. split; reflexivity.
  - split; [apply NoDup_nil_2|]. split; [|reflexivity].
    intros x Hx. apply elem_of_nil in Hx. destruct Hx.
  - intros g Hg. injection Hg as <-. eexists. reflexivity.
Defined.

(** The claim C3 fails as it stands: a wake-up that finds nothing to
    read leaves [EAGAIN] in [errno]; when the peer then closes the
    stream, the zero-byte read leaves the endpoint in ERROR with
    [mq_geterror] returning [EAGAIN], not 0. *)
Lemma peer_close_stale_errno :
  exists w1 w',
    handle_revents POLLIN 1 (Samples.receiving []) = Ret 0 w1
    /\ errno w1 = EAGAIN
    /\ handle_revents POLLIN 1 (Samples.with_rx [RxEof] w1) = Ret (-1) w'
    /\ mq_geterror 1 w' = Ret EAGAIN w' /\ EAGAIN <> 0.
Proof.
  eexists. eexists. split; [vm_compute; reflexivity|].
  split; [reflexivity|]. split; [vm_compute; reflexivity|].
  split; [vm_compute; reflexivity|discriminate].
Qed.

(** A wake-up of a dead endpoint touches no message and no endpoint: it
    only notes the endpoint in the readiness sets of its poll group. *)
Lemma handle_revents_dead (w : world) (r : Z) (p : positive) (m : mq) :
  mqs w !! p = Some m -> state m = MQ_SOCKET_ERROR -> grouped w m ->
  exists w', handle_revents r p w = Ret 0 w'
    /\ mqs w' = mqs w /\ msgs w' = msgs w /\ grouped w' m.
Proof.
  intros Hm Hst Hg. unfold handle_revents. mstep. rewrite Hst.
  erewrite bind_Ret by reflexivity.
  destruct (update_poll_group_error w p m Hm Hst Hg)
    as (w' & Hup & Hmqs & Hmsgs & _ & _ & Herr).
  exists w'. rewrite (bind_Ret _ _ _ _ _ Hup). split; [reflexivity|].
  split; [exact Hmqs|]. split; [exact Hmsgs|].
  intros g Hpg. destruct (Herr g Hpg) as (ps & Hps & _). eauto.
Qed.

Lemma drive_dead (rs : list Z) (w : world) (p : positive) (m : mq) :
  mqs w !! p = Some m -> state m = MQ_SOCKET_ERROR -> grouped w m ->
  exists w', drive rs p w = Ret tt w' /\ mqs w' = mqs w /\ msgs w' = msgs w.
Proof.
  revert w. induction rs as [|r rs IH]; intros w Hm Hst Hg.
  - exists w. repeat split; reflexivity.
  - destruct (handle_revents_dead w r p m Hm Hst Hg)
      as (w1 & Hrun & Hmqs & Hmsgs & Hg1).
    destruct (IH w1) as (w2 & Hrun2 & Hmqs2 & Hmsgs2);
      [rewrite Hmqs; exact Hm|exact Hst|exact Hg1|].
    exists w2. cbn [drive]. rewrite (bind_Ret _ _ _ _ _ Hrun).
    split; [exact Hrun2|]. split; congruence.
Qed.

(** C5 (as amended). An endpoint that [mq_die] moves to state ERROR has
    released every message it holds (the one being sent, the one being
    received, the received one and the send queue), whose pointers it
    keeps; the error code it latches is the one [mq_die] is given, 0
    included.  The release happens once: a message queued with
    [mq_send] on the dead endpoint goes to the tail of its send queue
    and no later wake-up, whatever it reports, sends or frees it: the
    endpoint stays as it is and the heap of messages is unchanged. *)
Theorem die_releases (w : world) (p : positive) (e : Z) (m : mq) :
  mqs w !! p = Some m -> acc m = None -> owns w m -> grouped w m ->
  exists w' m', mq_die p e w = Ret tt w'
    /\ mqs w' !! p = Some m' /\ state m' = MQ_SOCKET_ERROR /\ err m' = e
    /\ held m' = held m
    /\ (forall x, x ∈ held m -> msgs w' !! x = None)
    /\ (forall (x : positive) (rs : list Z),
          exists w'' m'',
            (mq_send p x;; drive rs p) w' = Ret tt w''
            /\ mqs w'' !! p = Some m''
            /\ state m'' = MQ_SOCKET_ERROR /\ err m'' = e
            /\ send m'' = send m ++ [x]
            /\ msgs w'' = msgs w').
Proof.
  intros Hm Hacc (Hnd & Hlive & _) Hg.
  set (m' := set_err e (set_state MQ_SOCKET_ERROR m)).
  assert (Hm' : mqs (die_world p e m w) !! p = Some m')
    by (rewrite die_world_mqs; apply lookup_insert_eq).
  exists (die_world p e m w), m'.
  split; [exact (mq_die_spec w p e m Hm Hacc Hnd Hlive Hg)|].
  split; [exact Hm'|].
  split; [reflexivity|]. split; [reflexivity|]. split; [reflexivity|].
  split; [intros x Hx; rewrite die_world_msgs; apply lookup_release_in, Hx|].
  intros x rs.
  set (m1 := set_send (send m' ++ [x]) m').
  set (w1 := set_mqs (<[p := m1]> (mqs (die_world p e m w))) (die_world p e m w)).
  assert (Hsend : mq_send p x (die_world p e m w) = Ret tt w1).
  { unfold mq_send.
    exact (upd_mq_Ret (die_world p e m w) p m'
             (fun m0 => set_send (send m0 ++ [x]) m0) Hm'). }
  assert (Hm1 : mqs w1 !! p = Some m1) by apply lookup_insert_eq.
  assert (Hg1 : grouped w1 m1).
  { intros g Hpg. apply (die_world_grouped p e m w Hg g). exact Hpg. }
  destruct (drive_dead rs w1 p m1 Hm1 eq_refl Hg1) as (w2 & Hrun & Hmqs & Hmsgs).
  exists w2, m1. split; [erewrite bind_Ret by exact Hsend; exact Hrun|].
  split; [rewrite Hmqs; exact Hm1|].
  split; [reflexivity|]. split; [reflexivity|]. split; [reflexivity|].
  rewrite Hmsgs. reflexivity.
Qed.

Lemma busy_endpoint_owns :
  owns Samples.busy_endpoint
       (Mq 3 MQ_SOCKET_CONNECTED None [4; 5]%positive 0 None
           (Some 2%positive) (Some 3%positive) None).
Proof.
  split; [|split].
  - unfold held. cbn. apply (bool_decide_unpack _). reflexivity.
  - intros x Hx. unfold held in Hx. cbn in Hx.
    repeat (apply elem_of_cons in Hx as [->|Hx]; [eexists; reflexivity|]).
    apply elem_of_nil in Hx. destruct Hx.
  - reflexivity.
Qed.

Lemma die_releases_witness :
  exists w' m', mq_die 1 104 Samples.busy_endpoint = Ret tt w'
    /\ mqs w' !! 1%positive = Some m' /\ state m' = MQ_SOCKET_ERROR
    /\ err m' = 104
    /\ held m' = [2; 3; 4; 5]%positive
    /\ (forall x, x ∈ [2; 3; 4; 5]%positive -> msgs w' !! x = None)
    /\ (forall (x : positive) (rs : list Z),
          exists w'' m'',
            (mq_send 1 x;; drive rs 1) w' = Ret tt w''
            /\ mqs w'' !! 1%positive = Some m''
            /\ state m'' = MQ_SOCKET_ERROR /\ err m'' = 104
            /\ send m'' = [4; 5]%positive ++ [x]
            /\ msgs w'' = msgs w').
Proof.
  apply (die_releases Samples.busy_endpoint 1 104
           (Mq 3 MQ_SOCKET_CONNECTED None [4; 5]%positive 0 None
               (Some 2%positive) (Some 3%positive) None)).
  - reflexivity.
  - reflexivity.
  - exact busy_endpoint_owns.
  - intros g Hg. discriminate Hg.
Defined.

(** The claim C5 fails as it stands.  After a clean close by the peer
    the endpoint is in state ERROR with the error code 0; and a message
    queued on the dead endpoint stays allocated in its send queue over
    the next wake-up. *)
Lemma error_state_with_zero_code :
  exists w' m',
    handle_revents POLLIN 1 (Samples.closed_by_peer 0) = Ret (-1) w'
    /\ mqs w' !! 1%positive = Some m'
    /\ state m' = MQ_SOCKET_ERROR /\ err m' = 0
    /\ exists w'' m'' x,
         (msg ← mq_wrap_buffer [x68; x69]; mq_send 1 msg;;
          handle_revents (Z.lor POLLIN POLLOUT) 1) w' = Ret 0 w''
         /\ mqs w'' !! 1%positive = Some m''
         /\ state m'' = MQ_SOCKET_ERROR /\ send m'' = [x]
         /\ is_Some (msgs w'' !! x).
Proof.
  eexists. eexists. split; [vm_compute; reflexivity|].
  split; [vm_compute; reflexivity|]. split; [reflexivity|]. split; [reflexivity|].
  eexists. eexists. eexists. split; [vm_compute; reflexivity|].
  split; [vm_compute; reflexivity|]. split; [reflexivity|]. split; [reflexivity|].
  vm_compute. eexists. reflexivity.
Qed.

Lemma bad_magic_poisons_witness :
  exists w' m',
    handle_revents POLLIN 1 (Samples.receiving [Samples.bad_header_chunk])
    = Ret (-1) w'
    /\ mqs w' !! 1%positive = Some m' /\ state m' = MQ_SOCKET_ERROR
    /\ forall rs, exists w'' w3,
         drive rs 1 w' = Ret tt w''
         /\ mqs w'' !! 1%positive = Some m'
         /\ mq_recv 1 w'' = Ret None w3.
Proof.
  apply (bad_magic_poisons
           (Samples.receiving [Samples.bad_header_chunk])
           (Samples.receiving [Samples.bad_header_chunk]) POLLIN 1
           (Samples.connected_ep (Some 10%positive))
           (Samples.connected_ep (Some 10%positive))
           (Sock [Samples.bad_header_chunk] [] [] 0 [])
           x58 [x58; x6d; x73; x67; x00; x00; x00; x00; x00; x00; x00; x00; x00;
                x00; x00] []).
  - reflexivity.
  - reflexivity.
  - reflexivity.
  - reflexivity.
  - reflexivity.
  - reflexivity.
  - reflexivity.
  - reflexivity.
  - split; [apply NoDup_nil_2|]. split; [|reflexivity].
    intros x Hx. apply elem_of_nil in Hx. destruct Hx.
  - intros g Hg. injection Hg as <-. eexists. reflexivity.
  - reflexivity.
  - reflexivity.
  - cbn. lia.
  - discriminate.
Defined.

(** The claim C7 fails as it stands: a stream that so far consists of
    the five bytes "XXmsg" leaves the endpoint connected, since the
    magic is only looked at when all sixteen bytes of the header are
    there; further wake-ups without new bytes change nothing. *)
Lemma short_stream_not_poisoned :
  exists w' m',
    drive [POLLIN; POLLIN; POLLIN] 1 (Samples.receiving [Samples.bad_magic_only])
    = Ret tt w'
    /\ mqs w' !! 1%positive = Some m'
    /\ state m' = MQ_SOCKET_CONNECTED
    /\ mq_geterror 1 w' = Ret 0 w'.
Proof.
  eexists. eexists. split; [vm_compute; reflexivity|].
  split; [vm_compute; reflexivity|]. split; [reflexivity|].
  vm_compute. reflexivity.
Qed.

(** ** Transfers that stop in the middle of the header *)

(** An access at [&hdr + k] for [k > 0] lies outside the header. *)
Lemma mid_header_outside (h : list byte) (k : Z) :
  length h = 16%nat -> 0 < k ->
  (forall n, 0 < n -> mem_read h (HDR_SIZE * k) n = None)
  /\ (forall data, data ≠ [] -> mem_write h (HDR_SIZE * k) data = None).
Proof.
  intros Hl Hk. split.
  - intros n Hn. unfold mem_read. rewrite bool_decide_eq_false_2; [reflexivity|].
    rewrite Hl. unfold HDR_SIZE. lia.
  - intros data Hd. unfold mem_write. rewrite bool_decide_eq_false_2; [reflexivity|].
    rewrite Hl. unfold HDR_SIZE. destruct data; [congruence|]. cbn [length]. lia.
Qed.

Lemma flush_send_unfold p w m :
  mqs w !! p = Some m ->
  exists f, flush_send p w = flush_send_loop (S (S f)) p w.
Proof. intros Hm. unfold flush_send, flush_send_fuel. rewrite Hm. eexists. reflexivity. Qed.

Lemma sys_send_accept w fd obj off n s k t :
  socks w !! fd = Some s -> tx s = TxAccept k :: t ->
  sys_send fd obj off n w
  = match mem_read obj off (Z.min (Z.pos k) n) with
    | None => Fault
    | Some bytes =>
        Ret (Z.min (Z.pos k) n)
            (set_socks (<[fd := set_sent (sent s ++ bytes) (set_tx t s)]> (socks w)) w)
    end.
Proof. intros Hs Ht. unfold sys_send. rewrite Hs, Ht. reflexivity. Qed.

(** A send that resumes in the middle of the header reads outside the
    header. *)
Lemma flush_send_mid_header (w : world) (p sp : positive) (m : mq) (snd : mq_msg)
    (s : sock) (k : positive) (t : list tx_event) :
  mqs w !! p = Some m -> send_buf m = Some sp -> msgs w !! sp = Some snd ->
  len snd < PTRDIFF_MAX -> 0 < hdr_pos snd < HDR_SIZE -> length (hdr snd) = 16%nat ->
  socks w !! link m = Some s -> tx s = TxAccept k :: t ->
  flush_send p w = Fault.
Proof.
  intros Hm Hsb Hsnd Hlen Hpos Hl Hs Htx.
  destruct (flush_send_unfold p w m Hm) as [f ->].
  remember (S f) as f1. cbn [flush_send_loop].
  mstep. rewrite Hsb. erewrite bind_Ret by reflexivity. cbn beta iota. mstep.
  rewrite (bool_decide_eq_true_2 _ Hlen). erewrite bind_Ret by reflexivity.
  rewrite (bool_decide_eq_true_2 (hdr_pos snd < HDR_SIZE)) by lia.
  unfold mbind at 1, M_bind at 1.
  rewrite (sys_send_accept _ _ _ _ _ s k t Hs Htx).
  destruct (mid_header_outside (hdr snd) (hdr_pos snd) Hl (proj1 Hpos)) as [Hr _].
  rewrite Hr; [reflexivity|]. unfold HDR_SIZE in *. lia.
Qed.

(** A receive that resumes in the middle of the header writes outside
    the header. *)
Lemma flush_recv_mid_header (w : world) (p rp : positive) (m : mq) (rcv : mq_msg)
    (s : sock) (b : byte) (bs : list byte) (t : list rx_event) :
  mqs w !! p = Some m -> recv m = None -> recv_buf m = Some rp ->
  msgs w !! rp = Some rcv ->
  len rcv < PTRDIFF_MAX -> 0 < hdr_pos rcv < HDR_SIZE -> length (hdr rcv) = 16%nat ->
  socks w !! link m = Some s -> rx s = RxData b bs :: t ->
  flush_recv p w = Fault.
Proof.
  intros Hm Hrecv Hrb Hrcv Hlen Hpos Hl Hs Hrx.
  destruct (flush_recv_unfold p w m Hm) as [f ->]. cbn [flush_recv_loop].
  mstep. rewrite Hrecv. mdecide. rewrite Hrb. erewrite bind_Ret by reflexivity.
  mstep. rewrite (bool_decide_eq_true_2 _ Hlen). erewrite bind_Ret by reflexivity.
  rewrite (bool_decide_eq_true_2 (hdr_pos rcv < HDR_SIZE)) by lia.
  erewrite bind_Ret by (eapply sys_recv_data; eassumption).
  cbn beta iota. erewrite bind_Ret by reflexivity.
  set (got := take (Z.to_nat (HDR_SIZE - hdr_pos rcv)) (b :: bs)).
  assert (Hgot : (0 < length got)%nat).
  { unfold got. rewrite length_take. cbn [length]. unfold HDR_SIZE in *. lia. }
  rewrite bool_decide_eq_false_2 by lia. cbn [andb].
  rewrite bool_decide_eq_false_2 by lia.
  destruct (mid_header_outside (hdr rcv) (hdr_pos rcv) Hl (proj1 Hpos)) as [_ Hw].
  rewrite Hw; [reflexivity|]. intros E. rewrite E in Hgot. cbn in Hgot. lia.
Qed.

(** C2. Failing run: the transfer of a header that stops after its
    first byte.  The short write advances [hdr_pos] by the value [send]
    returned, 1; the claim has the next write send the fifteen bytes
    [hdr[1..16]], but the address the next [send] is given,
    [&snd->hdr + 1], is sixteen bytes on, past the end of the header, and
    the call reads outside the header.  The receive path does the same
    with the address it hands to [recv]. *)
Theorem header_resumes_outside :
  exists w1 m1 w2 r1,
    flush_send 1 (Samples.sender [TxAccept 1]) = Ret 0 w1
    /\ msgs w1 !! 2%positive = Some m1 /\ hdr_pos m1 = 1
    /\ mem_read (hdr m1) (hdr_pos m1) (HDR_SIZE - hdr_pos m1)
       = Some (drop 1 (hdr m1))
    /\ mem_read (hdr m1) (HDR_SIZE * hdr_pos m1) 1 = None
    /\ flush_send 1 (Samples.with_tx [TxAccept 15] w1) = Fault
    /\ flush_recv 1 (Samples.receiving
                       (Samples.at_once (take 1 Samples.hello_wire)))
       = Ret 0 w2
    /\ msgs w2 !! 11%positive = Some r1 /\ hdr_pos r1 = 1
    /\ flush_recv 1 (Samples.with_rx
                       (Samples.at_once (drop 1 (take 16 Samples.hello_wire))) w2)
       = Fault.
Proof.
  eexists. eexists. eexists. eexists.
  split; [vm_compute; reflexivity|].
  split; [vm_compute; reflexivity|].
  split; [reflexivity|].
  split; [vm_compute; reflexivity|].
  split; [vm_compute; reflexivity|].
  split; [vm_compute; reflexivity|].
  split; [vm_compute; reflexivity|].
  split; [vm_compute; reflexivity|].
  split; [reflexivity|].
  vm_compute. reflexivity.
Qed.

(** C1. Failing run: the message "hello" over a transport that moves
    one byte per system call.  Sending it, and receiving its 21 bytes,
    both leave the header after the first byte and touch memory outside
    it, so no message is delivered; the same message passes when each
    header is moved by a single call, whatever happens to the payload. *)
Theorem one_byte_transport_fails :
  flush_send 1 (Samples.sender (replicate 21 (TxAccept 1))) = Fault
  /\ flush_recv 1 (Samples.receiving (Samples.one_by_one Samples.hello_wire))
     = Fault
  /\ (exists w' s,
        flush_send 1 (Samples.sender (TxAccept 16 :: replicate 5 (TxAccept 1)))
        = Ret 0 w'
        /\ socks w' !! 3 = Some s /\ sent s = Samples.hello_wire)
  /\ (exists w' m' rp msg,
        flush_recv 1 (Samples.receiving
                        (Samples.at_once (take 16 Samples.hello_wire)
                         ++ Samples.one_by_one (drop 16 Samples.hello_wire)))
        = Ret 0 w'
        /\ mqs w' !! 1%positive = Some m' /\ recv m' = Some rp
        /\ msgs w' !! rp = Some msg
        /\ type msg = type Samples.hello_msg /\ len msg = len Samples.hello_msg
        /\ take 5 (buf msg) = buf Samples.hello_msg).
Proof.
  split; [vm_compute; reflexivity|].
  split; [vm_compute; reflexivity|].
  split.
  - eexists. eexists. split; [vm_compute; reflexivity|].
    split; [vm_compute; reflexivity|]. reflexivity.
  - eexists. eexists. eexists. eexists.
    split; [vm_compute; reflexivity|].
    split; [vm_compute; reflexivity|]. split; [reflexivity|].
    split; [vm_compute; reflexivity|]. repeat split.
Qed.

(** ** Waiting on a poll group *)

Lemma bind_inv {A B : Type} (c : M A) (k : A -> M B) (w w' : world) (b : B) :
  (c ≫= k) w = Ret b w' -> exists a w1, c w = Ret a w1 /\ k a w1 = Ret b w'.
Proof.
  unfold mbind, M_bind. destruct (c w) as [a w1| | |]; try discriminate. eauto.
Qed.

Lemma sys_ppoll_inv ev pfds timeout w rc pfds' w1 :
  sys_ppoll ev pfds timeout w = Ret (rc, pfds') w1 ->
  polls w1 = polls w
  /\ (rc = -1 /\ (exists t e, ev = Some (PFail t e) /\ errno w1 = e) \/ 0 <= rc)
  /\ (ev = None -> rc = 0).
Proof.
  unfold sys_ppoll. destruct ev as [[t r|t e]|]; intros [= <- <- <-]; cbn.
  - split; [reflexivity|]. split; [right; lia|discriminate].
  - split; [reflexivity|]. split; [left; eauto|discriminate].
  - split; [reflexivity|]. split; [right; lia|reflexivity].
Qed.

Lemma poll_wait_turn_rc ev continue g stoptime pfds w rc w' :
  (forall pfds1 w1, continue pfds1 w1 = Ret rc w' -> wait_rc_ok g rc w') ->
  mq_poll_wait_turn ev continue g stoptime pfds w = Ret rc w' ->
  wait_rc_ok g rc w'.
Proof.
  intros Hcont H. unfold mq_poll_wait_turn in H.
  apply bind_inv in H as (ps & w0 & _ & H).
  apply bind_inv in H as ([failed pfds1] & w1 & _ & H).
  destruct failed.
  - injection H as <- <-. right; right; reflexivity.
  - apply bind_inv in H as (ps1 & w1' & Hps1 & H).
    unfold get_poll, deref in Hps1.
    destruct (polls w1 !! g) as [ps1'|] eqn:E; [|discriminate].
    injection Hps1 as -> <-.
    destruct (bool_decide (ready_count ps1 > 0)) eqn:Hc.
    + injection H as <- <-. left. apply bool_decide_eq_true_1 in Hc.
      split; [lia|]. eauto.
    + apply bind_inv in H as (t & w2 & Ht & H). injection Ht as <- <-.
      destruct (bool_decide (stoptime - now w1 < 0)).
      * injection H as <- <-. right; left; reflexivity.
      * apply bind_inv in H as ([rc' pfds2] & w3 & Hpp & H).
        destruct (bool_decide (rc' > 0)) eqn:Hrc.
        -- eapply Hcont, H.
        -- injection H as <- <-. apply bool_decide_eq_false_1 in Hrc.
           apply sys_ppoll_inv in Hpp as (_ & [[-> _]|Hge] & _).
           ++ right; right; reflexivity.
           ++ right; left. lia.
Qed.

Lemma poll_wait_loop_rc evs g stoptime pfds w rc w' :
  mq_poll_wait_loop evs g stoptime pfds w = Ret rc w' -> wait_rc_ok g rc w'.
Proof.
  revert pfds w. induction evs as [|ev evs IH]; intros pfds w H; cbn [mq_poll_wait_loop] in H.
  - eapply poll_wait_turn_rc; [|exact H]. intros ? ? [=].
  - eapply poll_wait_turn_rc; [|exact H]. intros pfds1 w1 H1. eapply IH, H1.
Qed.

(** ** One buffered message *)

Section Preservation.
Variable I : world -> Prop.

Lemma preserves_bind {A B : Type} (c : M A) (k : A -> M B) :
  preserves I c -> (forall a, preserves I (k a)) -> preserves I (c ≫= k).
Proof.
  intros Hc Hk w b w' HI H. apply bind_inv in H as (a & w1 & H1 & H2).
  eapply Hk; [|exact H2]. eapply Hc; eassumption.
Qed.

Lemma preserves_mret {A : Type} (a : A) : preserves I (mret a).
Proof. intros w a' w' HI [= <- <-]. exact HI. Qed.

Lemma preserves_gets {A : Type} (f : world -> A) : preserves I (gets f).
Proof. intros w a' w' HI [= <- <-]. exact HI. Qed.

Lemma preserves_abort {A : Type} : preserves I (@abort A).
Proof. intros w a w' _ [=]. Qed.

Lemma preserves_fault {A : Type} : preserves I (@fault A).
Proof. intros w a w' _ [=]. Qed.

Lemma preserves_stuck {A : Type} : preserves I (@stuck A).
Proof. intros w a w' _ [=]. Qed.

Lemma preserves_assert (b : bool) : preserves I (assert b).
Proof. destruct b; [apply preserves_mret|apply preserves_abort]. Qed.

Lemma preserves_deref {A : Type} (o : option A) : preserves I (deref o).
Proof. destruct o; [apply preserves_mret|apply preserves_fault]. Qed.

Lemma preserves_get_mq p : preserves I (get_mq p).
Proof. intros w a w' HI H. unfold get_mq in H. eapply preserves_deref; eassumption. Qed.

Lemma preserves_get_msg p : preserves I (get_msg p).
Proof. intros w a w' HI H. unfold get_msg in H. eapply preserves_deref; eassumption. Qed.

Lemma preserves_get_poll p : preserves I (get_poll p).
Proof. intros w a w' HI H. unfold get_poll in H. eapply preserves_deref; eassumption. Qed.

Lemma preserves_modify (f : world -> world) :
  (forall w, I w -> I (f w)) -> preserves I (modify f).
Proof. intros Hf w a w' HI H. injection H as _ <-. apply Hf, HI. Qed.

Lemma preserves_ignore {A : Type} (c : M A) : preserves I c -> preserves I (ignore c).
Proof. intros Hc. apply preserves_bind; [exact Hc|]. intros _. apply preserves_mret. Qed.
End Preservation.

(** The invariant looks at the endpoints only. *)
Lemma recv_inv_same_mqs w w' : mqs w' = mqs w -> recv_inv w -> recv_inv w'.
Proof. intros E H p m Hm. rewrite E in Hm. exact (H p m Hm). Qed.

Lemma recv_inv_insert w p m :
  one_buffered m -> recv_inv w -> recv_inv (set_mqs (<[p := m]> (mqs w)) w).
Proof.
  intros Hm H q mq Hq. cbn [mqs set_mqs] in Hq.
  apply lookup_insert_Some in Hq as [[_ <-]|[_ Hq]]; [exact Hm|exact (H q mq Hq)].
Qed.

Lemma recv_inv_delete w p : recv_inv w -> recv_inv (set_mqs (delete p (mqs w)) w).
Proof.
  intros H q mq Hq. cbn [mqs set_mqs] in Hq.
  apply lookup_delete_Some in Hq as [_ Hq]. exact (H q mq Hq).
Qed.

(** A computation that leaves the endpoints alone keeps the invariant. *)
Lemma keeps_mqs_preserves {A : Type} (c : M A) :
  keeps_mqs c -> preserves recv_inv c.
Proof. intros Hc w a w' HI H. eapply recv_inv_same_mqs; [eapply Hc, H|exact HI]. Qed.

Ltac keeps_tac :=
  let w := fresh "w" in let a := fresh "a" in let w' := fresh "w'" in
  let H := fresh "H" in
  intros w a w' H; munfold;
  repeat (case_match; try discriminate);
  simplify_eq; try reflexivity.

Lemma keeps_sys_send fd obj off n : keeps_mqs (sys_send fd obj off n).
Proof. unfold sys_send. keeps_tac. Qed.
Lemma keeps_sys_recv fd n : keeps_mqs (sys_recv fd n).
Proof. unfold sys_recv. keeps_tac. Qed.
Lemma keeps_sys_getsockopt_error fd : keeps_mqs (sys_getsockopt_error fd).
Proof. unfold sys_getsockopt_error. keeps_tac. Qed.
Lemma keeps_link_accept fd : keeps_mqs (link_accept fd).
Proof. unfold link_accept. keeps_tac. Qed.
Lemma keeps_link_close fd : keeps_mqs (link_close fd).
Proof. unfold link_close. keeps_tac. Qed.
Lemma keeps_sys_ppoll ev pfds t : keeps_mqs (sys_ppoll ev pfds t).
Proof. unfold sys_ppoll. keeps_tac. Qed.
Lemma keeps_malloc : keeps_mqs malloc.
Proof. keeps_tac. Qed.
Lemma keeps_upd_msg p f : keeps_mqs (upd_msg p f).
Proof. keeps_tac. Qed.
Lemma keeps_upd_poll p f : keeps_mqs (upd_poll p f).
Proof. keeps_tac. Qed.
Lemma keeps_free_msg p : keeps_mqs (free_msg p).
Proof. keeps_tac. Qed.
Lemma keeps_free_poll p : keeps_mqs (free_poll p).
Proof. keeps_tac. Qed.
Lemma keeps_msg_create : keeps_mqs msg_create.
Proof. unfold msg_create. keeps_tac. Qed.
Lemma keeps_mq_poll_create : keeps_mqs mq_poll_create.
Proof. unfold mq_poll_create. keeps_tac. Qed.

Lemma preserves_upd_mq p f :
  (forall m, one_buffered m -> one_buffered (f m)) ->
  preserves recv_inv (upd_mq p f).
Proof.
  intros Hf w a w' HI H. munfold.
  destruct (mqs w !! p) as [m|] eqn:E; [|discriminate].
  injection H as _ <-. apply recv_inv_insert; [|exact HI]. apply Hf. exact (HI p m E).
Qed.

Lemma preserves_free_mq p : preserves recv_inv (free_mq p).
Proof.
  intros w a w' HI H. munfold.
  destruct (mqs w !! p) as [m|] eqn:E; [|discriminate].
  injection H as _ <-. apply recv_inv_delete, HI.
Qed.

Lemma one_buffered_zero : one_buffered zero_mq.
Proof. intros [x Hx]. discriminate Hx. Qed.

Lemma preserves_mq_create : preserves recv_inv mq_create.
Proof.
  intros w a w' HI H. unfold mq_create in H. munfold.
  injection H as _ <-. apply (recv_inv_insert (set_brk _ w)); [apply one_buffered_zero|exact HI].
Qed.

Lemma waiting_same_mqs p w w' : mqs w' = mqs w -> waiting p w -> waiting p w'.
Proof. intros E (m & Hm & Hr). exists m. rewrite E. auto. Qed.

Lemma keeps_mqs_waiting {A : Type} (c : M A) p :
  keeps_mqs c -> preserves (waiting p) c.
Proof. intros Hc w a w' HI H. eapply waiting_same_mqs; [eapply Hc, H|exact HI]. Qed.

Lemma preserves_upd_mq_waiting p q f :
  (forall m, recv (f m) = recv m) -> preserves (waiting p) (upd_mq q f).
Proof.
  intros Hf w a w' (m & Hm & Hr) H. munfold.
  destruct (mqs w !! q) as [mq|] eqn:E; [|discriminate].
  injection H as _ <-. unfold waiting. cbn [mqs set_mqs].
  destruct (decide (q = p)) as [->|Hne].
  - exists (f mq). rewrite lookup_insert_eq. split; [reflexivity|].
    rewrite Hf. congruence.
  - exists m. rewrite lookup_insert_ne by exact Hne. auto.
Qed.

Create HintDb pres.
#[local] Hint Resolve keeps_mqs_waiting : pres.
#[local] Hint Resolve preserves_mret preserves_gets preserves_abort preserves_fault
  preserves_stuck preserves_assert preserves_deref preserves_get_mq
  preserves_get_msg preserves_get_poll preserves_free_mq preserves_mq_create
  keeps_mqs_preserves keeps_sys_send keeps_sys_recv keeps_sys_getsockopt_error
  keeps_link_accept keeps_link_close keeps_sys_ppoll keeps_malloc keeps_upd_msg
  keeps_upd_poll keeps_free_msg keeps_free_poll keeps_msg_create
  keeps_mq_poll_create : pres.

(** The field updates that keep [one_buffered]. *)
Ltac ob_solve :=
  let m := fresh "m" in let H := fresh "H" in
  intros m H;
  first [ exact H
        | intros _; reflexivity
        | let x := fresh in let Hx := fresh in intros [x Hx]; discriminate Hx ].

Ltac pres_step :=
  lazymatch goal with
  | |- preserves _ (_ ≫= _) => apply preserves_bind; [|intros ?]
  | |- preserves _ (ignore _) => apply preserves_ignore
  | |- preserves _ (upd_mq _ _) =>
      first [ apply preserves_upd_mq; ob_solve
            | apply preserves_upd_mq_waiting; intros; reflexivity ]
  | |- preserves _ (modify _) => apply preserves_modify; intros ? ?; assumption
  | |- preserves _ (if ?b then _ else _) => destruct b
  | |- preserves _ (match ?x with _ => _ end) => destruct x
  | |- preserves _ _ => solve [eauto with pres]
  end.

Ltac pres_auto := repeat pres_step.

Lemma preserves_delete_all l : preserves recv_inv (delete_all l).
Proof. induction l; cbn [delete_all mq_msg_delete delete_msg]; pres_auto. Qed.
#[local] Hint Resolve preserves_delete_all : pres.

Lemma preserves_mq_msg_delete o : preserves recv_inv (mq_msg_delete o).
Proof. unfold mq_msg_delete, delete_msg. pres_auto. Qed.
#[local] Hint Resolve preserves_mq_msg_delete : pres.

Lemma preserves_mq_close_with die o :
  (forall p e, preserves recv_inv (die p e)) ->
  preserves recv_inv (mq_close_with die o).
Proof. intros Hd. unfold mq_close_with. pres_auto. Qed.

Lemma preserves_mq_die_rec fuel p e : preserves recv_inv (mq_die_rec fuel p e).
Proof.
  revert p e. induction fuel as [|fuel IH]; intros p e; cbn [mq_die_rec]; [pres_auto|].
  pose proof (preserves_mq_close_with (mq_die_rec fuel)) as Hc.
  pres_auto.
Qed.

Lemma preserves_mq_die p e : preserves recv_inv (mq_die p e).
Proof. intros w a w' HI H. exact (preserves_mq_die_rec _ p e w a w' HI H). Qed.
#[local] Hint Resolve preserves_mq_die : pres.

Lemma preserves_mq_close o : preserves recv_inv (mq_close o).
Proof. apply preserves_mq_close_with. intros. apply preserves_mq_die. Qed.
#[local] Hint Resolve preserves_mq_close : pres.

Lemma preserves_flush_send_loop fuel p : preserves recv_inv (flush_send_loop fuel p).
Proof.
  induction fuel as [|fuel IH]; cbn [flush_send_loop]; [pres_auto|].
  unfold delete_msg. pres_auto.
Qed.

Lemma preserves_flush_send p : preserves recv_inv (flush_send p).
Proof. intros w a w' HI H. exact (preserves_flush_send_loop _ p w a w' HI H). Qed.
#[local] Hint Resolve preserves_flush_send : pres.

Lemma get_mq_inv p w m w' : get_mq p w = Ret m w' -> w' = w /\ mqs w !! p = Some m.
Proof.
  unfold get_mq, deref. destruct (mqs w !! p); [|discriminate].
  intros [= <- <-]. auto.
Qed.

(** Making sure that [recv_buf] exists, when no message waits. *)
Lemma ensure_buf_keeps_inv p m w rp w' :
  recv_inv w -> mqs w !! p = Some m -> recv m = None ->
  (match recv_buf m with
   | Some rp => mret rp
   | None => rp ← msg_create; upd_mq p (set_recv_buf (Some rp));; mret rp
   end) w = Ret rp w' ->
  recv_inv w'.
Proof.
  intros HI Hm Hr H. destruct (recv_buf m) as [rp'|].
  - injection H as _ <-. exact HI.
  - apply bind_inv in H as (rp' & w1 & Hc & H).
    assert (Hmqs : mqs w1 = mqs w) by exact (keeps_msg_create _ _ _ Hc).
    apply bind_inv in H as ([] & w2 & Hu & H). injection H as _ <-.
    unfold upd_mq in Hu. apply bind_inv in Hu as (m' & w3 & Hg & Hu).
    apply get_mq_inv in Hg as [-> Hm'].
    injection Hu as <-. apply recv_inv_insert.
    + rewrite Hmqs, Hm in Hm'. injection Hm' as <-.
      intros [x Hx]. cbn [recv set_recv_buf] in Hx. congruence.
    + eapply recv_inv_same_mqs; [exact Hmqs|exact HI].
Qed.

Lemma preserves_flush_recv_loop fuel p : preserves recv_inv (flush_recv_loop fuel p).
Proof.
  induction fuel as [|fuel IH]; cbn [flush_recv_loop]; [pres_auto|].
  intros w a w' HI H.
  apply bind_inv in H as (m & w0 & Hg & H). apply get_mq_inv in Hg as [-> Hm].
  cbn zeta in H.
  destruct (bool_decide (is_Some (recv m))) eqn:E.
  - injection H as _ <-. exact HI.
  - apply bool_decide_eq_false_1 in E.
    assert (Hr : recv m = None).
    { destruct (recv m); [exfalso; apply E; eauto|reflexivity]. }
    apply bind_inv in H as (rp & w1 & He & H).
    pose proof (ensure_buf_keeps_inv p m w rp w1 HI Hm Hr He) as HI1.
    cbn beta in H.
    lazymatch type of H with
    | ?c w1 = Ret _ _ => assert (Hc : preserves recv_inv c) by pres_auto
    end.
    exact (Hc w1 a w' HI1 H).
Qed.

Lemma preserves_flush_recv p : preserves recv_inv (flush_recv p).
Proof. intros w a w' HI H. exact (preserves_flush_recv_loop _ p w a w' HI H). Qed.
#[local] Hint Resolve preserves_flush_recv : pres.

Lemma preserves_update_poll_group p : preserves recv_inv (update_poll_group p).
Proof. unfold update_poll_group. pres_auto. Qed.
#[local] Hint Resolve preserves_update_poll_group : pres.

Lemma preserves_handle_revents r p : preserves recv_inv (handle_revents r p).
Proof. unfold handle_revents. pres_auto. Qed.
#[local] Hint Resolve preserves_handle_revents : pres.

Lemma preserves_mq_wait_turn ev continue p stoptime pfd :
  (forall f, preserves recv_inv (continue f)) ->
  preserves recv_inv (mq_wait_turn ev continue p stoptime pfd).
Proof. intros Hc. unfold mq_wait_turn. pres_auto. Qed.

Lemma preserves_mq_wait_loop evs p stoptime pfd :
  preserves recv_inv (mq_wait_loop evs p stoptime pfd).
Proof.
  revert pfd. induction evs as [|ev evs IH]; intros pfd; cbn [mq_wait_loop];
    apply preserves_mq_wait_turn; [intros; apply preserves_stuck|exact IH].
Qed.
#[local] Hint Resolve preserves_mq_wait_loop : pres.

Lemma preserves_poll_pass keys pfds : preserves recv_inv (poll_pass keys pfds).
Proof.
  revert pfds. induction keys as [|k keys IH]; intros pfds; cbn [poll_pass];
    pres_auto.
Qed.
#[local] Hint Resolve preserves_poll_pass : pres.

Lemma preserves_mq_poll_wait_turn ev continue p stoptime pfds :
  (forall f, preserves recv_inv (continue f)) ->
  preserves recv_inv (mq_poll_wait_turn ev continue p stoptime pfds).
Proof. intros Hc. unfold mq_poll_wait_turn. pres_auto. Qed.

Lemma preserves_mq_poll_wait_loop evs p stoptime pfds :
  preserves recv_inv (mq_poll_wait_loop evs p stoptime pfds).
Proof.
  revert pfds. induction evs as [|ev evs IH]; intros pfds; cbn [mq_poll_wait_loop];
    apply preserves_mq_poll_wait_turn; [intros; apply preserves_stuck|exact IH].
Qed.
#[local] Hint Resolve preserves_mq_poll_wait_loop : pres.

Lemma preserves_clear_back_pointers keys :
  preserves recv_inv (clear_back_pointers keys).
Proof. induction keys; cbn [clear_back_pointers]; pres_auto. Qed.
#[local] Hint Resolve preserves_clear_back_pointers : pres.

Lemma preserves_poll_query sel p : preserves recv_inv (poll_query sel p).
Proof. unfold poll_query. pres_auto. Qed.
#[local] Hint Resolve preserves_poll_query : pres.

(** Every call of the interface keeps the invariant. *)
Lemma preserves_run c : preserves recv_inv (run c).
Proof.
  destruct c; cbn [run];
    unfold mq_serve, mq_connect, mq_accept, mq_send, mq_recv, mq_geterror, mq_wait,
      mq_wrap_buffer, mq_unwrap_buffer, mq_poll_delete, mq_poll_add, mq_poll_rm,
      mq_poll_acceptable, mq_poll_readable, mq_poll_error, mq_poll_wait;
    pres_auto.
Qed.

Lemma reachable_recv_inv w : reachable w -> recv_inv w.
Proof.
  induction 1 as [w Hm _ _|w w' c _ IH Hrun|w w' _ IH (Hm & _)].
  - intros p m Hp. rewrite Hm, lookup_empty in Hp. discriminate.
  - exact (preserves_run c w tt w' IH Hrun).
  - exact (recv_inv_same_mqs w w' Hm IH).
Qed.

Lemma poll_events_no_read (m : mq) :
  is_Some (recv m) -> has_bit POLLIN (poll_events m) = false.
Proof.
  intros Hr. unfold poll_events.
  rewrite (bool_decide_eq_true_2 (is_Some (recv m)) Hr).
  rewrite andb_false_r.
  destruct (state m); try reflexivity.
  destruct (bool_decide (is_Some (send_buf m)) || negb (length (send m) =? 0)%nat);
    reflexivity.
Qed.

Lemma flush_recv_blocked (w : world) (p : positive) (m : mq) :
  mqs w !! p = Some m -> is_Some (recv m) -> flush_recv p w = Ret 0 w.
Proof.
  intros Hm Hr. destruct (flush_recv_unfold p w m Hm) as [f ->].
  cbn [flush_recv_loop]. mstep. cbn zeta.
  rewrite (bool_decide_eq_true_2 (is_Some (recv m)) Hr). reflexivity.
Qed.


Lemma preserves_waiting_flush_send_loop fuel p :
  preserves (waiting p) (flush_send_loop fuel p).
Proof.
  induction fuel as [|fuel IH]; cbn [flush_send_loop]; [pres_auto|].
  unfold delete_msg. pres_auto.
Qed.

(** *** No byte is read *)

Lemma rx_kept_refl w : rx_kept w w.
Proof. intros fd s Hs. eauto. Qed.

Lemma rx_kept_trans w1 w2 w3 : rx_kept w1 w2 -> rx_kept w2 w3 -> rx_kept w1 w3.
Proof.
  intros H12 H23 fd s3 Hs3. destruct (H23 fd s3 Hs3) as (s2 & Hs2 & E2).
  destruct (H12 fd s2 Hs2) as (s1 & Hs1 & E1). exists s1. split; [exact Hs1|congruence].
Qed.

Lemma rx_kept_same_socks w w' : socks w' = socks w -> rx_kept w w'.
Proof. intros E fd s Hs. rewrite E in Hs. eauto. Qed.

Lemma keeps_socks_rx {A : Type} (c : M A) : keeps_socks c -> keeps_rx c.
Proof. intros Hc w a w' H. apply rx_kept_same_socks. eapply Hc, H. Qed.

Lemma keeps_rx_bind {A B : Type} (c : M A) (k : A -> M B) :
  keeps_rx c -> (forall a, keeps_rx (k a)) -> keeps_rx (c ≫= k).
Proof.
  intros Hc Hk w b w' H. apply bind_inv in H as (a & w1 & H1 & H2).
  eapply rx_kept_trans; [eapply Hc, H1|eapply Hk, H2].
Qed.

Lemma socks_mret {A : Type} (a : A) : keeps_socks (mret a).
Proof. keeps_tac. Qed.
Lemma socks_gets {A : Type} (f : world -> A) : keeps_socks (gets f).
Proof. keeps_tac. Qed.
Lemma socks_abort {A : Type} : keeps_socks (@abort A).
Proof. keeps_tac. Qed.
Lemma socks_fault {A : Type} : keeps_socks (@fault A).
Proof. keeps_tac. Qed.
Lemma socks_stuck {A : Type} : keeps_socks (@stuck A).
Proof. keeps_tac. Qed.
Lemma socks_assert b : keeps_socks (assert b).
Proof. destruct b; keeps_tac. Qed.
Lemma socks_deref {A : Type} (o : option A) : keeps_socks (deref o).
Proof. destruct o; keeps_tac. Qed.
Lemma socks_get_mq p : keeps_socks (get_mq p).
Proof. keeps_tac. Qed.
Lemma socks_get_msg p : keeps_socks (get_msg p).
Proof. keeps_tac. Qed.
Lemma socks_get_poll p : keeps_socks (get_poll p).
Proof. keeps_tac. Qed.
Lemma socks_upd_mq p f : keeps_socks (upd_mq p f).
Proof. keeps_tac. Qed.
Lemma socks_upd_msg p f : keeps_socks (upd_msg p f).
Proof. keeps_tac. Qed.
Lemma socks_upd_poll p f : keeps_socks (upd_poll p f).
Proof. keeps_tac. Qed.
Lemma socks_free_mq p : keeps_socks (free_mq p).
Proof. keeps_tac. Qed.
Lemma socks_free_msg p : keeps_socks (free_msg p).
Proof. keeps_tac. Qed.
Lemma socks_mq_create : keeps_socks mq_create.
Proof. unfold mq_create. keeps_tac. Qed.
Lemma socks_getsockopt fd : keeps_socks (sys_getsockopt_error fd).
Proof. unfold sys_getsockopt_error. keeps_tac. Qed.

Lemma rx_sys_send fd obj off n : keeps_rx (sys_send fd obj off n).
Proof.
  intros w a w' H. unfold sys_send in H.
  repeat (case_match; try discriminate); simplify_eq;
    first [ apply rx_kept_same_socks; reflexivity
          | intros fd' s' Hs'; cbn [socks set_socks set_errno] in Hs';
            apply lookup_insert_Some in Hs' as [[<- <-]|[_ Hs']];
            [eexists; split; [eassumption|reflexivity]|eauto] ].
Qed.

Lemma rx_link_accept fd : keeps_rx (link_accept fd).
Proof.
  intros w a w' H. unfold link_accept in H.
  repeat (case_match; try discriminate); simplify_eq;
    first [ apply rx_kept_same_socks; reflexivity
          | intros fd' s' Hs'; cbn [socks set_socks set_errno] in Hs';
            apply lookup_insert_Some in Hs' as [[<- <-]|[_ Hs']];
            [eexists; split; [eassumption|reflexivity]|eauto] ].
Qed.

Lemma rx_link_close fd : keeps_rx (link_close fd).
Proof.
  intros w a w' H. unfold link_close, modify in H. injection H as _ <-.
  intros fd' s' Hs'. cbn [socks set_socks] in Hs'.
  apply lookup_delete_Some in Hs' as [_ Hs']. eauto.
Qed.

Create HintDb rx.
#[local] Hint Resolve keeps_socks_rx socks_mret socks_gets socks_abort socks_fault
  socks_stuck socks_assert socks_deref socks_get_mq socks_get_msg socks_get_poll
  socks_upd_mq socks_upd_msg socks_upd_poll socks_free_mq socks_free_msg
  socks_mq_create socks_getsockopt rx_sys_send rx_link_accept rx_link_close : rx.

Ltac rx_step :=
  lazymatch goal with
  | |- keeps_rx (_ ≫= _) => apply keeps_rx_bind; [|intros ?]
  | |- keeps_rx (if ?b then _ else _) => destruct b
  | |- keeps_rx (match ?x with _ => _ end) => destruct x
  | |- keeps_rx _ => solve [eauto with rx]
  end.

Ltac rx_auto := repeat rx_step.

Lemma rx_delete_all l : keeps_rx (delete_all l).
Proof. induction l; cbn [delete_all mq_msg_delete delete_msg]; rx_auto. Qed.
#[local] Hint Resolve rx_delete_all : rx.

Lemma rx_mq_msg_delete o : keeps_rx (mq_msg_delete o).
Proof. unfold mq_msg_delete, delete_msg. rx_auto. Qed.
#[local] Hint Resolve rx_mq_msg_delete : rx.

Lemma rx_mq_die_rec fuel p e : keeps_rx (mq_die_rec fuel p e).
Proof.
  revert p e. induction fuel as [|fuel IH]; intros p e; cbn [mq_die_rec]; [rx_auto|].
  unfold mq_close_with. rx_auto.
Qed.

Lemma rx_mq_die p e : keeps_rx (mq_die p e).
Proof. intros w a w' H. exact (rx_mq_die_rec _ p e w a w' H). Qed.
#[local] Hint Resolve rx_mq_die : rx.

Lemma rx_flush_send_loop fuel p : keeps_rx (flush_send_loop fuel p).
Proof.
  induction fuel as [|fuel IH]; cbn [flush_send_loop]; [rx_auto|].
  unfold delete_msg. rx_auto.
Qed.

Lemma rx_flush_send p : keeps_rx (flush_send p).
Proof. intros w a w' H. exact (rx_flush_send_loop _ p w a w' H). Qed.
#[local] Hint Resolve rx_flush_send : rx.

Lemma rx_update_poll_group p : keeps_rx (update_poll_group p).
Proof. unfold update_poll_group. rx_auto. Qed.
#[local] Hint Resolve rx_update_poll_group : rx.

(** A wake-up of an endpoint in which a received message waits reads
    nothing, whatever readiness is reported. *)
Ltac by_rx H :=
  cbn beta in H;
  lazymatch type of H with
  | ?c ?w1 = Ret _ _ =>
      let Hc := fresh in
      assert (Hc : keeps_rx c) by rx_auto; exact (Hc _ _ _ H)
  end.

Lemma handle_revents_reads_nothing (w w' : world) (r rc : Z) (p : positive) :
  waiting p w -> handle_revents r p w = Ret rc w' -> rx_kept w w'.
Proof.
  intros Hwait H. unfold handle_revents in H.
  apply bind_inv in H as (m & w0 & Hg & H). apply get_mq_inv in Hg as [-> Hm].
  apply bind_inv in H as (rc1 & w1 & H1 & H).
  eapply rx_kept_trans; [|by_rx H].
  destruct (state m).
  - by_rx H1.
  - by_rx H1.
  - apply bind_inv in H1 as (rc0 & w2 & Hs & H1).
    assert (Hw2 : waiting p w2 /\ rx_kept w w2).
    { destruct (has_bit POLLOUT r).
      - split.
        + exact (preserves_waiting_flush_send_loop _ p w rc0 w2 Hwait Hs).
        + exact (rx_flush_send p w rc0 w2 Hs).
      - injection Hs as _ <-. split; [exact Hwait|apply rx_kept_refl]. }
    destruct Hw2 as [(m2 & Hm2 & Hr2) Hrx]. eapply rx_kept_trans; [exact Hrx|].
    destruct (bool_decide (rc0 = -1)).
    + by_rx H1.
    + apply bind_inv in H1 as (rc2 & w3 & Hf & H1).
      assert (Hw3 : w3 = w2).
      { destruct (has_bit POLLIN r).
        - rewrite (flush_recv_blocked w2 p m2 Hm2 Hr2) in Hf. congruence.
        - cbv [mret M_ret] in Hf. congruence. }
      subst w3. by_rx H1.
  - by_rx H1.
Qed.

(** C6. At most one received message is buffered.  In every world the
    program can be in between two calls, an endpoint in which a received
    message waits ([recv] present) has no message under assembly
    ([recv_buf] absent), does not ask for read readiness, and reads
    nothing: its receive path returns at once, and a wake-up of the
    endpoint, whatever readiness it reports, takes no byte from any
    socket. *)
Theorem one_message_buffered (w : world) (p : positive) (m : mq) :
  reachable w -> mqs w !! p = Some m -> is_Some (recv m) ->
  recv_buf m = None
  /\ has_bit POLLIN (poll_events m) = false
  /\ flush_recv p w = Ret 0 w
  /\ (forall r rc w', handle_revents r p w = Ret rc w' -> rx_kept w w').
Proof.
  intros Hw Hm Hr. split; [|split; [|split]].
  - exact (reachable_recv_inv w Hw p m Hm Hr).
  - exact (poll_events_no_read m Hr).
  - exact (flush_recv_blocked w p m Hm Hr).
  - intros r rc w' H. eapply handle_revents_reads_nothing; [|exact H].
    exists m. auto.
Qed.

Lemma reachable_exec cs w w' : reachable w -> exec cs w = Ret tt w' -> reachable w'.
Proof.
  revert w. induction cs as [|c cs IH]; intros w Hw H; cbn [exec] in H.
  - injection H as <-. exact Hw.
  - apply bind_inv in H as ([] & w1 & H1 & H2).
    eapply IH; [|exact H2]. eapply reach_call; [exact Hw|exact H1].
Qed.

Lemma client_served_reachable : reachable Samples.client_served.
Proof.
  apply (reachable_exec Samples.client_calls Samples.client_start).
  - apply reach_start; reflexivity.
  - vm_compute. reflexivity.
Qed.

Lemma one_message_buffered_witness :
  recv_buf Samples.client_endpoint = None
  /\ has_bit POLLIN (poll_events Samples.client_endpoint) = false
  /\ flush_recv 1 Samples.client_served = Ret 0 Samples.client_served
  /\ (forall r rc w', handle_revents r 1 Samples.client_served = Ret rc w' ->
        rx_kept Samples.client_served w').
Proof.
  apply (one_message_buffered Samples.client_served 1 Samples.client_endpoint).
  - exact client_served_reachable.
  - vm_compute. reflexivity.
  - eexists. reflexivity.
Defined.
(** ** The bookkeeping of poll groups is sound in every reachable world *)

Lemma wf_same_heap w w' :
  mqs w' = mqs w -> polls w' = polls w -> brk w' = brk w -> wf w -> wf w'.
Proof.
  intros Em Ep Eb [Hl Hmem Hbm Hbp]. split.
  - intros q m g Hq. unfold is_member. rewrite Em in Hq. rewrite Ep. exact (Hl q m g Hq).
  - intros g ps q. rewrite Em, Ep. apply Hmem.
  - intros q. rewrite Em, Eb. apply Hbm.
  - intros g. rewrite Ep, Eb. apply Hbp.
Qed.

Lemma keeps_heap_preserves {A : Type} (c : M A) : keeps_heap c -> preserves wf c.
Proof.
  intros Hc w a w' HI H. destruct (Hc w a w' H) as (Em & Ep & Eb).
  exact (wf_same_heap w w' Em Ep Eb HI).
Qed.

Ltac heap_tac :=
  let w := fresh "w" in let a := fresh "a" in let w' := fresh "w'" in
  let H := fresh "H" in
  intros w a w' H; munfold;
  repeat (case_match; try discriminate);
  simplify_eq; repeat split.

Lemma heap_sys_send fd obj off n : keeps_heap (sys_send fd obj off n).
Proof. unfold sys_send. heap_tac. Qed.
Lemma heap_sys_recv fd n : keeps_heap (sys_recv fd n).
Proof. unfold sys_recv. heap_tac. Qed.
Lemma heap_sys_getsockopt_error fd : keeps_heap (sys_getsockopt_error fd).
Proof. unfold sys_getsockopt_error. heap_tac. Qed.
Lemma heap_link_accept fd : keeps_heap (link_accept fd).
Proof. unfold link_accept. heap_tac. Qed.
Lemma heap_link_close fd : keeps_heap (link_close fd).
Proof. unfold link_close. heap_tac. Qed.
Lemma heap_sys_ppoll ev pfds t : keeps_heap (sys_ppoll ev pfds t).
Proof. unfold sys_ppoll. heap_tac. Qed.
Lemma heap_upd_msg p f : keeps_heap (upd_msg p f).
Proof. heap_tac. Qed.
Lemma heap_free_msg p : keeps_heap (free_msg p).
Proof. heap_tac. Qed.

(** The allocator moves on. *)
Lemma wf_brk_succ w : wf w -> wf (set_brk (Pos.succ (brk w)) w).
Proof.
  intros [Hl Hmem Hbm Hbp]. split; cbn [mqs polls brk set_brk].
  - exact Hl.
  - exact Hmem.
  - intros q Hq. specialize (Hbm q Hq). lia.
  - intros g Hg. specialize (Hbp g Hg). lia.
Qed.

Lemma preserves_wf_msg_create : preserves wf msg_create.
Proof.
  intros w a w' HI H. unfold msg_create in H. munfold. injection H as _ <-.
  apply (wf_same_heap (set_brk (Pos.succ (brk w)) w)); try reflexivity.
  apply wf_brk_succ, HI.
Qed.

Lemma not_member_fresh w g : wf w -> ~ is_member w g (brk w).
Proof.
  intros [_ Hmem Hbm _] (ps & Hps & Hq).
  specialize (Hbm _ (Hmem g ps _ Hps Hq)). lia.
Qed.

Lemma preserves_wf_mq_create : preserves wf mq_create.
Proof.
  intros w a w' HI H. unfold mq_create in H. munfold. injection H as _ <-.
  pose proof (not_member_fresh w) as Hfresh.
  destruct HI as [Hl Hmem Hbm Hbp]. split.
  - intros q m g Hq. unfold is_member. wsimpl.
    apply lookup_insert_Some in Hq as [[<- <-]|[Hne Hq]].
    + split; [discriminate|]. intros Hin. exfalso.
      apply (Hfresh g); [split; assumption|exact Hin].
    + exact (Hl q m g Hq).
  - intros g ps q Hps Hq. wsimpl.
    apply lookup_insert_is_Some'. right. exact (Hmem g ps q Hps Hq).
  - intros q Hq. wsimpl. apply lookup_insert_is_Some' in Hq as [<-|Hq]; [lia|].
    specialize (Hbm q Hq). lia.
  - intros g Hg. wsimpl. specialize (Hbp g Hg). lia.
Qed.

Lemma preserves_wf_mq_poll_create : preserves wf mq_poll_create.
Proof.
  intros w a w' HI H. unfold mq_poll_create in H. munfold. injection H as _ <-.
  destruct HI as [Hl Hmem Hbm Hbp]. split.
  - intros q m g Hq. unfold is_member. wsimpl. split.
    + intros Hg. destruct (proj1 (Hl q m g Hq) Hg) as (ps & Hps & Hin).
      exists ps. split; [|exact Hin]. rewrite lookup_insert_ne; [exact Hps|].
      intros <-. specialize (Hbp (brk w)). rewrite Hps in Hbp.
      specialize (Hbp (ltac:(eauto))). lia.
    + intros (ps & Hps & Hin).
      apply lookup_insert_Some in Hps as [[<- <-]|[Hne Hps]].
      * cbn [members] in Hin. rewrite lookup_empty in Hin. destruct Hin as [? [=]].
      * apply (Hl q m g Hq). exists ps. auto.
  - intros g ps q Hps Hq. wsimpl.
    apply lookup_insert_Some in Hps as [[<- <-]|[Hne Hps]].
    + cbn [members] in Hq. rewrite lookup_empty in Hq. destruct Hq as [? [=]].
    + exact (Hmem g ps q Hps Hq).
  - intros q Hq. wsimpl. specialize (Hbm q Hq). lia.
  - intros g Hg. wsimpl. apply lookup_insert_is_Some' in Hg as [<-|Hg]; [lia|].
    specialize (Hbp g Hg). lia.
Qed.

(** Updates of an endpoint that keep its back pointer, and of a poll
    group that keep its members. *)
Lemma preserves_wf_upd_mq p f :
  (forall m, poll_group (f m) = poll_group m) -> preserves wf (upd_mq p f).
Proof.
  intros Hf w a w' HI H. munfold.
  destruct (mqs w !! p) as [mp|] eqn:E; [|discriminate].
  injection H as _ <-.
  destruct HI as [Hl Hmem Hbm Hbp]. split.
  - intros q m g Hq. unfold is_member. wsimpl.
    apply lookup_insert_Some in Hq as [[<- <-]|[Hne Hq]].
    + rewrite Hf. exact (Hl p mp g E).
    + exact (Hl q m g Hq).
  - intros g ps q Hps Hq. wsimpl.
    apply lookup_insert_is_Some'. right. exact (Hmem g ps q Hps Hq).
  - intros q Hq. wsimpl. apply lookup_insert_is_Some' in Hq as [<-|Hq]; apply Hbm; eauto.
  - exact Hbp.
Qed.

Lemma preserves_wf_upd_poll p f :
  (forall ps, members (f ps) = members ps) -> preserves wf (upd_poll p f).
Proof.
  intros Hf w a w' HI H. munfold.
  destruct (polls w !! p) as [pp|] eqn:E; [|discriminate].
  injection H as _ <-.
  assert (Hmember : forall g q, is_member (set_polls (<[p:=f pp]> (polls w)) w) g q
                                <-> is_member w g q).
  { intros g q. unfold is_member. cbn [polls set_polls]. split.
    - intros (ps & Hps & Hin).
      apply lookup_insert_Some in Hps as [[<- <-]|[Hne Hps]].
      + exists pp. rewrite Hf in Hin. auto.
      + exists ps. auto.
    - intros (ps & Hps & Hin). destruct (decide (p = g)) as [<-|Hne].
      + exists (f pp). rewrite lookup_insert_eq, Hf. split; [reflexivity|]. congruence.
      + exists ps. rewrite lookup_insert_ne by exact Hne. auto. }
  destruct HI as [Hl Hmem Hbm Hbp]. split.
  - intros q m g Hq. rewrite Hmember. exact (Hl q m g Hq).
  - intros g ps q Hps Hq. wsimpl.
    apply lookup_insert_Some in Hps as [[<- <-]|[Hne Hps]].
    + rewrite Hf in Hq. exact (Hmem p pp q E Hq).
    + exact (Hmem g ps q Hps Hq).
  - exact Hbm.
  - intros g Hg. wsimpl. apply lookup_insert_is_Some' in Hg as [<-|Hg]; apply Hbp; eauto.
Qed.

Lemma get_poll_inv p w ps w' :
  get_poll p w = Ret ps w' -> w' = w /\ polls w !! p = Some ps.
Proof.
  unfold get_poll, deref. destruct (polls w !! p); [|discriminate].
  intros [= <- <-]. auto.
Qed.

Lemma upd_mq_inv p f w a w' :
  upd_mq p f w = Ret a w' ->
  exists m, mqs w !! p = Some m /\ w' = set_mqs (<[p := f m]> (mqs w)) w.
Proof.
  intros H. unfold upd_mq in H. apply bind_inv in H as (m & w1 & Hg & H).
  apply get_mq_inv in Hg as [-> Hm]. injection H as _ <-. eauto.
Qed.

Lemma upd_poll_inv p f w a w' :
  upd_poll p f w = Ret a w' ->
  exists ps, polls w !! p = Some ps /\ w' = set_polls (<[p := f ps]> (polls w)) w.
Proof.
  intros H. unfold upd_poll in H. apply bind_inv in H as (m & w1 & Hg & H).
  apply get_poll_inv in Hg as [-> Hm]. injection H as _ <-. eauto.
Qed.

(** Entering an endpoint of no group into a group. *)
Lemma wf_join w p q m ps t :
  wf w -> mqs w !! q = Some m -> poll_group m = None -> polls w !! p = Some ps ->
  wf (set_polls (<[p := set_members (<[q := t]> (members ps)) ps]> (polls w))
        (set_mqs (<[q := set_poll_group (Some p) m]> (mqs w)) w)).
Proof.
  intros [Hl Hmem Hbm Hbp] Hm Hpg Hps. split.
  - intros q' m' g Hq'. unfold is_member. wsimpl.
    apply lookup_insert_Some in Hq' as [[<- <-]|[Hne Hq']].
    + cbn [poll_group set_poll_group]. split.
      * intros [= <-]. eexists. rewrite lookup_insert_eq. split; [reflexivity|].
        cbn [members set_members]. rewrite lookup_insert_eq. eauto.
      * intros (ps' & Hps' & Hin).
        apply lookup_insert_Some in Hps' as [[<- _]|[Hne Hps']]; [reflexivity|].
        exfalso. assert (Hx : poll_group m = Some g).
        { apply (Hl q m g Hm). exists ps'. auto. }
        congruence.
    + rewrite (Hl q' m' g Hq'). unfold is_member. split.
      * intros (ps' & Hps' & Hin). destruct (decide (p = g)) as [<-|Hne'].
        -- eexists. rewrite lookup_insert_eq. split; [reflexivity|].
           cbn [members set_members]. rewrite lookup_insert_ne by exact Hne. congruence.
        -- exists ps'. rewrite lookup_insert_ne by exact Hne'. auto.
      * intros (ps' & Hps' & Hin).
        apply lookup_insert_Some in Hps' as [[<- <-]|[Hne' Hps']].
        -- cbn [members set_members] in Hin. rewrite lookup_insert_ne in Hin by exact Hne.
           exists ps. auto.
        -- exists ps'. auto.
  - intros g ps' q' Hps' Hin. wsimpl.
    apply lookup_insert_is_Some'.
    apply lookup_insert_Some in Hps' as [[<- <-]|[Hne' Hps']].
    + cbn [members set_members] in Hin.
      apply lookup_insert_is_Some' in Hin as [->|Hin]; [left; reflexivity|right].
      exact (Hmem p ps q' Hps Hin).
    + right. exact (Hmem g ps' q' Hps' Hin).
  - intros q' Hq'. wsimpl. apply lookup_insert_is_Some' in Hq' as [<-|Hq']; apply Hbm; eauto.
  - intros g Hg. wsimpl. apply lookup_insert_is_Some' in Hg as [<-|Hg]; apply Hbp; eauto.
Qed.

(** Taking an endpoint out of its group. *)
Lemma wf_leave w p q m ps :
  wf w -> mqs w !! q = Some m -> poll_group m = Some p -> polls w !! p = Some ps ->
  wf (set_polls (<[p := set_members (delete q (members ps)) ps]> (polls w))
        (set_mqs (<[q := set_poll_group None m]> (mqs w)) w)).
Proof.
  intros [Hl Hmem Hbm Hbp] Hm Hpg Hps. split.
  - intros q' m' g Hq'. unfold is_member. wsimpl.
    apply lookup_insert_Some in Hq' as [[<- <-]|[Hne Hq']].
    + cbn [poll_group set_poll_group]. split; [discriminate|].
      intros (ps' & Hps' & Hin). exfalso.
      apply lookup_insert_Some in Hps' as [[<- <-]|[Hne Hps']].
      * cbn [members set_members] in Hin. rewrite lookup_delete_eq in Hin.
        destruct Hin as [? [=]].
      * assert (Hx : poll_group m = Some g).
        { apply (Hl q m g Hm). exists ps'. auto. }
        congruence.
    + rewrite (Hl q' m' g Hq'). unfold is_member. split.
      * intros (ps' & Hps' & Hin). destruct (decide (p = g)) as [<-|Hne'].
        -- eexists. rewrite lookup_insert_eq. split; [reflexivity|].
           cbn [members set_members]. rewrite lookup_delete_ne by exact Hne. congruence.
        -- exists ps'. rewrite lookup_insert_ne by exact Hne'. auto.
      * intros (ps' & Hps' & Hin).
        apply lookup_insert_Some in Hps' as [[<- <-]|[Hne' Hps']].
        -- cbn [members set_members] in Hin. rewrite lookup_delete_ne in Hin by exact Hne.
           exists ps. auto.
        -- exists ps'. auto.
  - intros g ps' q' Hps' Hin. wsimpl.
    apply lookup_insert_is_Some'. right.
    apply lookup_insert_Some in Hps' as [[<- <-]|[Hne' Hps']].
    + cbn [members set_members] in Hin.
      apply lookup_delete_is_Some in Hin as [_ Hin]. exact (Hmem p ps q' Hps Hin).
    + exact (Hmem g ps' q' Hps' Hin).
  - intros q' Hq'. wsimpl. apply lookup_insert_is_Some' in Hq' as [<-|Hq']; apply Hbm; eauto.
  - intros g Hg. wsimpl. apply lookup_insert_is_Some' in Hg as [<-|Hg]; apply Hbp; eauto.
Qed.

(** Freeing an endpoint that is in no member table. *)
Lemma wf_free w q :
  wf w -> (forall g, ~ is_member w g q) -> wf (set_mqs (delete q (mqs w)) w).
Proof.
  intros [Hl Hmem Hbm Hbp] Hout. split.
  - intros q' m' g Hq'. unfold is_member. wsimpl.
    apply lookup_delete_Some in Hq' as [Hne Hq']. exact (Hl q' m' g Hq').
  - intros g ps q' Hps Hin. wsimpl. apply lookup_delete_is_Some. split.
    + intros <-. apply (Hout g). exists ps. auto.
    + exact (Hmem g ps q' Hps Hin).
  - intros q' Hq'. wsimpl. apply lookup_delete_is_Some in Hq' as [_ Hq']. exact (Hbm q' Hq').
  - exact Hbp.
Qed.

Create HintDb wfdb.
#[local] Hint Resolve preserves_mret preserves_gets preserves_abort preserves_fault
  preserves_stuck preserves_assert preserves_deref preserves_get_mq
  preserves_get_msg preserves_get_poll keeps_heap_preserves heap_sys_send
  heap_sys_recv heap_sys_getsockopt_error heap_link_accept heap_link_close
  heap_sys_ppoll heap_upd_msg heap_free_msg preserves_wf_msg_create
  preserves_wf_mq_create preserves_wf_mq_poll_create : wfdb.

Ltac wf_step :=
  lazymatch goal with
  | |- preserves _ (_ ≫= _) => apply preserves_bind; [|intros ?]
  | |- preserves _ (ignore _) => apply preserves_ignore
  | |- preserves _ (upd_mq _ _) => apply preserves_wf_upd_mq; intros; reflexivity
  | |- preserves _ (upd_poll _ _) => apply preserves_wf_upd_poll; intros; reflexivity
  | |- preserves _ (modify _) => apply preserves_modify; intros ? ?; assumption
  | |- preserves _ (if ?b then _ else _) => destruct b
  | |- preserves _ (match ?x with _ => _ end) => destruct x
  | |- preserves _ _ => solve [eauto with wfdb]
  end.

Ltac wf_auto := repeat wf_step.

Lemma preserves_wf_delete_all l : preserves wf (delete_all l).
Proof. induction l; cbn [delete_all mq_msg_delete delete_msg]; wf_auto. Qed.
#[local] Hint Resolve preserves_wf_delete_all : wfdb.

Lemma preserves_wf_mq_msg_delete o : preserves wf (mq_msg_delete o).
Proof. unfold mq_msg_delete, delete_msg. wf_auto. Qed.
#[local] Hint Resolve preserves_wf_mq_msg_delete : wfdb.

Lemma wf_not_member w q m :
  wf w -> mqs w !! q = Some m -> poll_group m = None -> forall g, ~ is_member w g q.
Proof.
  intros [Hl _ _ _] Hm Hpg g Hin. apply (Hl q m g Hm) in Hin. congruence.
Qed.

(** Closing an endpoint: it leaves the member table of its group and
    is freed. *)
Lemma wf_close w w' p m :
  wf w -> mqs w !! p = Some m ->
  mqs w' = delete p (mqs w) ->
  polls w' = match poll_group m with
             | Some g =>
                 match polls w !! g with
                 | Some ps => <[g := set_members (delete p (members ps)) ps]> (polls w)
                 | None => polls w
                 end
             | None => polls w
             end ->
  brk w' = brk w ->
  wf w'.
Proof.
  intros Hw Hm Em Ep Eb.
  destruct (poll_group m) as [g|] eqn:Hpg.
  - assert (Hg : is_member w g p) by (apply (wf_linked w Hw p m g Hm); exact Hpg).
    destruct Hg as (ps & Hps & Hin). rewrite Hps in Ep.
    pose proof (wf_leave w g p m ps Hw Hm Hpg Hps) as Hleave.
    set (wl := set_polls _ _) in Hleave.
    assert (Hout : forall g', ~ is_member wl g' p).
    { apply (wf_not_member wl p (set_poll_group None m) Hleave); [|reflexivity].
      subst wl. wsimpl. apply lookup_insert_eq. }
    pose proof (wf_free wl p Hleave Hout) as Hfree.
    eapply wf_same_heap; [| | |exact Hfree]; subst wl; wsimpl.
    + rewrite Em, delete_insert_eq. reflexivity.
    + exact Ep.
    + exact Eb.
  - pose proof (wf_free w p Hw (wf_not_member w p m Hw Hm Hpg)) as Hfree.
    eapply wf_same_heap; [| | |exact Hfree]; wsimpl; assumption.
Qed.

Lemma preserves_wf_mq_close_with die o :
  (forall p e, preserves wf (die p e)) -> preserves wf (mq_close_with die o).
Proof.
  intros Hd. destruct o as [p|]; cbn [mq_close_with]; [|wf_auto].
  intros w a w' HI H.
  apply bind_inv in H as (u & w1 & Hdie & H). apply (Hd p 0 w u w1 HI) in Hdie.
  apply bind_inv in H as (m & w2 & Hg & H). apply get_mq_inv in Hg as [-> Hm].
  apply bind_inv in H as (u2 & w2 & Hrm & H).
  apply bind_inv in H as (u3 & w3 & Hlc & H).
  destruct (heap_link_close _ _ _ _ Hlc) as (Em3 & Ep3 & Eb3).
  unfold free_mq in H. apply bind_inv in H as (m3 & w4 & Hg & H).
  apply get_mq_inv in Hg as [-> Hm3]. injection H as _ <-.
  apply (wf_close w1 _ p m Hdie Hm); wsimpl.
  - rewrite Em3. f_equal.
    destruct (poll_group m).
    + apply upd_poll_inv in Hrm as (ps & _ & ->). reflexivity.
    + injection Hrm as _ <-. reflexivity.
  - rewrite Ep3. destruct (poll_group m) as [g|].
    + apply upd_poll_inv in Hrm as (ps & Hps & ->). rewrite Hps. reflexivity.
    + injection Hrm as _ <-. reflexivity.
  - rewrite Eb3. destruct (poll_group m).
    + apply upd_poll_inv in Hrm as (ps & _ & ->). reflexivity.
    + injection Hrm as _ <-. reflexivity.
Qed.

Lemma preserves_wf_mq_die_rec fuel p e : preserves wf (mq_die_rec fuel p e).
Proof.
  revert p e. induction fuel as [|fuel IH]; intros p e; cbn [mq_die_rec]; [wf_auto|].
  pose proof (preserves_wf_mq_close_with (mq_die_rec fuel)) as Hc.
  wf_auto.
Qed.

Lemma preserves_wf_mq_die p e : preserves wf (mq_die p e).
Proof. intros w a w' HI H. exact (preserves_wf_mq_die_rec _ p e w a w' HI H). Qed.
#[local] Hint Resolve preserves_wf_mq_die : wfdb.

Lemma preserves_wf_mq_close o : preserves wf (mq_close o).
Proof. apply preserves_wf_mq_close_with. intros. apply preserves_wf_mq_die. Qed.
#[local] Hint Resolve preserves_wf_mq_close : wfdb.

Lemma preserves_wf_flush_send_loop fuel p : preserves wf (flush_send_loop fuel p).
Proof.
  induction fuel as [|fuel IH]; cbn [flush_send_loop]; [wf_auto|].
  unfold delete_msg. wf_auto.
Qed.

Lemma preserves_wf_flush_send p : preserves wf (flush_send p).
Proof. intros w a w' HI H. exact (preserves_wf_flush_send_loop _ p w a w' HI H). Qed.
#[local] Hint Resolve preserves_wf_flush_send : wfdb.

Lemma preserves_wf_flush_recv_loop fuel p : preserves wf (flush_recv_loop fuel p).
Proof. induction fuel as [|fuel IH]; cbn [flush_recv_loop]; wf_auto. Qed.

Lemma preserves_wf_flush_recv p : preserves wf (flush_recv p).
Proof. intros w a w' HI H. exact (preserves_wf_flush_recv_loop _ p w a w' HI H). Qed.
#[local] Hint Resolve preserves_wf_flush_recv : wfdb.

Lemma preserves_wf_update_poll_group p : preserves wf (update_poll_group p).
Proof. unfold update_poll_group. wf_auto. Qed.
#[local] Hint Resolve preserves_wf_update_poll_group : wfdb.

Lemma preserves_wf_handle_revents r p : preserves wf (handle_revents r p).
Proof. unfold handle_revents. wf_auto. Qed.
#[local] Hint Resolve preserves_wf_handle_revents : wfdb.

Lemma preserves_wf_mq_poll_add p q tag : preserves wf (mq_poll_add p q tag).
Proof.
  intros w a w' HI H. unfold mq_poll_add in H.
  apply bind_inv in H as (m & w0 & Hg & H). apply get_mq_inv in Hg as [-> Hm].
  destruct (bool_decide (poll_group m = Some p)).
  { apply bind_inv in H as (u & w1 & H1 & H). injection H1 as _ <-.
    injection H as _ <-. apply (wf_same_heap w); [reflexivity..|exact HI]. }
  destruct (bool_decide (is_Some (poll_group m))) eqn:E.
  { apply bind_inv in H as (u & w1 & H1 & H). injection H1 as _ <-.
    injection H as _ <-. apply (wf_same_heap w); [reflexivity..|exact HI]. }
  apply bool_decide_eq_false_1 in E.
  assert (Hpg : poll_group m = None).
  { destruct (poll_group m); [exfalso; apply E; eauto|reflexivity]. }
  apply bind_inv in H as (u1 & w1 & H1 & H). apply upd_mq_inv in H1 as (m1 & Hm1 & ->).
  apply bind_inv in H as (u2 & w2 & H2 & H). apply upd_poll_inv in H2 as (ps & Hps & ->).
  injection H as _ <-. wsimpl.
  rewrite Hm in Hm1. injection Hm1 as <-.
  exact (wf_join w p q m ps _ HI Hm Hpg Hps).
Qed.

Lemma preserves_wf_mq_poll_rm p q : preserves wf (mq_poll_rm p q).
Proof.
  intros w a w' HI H. unfold mq_poll_rm in H.
  apply bind_inv in H as (m & w0 & Hg & H). apply get_mq_inv in Hg as [-> Hm].
  destruct (bool_decide (poll_group m ≠ Some p)) eqn:E.
  { apply bind_inv in H as (u & w1 & H1 & H). injection H1 as _ <-.
    injection H as _ <-. apply (wf_same_heap w); [reflexivity..|exact HI]. }
  apply bool_decide_eq_false_1 in E.
  assert (Hpg : poll_group m = Some p).
  { destruct (decide (poll_group m = Some p)); [assumption|contradiction]. }
  apply bind_inv in H as (u1 & w1 & H1 & H). apply upd_mq_inv in H1 as (m1 & Hm1 & ->).
  apply bind_inv in H as (u2 & w2 & H2 & H). apply upd_poll_inv in H2 as (ps & Hps & ->).
  wsimpl. rewrite Hm in Hm1. injection Hm1 as <-.
  pose proof (wf_leave w p q m ps HI Hm Hpg Hps) as Hleave.
  cbn beta in H.
  lazymatch type of H with
  | ?c _ = Ret _ _ => assert (Hc : preserves wf c) by wf_auto
  end.
  exact (Hc _ _ _ Hleave H).
Qed.

(** The endpoints after [clear_back_pointers]. *)
Lemma clear_back_pointers_inv keys w w' :
  clear_back_pointers keys w = Ret tt w' ->
  polls w' = polls w /\ brk w' = brk w
  /\ (forall q, q ∈ keys -> set_poll_group None <$> mqs w !! q = mqs w' !! q
                          /\ is_Some (mqs w !! q))
  /\ (forall q, q ∉ keys -> mqs w' !! q = mqs w !! q).
Proof.
  revert w. induction keys as [|k keys IH]; intros w H; cbn [clear_back_pointers] in H.
  - injection H as <-. split; [reflexivity|]. split; [reflexivity|].
    split; [|intros; reflexivity].
    intros q Hq. apply elem_of_nil in Hq. destruct Hq.
  - apply bind_inv in H as (u & w1 & H1 & H). apply upd_mq_inv in H1 as (mk & Hmk & ->).
    destruct (IH _ H) as (Ep & Eb & Hin & Hout). wsimpl.
    split; [exact Ep|]. split; [exact Eb|]. split.
    + intros q Hq. destruct (decide (q ∈ keys)) as [Hq'|Hq'].
      * destruct (Hin q Hq') as [E Hs]. wsimpl.
        destruct (decide (k = q)) as [<-|Hne].
        -- rewrite lookup_insert_eq in E, Hs. rewrite Hmk. split; [|eauto].
           rewrite <- E. reflexivity.
        -- rewrite lookup_insert_ne in E, Hs by exact Hne. auto.
      * apply elem_of_cons in Hq as [->|Hq]; [|contradiction].
        rewrite (Hout k Hq'). wsimpl. rewrite lookup_insert_eq, Hmk. split; [reflexivity|eauto].
    + intros q Hq. apply not_elem_of_cons in Hq as [Hne Hq].
      rewrite (Hout q Hq). wsimpl. apply lookup_insert_ne. congruence.
Qed.

Lemma preserves_wf_mq_poll_delete o : preserves wf (mq_poll_delete o).
Proof.
  destruct o as [g|]; cbn [mq_poll_delete]; [|wf_auto].
  intros w a w' HI H.
  apply bind_inv in H as (ps & w0 & Hg & H). apply get_poll_inv in Hg as [-> Hps].
  apply bind_inv in H as ([] & w1 & Hc & H).
  destruct (clear_back_pointers_inv _ _ _ Hc) as (Ep & Eb & Hin & Hout).
  unfold free_poll in H. apply bind_inv in H as (ps1 & w2 & Hg & H).
  apply get_poll_inv in Hg as [-> _]. injection H as _ <-.
  assert (Hkeys : forall q, q ∈ (map_to_list (members ps)).*1 <-> is_member w g q).
  { intros q. rewrite list_elem_of_fmap. unfold is_member. split.
    - intros ([q' t] & -> & Hqt). apply elem_of_map_to_list in Hqt.
      exists ps. split; [exact Hps|]. cbn. eauto.
    - intros (ps' & Hps' & [t Ht]). rewrite Hps in Hps'. injection Hps' as <-.
      exists (q, t). split; [reflexivity|]. apply elem_of_map_to_list. exact Ht. }
  destruct HI as [Hl Hmem Hbm Hbp]. split.
  - intros q m' g' Hq. unfold is_member. wsimpl. rewrite Ep.
    destruct (decide (q ∈ (map_to_list (members ps)).*1)) as [Hk|Hk].
    + destruct (Hin q Hk) as [E [m Hm]]. rewrite Hm in E. rewrite Hq in E.
      injection E as <-. cbn [poll_group set_poll_group]. split; [discriminate|].
      intros (ps' & Hps' & Hin'). exfalso.
      apply lookup_delete_Some in Hps' as [Hne Hps'].
      apply Hkeys in Hk. apply (Hl q m g Hm) in Hk.
      assert (Hx : poll_group m = Some g') by (apply (Hl q m g' Hm); exists ps'; auto).
      congruence.
    + rewrite (Hout q Hk) in Hq. rewrite (Hl q m' g' Hq). unfold is_member. split.
      * intros (ps' & Hps' & Hin'). exists ps'. split; [|exact Hin'].
        apply lookup_delete_Some. split; [|exact Hps'].
        intros <-. apply Hk, Hkeys. exists ps'. auto.
      * intros (ps' & Hps' & Hin'). apply lookup_delete_Some in Hps' as [_ Hps'].
        exists ps'. auto.
  - intros g' ps' q Hps' Hq. wsimpl. rewrite Ep in Hps'.
    apply lookup_delete_Some in Hps' as [Hne Hps'].
    specialize (Hmem g' ps' q Hps' Hq).
    destruct (decide (q ∈ (map_to_list (members ps)).*1)) as [Hk|Hk].
    + destruct (Hin q Hk) as [E [m Hm]]. rewrite <- E, Hm. cbn. eauto.
    + rewrite (Hout q Hk). exact Hmem.
  - intros q Hq. wsimpl. rewrite Eb. apply Hbm.
    destruct (decide (q ∈ (map_to_list (members ps)).*1)) as [Hk|Hk].
    + exact (proj2 (Hin q Hk)).
    + rewrite <- (Hout q Hk). exact Hq.
  - intros g' Hg'. wsimpl. rewrite Eb. rewrite Ep in Hg'.
    apply lookup_delete_is_Some in Hg' as [_ Hg']. exact (Hbp g' Hg').
Qed.
#[local] Hint Resolve preserves_wf_mq_poll_add preserves_wf_mq_poll_rm
  preserves_wf_mq_poll_delete : wfdb.

Lemma preserves_wf_mq_wait_turn ev continue p stoptime pfd :
  (forall f, preserves wf (continue f)) ->
  preserves wf (mq_wait_turn ev continue p stoptime pfd).
Proof. intros Hc. unfold mq_wait_turn. wf_auto. Qed.

Lemma preserves_wf_mq_wait_loop evs p stoptime pfd :
  preserves wf (mq_wait_loop evs p stoptime pfd).
Proof.
  revert pfd. induction evs as [|ev evs IH]; intros pfd; cbn [mq_wait_loop];
    apply preserves_wf_mq_wait_turn; [intros; apply preserves_stuck|exact IH].
Qed.
#[local] Hint Resolve preserves_wf_mq_wait_loop : wfdb.

Lemma preserves_wf_poll_pass keys pfds : preserves wf (poll_pass keys pfds).
Proof.
  revert pfds. induction keys as [|k keys IH]; intros pfds; cbn [poll_pass]; wf_auto.
Qed.
#[local] Hint Resolve preserves_wf_poll_pass : wfdb.

Lemma preserves_wf_mq_poll_wait_turn ev continue p stoptime pfds :
  (forall f, preserves wf (continue f)) ->
  preserves wf (mq_poll_wait_turn ev continue p stoptime pfds).
Proof. intros Hc. unfold mq_poll_wait_turn. wf_auto. Qed.

Lemma preserves_wf_mq_poll_wait_loop evs p stoptime pfds :
  preserves wf (mq_poll_wait_loop evs p stoptime pfds).
Proof.
  revert pfds. induction evs as [|ev evs IH]; intros pfds; cbn [mq_poll_wait_loop];
    apply preserves_wf_mq_poll_wait_turn; [intros; apply preserves_stuck|exact IH].
Qed.
#[local] Hint Resolve preserves_wf_mq_poll_wait_loop : wfdb.

Lemma preserves_wf_poll_query sel p : preserves wf (poll_query sel p).
Proof. unfold poll_query. wf_auto. Qed.
#[local] Hint Resolve preserves_wf_poll_query : wfdb.

(** Every call of the interface keeps the bookkeeping sound. *)
Lemma preserves_wf_run c : preserves wf (run c).
Proof.
  destruct c; cbn [run];
    unfold mq_serve, mq_connect, mq_accept, mq_send, mq_recv, mq_geterror, mq_wait,
      mq_wrap_buffer, mq_unwrap_buffer,
      mq_poll_acceptable, mq_poll_readable, mq_poll_error, mq_poll_wait;
    wf_auto.
Qed.

Lemma reachable_wf w : reachable w -> wf w.
Proof.
  induction 1 as [w Hm _ Hp|w w' c _ IH Hrun|w w' _ IH (Hm & _ & Hp & Hb)].
  - split.
    + intros q m g Hq. rewrite Hm, lookup_empty in Hq. discriminate.
    + intros g ps q Hps. rewrite Hp, lookup_empty in Hps. discriminate.
    + intros q [m Hq]. rewrite Hm, lookup_empty in Hq. discriminate.
    + intros g [ps Hg]. rewrite Hp, lookup_empty in Hg. discriminate.
  - exact (preserves_wf_run c w tt w' IH Hrun).
  - exact (wf_same_heap w w' Hm Hp Hb IH).
Qed.

(** C8. Misuse of a poll group is reported and changes nothing, in every
    world the interface can reach: adding an endpoint to the group it is
    a member of fails with [EEXIST], adding it while it is a member of
    another group fails with [EINVAL], removing it from a group it is
    not a member of fails with [ENOENT]; each call returns -1 and leaves
    every endpoint, message, poll group and socket as it was. *)
Theorem poll_misuse_reported (w : world) (p q : positive) (m : mq)
    (tag : option positive) :
  reachable w -> mqs w !! q = Some m ->
  (is_member w p q ->
     exists w', mq_poll_add p q tag w = Ret (-1) w'
                /\ errno w' = EEXIST /\ unaltered w w')
  /\ (forall p', p' ≠ p -> is_member w p' q ->
     exists w', mq_poll_add p q tag w = Ret (-1) w'
                /\ errno w' = EINVAL /\ unaltered w w')
  /\ (~ is_member w p q ->
     exists w', mq_poll_rm p q w = Ret (-1) w'
                /\ errno w' = ENOENT /\ unaltered w w').
Proof.
  intros Hw Hm. apply (poll_misuse_linked w p q m tag); [|exact Hm].
  exact (wf_linked w (reachable_wf w Hw)).
Qed.

Lemma two_groups_reachable : reachable Samples.two_groups.
Proof.
  apply (reachable_exec Samples.groups_calls Samples.groups_start).
  - apply reach_start; reflexivity.
  - vm_compute. reflexivity.
Qed.

Lemma poll_misuse_reported_witness :
  (exists w', mq_poll_add 3 1 None Samples.two_groups = Ret (-1) w'
              /\ errno w' = EEXIST /\ unaltered Samples.two_groups w')
  /\ (exists w', mq_poll_add 4 1 None Samples.two_groups = Ret (-1) w'
              /\ errno w' = EINVAL /\ unaltered Samples.two_groups w')
  /\ (exists w', mq_poll_rm 4 2 Samples.two_groups = Ret (-1) w'
              /\ errno w' = ENOENT /\ unaltered Samples.two_groups w').
Proof.
  assert (Hin : is_member Samples.two_groups 3 1).
  { eexists. split; [vm_compute; reflexivity|]. eexists. vm_compute. reflexivity. }
  assert (Hout : ~ is_member Samples.two_groups 4 2).
  { intros Hx.
    apply (wf_linked _ (reachable_wf _ two_groups_reachable) 2%positive
             (Mq 4 MQ_SOCKET_INPROGRESS None [] 0 None None None None) 4%positive)
      in Hx; [discriminate Hx|vm_compute; reflexivity]. }
  split; [|split].
  - apply (poll_misuse_reported Samples.two_groups 3 1
             (Mq 3 MQ_SOCKET_INPROGRESS None [] 0 None None None (Some 3%positive)) None
             two_groups_reachable); [vm_compute; reflexivity|exact Hin].
  - apply (proj1 (proj2 (poll_misuse_reported Samples.two_groups 4 1
             (Mq 3 MQ_SOCKET_INPROGRESS None [] 0 None None None (Some 3%positive)) None
             two_groups_reachable ltac:(vm_compute; reflexivity))) 3%positive);
      [discriminate|exact Hin].
  - apply (poll_misuse_reported Samples.two_groups 4 2
             (Mq 4 MQ_SOCKET_INPROGRESS None [] 0 None None None None) None
             two_groups_reachable); [vm_compute; reflexivity|exact Hout].
Defined.
(** ** The wire format and the message wrappers *)

(** Runs a computation as far as its steps are determined. *)
Ltac mrun :=
  repeat first [ rewrite bind_assoc_pt
               | mstep; cbn beta iota
               | erewrite bind_Ret by (eapply free_msg_Ret; mlookup); cbn beta iota ].

Lemma length_splice (obj : list byte) (off : nat) (data : list byte) :
  (off + length data <= length obj)%nat ->
  length (splice obj off data) = length obj.
Proof.
  intros H. unfold splice. rewrite !length_app, length_take, length_drop. lia.
Qed.

Lemma length_write_header be msg :
  length (hdr msg) = 16%nat -> length (hdr (write_header be msg)) = 16%nat.
Proof.
  intros Hl.
  destruct (list_of_length_16 _ Hl)
    as (b0&b1&b2&b3&b4&b5&b6&b7&b8&b9&b10&b11&b12&b13&b14&b15&E).
  pose proof (length_store_u64 be (htobe64 be (len msg))) as HSl.
  unfold write_header. rewrite E.
  destruct (list_of_length_8 _ HSl) as (s0&s1&s2&s3&s4&s5&s6&s7&ES).
  rewrite ES. reflexivity.
Qed.

(** The header that [write_header] writes does not depend on the byte
    order of the host. *)
Lemma write_header_any_order (be be' : bool) (msg : mq_msg) :
  length (hdr msg) = 16%nat ->
  hdr (write_header be msg) = hdr (write_header be' msg).
Proof.
  intros Hl.
  destruct (list_of_length_16 _ Hl)
    as (b0&b1&b2&b3&b4&b5&b6&b7&b8&b9&b10&b11&b12&b13&b14&b15&E).
  unfold write_header. rewrite E.
  rewrite (store_htobe64 be (len msg)), (store_htobe64 be' (len msg)).
  reflexivity.
Qed.

(** X1. The header on the wire.  Whatever the byte order of the host,
    [write_header] leaves in the sixteen bytes of [hdr] the magic
    "DSmsg", the two bytes of padding as they were, the type as one
    byte, and the length as eight bytes, most significant first. *)
Theorem wire_header_layout (be : bool) (msg : mq_msg) :
  length (hdr msg) = 16%nat ->
  hdr (write_header be msg)
  = HDR_MAGIC ++ take 2 (drop 5 (hdr msg)) ++ [byte_of_Z (type msg)]
    ++ rev (le_bytes 8 (len msg)).
Proof.
  intros Hl.
  destruct (list_of_length_16 _ Hl)
    as (b0&b1&b2&b3&b4&b5&b6&b7&b8&b9&b10&b11&b12&b13&b14&b15&E).
  pose proof (store_htobe64 be (len msg)) as HS.
  pose proof (length_store_u64 be (htobe64 be (len msg))) as HSl.
  unfold write_header. rewrite E, <- HS.
  destruct (list_of_length_8 _ HSl) as (s0&s1&s2&s3&s4&s5&s6&s7&ES).
  rewrite ES. reflexivity.
Qed.

Lemma wire_header_layout_witness :
  hdr (write_header true Samples.hello_msg)
  = [x44; x53; x6d; x73; x67; x00; x00; x00;
     x00; x00; x00; x00; x00; x00; x00; x05]
  /\ hdr (write_header false Samples.hello_msg)
     = hdr (write_header true Samples.hello_msg).
Proof.
  split.
  - exact (wire_header_layout true Samples.hello_msg eq_refl).
  - rewrite (wire_header_layout true Samples.hello_msg eq_refl).
    exact (wire_header_layout false Samples.hello_msg eq_refl).
Defined.

(** X2. Wrapping a buffer and unwrapping the message gives the bytes back
    and leaves no message behind: [mq_unwrap_buffer] frees the wrapper
    that [mq_wrap_buffer] allocated. *)
Theorem wrap_unwrap_round_trip (b : list byte) (w : world) :
  msgs w !! brk w = None ->
  exists w', (msg ← mq_wrap_buffer b; mq_unwrap_buffer msg) w = Ret (Some b) w'
    /\ msgs w' = msgs w /\ mqs w' = mqs w /\ polls w' = polls w
    /\ socks w' = socks w /\ errno w' = errno w.
Proof.
  intros Hfresh. eexists. split.
  - unfold mq_wrap_buffer, mq_unwrap_buffer, msg_create.
    mrun. cbn [type buf]. rewrite bool_decide_eq_true_2 by reflexivity. cbv beta iota.
    mrun. reflexivity.
  - wsimpl. repeat split.
    rewrite insert_insert_eq, delete_insert_eq. apply delete_id, Hfresh.
Qed.

Lemma wrap_unwrap_round_trip_witness :
  exists w', (msg ← mq_wrap_buffer [x68; x69]; mq_unwrap_buffer msg)
               Samples.busy_endpoint = Ret (Some [x68; x69]) w'
    /\ msgs w' = msgs Samples.busy_endpoint
    /\ mqs w' = mqs Samples.busy_endpoint
    /\ polls w' = polls Samples.busy_endpoint
    /\ socks w' = socks Samples.busy_endpoint
    /\ errno w' = errno Samples.busy_endpoint.
Proof.
  apply (wrap_unwrap_round_trip [x68; x69] Samples.busy_endpoint). reflexivity.
Defined.
(** ** The life of an endpoint: connecting, accepting, closing *)

Lemma sys_getsockopt_error_Ret w fd s :
  socks w !! fd = Some s -> sys_getsockopt_error fd w = Ret (0, so_error s) w.
Proof. intros Hs. unfold sys_getsockopt_error. rewrite Hs. reflexivity. Qed.

(** What [update_poll_group] does. *)
Lemma update_poll_group_spec (w : world) (p : positive) (m : mq) :
  mqs w !! p = Some m -> grouped w m ->
  exists w', update_poll_group p w = Ret tt w'
    /\ mqs w' = mqs w /\ msgs w' = msgs w /\ errno w' = errno w
    /\ socks w' = socks w /\ brk w' = brk w /\ now w' = now w
    /\ big_endian w' = big_endian w
    /\ match poll_group m with
       | None => polls w' = polls w
       | Some g =>
           exists ps, polls w !! g = Some ps
                      /\ polls w' = <[g := noted p m ps]> (polls w)
       end.
Proof.
  intros Hm Hg. unfold update_poll_group. mstep.
  destruct (poll_group m) as [g|] eqn:Hpg.
  - destruct (Hg g Hpg) as [ps Hps]. unfold noted.
    destruct (bool_decide (state m = MQ_SOCKET_ERROR));
      destruct (bool_decide (is_Some (recv m)));
      destruct (bool_decide (is_Some (acc m)));
      mrun; try mfin;
      (eexists; split; [reflexivity|]; wsimpl; repeat (split; [reflexivity|]);
       exists ps; split; [exact Hps|]; cbn zeta;
       rewrite ?lookup_insert_eq, ?insert_insert_eq; try reflexivity;
       symmetry; apply insert_id; exact Hps).
  - eexists. split; [reflexivity|]. repeat split.
Qed.

Lemma noted_error p m ps :
  state m = MQ_SOCKET_ERROR -> p ∈ error (noted p m ps).
Proof.
  intros Hst. unfold noted. rewrite (bool_decide_eq_true_2 _ Hst).
  destruct (bool_decide (is_Some (recv m))); destruct (bool_decide (is_Some (acc m)));
    cbn [error set_error set_readable set_acceptable];
    apply elem_of_union_l, elem_of_singleton; reflexivity.
Qed.

Lemma noted_members p m ps : members (noted p m ps) = members ps.
Proof.
  unfold noted.
  destruct (bool_decide (state m = MQ_SOCKET_ERROR));
    destruct (bool_decide (is_Some (recv m))); destruct (bool_decide (is_Some (acc m)));
    reflexivity.
Qed.

Lemma noted_idle p m ps :
  state m <> MQ_SOCKET_ERROR -> recv m = None -> acc m = None -> noted p m ps = ps.
Proof.
  intros Hst Hr Ha. unfold noted.
  rewrite (bool_decide_eq_false_2 _ Hst), Hr, Ha.
  rewrite !bool_decide_eq_false_2 by (intros [? ?]; discriminate). reflexivity.
Qed.

(** X3. The outcome of a non-blocking connect.  When the socket of a
    connecting endpoint polls writable, [handle_revents] asks for
    [SO_ERROR]: with no pending error the endpoint is connected; with a
    pending error it is dead, with that error latched and listed in the
    error set of its poll group.  In both cases [handle_revents] returns
    0: the failure of a connect is not signalled by the return value. *)
Theorem connect_outcome (w : world) (revents : Z) (p : positive) (m : mq)
    (s : sock) :
  mqs w !! p = Some m -> state m = MQ_SOCKET_INPROGRESS ->
  has_bit POLLOUT revents = true ->
  socks w !! link m = Some s -> acc m = None -> owns w m -> grouped w m ->
  exists w' m', handle_revents revents p w = Ret 0 w'
    /\ mqs w' !! p = Some m'
    /\ (so_error s = 0 ->
          state m' = MQ_SOCKET_CONNECTED /\ msgs w' = msgs w
          /\ mq_geterror p w' = Ret 0 w')
    /\ (so_error s <> 0 ->
          state m' = MQ_SOCKET_ERROR /\ err m' = so_error s
          /\ mq_geterror p w' = Ret (so_error s) w'
          /\ (forall g, poll_group m = Some g ->
                exists ps, polls w' !! g = Some ps /\ p ∈ error ps)).
Proof.
  intros Hm Hst Hout Hs Hacc (Hnd & Hlive & _) Hg.
  unfold handle_revents. mstep. rewrite Hst, Hout. rewrite bind_assoc_pt.
  erewrite bind_Ret by (apply sys_getsockopt_error_Ret; exact Hs).
  cbn beta iota. mdecide. mrun.
  destruct (decide (so_error s = 0)) as [E|E].
  - rewrite (bool_decide_eq_true_2 _ E). mrun.
    set (m1 := set_state MQ_SOCKET_CONNECTED m).
    set (w1 := set_mqs (<[p:=m1]> (mqs w)) w).
    assert (Hm1 : mqs w1 !! p = Some m1) by apply lookup_insert_eq.
    destruct (update_poll_group_spec w1 p m1 Hm1 Hg)
      as (w' & Hupd & Hmqs & Hmsgs & _).
    exists w', m1. erewrite bind_Ret by exact Hupd.
    split; [reflexivity|]. split; [rewrite Hmqs; exact Hm1|]. split.
    + intros _. split; [reflexivity|]. split; [exact Hmsgs|].
      unfold mq_geterror. erewrite bind_Ret by (apply get_mq_Ret; rewrite Hmqs; exact Hm1).
      rewrite bool_decide_eq_true_2 by discriminate. reflexivity.
    + intros Hne. contradiction.
  - rewrite (bool_decide_eq_false_2 _ E).
    erewrite bind_Ret by (apply (mq_die_spec w p (so_error s) m Hm Hacc Hnd Hlive Hg)).
    mrun.
    set (m1 := set_err (so_error s) (set_state MQ_SOCKET_ERROR m)).
    set (w1 := die_world p (so_error s) m w).
    assert (Hm1 : mqs w1 !! p = Some m1)
      by (unfold w1; rewrite die_world_mqs; apply lookup_insert_eq).
    destruct (update_poll_group_spec w1 p m1 Hm1 (die_world_grouped p _ m w Hg))
      as (w' & Hupd & Hmqs & _ & _ & _ & _ & _ & _ & Hpolls).
    exists w', m1. erewrite bind_Ret by exact Hupd.
    split; [reflexivity|]. split; [rewrite Hmqs; exact Hm1|]. split.
    + intros Hz. contradiction.
    + intros _. split; [reflexivity|]. split; [reflexivity|]. split.
      * rewrite (mq_geterror_error w' p m1); [reflexivity| |reflexivity].
        rewrite Hmqs. exact Hm1.
      * intros g Hpg. change (poll_group m1) with (poll_group m) in Hpolls.
        rewrite Hpg in Hpolls. destruct Hpolls as (ps & _ & ->).
        eexists. split; [apply lookup_insert_eq|]. apply noted_error. reflexivity.
Qed.

Lemma connect_outcome_witness :
  exists w' m', handle_revents POLLOUT 1 (Samples.connecting 111) = Ret 0 w'
    /\ mqs w' !! 1%positive = Some m'
    /\ (111 = 0 ->
          state m' = MQ_SOCKET_CONNECTED /\ msgs w' = ∅
          /\ mq_geterror 1 w' = Ret 0 w')
    /\ (111 <> 0 ->
          state m' = MQ_SOCKET_ERROR /\ err m' = 111
          /\ mq_geterror 1 w' = Ret 111 w'
          /\ (forall g, Some 10%positive = Some g ->
                exists ps, polls w' !! g = Some ps /\ 1%positive ∈ error ps)).
Proof.
  apply (connect_outcome (Samples.connecting 111) POLLOUT 1
           (Mq 3 MQ_SOCKET_INPROGRESS None [] 0 None None None (Some 10%positive))
           (Sock [] [] [] 111 [])).
  - reflexivity.
  - reflexivity.
  - reflexivity.
  - reflexivity.
  - reflexivity.
  - split; [apply NoDup_nil_2|]. split; [|reflexivity].
    intros x Hx. apply elem_of_nil in Hx. destruct Hx.
  - intros g Hg. injection Hg as <-. eexists. reflexivity.
Defined.

Lemma link_accept_Ret w fd s c t :
  socks w !! fd = Some s -> backlog s = c :: t ->
  link_accept fd w = Ret (Some c) (set_socks (<[fd := set_backlog t s]> (socks w)) w).
Proof. intros Hs Hb. unfold link_accept. rewrite Hs, Hb. reflexivity. Qed.

Lemma noted_acceptable p m ps : is_Some (acc m) -> p ∈ acceptable (noted p m ps).
Proof.
  intros Ha. unfold noted. rewrite (bool_decide_eq_true_2 _ Ha).
  cbn [acceptable set_acceptable]. apply elem_of_union_l, elem_of_singleton. reflexivity.
Qed.

Lemma mq_accept_spec (w : world) (p : positive) (m : mq) :
  mqs w !! p = Some m -> grouped w m ->
  exists w', mq_accept p w = Ret (acc m) w'
    /\ mqs w' = <[p := set_acc None m]> (mqs w)
    /\ msgs w' = msgs w /\ socks w' = socks w /\ brk w' = brk w
    /\ match poll_group m with
       | None => polls w' = polls w
       | Some g =>
           exists ps, polls w !! g = Some ps
             /\ polls w' = <[g := set_acceptable (acceptable ps ∖ {[p]}) ps]> (polls w)
       end.
Proof.
  intros Hm Hg. unfold mq_accept. mrun.
  destruct (poll_group m) as [g|] eqn:Hpg.
  - destruct (Hg g Hpg) as [ps Hps]. mrun.
    eexists. split; [reflexivity|]. wsimpl. repeat (split; [reflexivity|]).
    exists ps. split; [exact Hps|reflexivity].
  - mrun. eexists. split; [reflexivity|]. repeat split.
Qed.

(** X4. A server takes one connection at a time.  When its socket polls
    readable, [handle_revents] accepts the next waiting connection into
    a new connected endpoint, which it keeps in [acc], and lists the
    server as acceptable in its poll group; while the connection waits
    there the server does not ask for another one.  [mq_accept] hands
    the endpoint over, once: it empties [acc], takes the server off the
    acceptable set, and a second [mq_accept] returns null. *)
Theorem accept_hands_over (w : world) (revents : Z) (p : positive) (m : mq)
    (s : sock) (c : Z) (t : list Z) :
  mqs w !! p = Some m -> state m = MQ_SOCKET_SERVER -> acc m = None ->
  has_bit POLLIN revents = true ->
  socks w !! link m = Some s -> backlog s = c :: t ->
  mqs w !! brk w = None -> grouped w m ->
  exists w1 w2 w3 m1 child,
    handle_revents revents p w = Ret 0 w1
    /\ mqs w1 !! p = Some m1 /\ acc m1 = Some (brk w)
    /\ has_bit POLLIN (poll_events m1) = false
    /\ mqs w1 !! brk w = Some child
    /\ state child = MQ_SOCKET_CONNECTED /\ link child = c
    /\ poll_group child = None
    /\ (forall g, poll_group m = Some g ->
          exists ps, polls w1 !! g = Some ps /\ p ∈ acceptable ps)
    /\ mq_accept p w1 = Ret (Some (brk w)) w2
    /\ (forall g, poll_group m = Some g ->
          exists ps, polls w2 !! g = Some ps /\ p ∉ acceptable ps)
    /\ mq_accept p w2 = Ret None w3.
Proof.
  intros Hm Hst Hacc Hin Hs Hb Hfresh Hg.
  assert (Hne : brk w <> p) by (intros E; rewrite E in Hfresh; congruence).
  unfold handle_revents. mstep. rewrite Hst, Hin. rewrite bind_assoc_pt.
  erewrite bind_Ret by (eapply link_accept_Ret; eassumption).
  cbn beta iota. mrun. rewrite Hacc. mdecide. cbn [negb]. mrun. wsimpl.
  rewrite !insert_insert_eq.
  set (child := set_state MQ_SOCKET_CONNECTED (set_link c zero_mq)).
  set (m1 := set_acc (Some (brk w)) m).
  match goal with |- context [(update_poll_group p ≫= _) ?W] => set (w0 := W) end.
  assert (Hm1 : mqs w0 !! p = Some m1) by apply lookup_insert_eq.
  assert (Hg1 : grouped w0 m1) by exact Hg.
  destruct (update_poll_group_spec w0 p m1 Hm1 Hg1)
    as (w1 & Hupd & Hmqs1 & _ & _ & _ & _ & _ & _ & Hpolls1).
  change (poll_group m1) with (poll_group m) in Hpolls1.
  assert (Hm1' : mqs w1 !! p = Some m1) by (rewrite Hmqs1; exact Hm1).
  assert (Hg1' : grouped w1 m1).
  { intros g Hpg. change (poll_group m1) with (poll_group m) in Hpg.
    rewrite Hpg in Hpolls1. destruct Hpolls1 as (ps & _ & ->).
    rewrite lookup_insert_eq. eexists. reflexivity. }
  destruct (mq_accept_spec w1 p m1 Hm1' Hg1')
    as (w2 & Hacc2 & Hmqs2 & _ & _ & _ & Hpolls2).
  change (poll_group m1) with (poll_group m) in Hpolls2.
  set (m2 := set_acc None m1) in *.
  assert (Hm2 : mqs w2 !! p = Some m2) by (rewrite Hmqs2; apply lookup_insert_eq).
  assert (Hg2 : grouped w2 m2).
  { intros g Hpg. change (poll_group m2) with (poll_group m) in Hpg.
    rewrite Hpg in Hpolls2. destruct Hpolls2 as (ps & _ & ->).
    rewrite lookup_insert_eq. eexists. reflexivity. }
  destruct (mq_accept_spec w2 p m2 Hm2 Hg2) as (w3 & Hacc3 & _).
  exists w1, w2, w3, m1, child. erewrite bind_Ret by exact Hupd.
  split; [reflexivity|]. split; [exact Hm1'|]. split; [reflexivity|].
  split.
  { unfold poll_events. change (state m1) with (state m). rewrite Hst.
    change (acc m1) with (Some (brk w)).
    rewrite (bool_decide_eq_true_2 (is_Some (Some (brk w)))) by eauto.
    reflexivity. }
  split.
  { rewrite Hmqs1. unfold w0. wsimpl. rewrite lookup_insert_ne by congruence.
    apply lookup_insert_eq. }
  split; [reflexivity|]. split; [reflexivity|]. split; [reflexivity|].
  split.
  { intros g Hpg. rewrite Hpg in Hpolls1. destruct Hpolls1 as (ps & _ & ->).
    eexists. split; [apply lookup_insert_eq|]. apply noted_acceptable.
    eexists. reflexivity. }
  split; [exact Hacc2|]. split; [|exact Hacc3].
  intros g Hpg. rewrite Hpg in Hpolls2. destruct Hpolls2 as (ps & _ & ->).
  eexists. split; [apply lookup_insert_eq|]. cbn [acceptable set_acceptable].
  intros Hx. apply elem_of_difference in Hx as [_ Hx]. apply Hx.
  apply elem_of_singleton. reflexivity.
Qed.

Lemma accept_hands_over_witness :
  exists w1 w2 w3 m1 child,
    handle_revents POLLIN 1 (Samples.listening [6; 7]) = Ret 0 w1
    /\ mqs w1 !! 1%positive = Some m1 /\ acc m1 = Some 11%positive
    /\ has_bit POLLIN (poll_events m1) = false
    /\ mqs w1 !! 11%positive = Some child
    /\ state child = MQ_SOCKET_CONNECTED /\ link child = 6
    /\ poll_group child = None
    /\ (forall g, Some 10%positive = Some g ->
          exists ps, polls w1 !! g = Some ps /\ 1%positive ∈ acceptable ps)
    /\ mq_accept 1 w1 = Ret (Some 11%positive) w2
    /\ (forall g, Some 10%positive = Some g ->
          exists ps, polls w2 !! g = Some ps /\ 1%positive ∉ acceptable ps)
    /\ mq_accept 1 w2 = Ret None w3.
Proof.
  apply (accept_hands_over (Samples.listening [6; 7]) POLLIN 1
           (Mq 5 MQ_SOCKET_SERVER None [] 0 None None None (Some 10%positive))
           (Sock [] [] [] 0 [6; 7]) 6 [7]).
  - reflexivity.
  - reflexivity.
  - reflexivity.
  - reflexivity.
  - reflexivity.
  - reflexivity.
  - reflexivity.
  - intros g Hg. injection Hg as <-. eexists. reflexivity.
Defined.

(** X5. Closing an endpoint leaves nothing of it behind: every message it
    holds is freed, its descriptor is closed, the endpoint itself is
    freed, and its poll group, if it has one, lists it no longer, in the
    member table or in a readiness set.  Nothing else changes. *)
Theorem close_releases (w : world) (p : positive) (m : mq) :
  mqs w !! p = Some m -> acc m = None -> owns w m -> grouped w m ->
  exists w', mq_close (Some p) w = Ret tt w'
    /\ mqs w' = delete p (mqs w)
    /\ msgs w' = release (held m) (msgs w)
    /\ (forall x, x ∈ held m -> msgs w' !! x = None)
    /\ socks w' = delete (link m) (socks w)
    /\ match poll_group m with
       | None => polls w' = polls w
       | Some g =>
           exists ps, polls w !! g = Some ps
             /\ polls w'
                = <[g := MqPoll (delete p (members ps)) (acceptable ps ∖ {[p]})
                                (readable ps ∖ {[p]}) (error ps ∖ {[p]})]> (polls w)
       end.
Proof.
  intros Hm Hacc (Hnd & Hlive & _) Hg.
  unfold mq_close, mq_close_with.
  erewrite bind_Ret by (apply (mq_die_spec w p 0 m Hm Hacc Hnd Hlive Hg)).
  erewrite bind_Ret
    by (apply get_mq_Ret; rewrite die_world_mqs; apply lookup_insert_eq).
  cbn beta iota. change (poll_group (set_err 0 (set_state MQ_SOCKET_ERROR m)))
    with (poll_group m).
  change (link (set_err 0 (set_state MQ_SOCKET_ERROR m))) with (link m).
  unfold die_world. destruct (poll_group m) as [g|] eqn:Hpg.
  - destruct (Hg g Hpg) as [ps Hps]. rewrite Hps. cbn zeta.
    unfold link_close, free_mq. mrun.
    eexists. split; [reflexivity|]. wsimpl.
    split; [apply delete_insert_eq|]. split; [reflexivity|].
    split; [intros x Hx; apply lookup_release_in, Hx|]. split; [reflexivity|].
    exists ps. split; [reflexivity|]. rewrite insert_insert_eq.
    unfold die_poll. rewrite bool_decide_eq_true_2 by reflexivity. reflexivity.
  - cbn zeta. unfold link_close, free_mq. mrun.
    eexists. split; [reflexivity|]. wsimpl.
    split; [apply delete_insert_eq|]. split; [reflexivity|].
    split; [intros x Hx; apply lookup_release_in, Hx|]. split; reflexivity.
Qed.

Lemma close_releases_witness :
  exists w', mq_close (Some 1%positive) Samples.message_waiting = Ret tt w'
    /\ mqs w' = delete 1%positive (mqs Samples.message_waiting)
    /\ msgs w' = release [2%positive] (msgs Samples.message_waiting)
    /\ (forall x, x ∈ [2%positive] -> msgs w' !! x = None)
    /\ socks w' = delete 3 (socks Samples.message_waiting)
    /\ exists ps, polls Samples.message_waiting !! 10%positive = Some ps
         /\ polls w'
            = <[10%positive :=
                  MqPoll (delete 1%positive (members ps))
                         (acceptable ps ∖ {[1%positive]})
                         (readable ps ∖ {[1%positive]})
                         (error ps ∖ {[1%positive]})]>
                (polls Samples.message_waiting).
Proof.
  apply (close_releases Samples.message_waiting 1
           (Mq 3 MQ_SOCKET_CONNECTED None [] 0 (Some 2%positive) None None
               (Some 10%positive))).
  - reflexivity.
  - reflexivity.
  - split; [|split].
    + apply (bool_decide_unpack _). reflexivity.
    + intros x Hx. apply elem_of_cons in Hx as [->|Hx]; [eexists; reflexivity|].
      apply elem_of_nil in Hx. destruct Hx.
    + reflexivity.
  - intros g Hg. injection Hg as <-. eexists. reflexivity.
Defined.

Lemma bind_Fault {A B : Type} (c : M A) (k : A -> M B) (w : world) :
  c w = Fault -> (c ≫= k) w = Fault.
Proof. intros H. unfold mbind, M_bind. rewrite H. reflexivity. Qed.

Lemma delete_all_dangling {B : Type} (x : positive) (l : list positive)
    (K : unit -> M B) (w : world) :
  msgs w !! x = None -> (delete_all (x :: l) ≫= K) w = Fault.
Proof.
  intros Hx. cbn [delete_all mq_msg_delete delete_msg].
  rewrite !bind_assoc_pt. unfold free_msg. rewrite bind_assoc_pt.
  unfold mbind at 1, M_bind at 1. unfold get_msg. rewrite Hx. reflexivity.
Qed.

(** X6. An endpoint that died holding a message cannot be closed.  [mq_die]
    frees the messages of the endpoint and keeps the pointers to them;
    [mq_close] begins with another [mq_die], which deletes the same
    messages again: the first of them is freed a second time. *)
Theorem close_after_death_frees_twice (w : world) (p : positive) (e : Z) (m : mq) :
  mqs w !! p = Some m -> acc m = None -> owns w m -> grouped w m ->
  held m <> [] ->
  exists w1 m1, mq_die p e w = Ret tt w1
    /\ mqs w1 !! p = Some m1 /\ held m1 = held m
    /\ (forall x, x ∈ held m1 -> msgs w1 !! x = None)
    /\ mq_close (Some p) w1 = Fault.
Proof.
  intros Hm Hacc (Hnd & Hlive & _) Hg Hne.
  exists (die_world p e m w), (set_err e (set_state MQ_SOCKET_ERROR m)).
  split; [exact (mq_die_spec w p e m Hm Hacc Hnd Hlive Hg)|].
  assert (Hm1 : mqs (die_world p e m w) !! p
                = Some (set_err e (set_state MQ_SOCKET_ERROR m)))
    by (rewrite die_world_mqs; apply lookup_insert_eq).
  split; [exact Hm1|]. split; [reflexivity|].
  assert (Hgone : forall x, x ∈ held m -> msgs (die_world p e m w) !! x = None)
    by (intros x Hx; rewrite die_world_msgs; apply lookup_release_in, Hx).
  split; [exact Hgone|].
  unfold mq_close, mq_close_with, mq_die. cbn [mq_die_rec].
  set (m1 := set_err e (set_state MQ_SOCKET_ERROR m)) in *.
  apply bind_Fault. cbn beta. mstep. cbn beta iota. mstep. cbn beta iota.
  change (acc (set_err 0 (set_state MQ_SOCKET_ERROR m1))) with (acc m).
  rewrite Hacc. cbn [mq_close_with]. mstep. cbn beta iota. mstep. cbn beta iota.
  rewrite die_deletes.
  change (held (set_err 0 (set_state MQ_SOCKET_ERROR m1))) with (held m).
  destruct (held m) as [|x l] eqn:Hh; [congruence|].
  apply delete_all_dangling. wsimpl. apply Hgone. apply elem_of_cons. left. reflexivity.
Qed.

Lemma close_after_death_frees_twice_witness :
  exists w1 m1, mq_die 1 104 Samples.busy_endpoint = Ret tt w1
    /\ mqs w1 !! 1%positive = Some m1
    /\ held m1 = [2; 3; 4; 5]%positive
    /\ (forall x, x ∈ held m1 -> msgs w1 !! x = None)
    /\ mq_close (Some 1%positive) w1 = Fault.
Proof.
  apply (close_after_death_frees_twice Samples.busy_endpoint 1 104
           (Mq 3 MQ_SOCKET_CONNECTED None [4; 5]%positive 0 None
               (Some 2%positive) (Some 3%positive) None)).
  - reflexivity.
  - reflexivity.
  - exact busy_endpoint_owns.
  - intros g Hg. discriminate Hg.
  - discriminate.
Defined.

Lemma mq_close_dangling (w : world) (p : positive) (m : mq) (x : positive)
    (l : list positive) :
  mqs w !! p = Some m -> acc m = None -> held m = x :: l -> msgs w !! x = None ->
  mq_close (Some p) w = Fault.
Proof.
  intros Hm Hacc Hh Hx.
  unfold mq_close, mq_close_with, mq_die. cbn [mq_die_rec].
  apply bind_Fault. cbn beta. mstep. cbn beta iota. mstep. cbn beta iota.
  change (acc (set_err 0 (set_state MQ_SOCKET_ERROR m))) with (acc m).
  rewrite Hacc. cbn [mq_close_with]. mstep. cbn beta iota. mstep. cbn beta iota.
  rewrite die_deletes.
  change (held (set_err 0 (set_state MQ_SOCKET_ERROR m))) with (held m).
  rewrite Hh. apply delete_all_dangling. wsimpl. exact Hx.
Qed.

(** X7. A connection that the peer closed cannot be closed on this side.
    The receive path allocates the message it is about to read before
    it reads; the zero-byte read kills the endpoint, [mq_die] frees that
    message and keeps [recv_buf]; [mq_close] then frees it again. *)
Theorem peer_close_then_close_faults (w w1 : world) (revents : Z) (p : positive)
    (m0 m : mq) :
  mqs w !! p = Some m0 -> state m0 = MQ_SOCKET_CONNECTED ->
  has_bit POLLIN revents = true ->
  send_phase revents p w = Ret 0 w1 ->
  mqs w1 !! p = Some m -> acc m = None ->
  reads_next w1 m -> peer_closed w1 m -> owns w1 m -> grouped w1 m ->
  exists w', handle_revents revents p w = Ret (-1) w'
    /\ mq_close (Some p) w' = Fault.
Proof.
  intros Hm0 Hst Hin Hsend Hm Hacc Hrd Hclosed Hown Hg.
  pose proof (flush_recv_eof w1 p m Hm Hrd Hclosed) as Hrecv.
  destruct (ensure_recv_buf_facts w1 p m Hm Hown Hg)
    as (Hm2 & Hnd & Hlive & Hg2 & _ & _ & Hacc2 & _ & _).
  cbn zeta in *.
  destruct (recv_failure_kills w w1 _ revents p m0 _ Hm0 Hst Hin Hsend Hrecv Hm2
              (eq_trans Hacc2 Hacc) Hnd Hlive Hg2)
    as (w' & m' & Hrun & Hmqs & -> & Hmsgs & _).
  exists w'. split; [exact Hrun|].
  set (m2 := with_recv_buf m w1) in *.
  assert (Hh : exists x l, held m2 = x :: l).
  { unfold m2, with_recv_buf, held. destruct (recv_buf m) as [rp|] eqn:Hrb.
    - rewrite Hrb. destruct (send_buf m); cbn; eauto.
    - cbn [send_buf recv_buf set_recv_buf]. destruct (send_buf m); cbn; eauto. }
  destruct Hh as (x & l & Hh).
  apply (mq_close_dangling w' p (set_err (errno (ensure_recv_buf p m w1))
                                   (set_state MQ_SOCKET_ERROR m2)) x l).
  - rewrite Hmqs. apply lookup_insert_eq.
  - exact (eq_trans Hacc2 Hacc).
  - exact Hh.
  - rewrite Hmsgs. apply lookup_release_in. rewrite Hh. apply elem_of_cons. left.
    reflexivity.
Qed.

Lemma peer_close_then_close_faults_witness :
  exists w', handle_revents POLLIN 1 (Samples.closed_by_peer 0) = Ret (-1) w'
    /\ mq_close (Some 1%positive) w' = Fault.
Proof.
  apply (peer_close_then_close_faults
           (Samples.closed_by_peer 0) (Samples.closed_by_peer 0) POLLIN 1
           (Samples.connected_ep (Some 10%positive))
           (Samples.connected_ep (Some 10%positive))).
  - reflexivity.
  - reflexivity.
  - reflexivity.
  - reflexivity.
  - reflexivity.
  - reflexivity.
  - split; [reflexivity|exact I].
  - exists (Sock [RxEof] [] [] 0 []), []. split; reflexivity.
  - split; [apply NoDup_nil_2|]. split; [|reflexivity].
    intros x Hx. apply elem_of_nil in Hx. destruct Hx.
  - intros g Hg. injection Hg as <-. eexists. reflexivity.
Defined.

Lemma mq_recv_spec (w : world) (p : positive) (m : mq) :
  mqs w !! p = Some m -> grouped w m ->
  exists w', mq_recv p w = Ret (recv m) w'
    /\ mqs w' = <[p := set_recv None m]> (mqs w)
    /\ msgs w' = msgs w /\ socks w' = socks w /\ brk w' = brk w
    /\ match poll_group m with
       | None => polls w' = polls w
       | Some g =>
           exists ps, polls w !! g = Some ps
             /\ polls w' = <[g := set_readable (readable ps ∖ {[p]}) ps]> (polls w)
       end.
Proof.
  intros Hm Hg. unfold mq_recv. mrun.
  destruct (poll_group m) as [g|] eqn:Hpg.
  - destruct (Hg g Hpg) as [ps Hps]. mrun.
    eexists. split; [reflexivity|]. wsimpl. repeat (split; [reflexivity|]).
    exists ps. split; [exact Hps|reflexivity].
  - mrun. eexists. split; [reflexivity|]. repeat split.
Qed.

(** X8. [mq_recv] hands a received message over, once.  The message stays
    allocated and is the caller's: the endpoint forgets it, leaves the
    readable set of its poll group, and a second [mq_recv] returns
    null.  A connected endpoint that did not ask to read while the
    message waited asks again. *)
Theorem recv_hands_over (w : world) (p rp : positive) (m : mq) :
  mqs w !! p = Some m -> recv m = Some rp -> state m = MQ_SOCKET_CONNECTED ->
  acc m = None -> grouped w m ->
  exists w1 w2 m1,
    mq_recv p w = Ret (Some rp) w1
    /\ mqs w1 !! p = Some m1 /\ recv m1 = None /\ msgs w1 = msgs w
    /\ has_bit POLLIN (poll_events m) = false
    /\ has_bit POLLIN (poll_events m1) = true
    /\ (forall g, poll_group m = Some g ->
          exists ps, polls w1 !! g = Some ps /\ p ∉ readable ps)
    /\ mq_recv p w1 = Ret None w2.
Proof.
  intros Hm Hr Hst Hacc Hg.
  destruct (mq_recv_spec w p m Hm Hg) as (w1 & Hrecv & Hmqs & Hmsgs & _ & _ & Hpolls).
  set (m1 := set_recv None m) in *.
  assert (Hm1 : mqs w1 !! p = Some m1) by (rewrite Hmqs; apply lookup_insert_eq).
  assert (Hg1 : grouped w1 m1).
  { intros g Hpg. change (poll_group m1) with (poll_group m) in Hpg.
    rewrite Hpg in Hpolls. destruct Hpolls as (ps & _ & ->).
    rewrite lookup_insert_eq. eexists. reflexivity. }
  destruct (mq_recv_spec w1 p m1 Hm1 Hg1) as (w2 & Hrecv2 & _).
  exists w1, w2, m1. rewrite Hr in Hrecv.
  split; [exact Hrecv|]. split; [exact Hm1|]. split; [reflexivity|].
  split; [exact Hmsgs|]. split.
  { unfold poll_events. rewrite Hst, Hr, Hacc.
    rewrite (bool_decide_eq_true_2 (is_Some (Some rp))) by eauto.
    rewrite andb_false_r.
    destruct (bool_decide (is_Some (send_buf m)) || negb (length (send m) =? 0)%nat);
      reflexivity. }
  split.
  { unfold poll_events. change (state m1) with (state m).
    change (acc m1) with (acc m). change (recv m1) with (@None positive).
    rewrite Hst, Hacc.
    rewrite !(bool_decide_eq_false_2 (is_Some None)) by (intros [? ?]; discriminate).
    cbn [negb andb].
    destruct (bool_decide (is_Some (send_buf m1)) || negb (length (send m1) =? 0)%nat);
      reflexivity. }
  split; [|exact Hrecv2].
  intros g Hpg. rewrite Hpg in Hpolls. destruct Hpolls as (ps & _ & ->).
  eexists. split; [apply lookup_insert_eq|]. cbn [readable set_readable].
  intros Hx. apply elem_of_difference in Hx as [_ Hx]. apply Hx.
  apply elem_of_singleton. reflexivity.
Qed.

Lemma recv_hands_over_witness :
  exists w1 w2 m1,
    mq_recv 1 Samples.message_waiting = Ret (Some 2%positive) w1
    /\ mqs w1 !! 1%positive = Some m1 /\ recv m1 = None
    /\ msgs w1 = msgs Samples.message_waiting
    /\ has_bit POLLIN
         (poll_events (Mq 3 MQ_SOCKET_CONNECTED None [] 0 (Some 2%positive) None
                          None (Some 10%positive))) = false
    /\ has_bit POLLIN (poll_events m1) = true
    /\ (forall g, Some 10%positive = Some g ->
          exists ps, polls w1 !! g = Some ps /\ 1%positive ∉ readable ps)
    /\ mq_recv 1 w1 = Ret None w2.
Proof.
  apply (recv_hands_over Samples.message_waiting 1 2
           (Mq 3 MQ_SOCKET_CONNECTED None [] 0 (Some 2%positive) None None
               (Some 10%positive))).
  - reflexivity.
  - reflexivity.
  - reflexivity.
  - reflexivity.
  - intros g Hg. injection Hg as <-. eexists. reflexivity.
Defined.
(** ** The send path, one turn of the loop at a time *)

Lemma sys_send_none w fd obj off n s :
  socks w !! fd = Some s -> tx s = [] ->
  sys_send fd obj off n w = Ret (-1) (set_errno EAGAIN w).
Proof. intros Hs Ht. unfold sys_send. rewrite Hs, Ht. reflexivity. Qed.

Lemma sys_send_err w fd obj off n s e t :
  socks w !! fd = Some s -> tx s = TxErr e :: t ->
  sys_send fd obj off n w
  = Ret (-1) (set_errno e (set_socks (<[fd := set_tx t s]> (socks w)) w)).
Proof. intros Hs Ht. unfold sys_send. rewrite Hs, Ht. reflexivity. Qed.

Lemma mem_read_inside (obj : list byte) (off n : Z) :
  0 <= off -> 0 <= n -> off + n <= Z.of_nat (length obj) ->
  mem_read obj off n = Some (take (Z.to_nat n) (drop (Z.to_nat off) obj)).
Proof.
  intros H1 H2 H3. unfold mem_read. rewrite bool_decide_eq_true_2 by lia. reflexivity.
Qed.

(** Taking the next message off the queue and writing its header. *)
Lemma flush_send_pop (f : nat) (w : world) (p sp : positive) (m : mq)
    (rest : list positive) (msg : mq_msg) :
  mqs w !! p = Some m -> send_buf m = None -> send m = sp :: rest ->
  msgs w !! sp = Some msg ->
  flush_send_loop (S f) p w
  = flush_send_loop (S f) p
      (set_msgs (<[sp := write_header (big_endian w) msg]> (msgs w))
         (set_mqs (<[p := set_send_buf (Some sp) (set_send rest m)]> (mqs w)) w)).
Proof.
  intros Hm Hsb Hq Hmsg. cbn [flush_send_loop].
  mstep. rewrite Hsb, Hq. rewrite bind_assoc_pt. mrun.
  symmetry. mstep. cbn [send_buf set_send_buf]. mrun. reflexivity.
Qed.

(** The queue is empty and no message is being sent. *)
Lemma flush_send_idle (f : nat) (w : world) (p : positive) (m : mq) :
  mqs w !! p = Some m -> send_buf m = None -> send m = [] ->
  flush_send_loop (S f) p w = Ret 0 w.
Proof.
  intros Hm Hsb Hq. cbn [flush_send_loop]. mstep. rewrite Hsb, Hq. mrun. reflexivity.
Qed.

(** A header that the kernel takes whole. *)
Lemma flush_send_header (f : nat) (w : world) (p sp : positive) (m : mq)
    (snd : mq_msg) (s : sock) (k : positive) (t : list tx_event) :
  mqs w !! p = Some m -> send_buf m = Some sp -> msgs w !! sp = Some snd ->
  len snd < PTRDIFF_MAX -> hdr_pos snd = 0 -> length (hdr snd) = 16%nat ->
  socks w !! link m = Some s -> tx s = TxAccept k :: t -> 16 <= Z.pos k ->
  flush_send_loop (S f) p w
  = flush_send_loop f p
      (set_msgs (<[sp := set_hdr_pos 16 snd]> (msgs w))
         (set_socks (<[link m := set_sent (sent s ++ hdr snd) (set_tx t s)]>
                       (socks w)) w)).
Proof.
  intros Hm Hsb Hsnd Hlen Hpos Hl Hs Htx Hk. cbn [flush_send_loop].
  mstep. rewrite Hsb. mrun. rewrite (bool_decide_eq_true_2 _ Hlen). mrun.
  rewrite Hpos. rewrite (bool_decide_eq_true_2 (0 < HDR_SIZE)) by reflexivity.
  erewrite bind_Ret.
  2:{ rewrite (sys_send_accept _ _ _ _ _ s k t Hs Htx).
      rewrite mem_read_inside by (unfold HDR_SIZE; lia). reflexivity. }
  cbn beta iota. mrun.
  replace (Z.min (Z.pos k) (HDR_SIZE - 0)) with 16 by (unfold HDR_SIZE; lia).
  mdecide. cbn [andb]. mrun.
  replace (take (Z.to_nat 16) (drop (Z.to_nat (HDR_SIZE * 0)) (hdr snd)))
    with (hdr snd).
  2:{ change (Z.to_nat (HDR_SIZE * 0)) with 0%nat. rewrite drop_0.
      rewrite take_ge; [reflexivity|]. rewrite Hl. reflexivity. }
  rewrite Hpos. reflexivity.
Qed.

(** A stretch of the payload: the kernel takes [c] bytes at [buf_pos]. *)
Lemma flush_send_payload (f : nat) (w : world) (p sp : positive) (m : mq)
    (snd : mq_msg) (s : sock) (k : positive) (t : list tx_event) :
  mqs w !! p = Some m -> send_buf m = Some sp -> msgs w !! sp = Some snd ->
  len snd < PTRDIFF_MAX -> HDR_SIZE <= hdr_pos snd ->
  0 <= buf_pos snd < len snd -> len snd <= Z.of_nat (length (buf snd)) ->
  socks w !! link m = Some s -> tx s = TxAccept k :: t ->
  let c := Z.min (Z.pos k) (len snd - buf_pos snd) in
  flush_send_loop (S f) p w
  = flush_send_loop f p
      (set_msgs (<[sp := set_buf_pos (buf_pos snd + c) snd]> (msgs w))
         (set_socks
            (<[link m := set_sent (sent s ++ take (Z.to_nat c)
                                     (drop (Z.to_nat (buf_pos snd)) (buf snd)))
                           (set_tx t s)]> (socks w)) w)).
Proof.
  intros Hm Hsb Hsnd Hlen Hpos Hbp Hbuf Hs Htx c. cbn [flush_send_loop].
  mstep. rewrite Hsb. mrun. rewrite (bool_decide_eq_true_2 _ Hlen). mrun.
  rewrite (bool_decide_eq_false_2 (hdr_pos snd < HDR_SIZE)) by lia.
  rewrite (bool_decide_eq_true_2 (buf_pos snd < len snd)) by lia.
  erewrite bind_Ret.
  2:{ rewrite (sys_send_accept _ _ _ _ _ s k t Hs Htx). fold c.
      rewrite mem_read_inside by (unfold c; lia). reflexivity. }
  cbn beta iota. mrun.
  rewrite (bool_decide_eq_false_2 (c = -1)) by (unfold c; lia).
  rewrite (bool_decide_eq_false_2 (c <= 0)) by (unfold c; lia).
  cbn [andb]. mrun. reflexivity.
Qed.

(** A message that is sent is deleted. *)
Lemma flush_send_done (f : nat) (w : world) (p sp : positive) (m : mq)
    (snd : mq_msg) :
  mqs w !! p = Some m -> send_buf m = Some sp -> msgs w !! sp = Some snd ->
  len snd < PTRDIFF_MAX -> HDR_SIZE <= hdr_pos snd -> len snd <= buf_pos snd ->
  flush_send_loop (S f) p w
  = flush_send_loop f p
      (set_mqs (<[p := set_send_buf None m]> (mqs w))
         (set_msgs (delete sp (msgs w)) w)).
Proof.
  intros Hm Hsb Hsnd Hlen Hpos Hbp. cbn [flush_send_loop].
  mstep. rewrite Hsb. mrun. rewrite (bool_decide_eq_true_2 _ Hlen). mrun.
  rewrite (bool_decide_eq_false_2 (hdr_pos snd < HDR_SIZE)) by lia.
  rewrite (bool_decide_eq_false_2 (buf_pos snd < len snd)) by lia.
  cbn [delete_msg]. mrun. reflexivity.
Qed.

(** What the next [send] call of the loop is given, when there is
    one: the endpoint is sending the message [sp], header or payload. *)
Lemma flush_send_call (f : nat) (w : world) (p sp : positive) (m : mq)
    (snd : mq_msg) :
  mqs w !! p = Some m -> send_buf m = Some sp -> msgs w !! sp = Some snd ->
  len snd < PTRDIFF_MAX ->
  hdr_pos snd < HDR_SIZE \/ buf_pos snd < len snd ->
  exists obj off n,
    flush_send_loop (S f) p w
    = (s ← sys_send (link m) obj off n;
       e ← gets errno;
       if bool_decide (s = -1) && errno_is_temporary e then mret 0
       else if bool_decide (s <= 0) then mret (-1)
       else (if bool_decide (hdr_pos snd < HDR_SIZE)
             then upd_msg sp (fun x => set_hdr_pos (hdr_pos x + s) x)
             else upd_msg sp (fun x => set_buf_pos (buf_pos x + s) x));;
            flush_send_loop f p) w.
Proof.
  intros Hm Hsb Hsnd Hlen Hnext. cbn [flush_send_loop].
  mstep. rewrite Hsb. mrun. rewrite (bool_decide_eq_true_2 _ Hlen). mrun.
  destruct (bool_decide (hdr_pos snd < HDR_SIZE)) eqn:E.
  - do 3 eexists. reflexivity.
  - apply bool_decide_eq_false_1 in E.
    rewrite (bool_decide_eq_true_2 (buf_pos snd < len snd)) by lia.
    do 3 eexists. reflexivity.
Qed.

(** The kernel takes nothing now: the loop ends, the message stays. *)
Lemma flush_send_blocked (f : nat) (w : world) (p sp : positive) (m : mq)
    (snd : mq_msg) (s : sock) :
  mqs w !! p = Some m -> send_buf m = Some sp -> msgs w !! sp = Some snd ->
  len snd < PTRDIFF_MAX ->
  hdr_pos snd < HDR_SIZE \/ buf_pos snd < len snd ->
  socks w !! link m = Some s -> tx s = [] ->
  flush_send_loop (S f) p w = Ret 0 (set_errno EAGAIN w).
Proof.
  intros Hm Hsb Hsnd Hlen Hnext Hs Htx.
  destruct (flush_send_call f w p sp m snd Hm Hsb Hsnd Hlen Hnext)
    as (obj & off & n & ->).
  erewrite bind_Ret by (eapply sys_send_none; eassumption).
  mrun. reflexivity.
Qed.

(** The [send] call fails: the loop ends with 0 for a temporary
    failure and with -1 for any other, [errno] telling which. *)
Lemma flush_send_failed (f : nat) (w : world) (p sp : positive) (m : mq)
    (snd : mq_msg) (s : sock) (e : Z) (t : list tx_event) :
  mqs w !! p = Some m -> send_buf m = Some sp -> msgs w !! sp = Some snd ->
  len snd < PTRDIFF_MAX ->
  hdr_pos snd < HDR_SIZE \/ buf_pos snd < len snd ->
  socks w !! link m = Some s -> tx s = TxErr e :: t ->
  flush_send_loop (S f) p w
  = Ret (if errno_is_temporary e then 0 else -1)
        (set_errno e (set_socks (<[link m := set_tx t s]> (socks w)) w)).
Proof.
  intros Hm Hsb Hsnd Hlen Hnext Hs Htx.
  destruct (flush_send_call f w p sp m snd Hm Hsb Hsnd Hlen Hnext)
    as (obj & off & n & ->).
  erewrite bind_Ret by (eapply sys_send_err; eassumption).
  mrun. rewrite bool_decide_eq_true_2 by reflexivity. cbn [andb errno set_errno].
  destruct (errno_is_temporary e); [reflexivity|].
  rewrite bool_decide_eq_true_2 by lia. reflexivity.
Qed.

Lemma set_send_nil_eq (m : mq) (l : list positive) (o : option positive) :
  send_buf m = None ->
  set_send [] (set_send_buf None (set_send_buf o (set_send l m))) = set_send [] m.
Proof. destruct m. cbn. intros ->. reflexivity. Qed.

Lemma set_send_nil_id (m : mq) : send m = [] -> set_send [] m = m.
Proof. destruct m. cbn. intros ->. reflexivity. Qed.

(** One message from the head of the queue to its deletion, over a
    transport that takes what it is offered. *)
Lemma flush_send_one (p : positive) (n : Z) (f : nat) (w : world) (m : mq)
    (sp : positive) (rest : list positive) (msg : mq_msg) (s : sock) :
  16 <= n ->
  mqs w !! p = Some m -> send_buf m = None -> send m = sp :: rest ->
  msgs w !! sp = Some msg -> unsent msg -> len msg <= n ->
  socks w !! link m = Some s -> Forall (roomy n) (tx s) ->
  (2 <= length (tx s))%nat -> (3 <= f)%nat ->
  exists f' w' s' j,
    flush_send_loop f p w = flush_send_loop f' p w'
    /\ (f <= f' + 3)%nat
    /\ mqs w' = <[p := set_send_buf None (set_send rest m)]> (mqs w)
    /\ msgs w' = delete sp (msgs w)
    /\ socks w' = <[link m := s']> (socks w)
    /\ sent s' = sent s ++ wire (big_endian w) msg
    /\ tx s' = drop j (tx s) /\ (j <= 2)%nat /\ rx s' = rx s
    /\ polls w' = polls w /\ errno w' = errno w /\ brk w' = brk w
    /\ big_endian w' = big_endian w.
Proof.
  intros Hn Hm Hsb Hq Hmsg (Hhp & Hbp & Hhl & Hlen & Hbuf) Hle Hs Hroom Htx Hf.
  destruct f as [|f]; [lia|].
  rewrite (flush_send_pop f w p sp m rest msg Hm Hsb Hq Hmsg).
  set (be := big_endian w).
  set (hmsg := write_header be msg).
  set (m1 := set_send_buf (Some sp) (set_send rest m)).
  set (w1 := set_msgs _ _).
  destruct (tx s) as [|e1 t1] eqn:Etx; [cbn in Htx; lia|].
  apply Forall_cons in Hroom as [(k1 & -> & Hk1) Hroom].
  assert (Hm1 : mqs w1 !! p = Some m1) by apply lookup_insert_eq.
  assert (Hh1 : msgs w1 !! sp = Some hmsg) by apply lookup_insert_eq.
  rewrite (flush_send_header f w1 p sp m1 hmsg s k1 t1 Hm1 eq_refl Hh1);
    [|exact (proj2 Hlen)|exact Hhp|apply length_write_header; exact Hhl
     |exact Hs|exact Etx|lia].
  set (s1 := set_sent _ _).
  set (snd1 := set_hdr_pos 16 hmsg).
  set (w2 := set_msgs _ _).
  assert (Hm2 : mqs w2 !! p = Some m1) by apply lookup_insert_eq.
  assert (Hs2 : msgs w2 !! sp = Some snd1) by apply lookup_insert_eq.
  assert (Hk2 : socks w2 !! link m1 = Some s1) by apply lookup_insert_eq.
  destruct f as [|f]; [lia|].
  destruct (decide (len msg = 0)) as [E0|E0].
  - rewrite (flush_send_done f w2 p sp m1 snd1 Hm2 eq_refl Hs2);
      [|exact (proj2 Hlen)|unfold HDR_SIZE; cbn; lia|cbn; lia].
    eexists f, _, s1, 1%nat. split; [reflexivity|]. split; [lia|].
    subst w2 w1. wsimpl. split; [rewrite insert_insert_eq; reflexivity|].
    split; [rewrite !delete_insert_eq; reflexivity|].
    split; [reflexivity|]. split.
    { unfold s1, wire. cbn [sent set_sent]. fold be. fold hmsg.
      rewrite E0. cbn [Z.to_nat take]. rewrite app_nil_r. reflexivity. }
    split; [reflexivity|]. split; [lia|]. repeat split.
  - destruct t1 as [|e2 t2]; [cbn in Htx; lia|].
    apply Forall_cons in Hroom as [(k2 & -> & Hk2') Hroom].
    pose proof (flush_send_payload f w2 p sp m1 snd1 s1 k2 t2 Hm2 eq_refl Hs2) as Hp.
    cbn zeta in Hp. rewrite Hp; clear Hp;
      [|exact (proj2 Hlen)|unfold HDR_SIZE; cbn; lia|cbn; lia|exact Hbuf
       |exact Hk2|reflexivity].
    change (buf_pos snd1) with (buf_pos msg). change (len snd1) with (len msg).
    change (buf snd1) with (buf msg). rewrite Hbp.
    replace (Z.min (Z.pos k2) (len msg - 0)) with (len msg) by lia.
    set (s2 := set_sent _ _).
    set (snd2 := set_buf_pos _ _).
    set (w3 := set_msgs _ _).
    assert (Hm3 : mqs w3 !! p = Some m1) by apply lookup_insert_eq.
    assert (Hs3 : msgs w3 !! sp = Some snd2) by apply lookup_insert_eq.
    destruct f as [|f]; [lia|].
    rewrite (flush_send_done f w3 p sp m1 snd2 Hm3 eq_refl Hs3);
      [|exact (proj2 Hlen)|unfold HDR_SIZE; cbn; lia|cbn; lia].
    eexists f, _, s2, 2%nat. split; [reflexivity|]. split; [lia|].
    subst w3 w2 w1. wsimpl. split; [rewrite insert_insert_eq; reflexivity|].
    split; [rewrite !delete_insert_eq; reflexivity|].
    split; [rewrite insert_insert_eq; reflexivity|]. split.
    { unfold s2, s1, wire. cbn [sent set_sent set_tx]. fold be. fold hmsg.
      change (Z.to_nat 0) with 0%nat. rewrite drop_0, <- app_assoc. reflexivity. }
    split; [reflexivity|]. split; [lia|]. repeat split.
Qed.

Lemma queued_kept (h h' : gmap positive mq_msg) (l : list positive)
    (ms : list mq_msg) :
  (forall x, x ∈ l -> h' !! x = h !! x) ->
  Forall2 (fun sp msg => h !! sp = Some msg) l ms ->
  Forall2 (fun sp msg => h' !! sp = Some msg) l ms.
Proof.
  intros Hk Hall. induction Hall as [|x y l ms Hxy Hall IH]; constructor.
  - rewrite Hk by (apply elem_of_cons; left; reflexivity). exact Hxy.
  - apply IH. intros z Hz. apply Hk. apply elem_of_cons. right. exact Hz.
Qed.

(** The queue goes out in order over a transport that takes what it is
    offered: every message as its header and its payload. *)
Lemma flush_send_queue (p : positive) (n : Z) :
  16 <= n ->
  forall (ptrs : list positive) (ms : list mq_msg) (f : nat) (w : world) (m : mq)
         (s : sock),
    mqs w !! p = Some m -> send_buf m = None -> send m = ptrs ->
    Forall2 (fun sp msg => msgs w !! sp = Some msg) ptrs ms ->
    NoDup ptrs -> Forall unsent ms -> Forall (fun msg => len msg <= n) ms ->
    socks w !! link m = Some s -> Forall (roomy n) (tx s) ->
    (2 * length ptrs <= length (tx s))%nat -> (3 * length ptrs < f)%nat ->
    exists w' s',
      flush_send_loop f p w = Ret 0 w'
      /\ mqs w' = <[p := set_send [] m]> (mqs w)
      /\ msgs w' = release ptrs (msgs w)
      /\ socks w' = <[link m := s']> (socks w)
      /\ sent s' = sent s ++ concat (wire (big_endian w) <$> ms)
      /\ rx s' = rx s
      /\ polls w' = polls w /\ errno w' = errno w /\ brk w' = brk w.
Proof.
  intros Hn ptrs. induction ptrs as [|sp rest IH];
    intros ms f w m s Hm Hsb Hq Hall Hnd Hun Hle Hs Hroom Htx Hf.
  - apply Forall2_nil_inv_l in Hall as ->.
    destruct f as [|f]; [lia|].
    exists w, s. rewrite (flush_send_idle f w p m Hm Hsb Hq).
    split; [reflexivity|].
    split; [rewrite (set_send_nil_id m Hq); symmetry; apply insert_id, Hm|].
    split; [reflexivity|]. split; [symmetry; apply insert_id, Hs|].
    split; [cbn; rewrite app_nil_r; reflexivity|]. repeat split.
  - apply Forall2_cons_inv_l in Hall as (msg & ms' & Hmsg & Hall & ->).
    apply NoDup_cons in Hnd as [Hnotin Hnd].
    apply Forall_cons in Hun as [Hun1 Hun].
    apply Forall_cons in Hle as [Hle1 Hle].
    cbn [length] in Htx, Hf.
    destruct (flush_send_one p n f w m sp rest msg s Hn Hm Hsb Hq Hmsg Hun1 Hle1 Hs
                Hroom ltac:(lia) ltac:(lia))
      as (f' & w1 & s1 & j & -> & Hf' & Hmqs1 & Hmsgs1 & Hsocks1 & Hsent1 & Htx1 & Hj
          & Hrx1 & Hpolls1 & Herrno1 & Hbrk1 & Hbe1).
    set (m1 := set_send_buf None (set_send rest m)) in *.
    assert (Hm1 : mqs w1 !! p = Some m1) by (rewrite Hmqs1; apply lookup_insert_eq).
    assert (Hall1 : Forall2 (fun sp msg => msgs w1 !! sp = Some msg) rest ms').
    { apply (queued_kept (msgs w)); [|exact Hall]. intros x Hx.
      rewrite Hmsgs1. apply lookup_delete_ne. intros ->. contradiction. }
    assert (Hs1 : socks w1 !! link m1 = Some s1)
      by (rewrite Hsocks1; apply lookup_insert_eq).
    destruct (IH ms' f' w1 m1 s1 Hm1 eq_refl eq_refl Hall1 Hnd Hun Hle Hs1)
      as (w' & s' & Hrun & Hmqs & Hmsgs & Hsocks & Hsent & Hrx & Hpolls & Herrno & Hbrk).
    { rewrite Htx1. apply Forall_drop. exact Hroom. }
    { rewrite Htx1, length_drop. lia. }
    { lia. }
    exists w', s'. split; [exact Hrun|].
    split.
    { rewrite Hmqs, Hmqs1, insert_insert_eq. f_equal.
      unfold m1. destruct m. cbn in *. subst. reflexivity. }
    split; [rewrite Hmsgs, Hmsgs1; reflexivity|].
    split; [rewrite Hsocks, Hsocks1; apply insert_insert_eq|].
    split.
    { rewrite Hsent, Hsent1, Hbe1. cbn [fmap list_fmap concat].
      rewrite <- app_assoc. reflexivity. }
    split; [congruence|]. split; [congruence|]. split; congruence.
Qed.

Lemma send_all_spec (p : positive) (l : list positive) (w : world) (m : mq) :
  mqs w !! p = Some m ->
  exists w', send_all p l w = Ret tt w'
    /\ mqs w' = <[p := set_send (send m ++ l) m]> (mqs w)
    /\ msgs w' = msgs w /\ polls w' = polls w /\ socks w' = socks w
    /\ errno w' = errno w /\ brk w' = brk w /\ big_endian w' = big_endian w.
Proof.
  revert w m. induction l as [|x l IH]; intros w m Hm; cbn [send_all].
  - exists w. split; [reflexivity|]. rewrite app_nil_r.
    split; [|repeat split]. symmetry. destruct m. apply insert_id, Hm.
  - unfold mq_send. mstep.
    set (w1 := set_mqs _ _).
    destruct (IH w1 (set_send (send m ++ [x]) m)) as (w' & Hrun & Hmqs & Hrest).
    { apply lookup_insert_eq. }
    exists w'. split; [exact Hrun|]. split; [|exact Hrest].
    rewrite Hmqs. subst w1. wsimpl. rewrite insert_insert_eq.
    cbn [send set_send]. rewrite <- app_assoc. reflexivity.
Qed.

(** X9. Messages go out in the order of the [mq_send] calls, each as its
    sixteen header bytes followed by its payload, when the kernel takes
    what it is offered; a message that is sent is freed, and the queue
    is empty at the end. *)
Theorem queue_goes_out_in_order (w : world) (revents : Z) (p : positive) (m : mq)
    (s : sock) (ptrs : list positive) (ms : list mq_msg) (n : Z) :
  mqs w !! p = Some m -> state m = MQ_SOCKET_CONNECTED ->
  send_buf m = None -> send m = [] -> grouped w m ->
  Forall2 (fun sp msg => msgs w !! sp = Some msg) ptrs ms ->
  NoDup ptrs -> Forall unsent ms ->
  16 <= n -> Forall (fun msg => len msg <= n) ms ->
  socks w !! link m = Some s -> Forall (roomy n) (tx s) ->
  (2 * length ptrs <= length (tx s))%nat ->
  has_bit POLLOUT revents = true -> has_bit POLLIN revents = false ->
  exists w' m' s',
    (send_all p ptrs;; handle_revents revents p) w = Ret 0 w'
    /\ mqs w' !! p = Some m' /\ state m' = MQ_SOCKET_CONNECTED
    /\ send m' = [] /\ send_buf m' = None
    /\ (forall x, x ∈ ptrs -> msgs w' !! x = None)
    /\ socks w' !! link m = Some s'
    /\ sent s' = sent s ++ concat (wire (big_endian w) <$> ms).
Proof.
  intros Hm Hst Hsb Hq Hg Hall Hnd Hun Hn Hle Hs Hroom Htx Hout Hin.
  destruct (send_all_spec p ptrs w m Hm)
    as (w1 & Hsend & Hmqs1 & Hmsgs1 & Hpolls1 & Hsocks1 & Herrno1 & Hbrk1 & Hbe1).
  rewrite Hq in Hmqs1. cbn [app] in Hmqs1.
  set (m1 := set_send ptrs m) in *.
  assert (Hm1 : mqs w1 !! p = Some m1) by (rewrite Hmqs1; apply lookup_insert_eq).
  erewrite bind_Ret by exact Hsend.
  rewrite (handle_revents_connected w1 revents p m1 Hm1 Hst).
  assert (Hs1 : socks w1 !! link m1 = Some s) by (rewrite Hsocks1; exact Hs).
  assert (Hall1 : Forall2 (fun sp msg => msgs w1 !! sp = Some msg) ptrs ms)
    by (rewrite Hmsgs1; exact Hall).
  destruct (flush_send_queue p n Hn ptrs ms (flush_send_fuel p w1) w1 m1 s
              Hm1 Hsb eq_refl Hall1 Hnd Hun Hle Hs1 Hroom Htx)
    as (w2 & s2 & Hrun & Hmqs2 & Hmsgs2 & Hsocks2 & Hsent2 & _ & Hpolls2 & _).
  { unfold flush_send_fuel. rewrite Hm1, Hs1. cbn [send set_send m1]. lia. }
  unfold send_phase. rewrite Hout. unfold flush_send at 1.
  erewrite bind_Ret by exact Hrun.
  mdecide. rewrite Hin. mrun. mdecide. mrun.
  set (m2 := set_send [] m1) in *.
  assert (Hm2 : mqs w2 !! p = Some m2) by (rewrite Hmqs2; apply lookup_insert_eq).
  assert (Hg2 : grouped w2 m2).
  { intros g Hpg. rewrite Hpolls2, Hpolls1. apply Hg. exact Hpg. }
  destruct (update_poll_group_spec w2 p m2 Hm2 Hg2)
    as (w3 & Hupd & Hmqs3 & Hmsgs3 & _ & Hsocks3 & _).
  erewrite bind_Ret by exact Hupd.
  exists w3, m2, s2. split; [reflexivity|].
  split; [rewrite Hmqs3; exact Hm2|]. split; [exact Hst|].
  split; [reflexivity|]. split; [exact Hsb|]. split.
  { intros x Hx. rewrite Hmsgs3, Hmsgs2. apply lookup_release_in, Hx. }
  split; [rewrite Hsocks3, Hsocks2; apply lookup_insert_eq|].
  rewrite Hsent2, Hbe1. reflexivity.
Qed.

Lemma queue_goes_out_in_order_witness :
  exists w' m' s',
    (send_all 1 [2; 3]%positive;; handle_revents POLLOUT 1) Samples.two_to_send
    = Ret 0 w'
    /\ mqs w' !! 1%positive = Some m' /\ state m' = MQ_SOCKET_CONNECTED
    /\ send m' = [] /\ send_buf m' = None
    /\ (forall x, x ∈ [2; 3]%positive -> msgs w' !! x = None)
    /\ socks w' !! 3 = Some s'
    /\ sent s' = [] ++ concat (wire false <$> [Samples.hello_msg; Samples.hi_msg]).
Proof.
  apply (queue_goes_out_in_order Samples.two_to_send POLLOUT 1
           (Samples.connected_ep None)
           (Sock [] (replicate 4 (TxAccept 64)) [] 0 [])
           [2; 3]%positive [Samples.hello_msg; Samples.hi_msg] 64).
  - reflexivity.
  - reflexivity.
  - reflexivity.
  - reflexivity.
  - intros g Hg. discriminate Hg.
  - repeat constructor.
  - apply (bool_decide_unpack _). reflexivity.
  - repeat constructor; cbn; unfold PTRDIFF_MAX; lia.
  - lia.
  - repeat constructor; cbn; lia.
  - reflexivity.
  - repeat constructor; eexists; (split; [reflexivity|lia]).
  - cbn. lia.
  - reflexivity.
  - reflexivity.
Defined.
(** ** A [send] call that fails *)

Lemma held_pop (m : mq) (sp : positive) (rest : list positive) :
  send_buf m = None -> send m = sp :: rest ->
  held (set_send_buf (Some sp) (set_send rest m)) ≡ₚ held m.
Proof.
  intros Hsb Hq. unfold held. cbn [send_buf recv_buf recv send set_send_buf set_send].
  rewrite Hsb, Hq. cbn [option_list option_rect app].
  rewrite !app_assoc. apply Permutation_middle.
Qed.

Lemma die_world_polls (w : world) (p : positive) (e : Z) (m : mq) :
  grouped w m ->
  match poll_group m with
  | None => polls (die_world p e m w) = polls w
  | Some g =>
      exists ps, polls w !! g = Some ps
        /\ polls (die_world p e m w) = <[g := die_poll p e ps]> (polls w)
  end.
Proof.
  intros Hg. unfold die_world. destruct (poll_group m) as [g|] eqn:Hpg; [|reflexivity].
  destruct (Hg g Hpg) as [ps Hps]. rewrite Hps. exists ps. split; reflexivity.
Qed.

(** The flush of a queue whose first message the kernel refuses. *)
Lemma flush_send_refused (w : world) (p sp : positive) (m : mq)
    (rest : list positive) (msg : mq_msg) (s : sock) (e : Z) (t : list tx_event) :
  mqs w !! p = Some m -> send_buf m = None -> send m = sp :: rest ->
  msgs w !! sp = Some msg -> len msg < PTRDIFF_MAX -> hdr_pos msg < HDR_SIZE ->
  socks w !! link m = Some s -> tx s = TxErr e :: t ->
  flush_send p w
  = Ret (if errno_is_temporary e then 0 else -1)
      (set_errno e
         (set_socks (<[link m := set_tx t s]> (socks w))
            (set_msgs (<[sp := write_header (big_endian w) msg]> (msgs w))
               (set_mqs (<[p := set_send_buf (Some sp) (set_send rest m)]> (mqs w))
                  w)))).
Proof.
  intros Hm Hsb Hq Hmsg Hlen Hpos Hs Htx.
  destruct (flush_send_unfold p w m Hm) as [f ->].
  rewrite (flush_send_pop (S f) w p sp m rest msg Hm Hsb Hq Hmsg).
  apply (flush_send_failed (S f)
           (set_msgs (<[sp := write_header (big_endian w) msg]> (msgs w))
              (set_mqs (<[p := set_send_buf (Some sp) (set_send rest m)]> (mqs w)) w))
           p sp (set_send_buf (Some sp) (set_send rest m))
           (write_header (big_endian w) msg) s e t).
  - apply lookup_insert_eq.
  - reflexivity.
  - apply lookup_insert_eq.
  - exact Hlen.
  - left. exact Hpos.
  - exact Hs.
  - exact Htx.
Qed.

(** The wake-up in which a [send] fails for good. *)
Lemma send_failure_fatal (w : world) (revents : Z) (p sp : positive) (m : mq)
    (rest : list positive) (msg : mq_msg) (s : sock) (e : Z) (t : list tx_event) :
  mqs w !! p = Some m -> state m = MQ_SOCKET_CONNECTED -> acc m = None ->
  send_buf m = None -> send m = sp :: rest ->
  msgs w !! sp = Some msg -> len msg < PTRDIFF_MAX -> hdr_pos msg < HDR_SIZE ->
  owns w m -> grouped w m ->
  has_bit POLLOUT revents = true ->
  socks w !! link m = Some s -> tx s = TxErr e :: t ->
  errno_is_temporary e = false ->
  let m1 := set_send_buf (Some sp) (set_send rest m) in
  let m2 := set_err e (set_state MQ_SOCKET_ERROR m1) in
  exists w',
    handle_revents revents p w = Ret (-1) w'
    /\ mqs w' = <[p := m2]> (mqs w)
    /\ msgs w' = release (held m1) (<[sp := write_header (big_endian w) msg]> (msgs w))
    /\ errno w' = e
    /\ match poll_group m with
       | None => polls w' = polls w
       | Some g =>
           exists ps, polls w !! g = Some ps
             /\ polls w' = <[g := noted p m2 (die_poll p e ps)]> (polls w)
       end.
Proof.
  intros Hm Hst Hacc Hsb Hq Hmsg Hlen Hpos (Hnd & Hlive & _) Hg Hout Hs Htx Et m1 m2.
  rewrite (handle_revents_connected w revents p m Hm Hst).
  unfold send_phase. rewrite Hout.
  erewrite bind_Ret
    by (apply (flush_send_refused w p sp m rest msg s e t); assumption).
  rewrite Et. cbn beta. mdecide. mrun.
  fold m1. cbn [errno set_errno].
  match goal with |- context [(mq_die p e ≫= _) ?W] => set (wf := W) end.
  assert (Hm1 : mqs wf !! p = Some m1) by apply lookup_insert_eq.
  assert (Hg1 : grouped wf m1) by exact Hg.
  pose proof (held_pop m sp rest Hsb Hq) as Hperm. fold m1 in Hperm.
  assert (Hnd1 : NoDup (held m1)) by (rewrite Hperm; exact Hnd).
  assert (Hlive1 : forall x, x ∈ held m1 -> is_Some (msgs wf !! x)).
  { intros x Hx. rewrite Hperm in Hx.
    unfold wf. wsimpl. apply lookup_insert_is_Some'. right. apply Hlive, Hx. }
  erewrite bind_Ret
    by (apply (mq_die_spec wf p e m1 Hm1 Hacc Hnd1 Hlive1 Hg1)).
  mrun.
  set (wd := die_world p e m1 wf).
  assert (Hm2 : mqs wd !! p = Some m2)
    by (unfold wd; rewrite die_world_mqs; apply lookup_insert_eq).
  destruct (update_poll_group_spec wd p m2 Hm2 (die_world_grouped p e m1 wf Hg1))
    as (w' & Hupd & Hmqs & Hmsgs & Herrno & _ & _ & _ & _ & Hpolls).
  erewrite bind_Ret by exact Hupd.
  exists w'. split; [reflexivity|].
  split.
  { rewrite Hmqs. unfold wd. rewrite die_world_mqs. unfold wf. wsimpl.
    apply insert_insert_eq. }
  split; [rewrite Hmsgs; unfold wd; rewrite die_world_msgs; reflexivity|].
  split; [rewrite Herrno; unfold wd; rewrite die_world_errno; reflexivity|].
  change (poll_group m2) with (poll_group m) in Hpolls.
  pose proof (die_world_polls wf p e m1 Hg1) as Hdp.
  change (poll_group m1) with (poll_group m) in Hdp. fold wd in Hdp.
  destruct (poll_group m) as [g|]; [|rewrite Hpolls, Hdp; reflexivity].
  destruct Hdp as (ps & Hps & Hdp). destruct Hpolls as (ps' & Hps' & ->).
  rewrite Hdp, lookup_insert_eq in Hps'. injection Hps' as <-.
  exists ps. split; [exact Hps|]. rewrite Hdp. apply insert_insert_eq.
Qed.

(** X10. The outcome of a failed [send].  A temporary failure ([EAGAIN],
    [EINTR] and the like) is no failure: the wake-up returns 0, the
    endpoint stays connected and the message stays where it is, its
    header written and nothing of it sent.  Any other failure kills the
    endpoint: the wake-up returns -1, the endpoint is in state ERROR
    with the [errno] of the [send] latched, it is in the error set of
    its poll group, and every message it held is freed. *)
Theorem send_failure_outcome (w : world) (revents : Z) (p sp : positive) (m : mq)
    (rest : list positive) (msg : mq_msg) (s : sock) (e : Z) (t : list tx_event) :
  mqs w !! p = Some m -> state m = MQ_SOCKET_CONNECTED -> acc m = None ->
  send_buf m = None -> send m = sp :: rest ->
  msgs w !! sp = Some msg -> len msg < PTRDIFF_MAX -> hdr_pos msg < HDR_SIZE ->
  owns w m -> grouped w m ->
  has_bit POLLOUT revents = true -> has_bit POLLIN revents = false ->
  socks w !! link m = Some s -> tx s = TxErr e :: t ->
  exists w' m',
    handle_revents revents p w
    = Ret (if errno_is_temporary e then 0 else -1) w'
    /\ mqs w' !! p = Some m' /\ errno w' = e
    /\ (errno_is_temporary e = true ->
          state m' = MQ_SOCKET_CONNECTED /\ send_buf m' = Some sp /\ send m' = rest
          /\ msgs w' = <[sp := write_header (big_endian w) msg]> (msgs w)
          /\ mq_geterror p w' = Ret 0 w')
    /\ (errno_is_temporary e = false ->
          state m' = MQ_SOCKET_ERROR /\ err m' = e
          /\ mq_geterror p w' = Ret e w'
          /\ (forall x, x ∈ held m -> msgs w' !! x = None)
          /\ (forall g, poll_group m = Some g ->
                exists ps, polls w' !! g = Some ps /\ p ∈ error ps)).
Proof.
  intros Hm Hst Hacc Hsb Hq Hmsg Hlen Hpos Hown Hg Hout Hin Hs Htx.
  destruct (errno_is_temporary e) eqn:Et.
  - rewrite (handle_revents_connected w revents p m Hm Hst).
    unfold send_phase. rewrite Hout.
    erewrite bind_Ret
      by (apply (flush_send_refused w p sp m rest msg s e t); assumption).
    rewrite Et. cbn beta. mdecide. rewrite Hin. mrun. mdecide. mrun.
    set (m1 := set_send_buf (Some sp) (set_send rest m)).
    match goal with |- context [(update_poll_group p ≫= _) ?W] => set (wf := W) end.
    assert (Hm1 : mqs wf !! p = Some m1) by apply lookup_insert_eq.
    assert (Hg1 : grouped wf m1) by exact Hg.
    destruct (update_poll_group_spec wf p m1 Hm1 Hg1)
      as (w' & Hupd & Hmqs & Hmsgs & Herrno & _).
    erewrite bind_Ret by exact Hupd.
    exists w', m1. split; [reflexivity|]. split; [rewrite Hmqs; exact Hm1|].
    split; [rewrite Herrno; reflexivity|]. split; [|intros; discriminate].
    intros _. split; [exact Hst|]. split; [reflexivity|]. split; [reflexivity|].
    split; [rewrite Hmsgs; reflexivity|].
    unfold mq_geterror.
    erewrite bind_Ret by (apply get_mq_Ret; rewrite Hmqs; exact Hm1).
    change (state m1) with (state m). rewrite Hst.
    rewrite bool_decide_eq_true_2 by discriminate. reflexivity.
  - destruct (send_failure_fatal w revents p sp m rest msg s e t Hm Hst Hacc Hsb Hq
                Hmsg Hlen Hpos Hown Hg Hout Hs Htx Et)
      as (w' & Hrun & Hmqs & Hmsgs & Herrno & Hpolls).
    cbn zeta in *.
    set (m1 := set_send_buf (Some sp) (set_send rest m)) in *.
    set (m2 := set_err e (set_state MQ_SOCKET_ERROR m1)) in *.
    assert (Hm2 : mqs w' !! p = Some m2) by (rewrite Hmqs; apply lookup_insert_eq).
    exists w', m2. split; [exact Hrun|]. split; [exact Hm2|]. split; [exact Herrno|].
    split; [intros; discriminate|]. intros _.
    split; [reflexivity|]. split; [reflexivity|]. split.
    { rewrite (mq_geterror_error w' p m2 Hm2); reflexivity. }
    split.
    { intros x Hx. rewrite Hmsgs. apply lookup_release_in.
      unfold m1. rewrite (held_pop m sp rest Hsb Hq). exact Hx. }
    intros g Hpg. rewrite Hpg in Hpolls. destruct Hpolls as (ps & _ & ->).
    eexists. split; [apply lookup_insert_eq|]. apply noted_error. reflexivity.
Qed.

Lemma send_failure_outcome_witness :
  exists w' m',
    handle_revents POLLOUT 1 (Samples.sender [TxErr 32]) = Ret (-1) w'
    /\ mqs w' !! 1%positive = Some m' /\ errno w' = 32
    /\ (false = true ->
          state m' = MQ_SOCKET_CONNECTED /\ send_buf m' = Some 2%positive
          /\ send m' = []
          /\ msgs w' = <[2%positive := write_header false Samples.hello_msg]>
                         (msgs (Samples.sender [TxErr 32]))
          /\ mq_geterror 1 w' = Ret 0 w')
    /\ (false = false ->
          state m' = MQ_SOCKET_ERROR /\ err m' = 32
          /\ mq_geterror 1 w' = Ret 32 w'
          /\ (forall x, x ∈ [2%positive] -> msgs w' !! x = None)
          /\ (forall g, @None positive = Some g ->
                exists ps, polls w' !! g = Some ps /\ 1%positive ∈ error ps)).
Proof.
  apply (send_failure_outcome (Samples.sender [TxErr 32]) POLLOUT 1 2
           (Mq 3 MQ_SOCKET_CONNECTED None [2%positive] 0 None None None None)
           [] Samples.hello_msg (Sock [] [TxErr 32] [] 0 []) 32 []).
  - reflexivity.
  - reflexivity.
  - reflexivity.
  - reflexivity.
  - reflexivity.
  - reflexivity.
  - cbn. unfold PTRDIFF_MAX. lia.
  - cbn. unfold HDR_SIZE. lia.
  - split; [|split].
    + apply (bool_decide_unpack _). reflexivity.
    + intros x Hx. apply elem_of_cons in Hx as [->|Hx]; [eexists; reflexivity|].
      apply elem_of_nil in Hx. destruct Hx.
    + reflexivity.
  - intros g Hg. discriminate Hg.
  - reflexivity.
  - reflexivity.
  - reflexivity.
  - reflexivity.
Defined.

Lemma noted_readable p m ps : is_Some (recv m) -> p ∈ readable (noted p m ps).
Proof.
  intros Hr. unfold noted. rewrite (bool_decide_eq_true_2 _ Hr).
  destruct (bool_decide (state m = MQ_SOCKET_ERROR));
    destruct (bool_decide (is_Some (acc m)));
    cbn [readable set_readable set_acceptable set_error];
    apply elem_of_union_l, elem_of_singleton; reflexivity.
Qed.


(** ** The receive path, one turn of the loop at a time *)

Lemma length_rx_bytes (l : list rx_event) : (length (rx_bytes l) <= rx_weight l)%nat.
Proof.
  induction l as [|[b bs| |e] t IH]; cbn [rx_bytes rx_weight length]; try lia.
  rewrite length_app. lia.
Qed.

(** What a [recv] call of at least one byte takes off the stream. *)
Lemma rx_bytes_recv (n : nat) (b : byte) (bs : list byte) (t : list rx_event) :
  (0 < n)%nat ->
  let got := take n (b :: bs) in
  let left := match drop n (b :: bs) with
              | [] => t
              | b' :: bs' => RxData b' bs' :: t
              end in
  got = take (length got) (rx_bytes (RxData b bs :: t))
  /\ rx_bytes left = drop (length got) (rx_bytes (RxData b bs :: t))
  /\ (0 < length got)%nat /\ (length got <= n)%nat.
Proof.
  intros Hn got left. cbn [rx_bytes].
  change (b :: bs ++ rx_bytes t) with ((b :: bs) ++ rx_bytes t).
  assert (Hgl : (length got <= length (b :: bs))%nat)
    by (unfold got; rewrite length_take; lia).
  split; [|split; [|split]].
  - rewrite take_app_le by exact Hgl. unfold got. rewrite length_take.
    destruct (decide (n <= length (b :: bs))%nat) as [Hle|Hgt].
    + rewrite Nat.min_l by lia. reflexivity.
    + rewrite Nat.min_r by lia. rewrite !take_ge by lia. reflexivity.
  - unfold left, got. rewrite length_take.
    destruct (decide (n < length (b :: bs))%nat) as [Hlt|Hge].
    + rewrite Nat.min_l by lia. rewrite drop_app_le by lia.
      destruct (drop n (b :: bs)) as [|b' bs'] eqn:Ed.
      * apply (f_equal length) in Ed. rewrite length_drop in Ed.
        cbn [length] in *. lia.
      * reflexivity.
    + rewrite Nat.min_r by lia. rewrite drop_ge by lia.
      rewrite drop_app_length. reflexivity.
  - unfold got. rewrite length_take. cbn [length]. lia.
  - unfold got. rewrite length_take. lia.
Qed.

(** A received message waits: the loop does not run. *)
Lemma flush_recv_ready (f : nat) (w : world) (p : positive) (m : mq) :
  mqs w !! p = Some m -> is_Some (recv m) -> flush_recv_loop (S f) p w = Ret 0 w.
Proof.
  intros Hm Hr. cbn [flush_recv_loop]. mstep.
  rewrite (bool_decide_eq_true_2 _ Hr). reflexivity.
Qed.

(** The message to receive is allocated first. *)
Lemma flush_recv_alloc (f : nat) (w : world) (p : positive) (m : mq) :
  mqs w !! p = Some m -> recv m = None -> recv_buf m = None ->
  flush_recv_loop (S f) p w = flush_recv_loop (S f) p (ensure_recv_buf p m w).
Proof.
  intros Hm Hr Hrb. unfold ensure_recv_buf. rewrite Hrb.
  match goal with |- _ = ?R => remember R as rhs eqn:Erhs end.
  cbn [flush_recv_loop].
  mstep. rewrite Hr, Hrb. mdecide. unfold msg_create. mrun.
  subst rhs. symmetry.
  match goal with |- _ = ?R => remember R as rhs eqn:Erhs end.
  cbn [flush_recv_loop]. mstep. cbn [recv recv_buf set_recv_buf]. rewrite Hr.
  mdecide. mrun. subst rhs. reflexivity.
Qed.

(** A header that arrives whole. *)
Lemma flush_recv_header (f : nat) (w : world) (p rp : positive) (m : mq)
    (rcv : mq_msg) (s : sock) (b : byte) (bs : list byte) (t : list rx_event) :
  mqs w !! p = Some m -> recv m = None -> recv_buf m = Some rp ->
  msgs w !! rp = Some rcv -> len rcv < PTRDIFF_MAX -> hdr_pos rcv = 0 ->
  length (hdr rcv) = 16%nat ->
  socks w !! link m = Some s -> rx s = RxData b bs :: t ->
  (16 <= length (b :: bs))%nat ->
  flush_recv_loop (S f) p w
  = flush_recv_loop f p
      (set_msgs (<[rp := set_hdr_pos 16 (set_hdr (take 16 (b :: bs)) rcv)]> (msgs w))
         (set_socks
            (<[link m := set_rx (match drop 16 (b :: bs) with
                                 | [] => t
                                 | b' :: bs' => RxData b' bs' :: t
                                 end) s]> (socks w)) w)).
Proof.
  intros Hm Hr Hrb Hrcv Hlen Hpos Hl Hs Hrx Hb. cbn [flush_recv_loop].
  mstep. rewrite Hr, Hrb. mdecide. mrun. rewrite (bool_decide_eq_true_2 _ Hlen).
  mrun. rewrite Hpos. rewrite (bool_decide_eq_true_2 (0 < HDR_SIZE)) by reflexivity.
  erewrite bind_Ret by (eapply sys_recv_data; eassumption).
  cbn beta iota. mrun.
  change (Z.to_nat (HDR_SIZE - 0)) with 16%nat.
  assert (Hgot : length (take 16 (b :: bs)) = 16%nat)
    by (rewrite length_take; lia).
  rewrite Hgot.
  change (bool_decide (Z.of_nat 16 = -1)) with false.
  change (bool_decide (Z.of_nat 16 <= 0)) with false. cbn [andb].
  assert (Hw : mem_write (hdr rcv) (HDR_SIZE * 0) (take 16 (b :: bs))
               = Some (take 16 (b :: bs))).
  { unfold mem_write. rewrite Hgot, Hl. rewrite bool_decide_eq_true_2 by (cbn; lia).
    change (Z.to_nat (HDR_SIZE * 0)) with 0%nat. cbn [take Nat.add app].
    rewrite drop_ge by lia. rewrite app_nil_r. reflexivity. }
  rewrite Hw. mrun. rewrite Hpos. reflexivity.
Qed.

(** A complete header with the right magic is parsed: the type and the
    length are taken from it and the buffer is allocated, one byte
    longer than the payload, that byte set to 0. *)
Lemma flush_recv_parse (f : nat) (w : world) (p rp : positive) (m : mq)
    (rcv rcv' : mq_msg) :
  mqs w !! p = Some m -> recv m = None -> recv_buf m = Some rp ->
  msgs w !! rp = Some rcv -> len rcv < PTRDIFF_MAX -> HDR_SIZE <= hdr_pos rcv ->
  parsed_header rcv = false ->
  parse_header (big_endian w) rcv = Some rcv' -> 0 <= len rcv' < 2 ^ 64 - 1 ->
  flush_recv_loop (S f) p w
  = flush_recv_loop f p (set_msgs (<[rp := rcv']> (msgs w)) w).
Proof.
  intros Hm Hr Hrb Hrcv Hlen Hpos Hph Hparse Hl. cbn [flush_recv_loop].
  mstep. rewrite Hr, Hrb. mdecide. mrun. rewrite (bool_decide_eq_true_2 _ Hlen).
  mrun. rewrite (bool_decide_eq_false_2 (hdr_pos rcv < HDR_SIZE)) by lia.
  rewrite Hph. cbn [negb]. mrun. rewrite Hparse.
  assert (Hbuf : buf rcv' = replicate (Z.to_nat (len rcv' + 1)) x00
                 /\ set_buf (buf rcv') rcv' = rcv').
  { unfold parse_header in Hparse.
    destruct (bool_decide (hdr_magic (hdr rcv) = HDR_MAGIC)); [|discriminate].
    injection Hparse as <-. cbn [buf len set_buf]. split; [|reflexivity].
    rewrite Z.mod_small; [reflexivity|].
    cbn [len] in Hl. lia. }
  destruct Hbuf as [Hbuf Hid].
  assert (Hw : mem_write (buf rcv') (len rcv') [x00] = Some (buf rcv')).
  { rewrite Hbuf. unfold mem_write. rewrite length_replicate.
    rewrite bool_decide_eq_true_2 by (cbn [length]; lia). f_equal.
    rewrite take_replicate, drop_replicate. cbn [length].
    replace (Z.to_nat (len rcv') `min` Z.to_nat (len rcv' + 1))%nat
      with (Z.to_nat (len rcv')) by lia.
    replace (Z.to_nat (len rcv' + 1) - (Z.to_nat (len rcv') + 1))%nat with 0%nat by lia.
    replace (Z.to_nat (len rcv' + 1)) with (Z.to_nat (len rcv') + 1)%nat by lia.
    rewrite replicate_add. reflexivity. }
  rewrite Hw. mrun. rewrite Hid. reflexivity.
Qed.

(** A stretch of the payload: the bytes the kernel has are stored at
    [buf_pos]. *)
Lemma flush_recv_payload (f : nat) (w : world) (p rp : positive) (m : mq)
    (rcv : mq_msg) (s : sock) (b : byte) (bs : list byte) (t : list rx_event) :
  mqs w !! p = Some m -> recv m = None -> recv_buf m = Some rp ->
  msgs w !! rp = Some rcv -> len rcv < PTRDIFF_MAX -> HDR_SIZE <= hdr_pos rcv ->
  parsed_header rcv = true -> 0 <= buf_pos rcv < len rcv ->
  len rcv < Z.of_nat (length (buf rcv)) ->
  socks w !! link m = Some s -> rx s = RxData b bs :: t ->
  let n := Z.to_nat (len rcv - buf_pos rcv) in
  let got := take n (b :: bs) in
  flush_recv_loop (S f) p w
  = flush_recv_loop f p
      (set_msgs
         (<[rp := set_buf_pos (buf_pos rcv + Z.of_nat (length got))
                    (set_buf (take (Z.to_nat (buf_pos rcv)) (buf rcv) ++ got
                              ++ drop (Z.to_nat (buf_pos rcv) + length got) (buf rcv))
                       rcv)]> (msgs w))
         (set_socks
            (<[link m := set_rx (match drop n (b :: bs) with
                                 | [] => t
                                 | b' :: bs' => RxData b' bs' :: t
                                 end) s]> (socks w)) w)).
Proof.
  intros Hm Hr Hrb Hrcv Hlen Hpos Hph Hbp Hbuf Hs Hrx n got. cbn [flush_recv_loop].
  mstep. rewrite Hr, Hrb. mdecide. mrun. rewrite (bool_decide_eq_true_2 _ Hlen).
  mrun. rewrite (bool_decide_eq_false_2 (hdr_pos rcv < HDR_SIZE)) by lia.
  rewrite Hph. cbn [negb].
  rewrite (bool_decide_eq_true_2 (buf_pos rcv < len rcv)) by lia.
  erewrite bind_Ret by (eapply sys_recv_data; eassumption).
  cbn beta iota. mrun. fold n. fold got.
  assert (Hgot : (0 < length got <= n)%nat).
  { unfold got. rewrite length_take. cbn [length]. lia. }
  rewrite (bool_decide_eq_false_2 (Z.of_nat (length got) = -1)) by lia.
  rewrite (bool_decide_eq_false_2 (Z.of_nat (length got) <= 0)) by lia.
  cbn [andb]. unfold mem_write.
  rewrite bool_decide_eq_true_2 by lia. mrun. reflexivity.
Qed.

(** The message is complete: it moves from [recv_buf] to [recv]. *)
Lemma flush_recv_complete (f : nat) (w : world) (p rp : positive) (m : mq)
    (rcv : mq_msg) :
  mqs w !! p = Some m -> recv m = None -> recv_buf m = Some rp ->
  msgs w !! rp = Some rcv -> len rcv < PTRDIFF_MAX -> HDR_SIZE <= hdr_pos rcv ->
  parsed_header rcv = true -> len rcv <= buf_pos rcv ->
  flush_recv_loop (S f) p w
  = flush_recv_loop f p
      (set_mqs (<[p := set_recv_buf None (set_recv (Some rp) m)]> (mqs w)) w).
Proof.
  intros Hm Hr Hrb Hrcv Hlen Hpos Hph Hbp. cbn [flush_recv_loop].
  mstep. rewrite Hr, Hrb. mdecide. mrun. rewrite (bool_decide_eq_true_2 _ Hlen).
  mrun. rewrite (bool_decide_eq_false_2 (hdr_pos rcv < HDR_SIZE)) by lia.
  rewrite Hph. cbn [negb].
  rewrite (bool_decide_eq_false_2 (buf_pos rcv < len rcv)) by lia.
  mrun. rewrite Hrb. reflexivity.
Qed.

Lemma take_split {A : Type} (a b : nat) (l : list A) :
  take (a + b) l = take a l ++ take b (drop a l).
Proof.
  revert l. induction a as [|a IH]; intros l; [reflexivity|].
  destruct l as [|x l]; [rewrite drop_nil, !take_nil; reflexivity|].
  cbn [Nat.add take drop app]. rewrite IH. reflexivity.
Qed.

(** The payload arrives in any number of pieces. *)
Lemma flush_recv_payload_loop (p rp : positive) :
  forall (f : nat) (w : world) (m : mq) (rcv : mq_msg) (s : sock) (got : list byte),
    mqs w !! p = Some m -> recv m = None -> recv_buf m = Some rp ->
    msgs w !! rp = Some rcv ->
    0 <= len rcv < PTRDIFF_MAX -> HDR_SIZE <= hdr_pos rcv ->
    parsed_header rcv = true ->
    buf_pos rcv = Z.of_nat (length got) ->
    (length got <= Z.to_nat (len rcv))%nat ->
    buf rcv = got ++ replicate (Z.to_nat (len rcv) + 1 - length got) x00 ->
    socks w !! link m = Some s ->
    (Z.to_nat (len rcv) - length got <= length (rx_bytes (rx s)))%nat ->
    (Z.to_nat (len rcv) - length got + 2 <= f)%nat ->
    exists w' s',
      flush_recv_loop f p w = Ret 0 w'
      /\ mqs w' = <[p := set_recv_buf None (set_recv (Some rp) m)]> (mqs w)
      /\ msgs w'
         = <[rp := set_buf_pos (len rcv)
                     (set_buf (got ++ take (Z.to_nat (len rcv) - length got)
                                        (rx_bytes (rx s)) ++ [x00]) rcv)]> (msgs w)
      /\ socks w' = <[link m := s']> (socks w)
      /\ rx_bytes (rx s')
         = drop (Z.to_nat (len rcv) - length got) (rx_bytes (rx s))
      /\ polls w' = polls w /\ errno w' = errno w /\ brk w' = brk w.
Proof.
  induction f as [|f IH];
    intros w m rcv s got Hm Hr Hrb Hrcv Hlen Hpos Hph Hbp Hgl Hbuf Hs Hav Hf; [lia|].
  destruct (decide (length got = Z.to_nat (len rcv))) as [Hfull|Hpart].
  - rewrite (flush_recv_complete f w p rp m rcv Hm Hr Hrb Hrcv); [|lia..|exact Hph|lia].
    destruct f as [|f]; [lia|].
    rewrite (flush_recv_ready f _ p (set_recv_buf None (set_recv (Some rp) m)));
      [|apply lookup_insert_eq|eexists; reflexivity].
    eexists _, s. split; [reflexivity|]. wsimpl. split; [reflexivity|].
    split.
    { symmetry. apply insert_id. rewrite Hrcv. f_equal.
      rewrite Hfull, Nat.sub_diag, take_0. cbn [app].
      replace (Z.to_nat (len rcv) + 1 - length got)%nat with 1%nat in Hbuf by lia.
      destruct rcv. unfold set_buf_pos, set_buf. cbn in *. subst. f_equal. lia. }
    split; [symmetry; apply insert_id, Hs|].
    split; [rewrite Hfull, Nat.sub_diag; reflexivity|]. repeat split.
  - destruct (rx s) as [|[b bs| |e] t] eqn:Hrx;
      try (cbn [rx_bytes length] in Hav; lia).
    pose proof (flush_recv_payload f w p rp m rcv s b bs t Hm Hr Hrb Hrcv) as Hstep.
    cbn zeta in Hstep. rewrite Hstep; clear Hstep;
      [|lia|exact Hpos|exact Hph|lia| |exact Hs|exact Hrx].
    2:{ rewrite Hbuf, length_app, length_replicate. lia. }
    replace (Z.to_nat (len rcv - buf_pos rcv))
      with (Z.to_nat (len rcv) - length got)%nat by lia.
    set (n := (Z.to_nat (len rcv) - length got)%nat).
    destruct (rx_bytes_recv n b bs t ltac:(lia)) as (Hpre & Hleft & Hpos1 & Hle1).
    cbn zeta in *.
    set (piece := take n (b :: bs)) in *.
    set (left := match drop n (b :: bs) with [] => t | b' :: bs' => RxData b' bs' :: t end)
      in *.
    set (rcv1 := set_buf_pos _ _).
    set (s1 := set_rx left s).
    set (w1 := set_msgs _ _).
    assert (Hbuf1 : buf rcv1
                    = (got ++ piece)
                      ++ replicate (Z.to_nat (len rcv) + 1 - length (got ++ piece)) x00).
    { unfold rcv1. cbn [buf set_buf set_buf_pos]. rewrite Hbp, Nat2Z.id, Hbuf.
      rewrite take_app_length. rewrite drop_app_ge by lia.
      rewrite drop_replicate, length_app, <- app_assoc. do 3 f_equal. lia. }
    destruct (IH w1 m rcv1 s1 (got ++ piece)) as
      (w' & s' & Hrun & Hmqs & Hmsgs & Hsocks & Hrest & Hpolls & Herrno & Hbrk).
    + exact Hm.
    + exact Hr.
    + exact Hrb.
    + apply lookup_insert_eq.
    + exact Hlen.
    + exact Hpos.
    + exact Hph.
    + unfold rcv1. cbn [buf_pos set_buf_pos]. rewrite length_app. lia.
    + rewrite length_app. change (len rcv1) with (len rcv). lia.
    + exact Hbuf1.
    + apply lookup_insert_eq.
    + change (rx s1) with left. rewrite Hleft, length_drop, length_app.
      change (len rcv1) with (len rcv). lia.
    + rewrite length_app. change (len rcv1) with (len rcv). lia.
    + exists w', s'. split; [exact Hrun|]. split; [exact Hmqs|].
      change (len rcv1) with (len rcv) in *. change (rx s1) with left in *.
      rewrite length_app in Hmsgs, Hrest.
      split.
      { rewrite Hmsgs. unfold w1. wsimpl. rewrite insert_insert_eq. f_equal.
        unfold rcv1, set_buf_pos, set_buf.
        cbn [type len buf hdr parsed_header hdr_pos buf_pos].
        f_equal. rewrite Hleft, <- app_assoc. f_equal.
        replace n
          with (length piece + (Z.to_nat (len rcv) - (length got + length piece)))%nat
          by (unfold n; lia).
        rewrite take_split, <- Hpre, <- app_assoc. reflexivity. }
      split; [rewrite Hsocks; unfold w1; wsimpl; apply insert_insert_eq|].
      split.
      { rewrite Hrest, Hleft, drop_drop. f_equal. lia. }
      split; [exact Hpolls|]. split; [exact Herrno|exact Hbrk].
Qed.

Lemma parse_header_fields (be : bool) (rcv rcv' : mq_msg) :
  parse_header be rcv = Some rcv' ->
  hdr_pos rcv' = hdr_pos rcv /\ buf_pos rcv' = buf_pos rcv
  /\ parsed_header rcv' = true
  /\ buf rcv' = replicate (Z.to_nat ((len rcv' + 1) mod 2 ^ 64)) x00.
Proof.
  unfold parse_header. destruct (bool_decide _); [|discriminate].
  intros [= <-]. repeat split.
Qed.

Lemma wire_split (be : bool) (snd : mq_msg) (rest : list byte) :
  length (hdr snd) = 16%nat -> 0 <= len snd <= Z.of_nat (length (buf snd)) ->
  take 16 (wire be snd ++ rest) = hdr (write_header be snd)
  /\ drop 16 (wire be snd ++ rest)
     = take (Z.to_nat (len snd)) (buf snd) ++ rest
  /\ length (take (Z.to_nat (len snd)) (buf snd)) = Z.to_nat (len snd).
Proof.
  intros Hl Hlen. pose proof (length_write_header be snd Hl) as Hh.
  unfold wire. rewrite <- app_assoc. split; [|split].
  - rewrite take_app_le by lia. apply take_ge. lia.
  - rewrite drop_app_ge by lia. rewrite Hh. reflexivity.
  - rewrite length_take. lia.
Qed.

(** A message whose header arrives whole is received, in however many
    pieces its payload comes. *)
Lemma flush_recv_message (w : world) (p : positive) (m : mq) (s : sock)
    (b : byte) (bs : list byte) (t : list rx_event) (be' : bool) (snd : mq_msg)
    (rest : list byte) :
  mqs w !! p = Some m -> recv m = None -> recv_buf m = None ->
  socks w !! link m = Some s -> rx s = RxData b bs :: t ->
  (16 <= length (b :: bs))%nat ->
  length (hdr snd) = 16%nat -> 0 <= len snd < PTRDIFF_MAX ->
  len snd <= Z.of_nat (length (buf snd)) ->
  rx_bytes (rx s) = wire be' snd ++ rest ->
  exists w' s' msg,
    flush_recv p w = Ret 0 w'
    /\ mqs w' = <[p := set_recv_buf None (set_recv (Some (brk w)) m)]> (mqs w)
    /\ msgs w' = <[brk w := msg]> (msgs w)
    /\ type msg = type snd mod 256 /\ len msg = len snd
    /\ buf msg = take (Z.to_nat (len snd)) (buf snd) ++ [x00]
    /\ socks w' = <[link m := s']> (socks w)
    /\ rx_bytes (rx s') = rest
    /\ polls w' = polls w /\ errno w' = errno w.
Proof.
  intros Hm Hr Hrb Hs Hrx Hb Hl Hlen Hbuf Hstream.
  destruct (wire_split be' snd rest Hl ltac:(lia)) as (Hhead & Htail & Hpl).
  assert (Hfuel : (16 + Z.to_nat (len snd) + 4 <= flush_recv_fuel p w)%nat).
  { unfold flush_recv_fuel. rewrite Hm, Hs.
    pose proof (length_rx_bytes (rx s)) as Hw. rewrite Hstream in Hw.
    unfold wire in Hw. rewrite !length_app, Hpl in Hw.
    rewrite (length_write_header be' snd Hl) in Hw. lia. }
  unfold flush_recv. destruct (flush_recv_fuel p w) as [|f]; [lia|].
  rewrite (flush_recv_alloc f w p m Hm Hr Hrb).
  unfold ensure_recv_buf. rewrite Hrb.
  set (rp := brk w).
  set (m0 := set_recv_buf (Some rp) m).
  set (w0 := set_mqs _ _).
  assert (Hm0 : mqs w0 !! p = Some m0) by apply lookup_insert_eq.
  assert (Hz0 : msgs w0 !! rp = Some zero_msg) by apply lookup_insert_eq.
  rewrite (flush_recv_header f w0 p rp m0 zero_msg s b bs t Hm0 Hr eq_refl Hz0);
    [|reflexivity|reflexivity|reflexivity|exact Hs|exact Hrx|exact Hb].
  assert (Hhdr : take 16 (b :: bs) = hdr (write_header (big_endian w) snd)).
  { rewrite (write_header_any_order (big_endian w) be' snd Hl),
      <- Hhead, <- Hstream, Hrx.
    cbn [rx_bytes]. change (b :: bs ++ rx_bytes t) with ((b :: bs) ++ rx_bytes t).
    rewrite take_app_le by exact Hb. reflexivity. }
  set (rcv1 := set_hdr_pos 16 (set_hdr (take 16 (b :: bs)) zero_msg)).
  set (left := match drop 16 (b :: bs) with [] => t | b' :: bs' => RxData b' bs' :: t end).
  set (s1 := set_rx left s).
  set (w1 := set_msgs _ _).
  assert (Hm1 : mqs w1 !! p = Some m0) by apply lookup_insert_eq.
  assert (Hr1 : msgs w1 !! rp = Some rcv1) by apply lookup_insert_eq.
  destruct (parse_write_header (big_endian w) snd rcv1 Hl Hhdr)
    as (rcv' & Hparse & Hty & Hln).
  rewrite Z.mod_small in Hln by (unfold PTRDIFF_MAX in Hlen; lia).
  destruct (parse_header_fields _ _ _ Hparse) as (Hhp & Hbp & Hph & Hbuf').
  destruct f as [|f]; [lia|].
  rewrite (flush_recv_parse f w1 p rp m0 rcv1 rcv' Hm1 Hr eq_refl Hr1);
    [|reflexivity|unfold HDR_SIZE; cbn; lia|reflexivity|exact Hparse
     |unfold PTRDIFF_MAX in Hlen; lia].
  set (w2 := set_msgs _ _).
  rewrite Hln in Hbuf'.
  rewrite Z.mod_small in Hbuf' by (unfold PTRDIFF_MAX in Hlen; lia).
  destruct (rx_bytes_recv 16 b bs t ltac:(lia)) as (_ & Hleft & _ & _).
  cbn zeta in Hleft. fold left in Hleft.
  assert (Hgl : length (take 16 (b :: bs)) = 16%nat) by (rewrite length_take; lia).
  rewrite Hgl, <- Hrx, Hstream, Htail in Hleft.
  destruct (flush_recv_payload_loop p rp f w2 m0 rcv' s1 [])
    as (w' & s' & Hrun & Hmqs & Hmsgs & Hsocks & Hrest & Hpolls & Herrno & _).
  - apply lookup_insert_eq.
  - exact Hr.
  - reflexivity.
  - apply lookup_insert_eq.
  - rewrite Hln. exact Hlen.
  - rewrite Hhp. unfold HDR_SIZE. cbn. lia.
  - exact Hph.
  - rewrite Hbp. reflexivity.
  - cbn [length]. lia.
  - rewrite Hbuf', Hln. cbn [app length]. f_equal. lia.
  - apply lookup_insert_eq.
  - change (rx s1) with left. rewrite Hleft, length_app, Hpl, Hln. cbn [length]. lia.
  - rewrite Hln. cbn [length]. lia.
  - change (rx s1) with left in *. rewrite Hln in *. cbn [length app] in *.
    rewrite Nat.sub_0_r in *. rewrite Hleft in Hmsgs, Hrest.
    rewrite take_app_le, take_ge in Hmsgs by lia.
    rewrite drop_app_ge, Hpl, Nat.sub_diag in Hrest by lia.
    eexists w', s', _. split; [exact Hrun|].
    split.
    { rewrite Hmqs. unfold w2, w1, w0. wsimpl. rewrite insert_insert_eq.
      reflexivity. }
    split.
    { rewrite Hmsgs. unfold w2, w1, w0. wsimpl. rewrite !insert_insert_eq.
      reflexivity. }
    split; [exact Hty|]. split; [exact Hln|]. split; [reflexivity|].
    split; [rewrite Hsocks; unfold w2, w1, w0; wsimpl; apply insert_insert_eq|].
    split; [exact Hrest|]. split; [exact Hpolls|exact Herrno].
Qed.

(** X12. A message is received as it was sent, however its payload is cut
    into pieces, when its sixteen header bytes arrive in one read: the
    wake-up reads exactly the bytes of this message off the stream,
    lists the endpoint as readable, and [mq_recv] returns a message with
    the type and the length of the header and the payload bytes in
    order, followed by a zero byte.  The sender may be a host of the
    other byte order. *)
Theorem payload_reassembled (w : world) (revents : Z) (p : positive) (m : mq)
    (s : sock) (b : byte) (bs : list byte) (t : list rx_event) (be' : bool)
    (snd : mq_msg) (rest : list byte) :
  mqs w !! p = Some m -> state m = MQ_SOCKET_CONNECTED ->
  recv m = None -> recv_buf m = None -> grouped w m ->
  has_bit POLLIN revents = true -> has_bit POLLOUT revents = false ->
  socks w !! link m = Some s -> rx s = RxData b bs :: t ->
  (16 <= length (b :: bs))%nat ->
  length (hdr snd) = 16%nat -> 0 <= len snd < PTRDIFF_MAX ->
  len snd <= Z.of_nat (length (buf snd)) ->
  rx_bytes (rx s) = wire be' snd ++ rest ->
  exists w1 w2 s' msg,
    handle_revents revents p w = Ret 0 w1
    /\ (forall g, poll_group m = Some g ->
          exists ps, polls w1 !! g = Some ps /\ p ∈ readable ps)
    /\ mq_recv p w1 = Ret (Some (brk w)) w2
    /\ msgs w2 !! brk w = Some msg
    /\ type msg = type snd mod 256 /\ len msg = len snd
    /\ buf msg = take (Z.to_nat (len snd)) (buf snd) ++ [x00]
    /\ socks w2 !! link m = Some s' /\ rx_bytes (rx s') = rest.
Proof.
  intros Hm Hst Hr Hrb Hg Hin Hout Hs Hrx Hb Hl Hlen Hbuf Hstream.
  destruct (flush_recv_message w p m s b bs t be' snd rest Hm Hr Hrb Hs Hrx Hb Hl
              Hlen Hbuf Hstream)
    as (w0 & s' & msg & Hrun & Hmqs & Hmsgs & Hty & Hln & Hpay & Hsocks & Hrest
        & Hpolls & _).
  rewrite (handle_revents_connected w revents p m Hm Hst).
  unfold send_phase. rewrite Hout, Hin. mrun. mdecide.
  erewrite bind_Ret by (erewrite bind_Ret by exact Hrun; mdecide; reflexivity).
  cbn beta.
  set (m0 := set_recv_buf None (set_recv (Some (brk w)) m)) in *.
  assert (Hm0 : mqs w0 !! p = Some m0) by (rewrite Hmqs; apply lookup_insert_eq).
  assert (Hg0 : grouped w0 m0) by (intros g Hpg; rewrite Hpolls; apply Hg; exact Hpg).
  destruct (update_poll_group_spec w0 p m0 Hm0 Hg0)
    as (w1 & Hupd & Hmqs1 & Hmsgs1 & _ & Hsocks1 & _ & _ & _ & Hpolls1).
  change (poll_group m0) with (poll_group m) in Hpolls1.
  erewrite bind_Ret by exact Hupd.
  assert (Hm1 : mqs w1 !! p = Some m0) by (rewrite Hmqs1; exact Hm0).
  assert (Hg1 : grouped w1 m0).
  { intros g Hpg. change (poll_group m0) with (poll_group m) in Hpg.
    rewrite Hpg in Hpolls1. destruct Hpolls1 as (ps & _ & ->).
    rewrite lookup_insert_eq. eexists. reflexivity. }
  destruct (mq_recv_spec w1 p m0 Hm1 Hg1) as (w2 & Hrecv & _ & Hmsgs2 & Hsocks2 & _).
  exists w1, w2, s', msg. split; [reflexivity|]. split.
  { intros g Hpg. rewrite Hpg in Hpolls1. destruct Hpolls1 as (ps & _ & ->).
    eexists. split; [apply lookup_insert_eq|]. apply noted_readable.
    eexists. reflexivity. }
  split; [exact Hrecv|].
  split; [rewrite Hmsgs2, Hmsgs1, Hmsgs; apply lookup_insert_eq|].
  split; [exact Hty|]. split; [exact Hln|]. split; [exact Hpay|].
  split; [rewrite Hsocks2, Hsocks1, Hsocks; apply lookup_insert_eq|exact Hrest].
Qed.

Lemma payload_reassembled_witness :
  exists w1 w2 s' msg,
    handle_revents POLLIN 1
      (Samples.receiving (Samples.at_once (take 16 Samples.hello_wire)
                          ++ Samples.one_by_one (drop 16 Samples.hello_wire)))
    = Ret 0 w1
    /\ (forall g, Some 10%positive = Some g ->
          exists ps, polls w1 !! g = Some ps /\ 1%positive ∈ readable ps)
    /\ mq_recv 1 w1 = Ret (Some 11%positive) w2
    /\ msgs w2 !! 11%positive = Some msg
    /\ type msg = 0 mod 256 /\ len msg = 5
    /\ buf msg = [x68; x65; x6c; x6c; x6f] ++ [x00]
    /\ socks w2 !! 3 = Some s' /\ rx_bytes (rx s') = [].
Proof.
  apply (payload_reassembled
           (Samples.receiving (Samples.at_once (take 16 Samples.hello_wire)
                               ++ Samples.one_by_one (drop 16 Samples.hello_wire)))
           POLLIN 1 (Samples.connected_ep (Some 10%positive))
           (Sock (Samples.at_once (take 16 Samples.hello_wire)
                  ++ Samples.one_by_one (drop 16 Samples.hello_wire)) [] [] 0 [])
           x44 [x53; x6d; x73; x67; x00; x00; x00; x00; x00; x00; x00; x00; x00; x00; x05]
           (Samples.one_by_one (drop 16 Samples.hello_wire))
           true Samples.hello_msg []).
  - reflexivity.
  - reflexivity.
  - reflexivity.
  - reflexivity.
  - intros g Hg. injection Hg as <-. eexists. reflexivity.
  - reflexivity.
  - reflexivity.
  - reflexivity.
  - reflexivity.
  - cbn. lia.
  - reflexivity.
  - cbn. unfold PTRDIFF_MAX. lia.
  - cbn. lia.
  - reflexivity.
Defined.
(** ** A [recv] call that fails *)

Lemma sys_recv_err w fd n s e t :
  socks w !! fd = Some s -> rx s = RxErr e :: t ->
  sys_recv fd n w
  = Ret (-1, []) (set_errno e (set_socks (<[fd := set_rx t s]> (socks w)) w)).
Proof. intros Hs Hr. unfold sys_recv. rewrite Hs, Hr. reflexivity. Qed.

(** The flush of a stream whose next [recv] fails. *)
Lemma flush_recv_refused (w : world) (p : positive) (m : mq) (s : sock) (e : Z)
    (t : list rx_event) :
  mqs w !! p = Some m -> reads_next w m ->
  socks w !! link m = Some s -> rx s = RxErr e :: t ->
  flush_recv p w
  = Ret (if errno_is_temporary e then 0 else -1)
      (set_errno e
         (set_socks (<[link m := set_rx t s]> (socks w)) (ensure_recv_buf p m w))).
Proof.
  intros Hm [Hrecv Hbuf] Hs Hrx.
  destruct (flush_recv_unfold p w m Hm) as [f ->]. cbn [flush_recv_loop].
  mstep. rewrite Hrecv. rewrite bool_decide_eq_false_2 by (intros [? ?]; discriminate).
  unfold ensure_recv_buf.
  destruct (recv_buf m) as [rp|] eqn:Hrb.
  - destruct Hbuf as (rcv & Hrcv & Hlen & Hpos).
    erewrite bind_Ret by reflexivity. mstep.
    rewrite (bool_decide_eq_true_2 _ Hlen). erewrite bind_Ret by reflexivity.
    destruct (bool_decide (hdr_pos rcv < HDR_SIZE)) eqn:Hh.
    + erewrite bind_Ret by (eapply sys_recv_err; eassumption).
      cbn beta iota. mrun. cbn [errno set_errno].
      rewrite (bool_decide_eq_true_2 (-1 = -1)) by reflexivity. cbn [andb].
      destruct (errno_is_temporary e); [reflexivity|].
      rewrite (bool_decide_eq_true_2 (-1 <= 0)) by lia. reflexivity.
    + destruct Hpos as [Hp|[Hp Hb]];
        [apply bool_decide_eq_false_1 in Hh; contradiction|].
      rewrite Hp. cbn [negb]. rewrite (bool_decide_eq_true_2 _ Hb).
      erewrite bind_Ret by (eapply sys_recv_err; eassumption).
      cbn beta iota. mrun. cbn [errno set_errno].
      rewrite (bool_decide_eq_true_2 (-1 = -1)) by reflexivity. cbn [andb].
      destruct (errno_is_temporary e); [reflexivity|].
      rewrite (bool_decide_eq_true_2 (-1 <= 0)) by lia. reflexivity.
  - unfold msg_create. erewrite bind_Ret; cycle 1.
    { erewrite bind_Ret by reflexivity. mstep. reflexivity. }
    mstep. cbn [zero_msg len hdr_pos]. mdecide.
    erewrite bind_Ret by reflexivity.
    erewrite bind_Ret by (eapply sys_recv_err; wsimpl; eassumption).
    cbn beta iota. mrun. cbn [errno set_errno].
    destruct (errno_is_temporary e); [reflexivity|].
    mdecide. reflexivity.
Qed.

(** X13. The outcome of a failed [recv].  A temporary failure leaves the
    endpoint connected and the wake-up returns 0; any other kills the
    endpoint: the wake-up returns -1 and the endpoint is in state ERROR
    with the [errno] of the [recv] latched, listed in the error set of
    its poll group. *)
Theorem recv_failure_outcome (w : world) (revents : Z) (p : positive) (m : mq)
    (s : sock) (e : Z) (t : list rx_event) :
  mqs w !! p = Some m -> state m = MQ_SOCKET_CONNECTED -> acc m = None ->
  reads_next w m -> owns w m -> grouped w m ->
  has_bit POLLIN revents = true -> has_bit POLLOUT revents = false ->
  socks w !! link m = Some s -> rx s = RxErr e :: t ->
  exists w' m',
    handle_revents revents p w
    = Ret (if errno_is_temporary e then 0 else -1) w'
    /\ mqs w' !! p = Some m'
    /\ (errno_is_temporary e = true ->
          state m' = MQ_SOCKET_CONNECTED /\ recv m' = None
          /\ mq_geterror p w' = Ret 0 w')
    /\ (errno_is_temporary e = false ->
          state m' = MQ_SOCKET_ERROR /\ err m' = e
          /\ mq_geterror p w' = Ret e w'
          /\ (forall g, poll_group m = Some g ->
                exists ps, polls w' !! g = Some ps /\ p ∈ error ps)).
Proof.
  intros Hm Hst Hacc Hrd Hown Hg Hin Hout Hs Hrx.
  pose proof (flush_recv_refused w p m s e t Hm Hrd Hs Hrx) as Hflush.
  destruct (ensure_recv_buf_facts w p m Hm Hown Hg)
    as (Hm2 & Hnd & Hlive & Hg2 & _ & _ & Hacc2 & Hpg2 & Hrecv2).
  cbn zeta in *.
  set (m2 := with_recv_buf m w) in *.
  set (w2 := set_errno e _) in *.
  assert (Hm2' : mqs w2 !! p = Some m2) by exact Hm2.
  assert (Hsend : send_phase revents p w = Ret 0 w)
    by (unfold send_phase; rewrite Hout; reflexivity).
  destruct (errno_is_temporary e) eqn:Et.
  - rewrite (handle_revents_connected w revents p m Hm Hst).
    erewrite bind_Ret by exact Hsend. mdecide. rewrite Hin.
    erewrite bind_Ret by (erewrite bind_Ret by exact Hflush; mdecide; reflexivity).
    cbn beta.
    destruct (update_poll_group_spec w2 p m2 Hm2' Hg2)
      as (w' & Hupd & Hmqs & _ & Herrno & _).
    erewrite bind_Ret by exact Hupd.
    exists w', m2. split; [reflexivity|]. split; [rewrite Hmqs; exact Hm2'|].
    split; [|intros; discriminate].
    intros _.
    assert (Hst2 : state m2 = MQ_SOCKET_CONNECTED).
    { unfold m2, with_recv_buf. destruct (recv_buf m); exact Hst. }
    split; [exact Hst2|]. split; [rewrite Hrecv2; exact (proj1 Hrd)|].
    unfold mq_geterror.
    erewrite bind_Ret by (apply get_mq_Ret; rewrite Hmqs; exact Hm2').
    rewrite Hst2. rewrite bool_decide_eq_true_2 by discriminate. reflexivity.
  - destruct (recv_failure_kills w w w2 revents p m m2 Hm Hst Hin Hsend Hflush Hm2'
                (eq_trans Hacc2 Hacc) Hnd Hlive Hg2)
      as (w' & m' & Hrun & Hmqs & -> & _ & _ & Herr).
    exists w', (set_err (errno w2) (set_state MQ_SOCKET_ERROR m2)).
    assert (Hm' : mqs w' !! p = Some (set_err (errno w2) (set_state MQ_SOCKET_ERROR m2)))
      by (rewrite Hmqs; apply lookup_insert_eq).
    split; [exact Hrun|]. split; [exact Hm'|].
    split; [intros; discriminate|]. intros _.
    split; [reflexivity|]. split; [reflexivity|]. split.
    { rewrite (mq_geterror_error w' p _ Hm' eq_refl). reflexivity. }
    intros g Hpg. apply Herr. rewrite Hpg2. exact Hpg.
Qed.

Lemma recv_failure_outcome_witness :
  exists w' m',
    handle_revents POLLIN 1 (Samples.receiving [RxErr 104]) = Ret (-1) w'
    /\ mqs w' !! 1%positive = Some m'
    /\ (false = true ->
          state m' = MQ_SOCKET_CONNECTED /\ recv m' = None
          /\ mq_geterror 1 w' = Ret 0 w')
    /\ (false = false ->
          state m' = MQ_SOCKET_ERROR /\ err m' = 104
          /\ mq_geterror 1 w' = Ret 104 w'
          /\ (forall g, Some 10%positive = Some g ->
                exists ps, polls w' !! g = Some ps /\ 1%positive ∈ error ps)).
Proof.
  apply (recv_failure_outcome (Samples.receiving [RxErr 104]) POLLIN 1
           (Samples.connected_ep (Some 10%positive))
           (Sock [RxErr 104] [] [] 0 []) 104 []).
  - reflexivity.
  - reflexivity.
  - reflexivity.
  - split; [reflexivity|exact I].
  - split; [apply NoDup_nil_2|]. split; [|reflexivity].
    intros x Hx. apply elem_of_nil in Hx. destruct Hx.
  - intros g Hg. injection Hg as <-. eexists. reflexivity.
  - reflexivity.
  - reflexivity.
  - reflexivity.
  - reflexivity.
Defined.
(** ** Waiting on one endpoint *)

(** A wake-up that reports nothing does no input or output. *)
Lemma handle_revents_zero (w : world) (p : positive) (m : mq) :
  mqs w !! p = Some m ->
  handle_revents 0 p w = (update_poll_group p ≫= fun _ => mret 0) w.
Proof.
  intros Hm. unfold handle_revents. mstep.
  change (has_bit POLLOUT 0) with false. change (has_bit POLLIN 0) with false.
  destruct (state m); mrun; try mdecide; mrun; reflexivity.
Qed.

(** X14. What [mq_wait] does before it sleeps for the first time.  It runs
    [handle_revents] on an empty set of events, which does no input or
    output; then it returns 1 if a received message or an accepted
    connection is waiting in the endpoint, whatever the deadline and
    the state of the endpoint, and 0 if nothing is waiting and the
    deadline has passed.  In both cases no system call is made: sockets
    and clock are as they were. *)
Theorem wait_without_sleeping (w : world) (evs : list pevent) (p : positive)
    (stoptime : Z) (m : mq) :
  mqs w !! p = Some m -> grouped w m ->
  is_Some (recv m) \/ is_Some (acc m) \/ stoptime < now w ->
  exists w',
    mq_wait evs p stoptime w
    = Ret (if bool_decide (is_Some (recv m)) || bool_decide (is_Some (acc m))
           then 1 else 0) w'
    /\ mqs w' = mqs w /\ msgs w' = msgs w /\ socks w' = socks w /\ now w' = now w
    /\ errno w' = errno w.
Proof.
  intros Hm Hg Hcase.
  destruct (update_poll_group_spec w p m Hm Hg)
    as (w' & Hupd & Hmqs & Hmsgs & Herrno & Hsocks & _ & Hnow & _).
  exists w'. split; [|repeat split; assumption].
  unfold mq_wait. mstep.
  assert (Hturn : forall ev continue,
            mq_wait_turn ev continue p stoptime (Pollfd (link m) 0 0) w
            = Ret (if bool_decide (is_Some (recv m)) || bool_decide (is_Some (acc m))
                   then 1 else 0) w').
  { intros ev continue. unfold mq_wait_turn. mstep. cbn [revents].
    erewrite bind_Ret
      by (rewrite (handle_revents_zero w p m Hm); erewrite bind_Ret by exact Hupd;
          reflexivity).
    mdecide.
    erewrite bind_Ret by (apply get_mq_Ret; rewrite Hmqs; exact Hm).
    destruct (bool_decide (is_Some (recv m)) || bool_decide (is_Some (acc m))) eqn:E;
      [reflexivity|].
    apply orb_false_elim in E as [E1 E2].
    apply bool_decide_eq_false_1 in E1. apply bool_decide_eq_false_1 in E2.
    destruct Hcase as [H|[H|H]]; [contradiction|contradiction|].
    mrun. rewrite Hnow. rewrite bool_decide_eq_true_2 by lia. reflexivity. }
  destruct evs as [|ev rest]; cbn [mq_wait_loop]; apply Hturn.
Qed.

Lemma wait_without_sleeping_witness :
  exists w',
    mq_wait [Samples.all_readable 5] 1 (-1) Samples.message_waiting = Ret 1 w'
    /\ mqs w' = mqs Samples.message_waiting
    /\ msgs w' = msgs Samples.message_waiting
    /\ socks w' = socks Samples.message_waiting
    /\ now w' = now Samples.message_waiting
    /\ errno w' = errno Samples.message_waiting.
Proof.
  apply (wait_without_sleeping Samples.message_waiting [Samples.all_readable 5] 1 (-1)
           (Mq 3 MQ_SOCKET_CONNECTED None [] 0 (Some 2%positive) None None
               (Some 10%positive))).
  - reflexivity.
  - intros g Hg. injection Hg as <-. eexists. reflexivity.
  - left. eexists. reflexivity.
Defined.

Lemma mq_wait_loop_dead (p : positive) (stoptime : Z) (m : mq) :
  state m = MQ_SOCKET_ERROR -> recv m = None -> acc m = None ->
  forall (evs : list pevent) (w : world) (pfd : pollfd),
    mqs w !! p = Some m -> grouped w m -> Forall is_ready evs ->
    exists w', mq_wait_loop evs p stoptime pfd w = Ret 0 w' /\ mqs w' = mqs w
               /\ msgs w' = msgs w /\ socks w' = socks w.
Proof.
  intros Hst Hr Ha.
  assert (Hturn : forall ev continue w pfd,
            mqs w !! p = Some m -> grouped w m ->
            match ev with Some e => is_ready e | None => True end ->
            (ev <> None -> forall f w1, mqs w1 !! p = Some m -> grouped w1 m ->
               exists w', continue f w1 = Ret 0 w' /\ mqs w' = mqs w1
                          /\ msgs w' = msgs w1 /\ socks w' = socks w1) ->
            exists w', mq_wait_turn ev continue p stoptime pfd w = Ret 0 w'
                       /\ mqs w' = mqs w /\ msgs w' = msgs w /\ socks w' = socks w).
  { intros ev continue w pfd Hm Hg Hev Hcont.
    destruct (update_poll_group_spec w p m Hm Hg)
      as (w1 & Hupd & Hmqs & Hmsgs & Herrno & Hsocks & _ & Hnow & _ & Hpolls).
    assert (Hg1 : grouped w1 m).
    { intros g Hpg. rewrite Hpg in Hpolls. destruct Hpolls as (ps & _ & ->).
      rewrite lookup_insert_eq. eexists. reflexivity. }
    unfold mq_wait_turn. mstep. cbn [revents].
    erewrite bind_Ret.
    2:{ unfold handle_revents. mstep. rewrite Hst. mrun.
        erewrite bind_Ret by exact Hupd. reflexivity. }
    mdecide. erewrite bind_Ret by (apply get_mq_Ret; rewrite Hmqs; exact Hm).
    rewrite Hr, Ha. rewrite !(bool_decide_eq_false_2 (is_Some None))
      by (intros [? ?]; discriminate).
    cbn [orb]. mrun.
    destruct (bool_decide (stoptime - now w1 < 0)).
    { exists w1. repeat split; assumption. }
    destruct ev as [[t r|t e]|]; [| destruct Hev |].
    - unfold sys_ppoll. mrun.
      destruct (bool_decide (_ > 0)) eqn:E.
      + cbn [fmap list_fmap].
        match goal with
        | |- context [continue ?f ?W] =>
            destruct (Hcont ltac:(discriminate) f W) as (w' & Hrun & Hm' & Hms' & Hs');
              [rewrite <- Hmqs in Hm; exact Hm|exact Hg1|]
        end.
        exists w'. split; [exact Hrun|]. split; [rewrite Hm'; exact Hmqs|].
        split; [rewrite Hms'; exact Hmsgs|rewrite Hs'; exact Hsocks].
      + apply bool_decide_eq_false_1 in E.
        set (c := Z.of_nat _) in *.
        assert (Hc : c = 0) by (unfold c in *; lia). rewrite Hc. mrun.
        eexists. split; [reflexivity|]. wsimpl. repeat split; assumption.
    - unfold sys_ppoll. mrun. mdecide. mrun.
      eexists. split; [reflexivity|]. wsimpl. repeat split; assumption. }
  induction evs as [|ev rest IH]; intros w pfd Hm Hg Hall; cbn [mq_wait_loop].
  - apply Hturn; [exact Hm|exact Hg|exact I|]. intros Hne. congruence.
  - apply Forall_cons in Hall as [Hev Hall].
    apply Hturn; [exact Hm|exact Hg|exact Hev|].
    intros _ f w1 Hm1 Hg1. apply IH; assumption.
Qed.

(** X15. A wait on a dead endpoint tells nothing.  [mq_wait] returns -1 only
    from the call in which the endpoint dies; on an endpoint that is
    already in state ERROR, with nothing left to pick up, it asks the
    kernel for no event and returns 0, at the deadline or at the first
    wake-up that reports nothing.  The error is found with
    [mq_geterror]. *)
Theorem wait_on_dead_endpoint (w : world) (evs : list pevent) (p : positive)
    (stoptime : Z) (m : mq) :
  mqs w !! p = Some m -> state m = MQ_SOCKET_ERROR ->
  recv m = None -> acc m = None -> grouped w m -> Forall is_ready evs ->
  poll_events m = 0
  /\ exists w', mq_wait evs p stoptime w = Ret 0 w'
       /\ mqs w' = mqs w /\ msgs w' = msgs w /\ socks w' = socks w
       /\ mq_geterror p w' = Ret (err m) w'.
Proof.
  intros Hm Hst Hr Ha Hg Hall. split.
  { unfold poll_events. rewrite Hst. reflexivity. }
  destruct (mq_wait_loop_dead p stoptime m Hst Hr Ha evs w (Pollfd (link m) 0 0)
              Hm Hg Hall) as (w' & Hrun & Hmqs & Hmsgs & Hsocks).
  exists w'. unfold mq_wait. mstep. split; [exact Hrun|].
  split; [exact Hmqs|]. split; [exact Hmsgs|]. split; [exact Hsocks|].
  apply mq_geterror_error; [rewrite Hmqs; exact Hm|exact Hst].
Qed.

Lemma wait_on_dead_endpoint_witness :
  poll_events (Mq 3 MQ_SOCKET_ERROR None [] 104 None None None (Some 10%positive)) = 0
  /\ exists w',
       mq_wait [PReady 3 (fun _ => POLLHUP); PReady 5 (fun _ => 0)] 1 10
         Samples.dead_endpoint = Ret 0 w'
       /\ mqs w' = mqs Samples.dead_endpoint
       /\ msgs w' = msgs Samples.dead_endpoint
       /\ socks w' = socks Samples.dead_endpoint
       /\ mq_geterror 1 w' = Ret 104 w'.
Proof.
  apply (wait_on_dead_endpoint Samples.dead_endpoint
           [PReady 3 (fun _ => POLLHUP); PReady 5 (fun _ => 0)] 1 10
           (Mq 3 MQ_SOCKET_ERROR None [] 104 None None None (Some 10%positive))).
  - reflexivity.
  - reflexivity.
  - reflexivity.
  - reflexivity.
  - intros g Hg. injection Hg as <-. eexists. reflexivity.
  - repeat constructor.
Defined.
(** ** Poll groups: membership *)

(** X16. Endpoints and poll groups never point at each other in vain.  After
    any series of calls that returned, the poll group an endpoint names
    exists and lists the endpoint as a member, and every member a poll
    group lists is an allocated endpoint that names this group: closing
    an endpoint takes it off its group, and deleting a group clears the
    pointer of each of its members. *)
Theorem poll_bookkeeping_sound (w : world) :
  reachable w ->
  (forall q m g, mqs w !! q = Some m -> poll_group m = Some g ->
     exists ps, polls w !! g = Some ps /\ is_Some (members ps !! q))
  /\ (forall g ps q, polls w !! g = Some ps -> is_Some (members ps !! q) ->
        exists m, mqs w !! q = Some m /\ poll_group m = Some g).
Proof.
  intros Hw. pose proof (reachable_wf w Hw) as [Hl Hmem _ _]. split.
  - intros q m g Hq Hpg. apply (Hl q m g Hq) in Hpg. exact Hpg.
  - intros g ps q Hps Hin. destruct (Hmem g ps q Hps Hin) as [m Hm].
    exists m. split; [exact Hm|]. apply (Hl q m g Hm). exists ps. auto.
Qed.

Lemma poll_bookkeeping_sound_witness :
  (forall q m g, mqs Samples.two_groups !! q = Some m -> poll_group m = Some g ->
     exists ps, polls Samples.two_groups !! g = Some ps /\ is_Some (members ps !! q))
  /\ (forall g ps q, polls Samples.two_groups !! g = Some ps ->
        is_Some (members ps !! q) ->
        exists m, mqs Samples.two_groups !! q = Some m /\ poll_group m = Some g).
Proof.
  apply (poll_bookkeeping_sound Samples.two_groups).
  apply (reachable_exec Samples.groups_calls Samples.groups_start).
  - apply reach_start; reflexivity.
  - vm_compute. reflexivity.
Defined.

Lemma set_poll_group_back (m : mq) (g : option positive) :
  poll_group m = None -> set_poll_group None (set_poll_group g m) = m.
Proof. destruct m. cbn. intros ->. reflexivity. Qed.

(** X17. Adding an endpoint to a poll group and removing it again.  An
    endpoint of no group can be added to any poll group: it becomes a
    member under the tag it was given, or under its own address when
    the tag is null.  Removing it restores the endpoint and the member
    table, and leaves it in none of the readiness sets. *)
Theorem poll_add_then_rm (w : world) (p q : positive) (tag : option positive)
    (m : mq) (ps : mq_poll) :
  reachable w -> mqs w !! q = Some m -> poll_group m = None ->
  polls w !! p = Some ps ->
  exists w1 w2 ps1,
    mq_poll_add p q tag w = Ret 0 w1
    /\ polls w1 !! p = Some ps1
    /\ members ps1 !! q = Some (match tag with Some t => t | None => q end)
    /\ mq_poll_rm p q w1 = Ret 0 w2
    /\ mqs w2 = mqs w
    /\ polls w2 = <[p := MqPoll (members ps) (acceptable ps ∖ {[q]})
                            (readable ps ∖ {[q]}) (error ps ∖ {[q]})]> (polls w)
    /\ msgs w2 = msgs w /\ socks w2 = socks w /\ errno w2 = errno w.
Proof.
  intros Hw Hm Hpg Hps.
  assert (Hout : members ps !! q = None).
  { destruct (members ps !! q) as [t|] eqn:E; [|reflexivity].
    pose proof (wf_linked w (reachable_wf w Hw) q m p Hm) as [_ Hl].
    rewrite Hl in Hpg; [discriminate|]. exists ps. split; [exact Hps|]. eauto. }
  eexists _, _, _. split.
  { unfold mq_poll_add. mstep. rewrite Hpg.
    rewrite (bool_decide_eq_false_2 (None = Some p)) by discriminate.
    rewrite (bool_decide_eq_false_2 (is_Some None)) by (intros [? ?]; discriminate).
    mrun. reflexivity. }
  wsimpl. split; [apply lookup_insert_eq|]. split; [apply lookup_insert_eq|].
  split.
  { unfold mq_poll_rm. mstep. cbn [poll_group set_poll_group].
    rewrite (bool_decide_eq_false_2 (Some p ≠ Some p)) by (intros H; apply H; reflexivity).
    mrun. reflexivity. }
  wsimpl. rewrite !insert_insert_eq.
  split.
  { rewrite (set_poll_group_back m (Some p) Hpg). apply insert_id, Hm. }
  split.
  { f_equal. cbn. rewrite delete_insert_eq. rewrite delete_id by exact Hout.
    reflexivity. }
  repeat split.
Qed.

Lemma poll_add_then_rm_witness :
  exists w1 w2 ps1,
    mq_poll_add 4 2 None Samples.two_groups = Ret 0 w1
    /\ polls w1 !! 4%positive = Some ps1
    /\ members ps1 !! 2%positive = Some 2%positive
    /\ mq_poll_rm 4 2 w1 = Ret 0 w2
    /\ mqs w2 = mqs Samples.two_groups
    /\ polls w2 = <[4%positive := MqPoll ∅ (∅ ∖ {[2%positive]}) (∅ ∖ {[2%positive]})
                                   (∅ ∖ {[2%positive]})]> (polls Samples.two_groups)
    /\ msgs w2 = msgs Samples.two_groups /\ socks w2 = socks Samples.two_groups
    /\ errno w2 = errno Samples.two_groups.
Proof.
  apply (poll_add_then_rm Samples.two_groups 4 2 None
           (Mq 4 MQ_SOCKET_INPROGRESS None [] 0 None None None None)
           (MqPoll ∅ ∅ ∅ ∅)).
  - apply (reachable_exec Samples.groups_calls Samples.groups_start).
    + apply reach_start; reflexivity.
    + vm_compute. reflexivity.
  - vm_compute. reflexivity.
  - reflexivity.
  - vm_compute. reflexivity.
Defined.

Lemma clear_back_pointers_ok (keys : list positive) (w : world) :
  (forall q, q ∈ keys -> is_Some (mqs w !! q)) ->
  exists w', clear_back_pointers keys w = Ret tt w'.
Proof.
  revert w. induction keys as [|k keys IH]; intros w Hlive; cbn [clear_back_pointers].
  - eexists. reflexivity.
  - destruct (Hlive k) as [mk Hmk]; [apply elem_of_cons; left; reflexivity|].
    mstep. apply IH. intros q Hq. wsimpl. apply lookup_insert_is_Some'.
    right. apply Hlive. apply elem_of_cons. right. exact Hq.
Qed.

Lemma clear_back_pointers_rest (keys : list positive) (w w' : world) :
  clear_back_pointers keys w = Ret tt w' ->
  msgs w' = msgs w /\ socks w' = socks w /\ errno w' = errno w.
Proof.
  revert w. induction keys as [|k keys IH]; intros w H; cbn [clear_back_pointers] in H.
  - injection H as <-. repeat split.
  - apply bind_inv in H as (u & w1 & H1 & H). apply upd_mq_inv in H1 as (mk & Hmk & ->).
    exact (IH _ H).
Qed.

(** X18. Deleting a poll group lets its members go.  Every endpoint stays
    allocated; the members of the deleted group are in no group
    afterwards, so that they can be added to another one, and the other
    endpoints are as they were. *)
Theorem poll_delete_releases_members (w : world) (p : positive) (ps : mq_poll) :
  reachable w -> polls w !! p = Some ps ->
  exists w', mq_poll_delete (Some p) w = Ret tt w'
    /\ reachable w'
    /\ polls w' = delete p (polls w)
    /\ (forall q m, mqs w !! q = Some m ->
          mqs w' !! q
          = Some (if bool_decide (poll_group m = Some p)
                  then set_poll_group None m else m))
    /\ (forall q, mqs w !! q = None -> mqs w' !! q = None)
    /\ msgs w' = msgs w /\ socks w' = socks w.
Proof.
  intros Hw Hps. pose proof (reachable_wf w Hw) as [Hl Hmem _ _].
  set (keys := (map_to_list (members ps)).*1).
  assert (Hkeys : forall q, q ∈ keys <-> is_member w p q).
  { intros q. unfold keys. rewrite list_elem_of_fmap. unfold is_member. split.
    - intros ([q' t] & -> & Hqt). apply elem_of_map_to_list in Hqt.
      exists ps. split; [exact Hps|]. cbn. eauto.
    - intros (ps' & Hps' & [t Ht]). rewrite Hps in Hps'. injection Hps' as <-.
      exists (q, t). split; [reflexivity|]. apply elem_of_map_to_list. exact Ht. }
  destruct (clear_back_pointers_ok keys w) as [w1 Hclear].
  { intros q Hq. apply Hkeys in Hq as (ps' & Hps' & Hin).
    exact (Hmem p ps' q Hps' Hin). }
  destruct (clear_back_pointers_inv keys w w1 Hclear) as (Ep & Eb & Hin & Hout).
  destruct (clear_back_pointers_rest keys w w1 Hclear) as (Emsgs & Esocks & _).
  assert (Hrun : mq_poll_delete (Some p) w
                 = Ret tt (set_polls (delete p (polls w1)) w1)).
  { cbn [mq_poll_delete]. mstep. fold keys. erewrite bind_Ret by exact Hclear.
    unfold free_poll. erewrite bind_Ret by (apply get_poll_Ret; rewrite Ep; exact Hps).
    reflexivity. }
  eexists. split; [exact Hrun|]. split.
  { apply (reach_call w _ (CPollDelete (Some p)) Hw). exact Hrun. }
  wsimpl. split; [rewrite Ep; reflexivity|]. split.
  { intros q m Hm. destruct (decide (q ∈ keys)) as [Hk|Hk].
    - destruct (Hin q Hk) as [E _]. rewrite <- E, Hm. cbn [fmap option_fmap option_map].
      rewrite bool_decide_eq_true_2; [reflexivity|].
      apply (Hl q m p Hm), Hkeys, Hk.
    - rewrite (Hout q Hk), Hm. rewrite bool_decide_eq_false_2; [reflexivity|].
      intros Hpg. apply Hk, Hkeys, (Hl q m p Hm), Hpg. }
  split.
  { intros q Hq. destruct (decide (q ∈ keys)) as [Hk|Hk].
    - destruct (Hin q Hk) as [_ [m Hm]]. congruence.
    - rewrite (Hout q Hk). exact Hq. }
  split; assumption.
Qed.

Lemma poll_delete_releases_members_witness :
  exists w', mq_poll_delete (Some 3%positive) Samples.two_groups = Ret tt w'
    /\ reachable w'
    /\ polls w' = delete 3%positive (polls Samples.two_groups)
    /\ (forall q m, mqs Samples.two_groups !! q = Some m ->
          mqs w' !! q
          = Some (if bool_decide (poll_group m = Some 3%positive)
                  then set_poll_group None m else m))
    /\ (forall q, mqs Samples.two_groups !! q = None -> mqs w' !! q = None)
    /\ msgs w' = msgs Samples.two_groups /\ socks w' = socks Samples.two_groups.
Proof.
  apply (poll_delete_releases_members Samples.two_groups 3
           (MqPoll {[ 1%positive := 7%positive ]} ∅ ∅ ∅)).
  - apply (reachable_exec Samples.groups_calls Samples.groups_start).
    + apply reach_start; reflexivity.
    + vm_compute. reflexivity.
  - vm_compute. reflexivity.
Defined.
(** ** The loops of the send and the receive path terminate *)

Lemma bind_stuck_inv {A B : Type} (c : M A) (k : A -> M B) (w : world) :
  (c ≫= k) w = Stuck ->
  c w = Stuck \/ exists a w1, c w = Ret a w1 /\ k a w1 = Stuck.
Proof.
  unfold mbind, M_bind. destruct (c w) as [a w1| | |]; try discriminate; eauto.
Qed.

Lemma get_mq_not_stuck p w : get_mq p w <> Stuck.
Proof. unfold get_mq, deref. destruct (mqs w !! p); discriminate. Qed.

Lemma get_msg_not_stuck p w : get_msg p w <> Stuck.
Proof. unfold get_msg, deref. destruct (msgs w !! p); discriminate. Qed.

Lemma get_msg_inv p w m w' : get_msg p w = Ret m w' -> w' = w /\ msgs w !! p = Some m.
Proof.
  unfold get_msg, deref. destruct (msgs w !! p); [|discriminate].
  intros [= <- <-]. auto.
Qed.

Lemma upd_mq_not_stuck p f w : upd_mq p f w <> Stuck.
Proof.
  unfold upd_mq. intros H. apply bind_stuck_inv in H as [H|(a & w1 & _ & H)].
  - exact (get_mq_not_stuck _ _ H).
  - discriminate H.
Qed.

Lemma upd_msg_not_stuck p f w : upd_msg p f w <> Stuck.
Proof.
  unfold upd_msg. intros H. apply bind_stuck_inv in H as [H|(a & w1 & _ & H)].
  - exact (get_msg_not_stuck _ _ H).
  - discriminate H.
Qed.

Lemma upd_msg_inv p f w a w' :
  upd_msg p f w = Ret a w' ->
  exists m, msgs w !! p = Some m /\ w' = set_msgs (<[p := f m]> (msgs w)) w.
Proof.
  intros H. unfold upd_msg in H. apply bind_inv in H as (m & w1 & Hg & H).
  apply get_msg_inv in Hg as [-> Hm]. injection H as _ <-. eauto.
Qed.

Lemma free_msg_not_stuck p w : free_msg p w <> Stuck.
Proof.
  unfold free_msg. intros H. apply bind_stuck_inv in H as [H|(a & w1 & _ & H)].
  - exact (get_msg_not_stuck _ _ H).
  - discriminate H.
Qed.

Lemma free_msg_inv p w a w' :
  free_msg p w = Ret a w' -> w' = set_msgs (delete p (msgs w)) w.
Proof.
  intros H. unfold free_msg in H. apply bind_inv in H as (m & w1 & Hg & H).
  apply get_msg_inv in Hg as [-> Hm]. injection H as _ <-. reflexivity.
Qed.

Lemma assert_not_stuck b w : assert b w <> Stuck.
Proof. destruct b; discriminate. Qed.

Lemma assert_inv b w a w' : assert b w = Ret a w' -> w' = w /\ b = true.
Proof. destruct b; [|discriminate]. intros [= <-]. auto. Qed.

Lemma sys_send_not_stuck fd obj off n w : sys_send fd obj off n w <> Stuck.
Proof.
  unfold sys_send. destruct (socks w !! fd) as [s|]; [|discriminate].
  destruct (tx s) as [|[k| |e] t]; try discriminate.
  destruct (mem_read _ _ _); discriminate.
Qed.

(** A [send] call that takes bytes uses up one answer of the kernel. *)
Lemma sys_send_inv fd obj off n w s w1 :
  sys_send fd obj off n w = Ret s w1 -> 0 < s ->
  exists so so', socks w !! fd = Some so
    /\ socks w1 = <[fd := so']> (socks w)
    /\ S (length (tx so')) = length (tx so)
    /\ mqs w1 = mqs w /\ msgs w1 = msgs w.
Proof.
  unfold sys_send. intros H Hs. destruct (socks w !! fd) as [so|] eqn:Hso.
  2:{ injection H as <- _. lia. }
  destruct (tx so) as [|[k| |e] t] eqn:Htx.
  - injection H as <- _. lia.
  - destruct (mem_read _ _ _); [|discriminate]. injection H as _ <-.
    eexists so, _. split; [reflexivity|]. wsimpl. split; [reflexivity|].
    cbn [tx set_sent set_tx]. rewrite Htx. repeat split.
  - injection H as <- _. lia.
  - injection H as <- _. lia.
Qed.

Lemma flush_send_loop_total (p : positive) :
  forall (f : nat) (w : world),
    (send_measure p w < f)%nat -> flush_send_loop f p w <> Stuck.
Proof.
  induction f as [|f IH]; intros w Hf H; [lia|].
  cbn [flush_send_loop] in H.
  apply bind_stuck_inv in H as [H|(m & w0 & Hg & H)];
    [exact (get_mq_not_stuck _ _ H)|].
  apply get_mq_inv in Hg as [-> Hm].
  (* the message to send, and the world in which it is the current one *)
  assert (Hcur : exists sp w1 m1,
            mqs w1 !! p = Some m1 /\ send_buf m1 = Some sp /\ link m1 = link m
            /\ socks w1 = socks w /\ (send_measure p w1 <= send_measure p w)%nat
            /\ (snd ← get_msg sp;
                assert (bool_decide (len snd < PTRDIFF_MAX));;
                if bool_decide (hdr_pos snd < HDR_SIZE) then
                  s ← sys_send (link m) (hdr snd) (HDR_SIZE * hdr_pos snd)
                               (HDR_SIZE - hdr_pos snd);
                  e ← gets errno;
                  if bool_decide (s = -1) && errno_is_temporary e then mret 0
                  else if bool_decide (s <= 0) then mret (-1)
                  else upd_msg sp (fun x => set_hdr_pos (hdr_pos x + s) x);;
                       flush_send_loop f p
                else if bool_decide (buf_pos snd < len snd) then
                  s ← sys_send (link m) (buf snd) (buf_pos snd) (len snd - buf_pos snd);
                  e ← gets errno;
                  if bool_decide (s = -1) && errno_is_temporary e then mret 0
                  else if bool_decide (s <= 0) then mret (-1)
                  else upd_msg sp (fun x => set_buf_pos (buf_pos x + s) x);;
                       flush_send_loop f p
                else
                  delete_msg (Some sp);;
                  upd_mq p (set_send_buf None);;
                  flush_send_loop f p) w1 = Stuck).
  { destruct (send_buf m) as [sp|] eqn:Hsb.
    - apply bind_stuck_inv in H as [H|(cur & w1 & Hc & H)]; [discriminate H|].
      injection Hc as <- <-. exists sp, w, m. repeat split; try assumption. lia.
    - destruct (send m) as [|sp rest] eqn:Hq.
      + apply bind_stuck_inv in H as [H|(cur & w1 & Hc & H)]; [discriminate H|].
        injection Hc as <- <-. discriminate H.
      + apply bind_stuck_inv in H as [H|(cur & w1 & Hc & H)].
        * exfalso. apply bind_stuck_inv in H as [H|(u & w1 & Hu & H)];
            [exact (upd_mq_not_stuck _ _ _ H)|].
          apply bind_stuck_inv in H as [H|(be & w2 & Hb & H)]; [discriminate H|].
          apply bind_stuck_inv in H as [H|(u2 & w3 & Hu2 & H)];
            [exact (upd_msg_not_stuck _ _ _ H)|discriminate H].
        * apply bind_inv in Hc as (u & w2 & Hu & Hc).
          apply upd_mq_inv in Hu as (m' & Hm' & ->).
          rewrite Hm in Hm'. injection Hm' as <-.
          apply bind_inv in Hc as (be & w3 & Hb & Hc). injection Hb as <- <-.
          apply bind_inv in Hc as (u2 & w4 & Hu2 & Hc).
          apply upd_msg_inv in Hu2 as (msg & Hmsg & ->). injection Hc as <- <-.
          eexists sp, _, (set_send_buf (Some sp) (set_send rest m)).
          refine (conj _ (conj _ (conj _ (conj _ (conj _ H))))).
          -- apply lookup_insert_eq.
          -- reflexivity.
          -- reflexivity.
          -- reflexivity.
          -- unfold send_measure. wsimpl. rewrite lookup_insert_eq, Hm, Hsb, Hq.
             cbn [send send_buf set_send set_send_buf link length]. lia. }
  clear H. destruct Hcur as (sp & w1 & m1 & Hm1 & Hsb1 & Hlink & Hsocks & Hle & H).
  assert (Hmeasure : send_measure p w1
                     = (length (send m1) + 1
                        + match socks w1 !! link m with
                          | Some s => length (tx s) | None => 0 end)%nat).
  { unfold send_measure. rewrite Hm1, Hsb1, Hlink. reflexivity. }
  apply bind_stuck_inv in H as [H|(snd & w2 & Hg & H)];
    [exact (get_msg_not_stuck _ _ H)|].
  apply get_msg_inv in Hg as [-> Hsnd].
  apply bind_stuck_inv in H as [H|(u & w2 & Ha & H)];
    [exact (assert_not_stuck _ _ H)|].
  apply assert_inv in Ha as [-> _].
  assert (Hsent : forall obj off n (upd : Z -> mq_msg -> mq_msg),
            (s ← sys_send (link m) obj off n;
             e ← gets errno;
             if bool_decide (s = -1) && errno_is_temporary e then mret 0
             else if bool_decide (s <= 0) then mret (-1)
             else upd_msg sp (upd s);; flush_send_loop f p) w1 = Stuck -> False).
  { intros obj off n upd Hx.
    apply bind_stuck_inv in Hx as [Hx|(s & w2 & Hs & Hx)];
      [exact (sys_send_not_stuck _ _ _ _ _ Hx)|].
    apply bind_stuck_inv in Hx as [Hx|(e & w3 & He & Hx)]; [discriminate Hx|].
    injection He as <- <-.
    destruct (bool_decide (s = -1) && errno_is_temporary (errno w2));
      [discriminate Hx|].
    destruct (bool_decide (s <= 0)) eqn:Es; [discriminate Hx|].
    apply bool_decide_eq_false_1 in Es.
    apply bind_stuck_inv in Hx as [Hx|(u' & w3 & Hu & Hx)];
      [exact (upd_msg_not_stuck _ _ _ Hx)|].
    apply upd_msg_inv in Hu as (msg & _ & ->).
    destruct (sys_send_inv _ _ _ _ _ _ _ Hs ltac:(lia))
      as (so & so' & Hso & Hsocks2 & Htx & Hmqs2 & _).
    refine (IH _ _ Hx).
    unfold send_measure. wsimpl. rewrite Hmqs2, Hm1, Hsb1, Hlink, Hsocks2.
    rewrite lookup_insert_eq. rewrite Hmeasure, Hso in Hle. lia. }
  destruct (bool_decide (hdr_pos snd < HDR_SIZE)); [exact (Hsent _ _ _ _ H)|].
  destruct (bool_decide (buf_pos snd < len snd)); [exact (Hsent _ _ _ _ H)|].
  apply bind_stuck_inv in H as [H|(u' & w2 & Hd & H)];
    [exact (free_msg_not_stuck _ _ H)|].
  apply free_msg_inv in Hd as ->.
  apply bind_stuck_inv in H as [H|(u2 & w3 & Hu & H)];
    [exact (upd_mq_not_stuck _ _ _ H)|].
  apply upd_mq_inv in Hu as (m' & Hm' & ->). wsimpl.
  rewrite Hm1 in Hm'. injection Hm' as <-.
  refine (IH _ _ H).
  unfold send_measure. wsimpl. rewrite lookup_insert_eq.
  cbn [send send_buf set_send_buf link]. rewrite Hlink. rewrite Hmeasure in Hle.
  destruct (socks w1 !! link m); lia.
Qed.

Lemma sys_recv_not_stuck fd n w : sys_recv fd n w <> Stuck.
Proof.
  unfold sys_recv. destruct (socks w !! fd) as [s|]; [|discriminate].
  destruct (rx s) as [|[b bs| |e] t]; discriminate.
Qed.

(** A [recv] call that returns bytes takes them off the socket. *)
Lemma sys_recv_inv fd n w r data w1 :
  sys_recv fd n w = Ret (r, data) w1 -> 0 < r ->
  exists so so', socks w !! fd = Some so
    /\ socks w1 = <[fd := so']> (socks w)
    /\ (rx_weight (rx so') < rx_weight (rx so))%nat
    /\ mqs w1 = mqs w /\ msgs w1 = msgs w.
Proof.
  unfold sys_recv. intros H Hr. destruct (socks w !! fd) as [so|] eqn:Hso.
  2:{ injection H as <- _ _. lia. }
  destruct (rx so) as [|[b bs| |e] t] eqn:Hrx.
  - injection H as <- _ _. lia.
  - injection H as Er _ <-. eexists so, _. split; [reflexivity|]. wsimpl.
    split; [reflexivity|]. split; [|split; reflexivity].
    cbn [rx set_rx]. rewrite Hrx. cbn [rx_weight].
    assert (Hn : (0 < Z.to_nat n)%nat).
    { destruct (Z.to_nat n); [|lia]. rewrite take_0 in Er. cbn in Er. lia. }
    destruct (drop (Z.to_nat n) (b :: bs)) as [|b' bs'] eqn:Ed; [lia|].
    apply (f_equal length) in Ed. rewrite length_drop in Ed.
    cbn [rx_weight length] in *. lia.
  - injection H as <- _ _. lia.
  - injection H as <- _ _. lia.
Qed.

Lemma deref_not_stuck {A : Type} (o : option A) w : deref o w <> Stuck.
Proof. destruct o; discriminate. Qed.

Lemma deref_inv {A : Type} (o : option A) w a w' :
  deref o w = Ret a w' -> w' = w /\ o = Some a.
Proof. destruct o; [|discriminate]. intros [= <- <-]. auto. Qed.

Lemma flush_recv_loop_total (p : positive) :
  forall (f : nat) (w : world),
    (recv_measure p w < f)%nat -> flush_recv_loop f p w <> Stuck.
Proof.
  induction f as [|f IH]; intros w Hf H; [lia|].
  cbn [flush_recv_loop] in H.
  apply bind_stuck_inv in H as [H|(m & w0 & Hg & H)];
    [exact (get_mq_not_stuck _ _ H)|].
  apply get_mq_inv in Hg as [-> Hm].
  destruct (bool_decide (is_Some (recv m))) eqn:Hrecv; [discriminate H|].
  apply bool_decide_eq_false_1 in Hrecv.
  assert (Hr : recv m = None).
  { destruct (recv m); [exfalso; apply Hrecv; eauto|reflexivity]. }
  apply bind_stuck_inv in H as [H|(rp & w1 & Hc & H)].
  { destruct (recv_buf m); [discriminate H|].
    apply bind_stuck_inv in H as [H|(rp & w1 & Hc & H)].
    - unfold msg_create in H.
      apply bind_stuck_inv in H as [H|(a & w1 & _ & H)]; [discriminate H|].
      apply bind_stuck_inv in H as [H|(a' & w2 & _ & H)]; discriminate H.
    - apply bind_stuck_inv in H as [H|(u & w2 & _ & H)];
        [exact (upd_mq_not_stuck _ _ _ H)|discriminate H]. }
  assert (Hw1 : exists m1,
            mqs w1 !! p = Some m1 /\ recv m1 = None /\ recv_buf m1 = Some rp
            /\ link m1 = link m /\ socks w1 = socks w
            /\ (recv_measure p w1 <= recv_measure p w)%nat).
  { destruct (recv_buf m) as [rp'|] eqn:Hrb.
    - injection Hc as <- <-. exists m. repeat split; try assumption. lia.
    - apply bind_inv in Hc as (rp' & w2 & Hc1 & Hc).
      unfold msg_create in Hc1.
      apply bind_inv in Hc1 as (a & w3 & Ha & Hc1). injection Ha as <- <-.
      apply bind_inv in Hc1 as (u & w4 & Hu & Hc1). injection Hu as _ <-.
      injection Hc1 as <- <-.
      apply bind_inv in Hc as (u' & w5 & Hu & Hc).
      apply upd_mq_inv in Hu as (m' & Hm' & ->). injection Hc as <- <-.
      wsimpl. rewrite Hm in Hm'. injection Hm' as <-.
      exists (set_recv_buf (Some (brk w)) m).
      split; [apply lookup_insert_eq|]. split; [exact Hr|].
      split; [reflexivity|]. split; [reflexivity|]. split; [reflexivity|].
      unfold recv_measure. wsimpl. rewrite lookup_insert_eq, Hm.
      cbn [link recv recv_buf set_recv_buf]. rewrite Hr, Hrb, lookup_insert_eq.
      cbn [parsed_header zero_msg]. lia. }
  destruct Hw1 as (m1 & Hm1 & Hr1 & Hrb1 & Hlink & Hsocks & Hle).
  apply bind_stuck_inv in H as [H|(rcv & w2 & Hg & H)];
    [exact (get_msg_not_stuck _ _ H)|].
  apply get_msg_inv in Hg as [-> Hrcv].
  assert (Hmeasure : recv_measure p w1
                     = (match socks w1 !! link m with
                        | Some s => rx_weight (rx s) | None => 0 end
                        + (1 + if parsed_header rcv then 0 else 1))%nat).
  { unfold recv_measure. rewrite Hm1, Hr1, Hrb1, Hlink, Hrcv. reflexivity. }
  apply bind_stuck_inv in H as [H|(u & w2 & Ha & H)];
    [exact (assert_not_stuck _ _ H)|].
  apply assert_inv in Ha as [-> _].
  assert (Hread : forall n (store : list byte -> option (list byte))
                         (upd : Z -> list byte -> mq_msg -> mq_msg),
            (forall r b x, parsed_header (upd r b x) = parsed_header x) ->
            ('(r, data) ← sys_recv (link m) n;
             e ← gets errno;
             if bool_decide (r = -1) && errno_is_temporary e then mret 0
             else if bool_decide (r <= 0) then mret (-1)
             else b ← deref (store data);
                  upd_msg rp (upd r b);; flush_recv_loop f p) w1 = Stuck -> False).
  { intros n store upd Hupd Hx.
    apply bind_stuck_inv in Hx as [Hx|([r data] & w2 & Hs & Hx)];
      [exact (sys_recv_not_stuck _ _ _ Hx)|].
    apply bind_stuck_inv in Hx as [Hx|(e & w3 & He & Hx)]; [discriminate Hx|].
    injection He as <- <-.
    destruct (bool_decide (r = -1) && errno_is_temporary (errno w2));
      [discriminate Hx|].
    destruct (bool_decide (r <= 0)) eqn:Es; [discriminate Hx|].
    apply bool_decide_eq_false_1 in Es.
    apply bind_stuck_inv in Hx as [Hx|(b & w3 & Hd & Hx)];
      [exact (deref_not_stuck _ _ Hx)|].
    apply deref_inv in Hd as [-> _].
    apply bind_stuck_inv in Hx as [Hx|(u' & w3 & Hu & Hx)];
      [exact (upd_msg_not_stuck _ _ _ Hx)|].
    apply upd_msg_inv in Hu as (msg & Hmsg & ->).
    destruct (sys_recv_inv _ _ _ _ _ _ Hs ltac:(lia))
      as (so & so' & Hso & Hsocks2 & Hwt & Hmqs2 & Hmsgs2).
    refine (IH _ _ Hx).
    unfold recv_measure. wsimpl. rewrite Hmqs2, Hm1, Hr1, Hrb1, Hlink, Hsocks2.
    rewrite !lookup_insert_eq. rewrite Hmsgs2, Hrcv in Hmsg. injection Hmsg as <-.
    rewrite Hupd. rewrite Hmeasure, Hso in Hle. lia. }
  destruct (bool_decide (hdr_pos rcv < HDR_SIZE)).
  { apply (Hread _ _ (fun r h x => set_hdr_pos (hdr_pos x + r) (set_hdr h x))
             ltac:(reflexivity) H). }
  destruct (parsed_header rcv) eqn:Hph; cbn [negb] in H.
  - destruct (bool_decide (buf_pos rcv < len rcv)).
    { apply (Hread _ _ (fun r b x => set_buf_pos (buf_pos x + r) (set_buf b x))
               ltac:(reflexivity) H). }
    apply bind_stuck_inv in H as [H|(u' & w2 & Hu & H)];
      [exact (upd_mq_not_stuck _ _ _ H)|].
    apply upd_mq_inv in Hu as (m' & Hm' & ->).
    rewrite Hm1 in Hm'. injection Hm' as <-.
    refine (IH _ _ H).
    unfold recv_measure. wsimpl. rewrite lookup_insert_eq.
    cbn [link recv recv_buf set_recv set_recv_buf]. rewrite Hrb1, Hlink.
    rewrite Hmeasure in Hle. destruct (socks w1 !! link m); lia.
  - apply bind_stuck_inv in H as [H|(be & w2 & Hb & H)]; [discriminate H|].
    injection Hb as <- <-.
    destruct (parse_header (big_endian w1) rcv) as [rcv'|] eqn:Hparse;
      [|discriminate H].
    apply bind_stuck_inv in H as [H|(b & w2 & Hd & H)];
      [exact (deref_not_stuck _ _ H)|].
    apply deref_inv in Hd as [-> _].
    apply bind_stuck_inv in H as [H|(u' & w2 & Hu & H)];
      [exact (upd_msg_not_stuck _ _ _ H)|].
    apply upd_msg_inv in Hu as (msg & _ & ->).
    destruct (parse_header_fields _ _ _ Hparse) as (_ & _ & Hph' & _).
    refine (IH _ _ H).
    unfold recv_measure. wsimpl. rewrite Hm1, Hr1, Hrb1, Hlink, lookup_insert_eq.
    cbn [parsed_header set_buf]. rewrite Hph'.
    rewrite Hmeasure in Hle. destruct (socks w1 !! link m); lia.
Qed.

(** X19. The loops of [flush_send] and [flush_recv] terminate.  A turn of the
    send loop ends a message or makes a [send] call that the kernel
    serves; a turn of the receive loop reads at least one byte, parses
    the header, or hands the message over.  Hence every call returns,
    fails an assertion or touches memory it must not: the bound on the
    turns of the loops is never reached. *)
Theorem flush_loops_terminate (w : world) (p : positive) :
  flush_send p w <> Stuck /\ flush_recv p w <> Stuck.
Proof.
  split.
  - apply flush_send_loop_total. unfold send_measure, flush_send_fuel.
    destruct (mqs w !! p) as [m|]; [|lia].
    destruct (send_buf m); destruct (socks w !! link m); lia.
  - apply flush_recv_loop_total. unfold recv_measure, flush_recv_fuel.
    destruct (mqs w !! p) as [m|]; [|lia].
    destruct (recv m); [lia|]. destruct (recv_buf m) as [rp|]; [|lia].
    destruct (msgs w !! rp) as [rcv|]; [|lia]. destruct (parsed_header rcv); lia.
Qed.
(** ** A payload that the kernel takes in pieces *)

Lemma mq_msg_eta (x : mq_msg) :
  MqMsg (type x) (len x) (buf x) (hdr x) (parsed_header x) (hdr_pos x) (buf_pos x) = x.
Proof. destruct x. reflexivity. Qed.

(** The payload goes out from [buf_pos] on, as far as the kernel takes
    it: the sum of what the [send] calls take, or all that is left. *)
Lemma flush_send_payload_loop (p sp : positive) :
  forall (ks : list positive) (f : nat) (w : world) (m : mq) (snd : mq_msg)
         (s : sock) (n : nat),
    mqs w !! p = Some m -> send_buf m = Some sp -> send m = [] ->
    msgs w !! sp = Some snd ->
    0 <= len snd < PTRDIFF_MAX -> HDR_SIZE <= hdr_pos snd ->
    buf_pos snd = Z.of_nat n -> (n <= Z.to_nat (len snd))%nat ->
    len snd <= Z.of_nat (length (buf snd)) ->
    socks w !! link m = Some s -> tx s = TxAccept <$> ks ->
    (length ks + 2 <= f)%nat ->
    let total := sum_list (Pos.to_nat <$> ks) in
    let payload := take (Z.to_nat (len snd)) (buf snd) in
    exists w' s',
      flush_send_loop f p w = Ret 0 w'
      /\ socks w' = <[link m := s']> (socks w)
      /\ sent s' = sent s ++ take total (drop n payload)
      /\ (Z.to_nat (len snd) <= n + total ->
            mqs w' = <[p := set_send_buf None m]> (mqs w)
            /\ msgs w' = delete sp (msgs w))%nat
      /\ (n + total < Z.to_nat (len snd) ->
            mqs w' = mqs w
            /\ msgs w' = <[sp := set_buf_pos (Z.of_nat (n + total)) snd]> (msgs w))%nat
      /\ polls w' = polls w.
Proof.
  induction ks as [|k ks IH];
    intros f w m snd s n Hm Hsb Hq Hsnd Hlen Hpos Hbp Hn Hbuf Hs Htx Hf total payload.
  - cbn [fmap list_fmap] in Htx. subst total. cbn [fmap list_fmap sum_list].
    destruct f as [|f]; [lia|].
    destruct (decide (n = Z.to_nat (len snd))) as [Hfull|Hpart].
    + rewrite (flush_send_done f w p sp m snd Hm Hsb Hsnd); [|lia..].
      destruct f as [|f]; [cbn in Hf; lia|].
      rewrite (flush_send_idle f _ p (set_send_buf None m));
        [|apply lookup_insert_eq|reflexivity|exact Hq].
      eexists _, s. split; [reflexivity|]. wsimpl.
      split; [symmetry; apply insert_id, Hs|]. split; [rewrite take_0, app_nil_r; reflexivity|].
      split; [intros _; split; reflexivity|]. split; [intros; lia|reflexivity].
    + rewrite (flush_send_blocked f w p sp m snd s Hm Hsb Hsnd); [|lia|right; lia|exact Hs|exact Htx].
      eexists _, s. split; [reflexivity|]. wsimpl.
      split; [symmetry; apply insert_id, Hs|].
      split; [rewrite take_0, app_nil_r; reflexivity|].
      split; [intros; lia|]. split; [|reflexivity].
      intros _. split; [reflexivity|]. symmetry. apply insert_id.
      rewrite Hsnd. f_equal. rewrite Nat.add_0_r, <- Hbp.
      unfold set_buf_pos. symmetry. apply mq_msg_eta.
  - cbn [fmap list_fmap] in Htx. cbn [length] in Hf.
    destruct f as [|f]; [lia|].
    destruct (decide (n = Z.to_nat (len snd))) as [Hfull|Hpart].
    + rewrite (flush_send_done f w p sp m snd Hm Hsb Hsnd); [|lia..].
      destruct f as [|f]; [lia|].
      rewrite (flush_send_idle f _ p (set_send_buf None m));
        [|apply lookup_insert_eq|reflexivity|exact Hq].
      eexists _, s. split; [reflexivity|]. wsimpl.
      split; [symmetry; apply insert_id, Hs|].
      split.
      { rewrite drop_ge, take_nil, app_nil_r; [reflexivity|].
        unfold payload. rewrite length_take. lia. }
      split; [intros _; split; reflexivity|]. split; [intros; lia|reflexivity].
    + pose proof (flush_send_payload f w p sp m snd s k (TxAccept <$> ks)
                    Hm Hsb Hsnd) as Hstep.
      cbn zeta in Hstep. rewrite Hstep; clear Hstep; [|lia..|exact Hs|exact Htx].
      set (c := Z.min (Z.pos k) (len snd - buf_pos snd)).
      set (s1 := set_sent _ _).
      set (snd1 := set_buf_pos (buf_pos snd + c) snd).
      set (w1 := set_msgs _ _).
      destruct (IH f w1 m snd1 s1 (n + Z.to_nat c)%nat) as
        (w' & s' & Hrun & Hsocks & Hsent & Hdone & Hleft & Hpolls).
      * exact Hm.
      * exact Hsb.
      * exact Hq.
      * apply lookup_insert_eq.
      * exact Hlen.
      * exact Hpos.
      * unfold snd1. cbn [buf_pos set_buf_pos]. unfold c. lia.
      * change (len snd1) with (len snd). unfold c. lia.
      * exact Hbuf.
      * apply lookup_insert_eq.
      * reflexivity.
      * lia.
      * change (len snd1) with (len snd) in *. change (buf snd1) with (buf snd) in *.
        cbn zeta in *. fold payload in Hsent.
        set (rest := sum_list (Pos.to_nat <$> ks)) in *.
        assert (Htotal : total = (Pos.to_nat k + rest)%nat) by reflexivity.
        assert (Hc : Z.to_nat c = Nat.min (Pos.to_nat k) (Z.to_nat (len snd) - n))
          by (unfold c; lia).
        exists w', s'. split; [exact Hrun|].
        split; [rewrite Hsocks; unfold w1; wsimpl; apply insert_insert_eq|].
        split.
        { rewrite Hsent. unfold s1. cbn [sent set_sent set_tx]. rewrite <- app_assoc.
          f_equal. rewrite Hbp, Nat2Z.id, Htotal.
          assert (Hpl : length payload = Z.to_nat (len snd))
            by (unfold payload; rewrite length_take; lia).
          assert (Hpiece : take (Z.to_nat c) (drop n (buf snd))
                           = take (Z.to_nat c) (drop n payload)).
          { unfold payload. rewrite !take_drop_commute, take_take.
            do 2 f_equal. lia. }
          rewrite Hpiece.
          destruct (decide (Pos.to_nat k <= Z.to_nat (len snd) - n)%nat) as [Hle|Hgt].
          - replace (Z.to_nat c) with (Pos.to_nat k) by lia.
            rewrite take_split, drop_drop. reflexivity.
          - replace (Z.to_nat c) with (Z.to_nat (len snd) - n)%nat by lia.
            assert (Hd : drop (n + (Z.to_nat (len snd) - n)) payload = []).
            { apply drop_ge. rewrite Hpl. clear -Hn. lia. }
            rewrite Hd, take_nil, app_nil_r.
            assert (Hdl : length (drop n payload) = (Z.to_nat (len snd) - n)%nat)
              by (rewrite length_drop, Hpl; reflexivity).
            rewrite !take_ge; [reflexivity| |]; rewrite Hdl; clear -Hgt; lia. }
        split.
        { intros Hge. destruct Hdone as [Hmqs Hmsgs]; [lia|].
          split; [exact Hmqs|]. rewrite Hmsgs. unfold w1. wsimpl.
          apply delete_insert_eq. }
        split; [|exact Hpolls].
        intros Hlt. destruct Hleft as [Hmqs Hmsgs]; [lia|].
        split; [exact Hmqs|]. rewrite Hmsgs. unfold w1. wsimpl.
        rewrite insert_insert_eq. f_equal. unfold snd1, set_buf_pos.
        cbn [type len buf hdr parsed_header hdr_pos]. f_equal. lia.
Qed.

(** X20. A message is sent as far as the kernel takes it, and resumed where
    it stopped.  When the kernel takes the sixteen header bytes in one
    [send] call and the payload in pieces of any sizes, the bytes on the
    wire are the leading bytes of the message: all of it if the pieces
    add up to the payload, after which the message is freed; otherwise
    the message stays in [send_buf] with [buf_pos] at the number of
    payload bytes sent, for the next wake-up to go on from. *)
Theorem payload_sent_in_pieces (w : world) (revents : Z) (p sp : positive)
    (m : mq) (msg : mq_msg) (s : sock) (k0 : positive) (ks : list positive) :
  mqs w !! p = Some m -> state m = MQ_SOCKET_CONNECTED ->
  send_buf m = None -> send m = [sp] -> grouped w m ->
  msgs w !! sp = Some msg -> unsent msg ->
  socks w !! link m = Some s -> tx s = TxAccept k0 :: (TxAccept <$> ks) ->
  16 <= Z.pos k0 ->
  has_bit POLLOUT revents = true -> has_bit POLLIN revents = false ->
  let total := sum_list (Pos.to_nat <$> ks) in
  exists w' m' s',
    handle_revents revents p w = Ret 0 w'
    /\ mqs w' !! p = Some m' /\ state m' = MQ_SOCKET_CONNECTED
    /\ socks w' !! link m = Some s'
    /\ sent s' = sent s ++ take (16 + total) (wire (big_endian w) msg)
    /\ ((Z.to_nat (len msg) <= total)%nat ->
          send_buf m' = None /\ msgs w' !! sp = None)
    /\ ((total < Z.to_nat (len msg))%nat ->
          send_buf m' = Some sp
          /\ exists msg', msgs w' !! sp = Some msg'
               /\ hdr_pos msg' = 16 /\ buf_pos msg' = Z.of_nat total).
Proof.
  intros Hm Hst Hsb Hq Hg Hmsg (Hhp & Hbp & Hhl & Hlen & Hbuf) Hs Htx Hk0 Hout Hin total.
  rewrite (handle_revents_connected w revents p m Hm Hst).
  unfold send_phase. rewrite Hout.
  set (hmsg := write_header (big_endian w) msg).
  set (m1 := set_send_buf (Some sp) (set_send [] m)).
  set (w1 := set_msgs (<[sp := hmsg]> (msgs w)) (set_mqs (<[p := m1]> (mqs w)) w)).
  set (s1 := set_sent (sent s ++ hdr hmsg) (set_tx (TxAccept <$> ks) s)).
  set (snd1 := set_hdr_pos 16 hmsg).
  set (w2 := set_msgs (<[sp := snd1]> (msgs w1))
               (set_socks (<[link m1 := s1]> (socks w1)) w1)).
  assert (Hflush : flush_send p w = flush_send_loop (length ks + 4) p w2).
  { unfold flush_send, flush_send_fuel. rewrite Hm, Hs, Hq, Htx.
    cbn [length]. rewrite length_fmap.
    replace (3 + 1 + S (length ks))%nat with (S (length ks + 4)) by lia.
    rewrite (flush_send_pop _ w p sp m [] msg Hm Hsb Hq Hmsg).
    fold hmsg m1 w1.
    apply (flush_send_header _ w1 p sp m1 hmsg s k0 (TxAccept <$> ks)).
    - apply lookup_insert_eq.
    - reflexivity.
    - apply lookup_insert_eq.
    - exact (proj2 Hlen).
    - exact Hhp.
    - apply length_write_header. exact Hhl.
    - exact Hs.
    - exact Htx.
    - exact Hk0. }
  destruct (flush_send_payload_loop p sp ks (length ks + 4) w2 m1 snd1 s1 0)
    as (w3 & s' & Hrun & Hsocks & Hsent & Hdone & Hleft & Hpolls).
  { apply lookup_insert_eq. }
  { reflexivity. }
  { reflexivity. }
  { apply lookup_insert_eq. }
  { exact Hlen. }
  { unfold HDR_SIZE. cbn. lia. }
  { exact Hbp. }
  { lia. }
  { exact Hbuf. }
  { apply lookup_insert_eq. }
  { reflexivity. }
  { lia. }
  cbn zeta in *. change (len snd1) with (len msg) in *.
  change (buf snd1) with (buf msg) in *. fold total in Hsent, Hdone, Hleft.
  rewrite drop_0 in Hsent. cbn [Nat.add] in Hdone, Hleft.
  erewrite bind_Ret by (rewrite Hflush; exact Hrun).
  mdecide. rewrite Hin. mrun. mdecide. mrun.
  assert (Hm3 : exists m3, mqs w3 !! p = Some m3 /\ state m3 = MQ_SOCKET_CONNECTED
                           /\ poll_group m3 = poll_group m
                           /\ (Z.to_nat (len msg) <= total -> send_buf m3 = None)%nat
                           /\ (total < Z.to_nat (len msg) -> send_buf m3 = Some sp)%nat).
  { destruct (decide (Z.to_nat (len msg) <= total)%nat) as [Hge|Hlt].
    - destruct (Hdone Hge) as [Hmqs _]. exists (set_send_buf None m1).
      split; [rewrite Hmqs; apply lookup_insert_eq|]. split; [exact Hst|].
      split; [reflexivity|]. split; [reflexivity|]. intros. lia.
    - destruct (Hleft ltac:(lia)) as [Hmqs _]. exists m1.
      split; [rewrite Hmqs; apply lookup_insert_eq|]. split; [exact Hst|].
      split; [reflexivity|]. split; [intros; lia|reflexivity]. }
  destruct Hm3 as (m3 & Hm3 & Hst3 & Hpg3 & Hsb3a & Hsb3b).
  assert (Hg3 : grouped w3 m3).
  { intros g Hpg. rewrite Hpolls. apply Hg. rewrite <- Hpg3. exact Hpg. }
  destruct (update_poll_group_spec w3 p m3 Hm3 Hg3)
    as (w' & Hupd & Hmqs' & Hmsgs' & _ & Hsocks' & _).
  erewrite bind_Ret by exact Hupd.
  exists w', m3, s'. split; [reflexivity|]. split; [rewrite Hmqs'; exact Hm3|].
  split; [exact Hst3|].
  split; [rewrite Hsocks', Hsocks; apply lookup_insert_eq|].
  split.
  { rewrite Hsent. unfold s1, wire. cbn [sent set_sent set_tx]. fold hmsg.
    rewrite <- app_assoc. f_equal.
    pose proof (length_write_header (big_endian w) msg Hhl) as Hh. fold hmsg in Hh.
    rewrite take_app_ge by (rewrite Hh; lia).
    rewrite Hh. do 2 f_equal. lia. }
  split.
  - intros Hge. split; [exact (Hsb3a Hge)|].
    destruct (Hdone Hge) as [_ Hmsgs]. rewrite Hmsgs', Hmsgs.
    apply lookup_delete_eq.
  - intros Hlt. split; [exact (Hsb3b Hlt)|].
    destruct (Hleft Hlt) as [_ Hmsgs]. eexists.
    split; [rewrite Hmsgs', Hmsgs; apply lookup_insert_eq|].
    split; reflexivity.
Qed.

Lemma payload_sent_in_pieces_witness :
  exists w' m' s',
    handle_revents POLLOUT 1 Samples.slow_link = Ret 0 w'
    /\ mqs w' !! 1%positive = Some m' /\ state m' = MQ_SOCKET_CONNECTED
    /\ socks w' !! 3 = Some s'
    /\ sent s' = [] ++ take (16 + 3) (wire false Samples.hello_msg)
    /\ ((5 <= 3)%nat -> send_buf m' = None /\ msgs w' !! 2%positive = None)
    /\ ((3 < 5)%nat ->
          send_buf m' = Some 2%positive
          /\ exists msg', msgs w' !! 2%positive = Some msg'
               /\ hdr_pos msg' = 16 /\ buf_pos msg' = 3).
Proof.
  apply (payload_sent_in_pieces Samples.slow_link POLLOUT 1 2
           (Mq 3 MQ_SOCKET_CONNECTED None [2%positive] 0 None None None None)
           Samples.hello_msg
           (Sock [] (TxAccept 16 :: (TxAccept <$> [2; 1]%positive)) [] 0 [])
           16 [2; 1]%positive).
  - reflexivity.
  - reflexivity.
  - reflexivity.
  - reflexivity.
  - intros g Hg. discriminate Hg.
  - reflexivity.
  - repeat split; cbn; unfold PTRDIFF_MAX; lia.
  - reflexivity.
  - reflexivity.
  - lia.
  - reflexivity.
  - reflexivity.
Defined.
(** ** Sleeping until a message arrives *)

(** What [ppoll] reports for an endpoint that asked for input only. *)
Lemma has_bit_reported (x : Z) :
  has_bit POLLIN (Z.land x (Z.lor POLLIN (Z.lor POLLERR (Z.lor POLLHUP POLLNVAL))))
  = has_bit POLLIN x
  /\ has_bit POLLOUT (Z.land x (Z.lor POLLIN (Z.lor POLLERR (Z.lor POLLHUP POLLNVAL))))
     = false.
Proof.
  unfold has_bit. rewrite <- !Z.land_assoc.
  change (Z.land (Z.lor POLLIN (Z.lor POLLERR (Z.lor POLLHUP POLLNVAL))) POLLIN)
    with POLLIN.
  change (Z.land (Z.lor POLLIN (Z.lor POLLERR (Z.lor POLLHUP POLLNVAL))) POLLOUT)
    with 0.
  rewrite Z.land_0_r. split; reflexivity.
Qed.

(** A wake-up for input on a connected endpoint whose stream starts
    with a whole message. *)
Lemma handle_revents_message (w : world) (revents : Z) (p : positive) (m : mq)
    (s : sock) (b : byte) (bs : list byte) (t : list rx_event) (be' : bool)
    (snd : mq_msg) (rest : list byte) :
  mqs w !! p = Some m -> state m = MQ_SOCKET_CONNECTED ->
  recv m = None -> recv_buf m = None -> grouped w m ->
  has_bit POLLIN revents = true -> has_bit POLLOUT revents = false ->
  socks w !! link m = Some s -> rx s = RxData b bs :: t ->
  (16 <= length (b :: bs))%nat ->
  length (hdr snd) = 16%nat -> 0 <= len snd < PTRDIFF_MAX ->
  len snd <= Z.of_nat (length (buf snd)) ->
  rx_bytes (rx s) = wire be' snd ++ rest ->
  exists w1 s' msg,
    handle_revents revents p w = Ret 0 w1
    /\ mqs w1 = <[p := set_recv_buf None (set_recv (Some (brk w)) m)]> (mqs w)
    /\ msgs w1 = <[brk w := msg]> (msgs w)
    /\ type msg = type snd mod 256 /\ len msg = len snd
    /\ buf msg = take (Z.to_nat (len snd)) (buf snd) ++ [x00]
    /\ socks w1 = <[link m := s']> (socks w)
    /\ rx_bytes (rx s') = rest
    /\ grouped w1 m.
Proof.
  intros Hm Hst Hr Hrb Hg Hin Hout Hs Hrx Hb Hl Hlen Hbuf Hstream.
  destruct (flush_recv_message w p m s b bs t be' snd rest Hm Hr Hrb Hs Hrx Hb Hl
              Hlen Hbuf Hstream)
    as (w0 & s' & msg & Hrun & Hmqs & Hmsgs & Hty & Hln & Hpay & Hsocks & Hrest
        & Hpolls & _).
  rewrite (handle_revents_connected w revents p m Hm Hst).
  unfold send_phase. rewrite Hout, Hin. mrun. mdecide.
  erewrite bind_Ret by (erewrite bind_Ret by exact Hrun; mdecide; reflexivity).
  cbn beta.
  set (m0 := set_recv_buf None (set_recv (Some (brk w)) m)) in *.
  assert (Hm0 : mqs w0 !! p = Some m0) by (rewrite Hmqs; apply lookup_insert_eq).
  assert (Hg0 : grouped w0 m0) by (intros g Hpg; rewrite Hpolls; apply Hg; exact Hpg).
  destruct (update_poll_group_spec w0 p m0 Hm0 Hg0)
    as (w1 & Hupd & Hmqs1 & Hmsgs1 & _ & Hsocks1 & _ & _ & _ & Hpolls1).
  change (poll_group m0) with (poll_group m) in Hpolls1.
  erewrite bind_Ret by exact Hupd.
  exists w1, s', msg. split; [reflexivity|].
  split; [rewrite Hmqs1; exact Hmqs|]. split; [rewrite Hmsgs1; exact Hmsgs|].
  split; [exact Hty|]. split; [exact Hln|]. split; [exact Hpay|].
  split; [rewrite Hsocks1; exact Hsocks|]. split; [exact Hrest|].
  intros g Hpg. rewrite Hpg in Hpolls1. destruct Hpolls1 as (ps & _ & ->).
  rewrite lookup_insert_eq. eexists. reflexivity.
Qed.

(** X21. [mq_wait] sleeps until the message is there.  On an idle connected
    endpoint, with the deadline not yet passed, the call asks the kernel
    for input only; woken with input ready on the descriptor, it reads
    the message that starts the stream and returns 1, whatever else the
    kernel would report later, and the [mq_recv] that follows hands the
    message over: the type and the length of its header, and its payload
    followed by a zero byte. *)
Theorem wait_delivers_message (w : world) (evs : list pevent) (t : Z)
    (r : Z -> Z) (p : positive) (stoptime : Z) (m : mq) (s : sock) (b : byte)
    (bs : list byte) (tl : list rx_event) (be' : bool) (snd : mq_msg)
    (rest : list byte) :
  mqs w !! p = Some m -> state m = MQ_SOCKET_CONNECTED ->
  recv m = None -> recv_buf m = None -> acc m = None ->
  send_buf m = None -> send m = [] -> grouped w m ->
  now w <= stoptime ->
  has_bit POLLIN (r (link m)) = true ->
  socks w !! link m = Some s -> rx s = RxData b bs :: tl ->
  (16 <= length (b :: bs))%nat ->
  length (hdr snd) = 16%nat -> 0 <= len snd < PTRDIFF_MAX ->
  len snd <= Z.of_nat (length (buf snd)) ->
  rx_bytes (rx s) = wire be' snd ++ rest ->
  poll_events m = POLLIN
  /\ exists w1 w2 s' msg,
       mq_wait (PReady t r :: evs) p stoptime w = Ret 1 w1
       /\ mq_recv p w1 = Ret (Some (brk w)) w2
       /\ msgs w2 !! brk w = Some msg
       /\ type msg = type snd mod 256 /\ len msg = len snd
       /\ buf msg = take (Z.to_nat (len snd)) (buf snd) ++ [x00]
       /\ socks w2 !! link m = Some s' /\ rx_bytes (rx s') = rest.
Proof.
  intros Hm Hst Hr Hrb Ha Hsb Hq Hg Htime Hin Hs Hrx Hb Hl Hlen Hbuf Hstream.
  assert (Hev : poll_events m = POLLIN).
  { unfold poll_events. rewrite Hst, Hsb, Hq, Ha, Hr.
    rewrite !(bool_decide_eq_false_2 (is_Some None)) by (intros [? ?]; discriminate).
    reflexivity. }
  split; [exact Hev|].
  destruct (update_poll_group_spec w p m Hm Hg)
    as (w0 & Hupd & Hmqs0 & Hmsgs0 & _ & Hsocks0 & Hbrk0 & Hnow0 & _ & Hpolls0).
  assert (Hg0 : grouped w0 m).
  { intros g Hpg. rewrite Hpg in Hpolls0. destruct Hpolls0 as (ps & _ & ->).
    rewrite lookup_insert_eq. eexists. reflexivity. }
  set (wt := set_now t w0).
  set (rev := Z.land (r (link m))
                (Z.lor POLLIN (Z.lor POLLERR (Z.lor POLLHUP POLLNVAL)))).
  destruct (has_bit_reported (r (link m))) as [Hrin Hrout].
  fold rev in Hrin, Hrout. rewrite Hin in Hrin.
  destruct (handle_revents_message wt rev p m s b bs tl be' snd rest)
    as (w1 & s' & msg & Hrun & Hmqs1 & Hmsgs1 & Hty & Hln & Hpay & Hsocks1 & Hrest
        & Hg1); try assumption.
  { unfold wt. wsimpl. rewrite Hmqs0. exact Hm. }
  { unfold wt. wsimpl. rewrite Hsocks0. exact Hs. }
  assert (Hbrk : brk wt = brk w) by (unfold wt; wsimpl; exact Hbrk0).
  rewrite Hbrk in Hmqs1, Hmsgs1.
  set (m1 := set_recv_buf None (set_recv (Some (brk w)) m)) in *.
  assert (Hm1 : mqs w1 !! p = Some m1) by (rewrite Hmqs1; apply lookup_insert_eq).
  assert (Hg1' : grouped w1 m1) by exact Hg1.
  destruct (mq_recv_spec w1 p m1 Hm1 Hg1')
    as (w2 & Hrecv & _ & Hmsgs2 & Hsocks2 & _).
  exists w1, w2, s', msg.
  split.
  { unfold mq_wait. mstep. cbn [mq_wait_loop]. unfold mq_wait_turn at 1.
    mstep. cbn [revents fd].
    erewrite bind_Ret
      by (rewrite (handle_revents_zero w p m Hm); erewrite bind_Ret by exact Hupd;
          reflexivity).
    mdecide.
    erewrite bind_Ret by (apply get_mq_Ret; rewrite Hmqs0; exact Hm).
    rewrite Hr, Ha.
    rewrite !(bool_decide_eq_false_2 (is_Some None)) by (intros [? ?]; discriminate).
    cbn [orb]. mrun. rewrite Hnow0.
    rewrite (bool_decide_eq_false_2 (stoptime - now w < 0)) by lia.
    unfold sys_ppoll. mrun. rewrite Hev. cbn [fmap list_fmap].
    unfold report. cbn [fd events]. fold rev.
    assert (Hne : rev <> 0).
    { intros E. rewrite E in Hrin. discriminate Hrin. }
    rewrite filter_cons_True by exact Hne. cbn [filter list_filter length].
    rewrite (bool_decide_eq_true_2 (Z.of_nat 1 > 0)) by lia.
    fold wt.
    assert (Hturn : forall ev continue,
              mq_wait_turn ev continue p stoptime (Pollfd (link m) POLLIN rev) wt
              = Ret 1 w1).
    { intros ev continue. unfold mq_wait_turn.
      erewrite bind_Ret
        by (apply get_mq_Ret; unfold wt; wsimpl; rewrite Hmqs0; exact Hm).
      cbn [revents fd].
      erewrite bind_Ret by exact Hrun.
      mdecide.
      erewrite bind_Ret by (apply get_mq_Ret; exact Hm1).
      rewrite (bool_decide_eq_true_2 (is_Some (recv m1)))
        by (eexists; reflexivity).
      reflexivity. }
    destruct evs as [|ev evs']; cbn [mq_wait_loop]; apply Hturn. }
  split; [exact Hrecv|].
  split; [rewrite Hmsgs2, Hmsgs1; apply lookup_insert_eq|].
  split; [exact Hty|]. split; [exact Hln|]. split; [exact Hpay|].
  split; [rewrite Hsocks2, Hsocks1; apply lookup_insert_eq|exact Hrest].
Qed.

Lemma wait_delivers_message_witness :
  poll_events (Samples.connected_ep (Some 10%positive)) = POLLIN
  /\ exists w1 w2 s' msg,
       mq_wait (PReady 7 (fun _ => Z.lor POLLIN POLLOUT) :: []) 1 10
         (Samples.receiving (Samples.at_once (take 16 Samples.hello_wire)
                             ++ Samples.one_by_one (drop 16 Samples.hello_wire)))
       = Ret 1 w1
       /\ mq_recv 1 w1 = Ret (Some 11%positive) w2
       /\ msgs w2 !! 11%positive = Some msg
       /\ type msg = 0 mod 256 /\ len msg = 5
       /\ buf msg = [x68; x65; x6c; x6c; x6f] ++ [x00]
       /\ socks w2 !! 3 = Some s' /\ rx_bytes (rx s') = [].
Proof.
  apply (wait_delivers_message
           (Samples.receiving (Samples.at_once (take 16 Samples.hello_wire)
                               ++ Samples.one_by_one (drop 16 Samples.hello_wire)))
           [] 7 (fun _ => Z.lor POLLIN POLLOUT) 1 10
           (Samples.connected_ep (Some 10%positive))
           (Sock (Samples.at_once (take 16 Samples.hello_wire)
                  ++ Samples.one_by_one (drop 16 Samples.hello_wire)) [] [] 0 [])
           x44 [x53; x6d; x73; x67; x00; x00; x00; x00; x00; x00; x00; x00; x00; x00; x05]
           (Samples.one_by_one (drop 16 Samples.hello_wire))
           true Samples.hello_msg []).
  - reflexivity.
  - reflexivity.
  - reflexivity.
  - reflexivity.
  - reflexivity.
  - reflexivity.
  - reflexivity.
  - intros g Hg. injection Hg as <-. eexists. reflexivity.
  - cbn. lia.
  - reflexivity.
  - reflexivity.
  - reflexivity.
  - cbn. lia.
  - reflexivity.
  - cbn. unfold PTRDIFF_MAX. lia.
  - cbn. lia.
  - reflexivity.
Defined.
(** ** Closing a server *)

(** [mq_die] on an endpoint without a pending connection, at any depth
    of the recursion. *)
Lemma mq_die_rec_leaf (f : nat) (w : world) (p : positive) (e : Z) (m : mq) :
  mqs w !! p = Some m -> acc m = None -> NoDup (held m) ->
  (forall x, x ∈ held m -> is_Some (msgs w !! x)) -> grouped w m ->
  mq_die_rec (S f) p e w = Ret tt (die_world p e m w).
Proof.
  intros Hm Hacc Hnd Hlive Hg. cbn [mq_die_rec].
  do 2 mstep.
  replace (acc (set_err e (set_state MQ_SOCKET_ERROR m))) with (@None positive)
    by (symmetry; exact Hacc).
  cbn [mq_close_with]. do 2 mstep.
  cbn [send_buf recv_buf recv send poll_group set_err set_state].
  rewrite die_deletes.
  erewrite bind_Ret; [|apply delete_all_spec; [exact Hnd|exact Hlive]].
  unfold die_world.
  destruct (poll_group m) as [g|] eqn:Hpg; [|reflexivity].
  destruct (Hg g Hpg) as [ps Hps]. rewrite Hps.
  do 2 mstep. unfold die_poll.
  destruct (bool_decide (e = 0)).
  - erewrite upd_poll_Ret by mlookup. wsimpl. rewrite !insert_insert_eq. reflexivity.
  - erewrite upd_poll_Ret by mlookup. wsimpl. rewrite !insert_insert_eq. reflexivity.
Qed.

Lemma two_endpoints (w : world) (p c : positive) (m mc : mq) :
  mqs w !! p = Some m -> mqs w !! c = Some mc -> p <> c ->
  exists f, size (mqs w) = S (S f).
Proof.
  intros Hm Hc Hne.
  pose proof (map_size_delete_Some p (mqs w) ltac:(eauto)) as Hd.
  assert (Hnz : size (delete p (mqs w)) <> 0%nat).
  { apply (map_size_ne_0_lookup_2 _ c). rewrite lookup_delete_ne by exact Hne. eauto. }
  destruct (size (mqs w)) as [|[|f]]; cbn in Hd; [lia|lia|]. eauto.
Qed.

(** One level of the recursion of [mq_die]. *)
Lemma mq_die_rec_S (f : nat) (p : positive) (e : Z) :
  mq_die_rec (S f) p e
  = (upd_mq p (fun m => set_err e (set_state MQ_SOCKET_ERROR m));;
     m ← get_mq p;
     mq_close_with (mq_die_rec f) (acc m);;
     m ← get_mq p;
     mq_msg_delete (send_buf m);;
     mq_msg_delete (recv_buf m);;
     mq_msg_delete (recv m);;
     delete_all (send m);;
     match poll_group m with
     | Some g =>
         upd_poll g (fun ps => set_acceptable (acceptable ps ∖ {[p]}) ps);;
         upd_poll g (fun ps => set_readable (readable ps ∖ {[p]}) ps);;
         if bool_decide (e = 0)
         then upd_poll g (fun ps => set_error (error ps ∖ {[p]}) ps)
         else upd_poll g (fun ps => set_error ({[p]} ∪ error ps) ps)
     | None => mret tt
     end).
Proof. reflexivity. Qed.

(** [mq_die] on an endpoint with a pending connection closes it. *)
Lemma mq_die_pending (w : world) (p c : positive) (e : Z) (m mc : mq) :
  mqs w !! p = Some m -> acc m = Some c ->
  held m = [] -> grouped w m ->
  mqs w !! c = Some mc -> p <> c -> acc mc = None -> poll_group mc = None ->
  owns w mc ->
  exists w', mq_die p e w = Ret tt w'
    /\ mqs w' = <[p := set_err e (set_state MQ_SOCKET_ERROR m)]> (delete c (mqs w))
    /\ msgs w' = release (held mc) (msgs w)
    /\ socks w' = delete (link mc) (socks w)
    /\ match poll_group m with
       | None => polls w' = polls w
       | Some g =>
           exists ps, polls w !! g = Some ps
                      /\ polls w' = <[g := die_poll p e ps]> (polls w)
       end.
Proof.
  intros Hm Hacc Hheld Hg Hc Hne Haccc Hpgc (Hnd & Hlive & _).
  destruct (two_endpoints w p c m mc Hm Hc Hne) as [f Hsize].
  unfold mq_die. rewrite Hsize, mq_die_rec_S. do 2 mstep.
  change (acc (set_err e (set_state MQ_SOCKET_ERROR m))) with (acc m).
  rewrite Hacc. unfold mq_close_with. rewrite !bind_assoc_pt.
  set (m1 := set_err e (set_state MQ_SOCKET_ERROR m)).
  set (w1 := set_mqs (<[p := m1]> (mqs w)) w).
  assert (Hc1 : mqs w1 !! c = Some mc).
  { unfold w1. wsimpl. rewrite lookup_insert_ne by exact Hne. exact Hc. }
  erewrite bind_Ret.
  2:{ apply (mq_die_rec_leaf (S f) w1 c 0 mc Hc1 Haccc Hnd).
      - intros x Hx. unfold w1. wsimpl. apply Hlive, Hx.
      - intros g Hpg. rewrite Hpgc in Hpg. discriminate Hpg. }
  cbn beta. unfold die_world. rewrite Hpgc.
  rewrite bind_assoc_pt. mstep.
  cbn [poll_group link set_err set_state]. rewrite Hpgc.
  unfold link_close, free_mq. mrun.
  erewrite bind_Ret.
  2:{ apply get_mq_Ret. unfold w1. wsimpl. rewrite delete_insert_eq.
      rewrite lookup_delete_ne by (intros E; apply Hne; symmetry; exact E).
      apply lookup_insert_eq. }
  cbn beta. rewrite die_deletes.
  change (held m1) with (held m). rewrite Hheld. cbn [delete_all]. mrun.
  change (poll_group m1) with (poll_group m).
  assert (Hmqs : delete c (<[c := set_err 0 (set_state MQ_SOCKET_ERROR mc)]>
                             (<[p := m1]> (mqs w)))
                 = <[p := m1]> (delete c (mqs w))).
  { rewrite delete_insert_eq. apply delete_insert_ne.
    intros E. apply Hne. symmetry. exact E. }
  destruct (poll_group m) as [g|] eqn:Hpg.
  - destruct (Hg g Hpg) as [ps Hps]. do 2 mstep. unfold die_poll.
    destruct (bool_decide (e = 0)).
    + erewrite upd_poll_Ret by mlookup. eexists. split; [reflexivity|].
      unfold w1. wsimpl. split; [exact Hmqs|]. split; [reflexivity|].
      split; [reflexivity|]. exists ps. split; [exact Hps|].
      rewrite !insert_insert_eq. reflexivity.
    + erewrite upd_poll_Ret by mlookup. eexists. split; [reflexivity|].
      unfold w1. wsimpl. split; [exact Hmqs|]. split; [reflexivity|].
      split; [reflexivity|]. exists ps. split; [exact Hps|].
      rewrite !insert_insert_eq. reflexivity.
  - eexists. split; [reflexivity|]. unfold w1. wsimpl.
    split; [exact Hmqs|]. repeat split; reflexivity.
Qed.

(** X22. Closing a server closes the connection it has accepted but not yet
    handed over.  The pending endpoint [acc], which no caller has seen,
    is closed with the server that holds no messages of its own: the
    messages of the pending endpoint are freed, its socket is closed and
    its memory is released, and then the server itself is taken out of
    its poll group, closed and released. *)
Theorem close_server_closes_pending (w : world) (p c : positive) (m mc : mq) :
  mqs w !! p = Some m -> acc m = Some c -> held m = [] -> grouped w m ->
  mqs w !! c = Some mc -> p <> c -> acc mc = None -> poll_group mc = None ->
  owns w mc ->
  exists w', mq_close (Some p) w = Ret tt w'
    /\ mqs w' = delete p (delete c (mqs w))
    /\ msgs w' = release (held mc) (msgs w)
    /\ (forall x, x ∈ held mc -> msgs w' !! x = None)
    /\ socks w' = delete (link m) (delete (link mc) (socks w))
    /\ match poll_group m with
       | None => polls w' = polls w
       | Some g =>
           exists ps, polls w !! g = Some ps
             /\ polls w'
                = <[g := MqPoll (delete p (members ps)) (acceptable ps ∖ {[p]})
                                (readable ps ∖ {[p]}) (error ps ∖ {[p]})]> (polls w)
       end.
Proof.
  intros Hm Hacc Hheld Hg Hc Hne Haccc Hpgc Hown.
  destruct (mq_die_pending w p c 0 m mc Hm Hacc Hheld Hg Hc Hne Haccc Hpgc Hown)
    as (w1 & Hdie & Hmqs & Hmsgs & Hsocks & Hpolls).
  set (m1 := set_err 0 (set_state MQ_SOCKET_ERROR m)) in *.
  unfold mq_close, mq_close_with.
  erewrite bind_Ret by exact Hdie.
  erewrite bind_Ret by (apply get_mq_Ret; rewrite Hmqs; apply lookup_insert_eq).
  cbn beta iota. change (poll_group m1) with (poll_group m).
  change (link m1) with (link m).
  destruct (poll_group m) as [g|] eqn:Hpg.
  - destruct Hpolls as (ps & Hps & Hpolls).
    erewrite bind_Ret
      by (apply upd_poll_Ret; rewrite Hpolls; apply lookup_insert_eq).
    unfold link_close, free_mq. mrun.
    erewrite bind_Ret by (apply get_mq_Ret; wsimpl; rewrite Hmqs; apply lookup_insert_eq).
    mrun. eexists. split; [reflexivity|]. wsimpl.
    split; [rewrite Hmqs; apply delete_insert_eq|].
    split; [exact Hmsgs|].
    split; [intros x Hx; rewrite Hmsgs; apply lookup_release_in, Hx|].
    split; [rewrite Hsocks; reflexivity|].
    exists ps. split; [exact Hps|]. rewrite Hpolls, insert_insert_eq.
    unfold die_poll. rewrite bool_decide_eq_true_2 by reflexivity. reflexivity.
  - unfold link_close, free_mq. mrun.
    erewrite bind_Ret by (apply get_mq_Ret; wsimpl; rewrite Hmqs; apply lookup_insert_eq).
    mrun. eexists. split; [reflexivity|]. wsimpl.
    split; [rewrite Hmqs; apply delete_insert_eq|].
    split; [exact Hmsgs|].
    split; [intros x Hx; rewrite Hmsgs; apply lookup_release_in, Hx|].
    split; [rewrite Hsocks; reflexivity|exact Hpolls].
Qed.


Lemma close_server_closes_pending_witness :
  exists w', mq_close (Some 1%positive) Samples.pending_server = Ret tt w'
    /\ mqs w' = delete 1%positive (delete 2%positive (mqs Samples.pending_server))
    /\ msgs w' = release [] (msgs Samples.pending_server)
    /\ (forall x, x ∈ @nil positive -> msgs w' !! x = None)
    /\ socks w' = delete 3 (delete 5 (socks Samples.pending_server))
    /\ exists ps, polls Samples.pending_server !! 10%positive = Some ps
         /\ polls w'
            = <[10%positive :=
                  MqPoll (delete 1%positive (members ps))
                         (acceptable ps ∖ {[1%positive]})
                         (readable ps ∖ {[1%positive]})
                         (error ps ∖ {[1%positive]})]>
                (polls Samples.pending_server).
Proof.
  apply (close_server_closes_pending Samples.pending_server 1 2
           (Mq 3 MQ_SOCKET_SERVER (Some 2%positive) [] 0 None None None
               (Some 10%positive))
           (Mq 5 MQ_SOCKET_CONNECTED None [] 0 None None None None)).
  - reflexivity.
  - reflexivity.
  - reflexivity.
  - intros g Hg. injection Hg as <-. eexists. reflexivity.
  - reflexivity.
  - discriminate.
  - reflexivity.
  - reflexivity.
  - split; [|split].
    + apply NoDup_nil_2.
    + intros x Hx. apply elem_of_nil in Hx. destruct Hx.
    + reflexivity.
Defined.
(** ** A wait that ends without an event *)

(** X23. [mq_wait] without news.  On an endpoint in any state with nothing
    to pick up, before the deadline: if nothing wakes the [ppoll], the
    call returns 0 at the deadline; if [ppoll] fails, the call returns 0
    for an interrupted call ([EINTR]) and -1 for any other error.  A
    failure of [ppoll] is not recorded in the endpoint: its state and
    its error code are as before, and nothing is read or written. *)
Theorem wait_without_news (w : world) (p : positive) (stoptime : Z) (m : mq) :
  mqs w !! p = Some m -> recv m = None -> acc m = None -> grouped w m ->
  now w <= stoptime ->
  (exists w', mq_wait [] p stoptime w = Ret 0 w'
     /\ now w' = stoptime
     /\ mqs w' = mqs w /\ msgs w' = msgs w /\ socks w' = socks w)
  /\ (forall t e evs,
        exists w', mq_wait (PFail t e :: evs) p stoptime w
                   = Ret (if bool_decide (e = EINTR) then 0 else -1) w'
          /\ errno w' = e
          /\ mqs w' = mqs w /\ msgs w' = msgs w /\ socks w' = socks w).
Proof.
  intros Hm Hr Ha Hg Htime.
  destruct (update_poll_group_spec w p m Hm Hg)
    as (w0 & Hupd & Hmqs0 & Hmsgs0 & _ & Hsocks0 & _ & Hnow0 & _).
  assert (Hturn : forall ev continue,
            mq_wait_turn ev continue p stoptime (Pollfd (link m) 0 0) w
            = (let pfd := Pollfd (link m) (poll_events m) 0 in
               '(rc, pfds) ← sys_ppoll ev [pfd] (stoptime - now w);
               if bool_decide (rc > 0) then
                 match pfds with
                 | f :: _ => continue f
                 | [] => fault
                 end
               else
                 e ← gets errno;
                 if bool_decide (rc = 0)
                    || (bool_decide (rc = -1) && bool_decide (e = EINTR))
                 then mret 0 else mret (-1)) w0).
  { intros ev continue. unfold mq_wait_turn. mstep. cbn [revents fd].
    erewrite bind_Ret
      by (rewrite (handle_revents_zero w p m Hm); erewrite bind_Ret by exact Hupd;
          reflexivity).
    mdecide.
    erewrite bind_Ret by (apply get_mq_Ret; rewrite Hmqs0; exact Hm).
    rewrite Hr, Ha.
    rewrite !(bool_decide_eq_false_2 (is_Some None)) by (intros [? ?]; discriminate).
    cbn [orb]. mrun. rewrite Hnow0.
    rewrite (bool_decide_eq_false_2 (stoptime - now w < 0)) by lia.
    reflexivity. }
  split.
  - unfold mq_wait. mstep. cbn [mq_wait_loop]. rewrite Hturn. cbn zeta.
    unfold sys_ppoll. mrun. mdecide. mrun.
    eexists. split; [reflexivity|]. wsimpl.
    split; [rewrite Hnow0; lia|]. repeat split; assumption.
  - intros t e evs. unfold mq_wait. mstep. cbn [mq_wait_loop]. rewrite Hturn.
    cbn zeta. unfold sys_ppoll. mrun. mdecide. mrun. cbn [orb andb].
    cbn [errno set_errno].
    destruct (bool_decide (e = EINTR));
      (eexists; split; [reflexivity|]; wsimpl; split; [reflexivity|];
       repeat split; assumption).
Qed.

Lemma wait_without_news_witness :
  (exists w', mq_wait [] 1 10 (Samples.connecting 0) = Ret 0 w'
     /\ now w' = 10
     /\ mqs w' = mqs (Samples.connecting 0) /\ msgs w' = msgs (Samples.connecting 0)
     /\ socks w' = socks (Samples.connecting 0))
  /\ (forall t e evs,
        exists w', mq_wait (PFail t e :: evs) 1 10 (Samples.connecting 0)
                   = Ret (if bool_decide (e = EINTR) then 0 else -1) w'
          /\ errno w' = e
          /\ mqs w' = mqs (Samples.connecting 0)
          /\ msgs w' = msgs (Samples.connecting 0)
          /\ socks w' = socks (Samples.connecting 0)).
Proof.
  apply (wait_without_news (Samples.connecting 0) 1 10
           (Mq 3 MQ_SOCKET_INPROGRESS None [] 0 None None None (Some 10%positive))).
  - reflexivity.
  - reflexivity.
  - reflexivity.
  - intros g Hg. injection Hg as <-. eexists. reflexivity.
  - cbn. lia.
Defined.
(** ** What a wait on a poll group returns *)

(** *** The first pass cannot fail *)

Lemma handle_revents_zero_rc (p : positive) (w w' : world) (rc : Z) :
  handle_revents 0 p w = Ret rc w' -> rc = 0.
Proof.
  intros H.
  assert (Hm : exists m, mqs w !! p = Some m).
  { unfold handle_revents in H. apply bind_inv in H as (m & w0 & Hg & _).
    apply get_mq_inv in Hg as [_ Hm]. eauto. }
  destruct Hm as [m Hm]. rewrite (handle_revents_zero w p m Hm) in H.
  apply bind_inv in H as (u & w0 & _ & H). injection H as <- _. reflexivity.
Qed.

Lemma poll_pass_quiet (keys : list positive) :
  forall (pfds : list pollfd) (w w1 : world) (failed : bool) (pfds1 : list pollfd),
    Forall (fun f => revents f = 0) pfds ->
    poll_pass keys pfds w = Ret (failed, pfds1) w1 -> failed = false.
Proof.
  induction keys as [|k keys IH]; intros pfds w w1 failed pfds1 Hz H;
    cbn [poll_pass] in H.
  - injection H as <- _ _. reflexivity.
  - destruct pfds as [|f fs]; [discriminate H|].
    apply Forall_cons in Hz as [Hf Hfs].
    apply bind_inv in H as (m & w0 & Hg & H). cbn [revents] in H.
    apply bind_inv in H as (rc & w2 & Hh & H).
    rewrite Hf in Hh. apply handle_revents_zero_rc in Hh. subst rc.
    rewrite (bool_decide_eq_false_2 (0 = -1)) in H by lia.
    apply bind_inv in H as ([failed' fs'] & w3 & Hp & H).
    injection H as <- _ _. exact (IH fs w2 w3 failed' fs' Hfs Hp).
Qed.

(** *** The member at which a pass stops *)

Lemma poll_pass_failed (keys : list positive) :
  forall (pfds : list pollfd) (w w1 : world) (pfds1 : list pollfd),
    poll_pass keys pfds w = Ret (true, pfds1) w1 ->
    exists k r w0, k ∈ keys /\ handle_revents r k w0 = Ret (-1) w1.
Proof.
  induction keys as [|k keys IH]; intros pfds w w1 pfds1 H; cbn [poll_pass] in H.
  - discriminate H.
  - destruct pfds as [|f fs]; [discriminate H|].
    apply bind_inv in H as (m & w0 & Hg & H). apply get_mq_inv in Hg as [-> _].
    cbn [revents] in H.
    apply bind_inv in H as (rc & w2 & Hh & H).
    destruct (bool_decide (rc = -1)) eqn:E.
    + injection H as _ <-. apply bool_decide_eq_true_1 in E. subst rc.
      exists k, (revents f), w. split; [apply elem_of_cons; left; reflexivity|exact Hh].
    + apply bind_inv in H as ([failed' fs'] & w3 & Hp & H).
      injection H as -> _ <-.
      destruct (IH fs w2 w3 fs' Hp) as (k' & r & w0' & Hin & Hrun).
      exists k', r, w0'. split; [apply elem_of_cons; right; exact Hin|exact Hrun].
Qed.

(** *** An endpoint that dies is in state ERROR *)

Section Endpoints_only.
Variable I : world -> Prop.
Hypothesis I_mqs : forall w w', mqs w' = mqs w -> I w -> I w'.

Lemma only_keeps {A : Type} (c : M A) : keeps_mqs c -> preserves I c.
Proof. intros Hc w a w' HI H. exact (I_mqs w w' (Hc w a w' H) HI). Qed.

Lemma only_mq_msg_delete o : preserves I (mq_msg_delete o).
Proof.
  unfold mq_msg_delete, delete_msg.
  destruct o; [apply only_keeps, keeps_free_msg|apply preserves_mret].
Qed.

Lemma only_delete_all l : preserves I (delete_all l).
Proof.
  induction l as [|x l IH]; cbn [delete_all]; [apply preserves_mret|].
  apply preserves_bind; [apply only_mq_msg_delete|intros _; exact IH].
Qed.
End Endpoints_only.

Lemma dead_mqs (k : positive) w w' : mqs w' = mqs w -> dead k w -> dead k w'.
Proof. intros E H m Hm. rewrite E in Hm. exact (H m Hm). Qed.

Lemma dead_upd_mq (k p : positive) (e : Z) :
  preserves (dead k) (upd_mq p (fun m => set_err e (set_state MQ_SOCKET_ERROR m))).
Proof.
  intros w a w' HI H. apply upd_mq_inv in H as (m & Hm & ->).
  intros m' Hm'. cbn [mqs set_mqs] in Hm'.
  apply lookup_insert_Some in Hm' as [[_ <-]|[_ Hm']]; [reflexivity|exact (HI m' Hm')].
Qed.

Lemma dead_free_mq (k p : positive) : preserves (dead k) (free_mq p).
Proof.
  intros w a w' HI H. unfold free_mq in H. apply bind_inv in H as (m & w0 & Hg & H).
  apply get_mq_inv in Hg as [-> _]. injection H as _ <-.
  intros m' Hm'. cbn [mqs set_mqs] in Hm'.
  apply lookup_delete_Some in Hm' as [_ Hm']. exact (HI m' Hm').
Qed.

(** The computations that change nothing. *)
Ltac pres_prim :=
  first [ apply preserves_mret | apply preserves_gets | apply preserves_abort
        | apply preserves_fault | apply preserves_stuck | apply preserves_assert
        | apply preserves_deref | apply preserves_get_mq | apply preserves_get_msg
        | apply preserves_get_poll | solve [auto] ].

Ltac dead_step :=
  lazymatch goal with
  | |- preserves _ (_ ≫= _) => apply preserves_bind; [|intros ?]
  | |- preserves _ (upd_mq _ _) => apply dead_upd_mq
  | |- preserves _ (free_mq _) => apply dead_free_mq
  | |- preserves _ (mq_msg_delete _) => apply only_mq_msg_delete, dead_mqs
  | |- preserves _ (delete_all _) => apply only_delete_all, dead_mqs
  | |- preserves _ (upd_poll _ _) => apply (only_keeps _ (dead_mqs _)), keeps_upd_poll
  | |- preserves _ (link_close _) => apply (only_keeps _ (dead_mqs _)), keeps_link_close
  | |- preserves _ (if ?b then _ else _) => destruct b
  | |- preserves _ (match ?x with _ => _ end) => destruct x
  | |- preserves _ _ => pres_prim
  end.

Lemma dead_mq_close_with (k : positive) die o :
  (forall p e, preserves (dead k) (die p e)) ->
  preserves (dead k) (mq_close_with die o).
Proof. intros Hd. unfold mq_close_with. repeat dead_step. Qed.

Lemma dead_mq_die_rec (k : positive) fuel p e :
  preserves (dead k) (mq_die_rec fuel p e).
Proof.
  revert p e. induction fuel as [|fuel IH]; intros p e; cbn [mq_die_rec];
    [apply preserves_stuck|].
  pose proof (dead_mq_close_with k (mq_die_rec fuel)) as Hc.
  repeat dead_step.
Qed.

(** The endpoint that [mq_die] is called on is allocated and in state
    ERROR when the call returns. *)
Lemma mq_die_dead (k : positive) (e : Z) (w w' : world) :
  mq_die k e w = Ret tt w' ->
  exists m', mqs w' !! k = Some m' /\ state m' = MQ_SOCKET_ERROR.
Proof.
  unfold mq_die. rewrite mq_die_rec_S. intros H.
  apply bind_inv in H as ([] & wa & Hu & H).
  assert (Hda : dead k wa).
  { apply upd_mq_inv in Hu as (m & Hm & ->). intros m' Hm'. cbn [mqs set_mqs] in Hm'.
    rewrite lookup_insert_eq in Hm'. injection Hm' as <-. reflexivity. }
  apply bind_inv in H as (m1 & wa' & Hg & H). apply get_mq_inv in Hg as [-> Hm1].
  apply bind_inv in H as ([] & wb & Hc & H).
  assert (Hdb : dead k wb).
  { refine (dead_mq_close_with k _ _ _ wa tt wb Hda Hc).
    intros p e'. apply dead_mq_die_rec. }
  apply bind_inv in H as (m2 & wb' & Hg & H). apply get_mq_inv in Hg as [-> Hm2].
  exists m2. split; [|exact (Hdb m2 Hm2)].
  assert (Hsame : forall w w', mqs w' = mqs w -> (fun w => mqs w !! k = Some m2) w
                               -> (fun w => mqs w !! k = Some m2) w').
  { intros v v' E Hv. cbn beta in *. rewrite E. exact Hv. }
  match type of H with
  | ?c wb = _ => assert (Hp : preserves (fun w => mqs w !! k = Some m2) c)
  end; [|exact (Hp wb tt w' Hm2 H)].
  repeat lazymatch goal with
  | |- preserves _ (_ ≫= _) => apply preserves_bind; [|intros ?]
  | |- preserves _ (mq_msg_delete _) => apply only_mq_msg_delete, Hsame
  | |- preserves _ (delete_all _) => apply only_delete_all, Hsame
  | |- preserves _ (upd_poll _ _) => apply (only_keeps _ Hsame), keeps_upd_poll
  | |- preserves _ (if ?b then _ else _) => destruct b
  | |- preserves _ (match ?x with _ => _ end) => destruct x
  | |- preserves _ _ => pres_prim
  end.
Qed.

(** A computation that returns another value than the one at hand. *)
Ltac mabsurd H := injection H; intros; first [discriminate | lia].

(** A wake-up that returns -1 has called [mq_die]. *)
Lemma handle_revents_died (r : Z) (k : positive) (w w1 : world) :
  handle_revents r k w = Ret (-1) w1 ->
  exists e wa w2, mq_die k e wa = Ret tt w2 /\ update_poll_group k w2 = Ret tt w1.
Proof.
  intros H. unfold handle_revents in H.
  apply bind_inv in H as (m & w0 & Hg & H). apply get_mq_inv in Hg as [-> Hm].
  apply bind_inv in H as (rc & w2 & Hbody & H).
  apply bind_inv in H as ([] & w3 & Hupd & H). injection H as -> <-.
  destruct (state m).
  - destruct (has_bit POLLIN r); [|mabsurd Hbody].
    repeat (apply bind_inv in Hbody as (? & ? & _ & Hbody)). mabsurd Hbody.
  - destruct (has_bit POLLOUT r); [|mabsurd Hbody].
    apply bind_inv in Hbody as ([rc0 e0] & wa & _ & Hbody).
    apply bind_inv in Hbody as ([] & wb & Ha & Hbody).
    apply assert_inv in Ha as [-> Ha]. apply bool_decide_eq_true_1 in Ha. subst rc0.
    apply bind_inv in Hbody as ([] & wc & _ & Hbody). mabsurd Hbody.
  - apply bind_inv in Hbody as (rc1 & wa & _ & Hbody).
    destruct (bool_decide (rc1 = -1)) eqn:E1.
    + apply bind_inv in Hbody as (e & wb & He & Hbody). injection He as <- <-.
      apply bind_inv in Hbody as ([] & wc & Hd & Hbody). injection Hbody as _ <-.
      eauto.
    + apply bind_inv in Hbody as (rc2 & wb & _ & Hbody).
      destruct (bool_decide (rc2 = -1)) eqn:E2.
      * apply bind_inv in Hbody as (e & wc & He & Hbody). injection He as <- <-.
        apply bind_inv in Hbody as ([] & wd & Hd & Hbody). injection Hbody as _ <-.
        eauto.
      * injection Hbody as -> _. apply bool_decide_eq_false_1 in E2.
        exfalso. apply E2. reflexivity.
  - mabsurd Hbody.
Qed.

(** The endpoint whose wake-up returns -1 is then in state ERROR and in
    the error set of the poll group it points to. *)
Lemma handle_revents_failed (r : Z) (k : positive) (w w1 : world) :
  handle_revents r k w = Ret (-1) w1 ->
  exists mk, mqs w1 !! k = Some mk /\ state mk = MQ_SOCKET_ERROR
    /\ forall g, poll_group mk = Some g ->
         exists ps, polls w1 !! g = Some ps /\ k ∈ error ps.
Proof.
  intros H. apply handle_revents_died in H as (e & wa & w2 & Hdie & Hupd).
  apply mq_die_dead in Hdie as (m2 & Hm2 & Hst).
  assert (Hg : grouped w2 m2).
  { intros g Hpg. unfold update_poll_group in Hupd.
    apply bind_inv in Hupd as (m & w0 & Hget & Hupd).
    apply get_mq_inv in Hget as [-> Hm]. rewrite Hm2 in Hm. injection Hm as <-.
    rewrite Hpg, (bool_decide_eq_true_2 _ Hst) in Hupd.
    apply bind_inv in Hupd as ([] & w3 & Hu & _).
    apply upd_poll_inv in Hu as (ps & Hps & _). eauto. }
  destruct (update_poll_group_error w2 k m2 Hm2 Hst Hg)
    as (w' & Hup & Hmqs & _ & _ & _ & Herr).
  rewrite Hupd in Hup. injection Hup as <-.
  exists m2. split; [rewrite Hmqs; exact Hm2|]. split; [exact Hst|exact Herr].
Qed.

(** *** A member keeps pointing to its poll group during a pass *)

Lemma stays_same (k g : positive) w w' :
  mqs w' = mqs w -> brk w' = brk w -> stays k g w -> stays k g w'.
Proof. intros Em Eb [Hb Hp]. split; [rewrite Eb; exact Hb|rewrite Em; exact Hp]. Qed.

Lemma stays_keeps_heap (k g : positive) {A : Type} (c : M A) :
  keeps_heap c -> preserves (stays k g) c.
Proof.
  intros Hc w a w' HI H. destruct (Hc w a w' H) as (Em & _ & Eb).
  exact (stays_same k g w w' Em Eb HI).
Qed.

Lemma stays_upd_poll (k g p : positive) f : preserves (stays k g) (upd_poll p f).
Proof.
  intros w a w' HI H. apply upd_poll_inv in H as (ps & _ & ->).
  exact (stays_same k g w _ eq_refl eq_refl HI).
Qed.

Lemma stays_upd_mq (k g p : positive) f :
  (forall m, poll_group (f m) = poll_group m) -> preserves (stays k g) (upd_mq p f).
Proof.
  intros Hf w a w' [Hb Hp] H. apply upd_mq_inv in H as (m & Hm & ->).
  split; [exact Hb|]. intros m' Hm'. cbn [mqs set_mqs] in Hm'.
  apply lookup_insert_Some in Hm' as [[<- <-]|[_ Hm']].
  - rewrite Hf. exact (Hp m Hm).
  - exact (Hp m' Hm').
Qed.

Lemma stays_free_mq (k g p : positive) : preserves (stays k g) (free_mq p).
Proof.
  intros w a w' [Hb Hp] H. unfold free_mq in H.
  apply bind_inv in H as (m & w0 & Hg & H).
  apply get_mq_inv in Hg as [-> _]. injection H as _ <-.
  split; [exact Hb|]. intros m' Hm'. cbn [mqs set_mqs] in Hm'.
  apply lookup_delete_Some in Hm' as [_ Hm']. exact (Hp m' Hm').
Qed.

Lemma stays_msg_create (k g : positive) : preserves (stays k g) msg_create.
Proof.
  intros w a w' [Hb Hp] H. unfold msg_create in H. munfold. injection H as _ <-.
  split; [cbn [brk set_brk set_msgs]; lia|exact Hp].
Qed.

Lemma stays_mq_create (k g : positive) : preserves (stays k g) mq_create.
Proof.
  intros w a w' [Hb Hp] H. unfold mq_create in H. munfold. injection H as _ <-.
  split; [cbn [brk set_brk set_mqs]; lia|].
  intros m' Hm'. cbn [mqs set_mqs set_brk] in Hm'.
  apply lookup_insert_Some in Hm' as [[E _]|[_ Hm']]; [lia|exact (Hp m' Hm')].
Qed.

Ltac stays_step :=
  lazymatch goal with
  | |- preserves _ (_ ≫= _) => apply preserves_bind; [|intros ?]
  | |- preserves _ (upd_mq _ _) => apply stays_upd_mq; intros; reflexivity
  | |- preserves _ (upd_poll _ _) => apply stays_upd_poll
  | |- preserves _ (upd_msg _ _) => apply stays_keeps_heap, heap_upd_msg
  | |- preserves _ (free_msg _) => apply stays_keeps_heap, heap_free_msg
  | |- preserves _ (free_mq _) => apply stays_free_mq
  | |- preserves _ msg_create => apply stays_msg_create
  | |- preserves _ mq_create => apply stays_mq_create
  | |- preserves _ (sys_send _ _ _ _) => apply stays_keeps_heap, heap_sys_send
  | |- preserves _ (sys_recv _ _) => apply stays_keeps_heap, heap_sys_recv
  | |- preserves _ (sys_getsockopt_error _) =>
      apply stays_keeps_heap, heap_sys_getsockopt_error
  | |- preserves _ (link_accept _) => apply stays_keeps_heap, heap_link_accept
  | |- preserves _ (link_close _) => apply stays_keeps_heap, heap_link_close
  | |- preserves _ (if ?b then _ else _) => destruct b
  | |- preserves _ (match ?x with _ => _ end) => destruct x
  | |- preserves _ _ => pres_prim
  end.

Ltac stays_auto := repeat stays_step.

Lemma stays_mq_msg_delete (k g : positive) o : preserves (stays k g) (mq_msg_delete o).
Proof. unfold mq_msg_delete, delete_msg. stays_auto. Qed.

Lemma stays_delete_all (k g : positive) l : preserves (stays k g) (delete_all l).
Proof.
  induction l as [|x l IH]; cbn [delete_all]; [apply preserves_mret|].
  apply preserves_bind; [apply stays_mq_msg_delete|intros _; exact IH].
Qed.

Lemma stays_mq_close_with (k g : positive) die o :
  (forall p e, preserves (stays k g) (die p e)) ->
  preserves (stays k g) (mq_close_with die o).
Proof. intros Hd. unfold mq_close_with. stays_auto. Qed.

Lemma stays_mq_die_rec (k g : positive) fuel p e :
  preserves (stays k g) (mq_die_rec fuel p e).
Proof.
  revert p e. induction fuel as [|fuel IH]; intros p e; cbn [mq_die_rec];
    [apply preserves_stuck|].
  pose proof (fun o => stays_mq_close_with k g (mq_die_rec fuel) o IH) as Hc.
  pose proof (stays_mq_msg_delete k g) as Hm.
  pose proof (stays_delete_all k g) as Hl.
  stays_auto.
Qed.

Lemma stays_mq_die (k g : positive) p e : preserves (stays k g) (mq_die p e).
Proof. intros w a w' HI H. exact (stays_mq_die_rec k g _ p e w a w' HI H). Qed.

Lemma stays_flush_send_loop (k g : positive) fuel p :
  preserves (stays k g) (flush_send_loop fuel p).
Proof.
  induction fuel as [|fuel IH]; cbn [flush_send_loop]; [apply preserves_stuck|].
  unfold delete_msg. stays_auto.
Qed.

Lemma stays_flush_send (k g : positive) p : preserves (stays k g) (flush_send p).
Proof. intros w a w' HI H. exact (stays_flush_send_loop k g _ p w a w' HI H). Qed.

Lemma stays_flush_recv_loop (k g : positive) fuel p :
  preserves (stays k g) (flush_recv_loop fuel p).
Proof.
  induction fuel as [|fuel IH]; cbn [flush_recv_loop]; [apply preserves_stuck|].
  stays_auto.
Qed.

Lemma stays_flush_recv (k g : positive) p : preserves (stays k g) (flush_recv p).
Proof. intros w a w' HI H. exact (stays_flush_recv_loop k g _ p w a w' HI H). Qed.

Lemma stays_update_poll_group (k g : positive) p :
  preserves (stays k g) (update_poll_group p).
Proof. unfold update_poll_group. stays_auto. Qed.

Lemma stays_handle_revents (k g : positive) r p :
  preserves (stays k g) (handle_revents r p).
Proof.
  pose proof (stays_mq_die k g) as Hd.
  pose proof (stays_flush_send k g) as Hs.
  pose proof (stays_flush_recv k g) as Hr.
  pose proof (stays_update_poll_group k g) as Hu.
  unfold handle_revents. stays_auto.
Qed.

Lemma stays_poll_pass (k g : positive) keys :
  forall pfds, preserves (stays k g) (poll_pass keys pfds).
Proof.
  pose proof (stays_handle_revents k g) as Hh.
  induction keys as [|q keys IH]; intros pfds; cbn [poll_pass]; stays_auto.
Qed.

(** *** The turns of the wait *)

Lemma member_pass_inv g pfds w failed pfds1 w1 :
  member_pass g pfds w = Ret (failed, pfds1) w1 ->
  exists ps, polls w !! g = Some ps
    /\ poll_pass (fst <$> map_to_list (members ps)) pfds w = Ret (failed, pfds1) w1.
Proof.
  intros H. unfold member_pass in H. apply bind_inv in H as (ps & w0 & Hps & H).
  apply get_poll_inv in Hps as [-> Hps]. eauto.
Qed.

Lemma bind_cong_pt {A B : Type} (c c' : M A) (k : A -> M B) (w w1 : world) :
  c w = c' w1 -> (c ≫= k) w = (c' ≫= k) w1.
Proof. intros H. unfold mbind, M_bind. rewrite H. reflexivity. Qed.

(** A turn of the loop, after its pass over the members. *)
Lemma turn_after_pass ev continue g stoptime pfds w failed pfds1 w1 :
  member_pass g pfds w = Ret (failed, pfds1) w1 ->
  mq_poll_wait_turn ev continue g stoptime pfds w
  = (if failed then mret (-1)
     else
       ps ← get_poll g;
       let rc := ready_count ps in
       if bool_decide (rc > 0) then mret rc else
       t ← gets now;
       if bool_decide (stoptime - t < 0) then mret 0 else
       '(rc, pfds2) ← sys_ppoll ev pfds1 (stoptime - t);
       if bool_decide (rc > 0) then continue pfds2 else mret rc) w1.
Proof.
  intros H. apply member_pass_inv in H as (ps & Hps & Hpass).
  unfold mq_poll_wait_turn.
  erewrite bind_Ret by (apply get_poll_Ret; exact Hps).
  erewrite bind_Ret by exact Hpass. cbn beta iota.
  destruct failed; reflexivity.
Qed.

Lemma wait_from_after_pass evs g stoptime pfds w failed pfds1 w1 :
  member_pass g pfds w = Ret (failed, pfds1) w1 ->
  wait_from evs g stoptime pfds w
  = ((if failed then mret (-1)
      else
        ps ← get_poll g;
        let rc := ready_count ps in
        if bool_decide (rc > 0) then mret rc else
        t ← gets now;
        if bool_decide (stoptime - t < 0) then mret 0 else
        '(rc, pfds2) ← sys_ppoll (head evs) pfds1 (stoptime - t);
        if bool_decide (rc > 0)
        then match evs with
             | [] => stuck
             | _ :: rest => mq_poll_wait_loop rest g stoptime pfds2
             end
        else mret rc)
     ≫= fun rc =>
       e ← gets errno;
       if bool_decide (rc >= 0) then mret rc
       else if bool_decide (rc = -1) && bool_decide (e = EINTR) then mret 0
       else mret (-1)) w1.
Proof.
  intros H. unfold wait_from. apply bind_cong_pt.
  destruct evs as [|ev rest]; cbn [mq_poll_wait_loop head];
    rewrite (turn_after_pass _ _ g stoptime pfds w failed pfds1 w1 H);
    reflexivity.
Qed.

Lemma member_stays (w : world) (g k : positive) (ps : mq_poll) :
  wf w -> polls w !! g = Some ps -> k ∈ fst <$> map_to_list (members ps) ->
  stays k g w.
Proof.
  intros [Hl Hmem Hbm _] Hps Hk.
  apply list_elem_of_fmap in Hk as ([k' v] & -> & Hin). cbn [fst].
  apply elem_of_map_to_list in Hin.
  assert (Hmember : is_Some (members ps !! k')) by eauto.
  pose proof (Hmem g ps k' Hps Hmember) as Halloc.
  split; [exact (Hbm k' Halloc)|].
  intros m Hm. apply (Hl k' m g Hm). exists ps. auto.
Qed.

Lemma ready_count_error (ps : mq_poll) (k : positive) :
  k ∈ error ps -> 0 < ready_count ps.
Proof.
  intros Hk. unfold ready_count.
  assert (size (error ps) <> 0%nat).
  { apply size_non_empty_iff. intros E. rewrite E in Hk. set_solver. }
  lia.
Qed.

(** C4 (as amended). What [mq_poll_wait] returns, turn by turn.  A turn
    of its loop (the first one, on the zeroed array, or one that follows
    a wake-up of [ppoll]) begins with a pass over the members.  The
    first pass cannot fail.  If [handle_revents] fails for a member, the
    wait ends there with -1 (0 when [errno] is [EINTR]), although that
    member is then in state ERROR and in the error set of the group,
    whose readiness sets are therefore not empty.  If no member fails,
    the wait returns the combined size of the three readiness sets when
    that is positive; otherwise 0 when the deadline has passed;
    otherwise it sleeps in [ppoll] and returns 0 on a timeout, 0 when
    the call is interrupted ([EINTR]) and -1 on any other failure of
    [ppoll], 0 when [ppoll] reports nothing, and takes another turn,
    on the array as [ppoll] left it, when [ppoll] reports something.
    [mq_poll_wait] is the wait from the first turn on; whenever the
    wait returns, the value is a positive number, which then is the
    combined size of the readiness sets at that time, or 0, or -1 with
    [errno] other than [EINTR]; and the bookkeeping of the poll groups,
    sound at the beginning of a turn, is sound at the next one. *)
Theorem poll_wait_result (evs : list pevent) (g : positive) (stoptime : Z)
    (pfds : list pollfd) (w w1 : world) (failed : bool) (pfds1 : list pollfd) :
  wf w ->
  member_pass g pfds w = Ret (failed, pfds1) w1 ->
  (Forall (fun f => revents f = 0) pfds -> failed = false)
  /\ (failed = true ->
        wait_from evs g stoptime pfds w
        = Ret (if bool_decide (errno w1 = EINTR) then 0 else -1) w1
        /\ exists k mk ps1,
             mqs w1 !! k = Some mk /\ state mk = MQ_SOCKET_ERROR
             /\ polls w1 !! g = Some ps1 /\ k ∈ error ps1
             /\ 0 < ready_count ps1)
  /\ (failed = false -> forall ps1, polls w1 !! g = Some ps1 ->
        (0 < ready_count ps1 ->
           wait_from evs g stoptime pfds w = Ret (ready_count ps1) w1)
        /\ (ready_count ps1 = 0 -> stoptime - now w1 < 0 ->
              wait_from evs g stoptime pfds w = Ret 0 w1)
        /\ (ready_count ps1 = 0 -> 0 <= stoptime - now w1 ->
              match evs with
              | [] =>
                  wait_from evs g stoptime pfds w = Ret 0 (set_now stoptime w1)
              | PFail t e :: _ =>
                  wait_from evs g stoptime pfds w
                  = Ret (if bool_decide (e = EINTR) then 0 else -1)
                        (set_errno e (set_now t w1))
              | PReady t r :: rest =>
                  (reported (report r <$> pfds1) = 0%nat ->
                     wait_from evs g stoptime pfds w = Ret 0 (set_now t w1))
                  /\ (reported (report r <$> pfds1) <> 0%nat ->
                        wait_from evs g stoptime pfds w
                        = wait_from rest g stoptime (report r <$> pfds1)
                                    (set_now t w1))
              end))
  /\ (forall ps, polls w !! g = Some ps ->
        mq_poll_wait evs g stoptime w
        = wait_from evs g stoptime (replicate (size (members ps)) (Pollfd 0 0 0)) w)
  /\ (forall v w', wait_from evs g stoptime pfds w = Ret v w' ->
        (0 < v /\ exists ps, polls w' !! g = Some ps /\ v = ready_count ps)
        \/ v = 0
        \/ (v = -1 /\ errno w' ≠ EINTR))
  /\ (forall t, wf (set_now t w1)).
Proof.
  intros Hwf Hpass.
  pose proof (wait_from_after_pass evs g stoptime pfds w failed pfds1 w1 Hpass) as Hrun.
  destruct (member_pass_inv g pfds w failed pfds1 w1 Hpass) as (ps & Hps & Hpp).
  split; [|split; [|split; [|split; [|split]]]].
  - intros Hz. exact (poll_pass_quiet _ pfds w w1 failed pfds1 Hz Hpp).
  - intros ->. split.
    + rewrite Hrun. erewrite bind_Ret by reflexivity.
      erewrite bind_Ret by reflexivity.
      rewrite (bool_decide_eq_false_2 (-1 >= 0)) by lia.
      rewrite (bool_decide_eq_true_2 (-1 = -1)) by reflexivity. cbn [andb].
      destruct (bool_decide (errno w1 = EINTR)); reflexivity.
    + destruct (poll_pass_failed _ pfds w w1 pfds1 Hpp) as (k & r & w0 & Hk & Hh).
      destruct (handle_revents_failed r k w0 w1 Hh) as (mk & Hmk & Hst & Herr).
      pose proof (member_stays w g k ps Hwf Hps Hk) as Hstay.
      apply (fun H => stays_poll_pass k g _ pfds w (true, pfds1) w1 H Hpp) in Hstay.
      destruct Hstay as [_ Hpg]. destruct (Herr g (Hpg mk Hmk)) as (ps1 & Hps1 & Hin).
      exists k, mk, ps1. split; [exact Hmk|]. split; [exact Hst|].
      split; [exact Hps1|]. split; [exact Hin|exact (ready_count_error ps1 k Hin)].
  - intros -> ps1 Hps1. rewrite Hrun. clear Hrun.
    rewrite bind_assoc_pt. mstep. cbn zeta.
    split; [|split].
    + intros Hc. rewrite (bool_decide_eq_true_2 (ready_count ps1 > 0)) by lia.
      erewrite bind_Ret by reflexivity. erewrite bind_Ret by reflexivity.
      rewrite bool_decide_eq_true_2 by lia. reflexivity.
    + intros Hc Hdead. rewrite Hc.
      rewrite (bool_decide_eq_false_2 (0 > 0)) by lia.
      rewrite bind_assoc_pt. erewrite bind_Ret by reflexivity.
      rewrite (bool_decide_eq_true_2 (stoptime - now w1 < 0)) by exact Hdead.
      erewrite bind_Ret by reflexivity. erewrite bind_Ret by reflexivity.
      reflexivity.
    + intros Hc Hlive. rewrite Hc.
      rewrite (bool_decide_eq_false_2 (0 > 0)) by lia.
      rewrite bind_assoc_pt. erewrite bind_Ret by reflexivity.
      rewrite (bool_decide_eq_false_2 (stoptime - now w1 < 0)) by lia.
      rewrite bind_assoc_pt.
      destruct evs as [|[t r|t e] rest]; cbn [head].
      * erewrite bind_Ret by reflexivity.
        cbn beta iota. rewrite (bool_decide_eq_false_2 (0 > 0)) by lia.
        erewrite bind_Ret by reflexivity. erewrite bind_Ret by reflexivity.
        cbn. replace (now w1 + (stoptime - now w1)) with stoptime by lia.
        reflexivity.
      * unfold reported. split.
        -- intros Hn. erewrite bind_Ret by reflexivity. cbn beta iota.
           rewrite Hn. rewrite (bool_decide_eq_false_2 (Z.of_nat 0 > 0)) by lia.
           erewrite bind_Ret by reflexivity. erewrite bind_Ret by reflexivity.
           reflexivity.
        -- intros Hn. erewrite bind_Ret by reflexivity. cbn beta iota.
           rewrite bool_decide_eq_true_2 by lia. reflexivity.
      * erewrite bind_Ret by reflexivity.
        cbn beta iota. rewrite (bool_decide_eq_false_2 (-1 > 0)) by lia.
        erewrite bind_Ret by reflexivity. erewrite bind_Ret by reflexivity.
        rewrite (bool_decide_eq_false_2 (-1 >= 0)) by lia.
        rewrite (bool_decide_eq_true_2 (-1 = -1)) by reflexivity. cbn [andb].
        cbn [errno set_errno].
        destruct (bool_decide (e = EINTR)); reflexivity.
  - intros ps' Hps'. unfold mq_poll_wait, wait_from.
    erewrite bind_Ret by (apply get_poll_Ret; exact Hps'). reflexivity.
  - intros v w' H. clear Hrun. unfold wait_from in H.
    apply bind_inv in H as (rc & w2 & Hloop & H).
    apply poll_wait_loop_rc in Hloop.
    apply bind_inv in H as (e & w3 & He & H). injection He as <- <-.
    destruct Hloop as [[Hpos Hps2]|[->| ->]].
    + rewrite bool_decide_eq_true_2 in H by lia. injection H as <- <-.
      left. auto.
    + injection H as <- <-. right; left; reflexivity.
    + rewrite (bool_decide_eq_false_2 (-1 >= 0)) in H by lia.
      rewrite (bool_decide_eq_true_2 (-1 = -1)) in H by reflexivity. cbn [andb] in H.
      destruct (bool_decide (errno w2 = EINTR)) eqn:E; injection H as <- <-.
      * right; left; reflexivity.
      * right; right. split; [reflexivity|]. exact (bool_decide_eq_false_1 _ E).
  - intros t. apply (wf_same_heap w1); try reflexivity.
    exact (preserves_wf_poll_pass _ pfds w (failed, pfds1) w1 Hwf Hpp).
Qed.

Lemma woken_by_close_wf : wf Samples.woken_by_close.
Proof.
  split.
  - intros q m g Hq. cbn in Hq. apply lookup_singleton_Some in Hq as [<- <-].
    unfold is_member. cbn. split.
    + intros [= <-]. eexists. split; [reflexivity|]. eexists. reflexivity.
    + intros (ps & Hps & _). apply lookup_singleton_Some in Hps as [<- _]. reflexivity.
  - intros g ps q Hps Hq. cbn in Hps. apply lookup_singleton_Some in Hps as [<- <-].
    cbn in Hq. destruct Hq as [v Hv]. apply lookup_singleton_Some in Hv as [<- _].
    eexists. reflexivity.
  - intros q [m Hq]. cbn in Hq. apply lookup_singleton_Some in Hq as [<- _].
    reflexivity.
  - intros g [ps Hps]. cbn in Hps. apply lookup_singleton_Some in Hps as [<- _].
    reflexivity.
Qed.

Lemma poll_wait_result_witness :
  wait_from [] 10 10 [Pollfd 3 POLLIN POLLIN] Samples.woken_by_close
  = Ret (-1) Samples.peer_gone
  /\ exists k mk ps1,
       mqs Samples.peer_gone !! k = Some mk /\ state mk = MQ_SOCKET_ERROR
       /\ polls Samples.peer_gone !! 10%positive = Some ps1 /\ k ∈ error ps1
       /\ 0 < ready_count ps1.
Proof.
  destruct (poll_wait_result [] 10 10 [Pollfd 3 POLLIN POLLIN] Samples.woken_by_close
              Samples.peer_gone true [Pollfd 3 POLLIN POLLIN] woken_by_close_wf)
    as (_ & H & _); [vm_compute; reflexivity|].
  exact (H eq_refl).
Defined.

(** The claim C4 fails as it stands: when the peer of the only member
    closes the stream during the wait, the member enters ERROR and is in
    the error set, so that one endpoint is ready, but the wait returns
    -1, though nothing is wrong with the wait itself. *)
Lemma poll_wait_hides_dead_member :
  exists w' ps m',
    mq_poll_wait [Samples.all_readable 1] 10 10 (Samples.closed_by_peer 0)
    = Ret (-1) w'
    /\ polls w' !! 10%positive = Some ps /\ ready_count ps = 1
    /\ error ps = {[ 1%positive ]}
    /\ mqs w' !! 1%positive = Some m' /\ state m' = MQ_SOCKET_ERROR.
Proof.
  eexists. eexists. eexists. split; [vm_compute; reflexivity|].
  split; [vm_compute; reflexivity|]. split; [reflexivity|].
  split; [vm_compute; reflexivity|]. split; [vm_compute; reflexivity|].
  reflexivity.
Qed.
